(* ===== verification/_CoqProject ===== *)
-Q . S2P
Prelude.v
Memory.v
LibcString.v
StringProofs.v
Frames.v
Math.v
Bitmap.v
Physical.v
PhysicalProofs.v
Heap.v
HeapInv.v
HeapProofs.v
HeapTheorems.v
Machine.v
HeapClaims.v
PhysicalInit.v
SharedPtr.v
Handles.v
HandlesInv.v
HandlesClaims.v
UniquePtr.v
Vector.v
VectorProofs.v
VectorOps.v
VectorClaims.v
Paging.v
PagingProofs.v
PagingTheorems.v
PagingClaims.v
Mmu.v
PagingInit.v
BootMap.v
Tlb.v
Stdio.v
StdioFloat.v
Printf.v
StdioProofs.v
StdioFormat.v
StdioClaims.v
LibcStdlib.v
LibcStdlibClaims.v
Terminal.v
Interrupts.v
Stubs.v
Cpu.v
Memmap.v
MemmapClaims.v
SystemClaims.v
Kernel.v
Boot.v
