(* ===== verification/Prelude.v ===== *)
(** * Ice kernel: verification library

    A model of the kernel under src/kernel as executable Rocq functions over a
    byte-addressed memory, and the theorems that say what it does.  Paths below
    are relative to src/kernel.

    ** The program and its model

    [kernel.cpp:_start] brings the parts up in a fixed order: descriptor tables
    and interrupt controller, physical memory, heap, page tables; each reports
    through the log, which prints through printf to the terminal of the boot
    loader.  The heap takes pages from the physical memory manager, the page
    tables take tables from the heap, and address spaces ([memmap.cpp]) sit on the
    page tables.  All of them keep their data in the one memory of the model, so a
    wrong write of one part is visible to the others.

    - [Prelude]: the [outcome] of running code (a value, a fault at an unmapped
      address, undefined behaviour, a panic, or no fuel), machine integers as [Z]
      with their wrap-around, loops and their rules.  [Memory]: the memory, little-
      endian access, writes as [write_bytes].
    - [LibcString], [StringProofs]: libs/libc/string.cpp.
    - [LibcStdlib], [LibcStdlibClaims]: libs/libc/ctype.cpp and stdlib.cpp.
    - [Stdio], [StdioFloat], [Printf]: libs/libc/stdio.cpp (output and integers;
      floating point; format strings).  [StdioProofs], [StdioFormat],
      [StdioClaims]: its theorems.
    - [Math], [Bitmap]: utils/math.hpp, utils/bitmap.cpp.
    - [Physical], [PhysicalProofs], [PhysicalInit]: memory/physical.cpp.  Its global
      variables are the record [phys].
    - [Frames]: what the page manager promises its clients, as the classes [Frames]
      (operations) and [FrameLaws] (contract), and what a computation has spent of a
      run of pages ([spent]).  [PhysicalProofs.phys_frame_laws] is
      the instance; heap and page tables are proved for any instance.
    - [Heap]: memory/memory.cpp; the [slab_t] objects and free lists are words in
      memory.  [HeapInv], [HeapProofs], [HeapTheorems], [HeapClaims]: its theorems;
      [Machine] holds the small machines of the witnesses.
    - [Paging]: arch/x86_64/memory/virtual.cpp, include/memory/virtual.hpp,
      memory/virtual.cpp.  [PagingProofs], [PagingTheorems], [PagingClaims]: its
      theorems.  [Mmu]: a reference definition of the processor's page walk;
      [PagingInit], [BootMap]: what [paging::init] sets up, as that walk sees it.
      [Tlb]: the translation buffer of the processor as a step relation in which its
      steps and the operations of the kernel interleave.
    - [SharedPtr]: the control block of shared_ptr and weak_ptr in
      include/libs/libc++/memory, as a step relation of interleaved operations.
      [Handles]: the two classes as objects of one thread, with the destructors that
      run when counts reach zero; [HandlesInv], [HandlesClaims]: its theorems.
      [UniquePtr]: unique_ptr of the same header.
    - [Vector], [VectorProofs], [VectorOps], [VectorClaims]: the vectors of
      include/libs/libc++ and the reverse iterator, a client of the heap.
    - [Memmap], [MemmapClaims]: memory/memmap.cpp; the objects that refer to each
      other live in a store and refer by number.
    - [Terminal]: drivers/graphics/terminal.cpp, sys/logger.cpp, sys/panic.cpp.
      [Interrupts]: gdt.cpp, idt.cpp and pic.cpp of arch/x86_64.  [Stubs]: idt.asm,
      as lists of instructions over a small machine, with a reference definition of
      how the processor delivers an interrupt.  [SystemClaims]: the theorems on the
      C++ files of this group.  The devices are the class [Hardware].  [Cpu]: cpu.cpp, the
      registers of the CPU and the loading of the tables; what [cpuid] answers is the
      class [Cpuid].
    - [Kernel]: kernel.cpp, the composition of the above.  [Boot]: its theorem.

    ** What is proved

    - The whole boot ([boot_correct]): from the boot loader's responses to the halted
      CPU that waits for interrupts, with what the terminal has received, the gates
      and segments, the heap, and the translation of every address by the processor's
      walk.  It holds for memory maps whose usable memory lies below 8 MiB, where the
      page manager is right.  [paging_init_maps] is its part on the page tables.  Both
      are total: the only other outcome is a panic, and only when memory is short
      ([memory_enough], [boot_pages]).
    - Memory: [FrameLaws] says when the page manager has a run of [n] free pages
      ([frames_run]) and what an allocation takes from it.  From there on every theorem
      with a panic among its outcomes says which memory was missing: [no_memory] for
      the heap and the vectors, six pages for a walk of the page tables, eight for the
      512 pages of a GiB, two for an address space, and for the boot an entry of the
      memory map with the pages of the bitmap, the slabs and of what the page tables take
      ([boot_pages]: two pages for each table, and one for the object).  [FrameLaws] also
      says that released pages can be had again, so that [free_correct] can say what
      memory is available after [free]: the cell is at the head of the free list of its
      class, or the pages are back with the page manager ([released]).
    - Refinement: every legal request to the heap acts as a finite map from
      pointers to byte sequences ([heap_refines]); [map], [unmap], [set_flags] and
      [virtual_to_physical] on 4 KiB pages implement a function from paths to
      entries ([paging_refines]); a vector implements a list ([vector_refines]).
    - Invariants: [physical_init_correct] shows that [init] establishes the
      invariants of the page manager ([pmm_inv]) and of the heap ([heap_inv]) from
      the boot loader's memory map; the other theorems on both show that every
      operation keeps them, that allocations are fresh, zeroed and disjoint, and
      that releases undo them ([physical_alloc_correct], [pmm_trace_safety],
      [physical_free_alloc_roundtrip], [malloc_correct], [free_correct]).
    - Concurrency: the protocol of shared and weak pointers under every interleaving
      of the atomic steps ([shared_ptr_safe], [shared_ptr_ends]).
    - Ownership: what the counters promise to the pointer objects of one thread, with
      members of managed objects that are destroyed in their turn ([handles_safe]);
      [assign_reads_destroyed] is the case [handles_safe] has to exclude.
    - Interrupts: the stub of each vector hands [interrupt_handler] the state of the
      interrupted code and leaves no trace in it ([interrupt_transparent]); what is in
      service at the two controllers afterwards ([interrupt_acknowledge], with a reference
      definition of what an end of interrupt does).
    - Address spaces: translations and rights ([map_translates], [rights_exact],
      [pagemap_new_shares], [map_huge_splits]).
    - The translation buffer: from boot on ([boot_cpu_inv]) the processor translates as
      the tables say ([tlb_transparent]), but for the uses that leave it stale
      ([no_flush_stale]).
    - Text: each string routine against a reference on lists, with termination;
      printf against [render], a definition of what a format denotes
      ([printf_renders]), what [vsnprintf] leaves in a buffer, for formats of pieces
      exactly and for every other as a bound of its writes ([vsnprintf_bounded]), the
      line of the log, and [atoi] as the inverse of printing.
    - Behaviour that differs from the evident intent is proved as it is, for
      instance [alloc_beyond_2048], [realloc_same_pages], [unmap_large_corrupts],
      [vector_copy_overruns], [weak_convert_dangles], [fork_unmaps_parent],
      [destructor_hangs], [idt_gate_offset], [interrupt_acknowledge],
      [insert_range_front_hangs] and [unique_self_move_leaks].

    ** Bounds and fuel

    The invariant [pmm_inv] bounds the pages by 2048 because [bitmap_t::get] sees no
    more bits; [alloc_beyond_2048] is the reason, and every theorem on the page manager
    and the boot has that bound of 8 MiB.  The theorems on entries of the page tables are
    on pages of 4 KiB unless they say otherwise; [set_flags] on larger pages keeps a
    caching bit with the address.  The theorem on integers ([print_integer_correct]) has
    the bounds of the buffer of 32 characters.  [memmap_ok] bounds the memory by
    2 GiB, where [bitmap_t::set] ends.  Counting loops are structural.  The search of
    the page manager has one round per page and one more, and [inner_alloc_spec]
    shows that it ends.  Loops that scan memory get [scan_fuel], one more than the
    number of mapped bytes, which [scan_terminates] shows to be enough, since a scan
    that leaves the mapped bytes faults.  The loops over a format take fuel as an
    argument; the theorems on printf state how much is enough and give the result.
    Two loops never end: that of the destructor of an address space
    ([destructor_hangs]) and that of an insertion of an empty range at the front of a vector
    ([insert_range_front_hangs]); in both cases the theorem holds for every fuel.  The
    fuel of [Handles.release] bounds the depth to which objects destroy each other, and
    there are no more levels than objects: [handles_safe] shows it to be enough.  The
    instructions of a stub are run in order.  No theorem holds because fuel runs out.

    ** Not modelled

    - Port access is a parameter ([Hardware]), and so is what the compiled
      [interrupt_handler] leaves in registers and stack ([Compiled]).  The translation
      buffer of [Tlb] keeps pages of 4 KiB and is not asked about loads of cr3 after
      boot.
    - limine.h, the boot loader's protocol: vendored; what the kernel reads from the
      responses are arguments ([boot_info]), the terminal's [write] is in [Hardware].
    - The templates of libs/libc++ beside vector, the reverse iterator and memory.
      [Vector] has elements of eight
      bytes; the vectors of shared pointers in memmap.cpp are lists of numbers in
      [Memmap], and the heap blocks of its objects and their release are not part of
      it.  The object [paging::init] allocates is a block of the heap, but its fields are
      the record [pagemap], not bytes of the block.
    - The lines the memory parts write to the log between their steps; the address of
      a string literal is the parameter [lit].
    - Concurrency beside that of [SharedPtr]: the kernel runs on one CPU and has no
      locks; the model runs each operation without an interrupt in between. *)

From stdpp Require Export base numbers list gmap fin_maps.
From Stdlib Require Export ZArith Lia Bool.

#[global] Open Scope Z_scope.

(** ** Results of running kernel code *)

(** How a piece of kernel code ends: it returns a value, it touches an address
    that is not mapped, it does something C++ leaves undefined, it enters
    [panic::panic], or the fuel given to a loop ran out.  The last constructor
    is an artefact of the model; the termination theorems rule it out. *)
Inductive outcome (A : Type) : Type :=
| Ok (a : A)
| Fault (addr : Z)
| Undef
| Panic
| NoFuel.
Arguments Ok {A} a.
Arguments Fault {A} addr.
Arguments Undef {A}.
Arguments Panic {A}.
Arguments NoFuel {A}.

#[export] Instance outcome_eq_dec {A} `{EqDecision A} : EqDecision (outcome A).
Proof. solve_decision. Defined.

#[export] Instance outcome_ret : MRet outcome := fun A a => Ok a.
#[export] Instance outcome_bind : MBind outcome := fun A B k c =>
  match c with
  | Ok a => k a
  | Fault p => Fault p
  | Undef => Undef
  | Panic => Panic
  | NoFuel => NoFuel
  end.

(** The computation does not run out of fuel. *)
Definition terminates {A} (c : outcome A) : Prop := c <> NoFuel.

Section Outcome.
Context {A B C : Type}.

Lemma bind_Ok (a : A) (k : A -> outcome B) : (Ok a ≫= k) = k a.
Proof. done. Qed.

Lemma bind_inv (c : outcome A) (k : A -> outcome B) b :
  (c ≫= k) = Ok b -> exists a, c = Ok a /\ k a = Ok b.
Proof. destruct c; simpl; try done. eauto. Qed.

Lemma bind_assoc (c : outcome A) (f : A -> outcome B) (g : B -> outcome C) :
  ((c ≫= f) ≫= g) = (c ≫= (fun a => f a ≫= g)).
Proof. by destruct c. Qed.

Lemma bind_terminates (c : outcome A) (k : A -> outcome B) :
  terminates c -> (forall a, c = Ok a -> terminates (k a)) -> terminates (c ≫= k).
Proof. destruct c; unfold terminates; simpl; eauto. Qed.
End Outcome.

(** ** Machine integers *)

(** Unsigned and two's complement views of a [w]-bit value. *)
Definition wrap (w z : Z) : Z := z mod 2 ^ w.
Definition swrap (w z : Z) : Z := (z + 2 ^ (w - 1)) mod 2 ^ w - 2 ^ (w - 1).

Abbreviation u8 := (wrap 8).
Abbreviation u16 := (wrap 16).
Abbreviation u32 := (wrap 32).
Abbreviation u64 := (wrap 64).
Abbreviation s8 := (swrap 8).
Abbreviation s16 := (swrap 16).
Abbreviation s32 := (swrap 32).
Abbreviation s64 := (swrap 64).

(** [SIZE_MAX + 1], the size of the address space. *)
Abbreviation W64 := 18446744073709551616.

Section Wrap.
Lemma wrap_small w z : 0 <= z < 2 ^ w -> wrap w z = z.
Proof. unfold wrap. apply Z.mod_small. Qed.

Lemma wrap_range w z : 0 <= w -> 0 <= wrap w z < 2 ^ w.
Proof. intros. unfold wrap. apply Z.mod_pos_bound. lia. Qed.

Lemma swrap_small w z : 0 < w -> - 2 ^ (w - 1) <= z < 2 ^ (w - 1) -> swrap w z = z.
Proof.
  intros Hw Hz. unfold swrap.
  assert (2 ^ w = 2 * 2 ^ (w - 1)).
  { rewrite <- Z.pow_succ_r by lia. f_equal. lia. }
  rewrite Z.mod_small; lia.
Qed.

Lemma swrap_range w z : 0 < w -> - 2 ^ (w - 1) <= swrap w z < 2 ^ (w - 1).
Proof.
  intros Hw. unfold swrap.
  assert (2 ^ w = 2 * 2 ^ (w - 1)).
  { rewrite <- Z.pow_succ_r by lia. f_equal. lia. }
  pose proof (Z.mod_pos_bound (z + 2 ^ (w - 1)) (2 ^ w)). lia.
Qed.

Lemma u64_small z : 0 <= z < W64 -> u64 z = z.
Proof. apply (wrap_small 64). Qed.

Lemma u64_range z : 0 <= u64 z < W64.
Proof. apply (wrap_range 64). lia. Qed.

Lemma u8_range z : 0 <= u8 z < 256.
Proof. apply (wrap_range 8). lia. Qed.

Lemma u8_small z : 0 <= z < 256 -> u8 z = z.
Proof. apply (wrap_small 8). Qed.

Lemma s32_small z : - 2147483648 <= z < 2147483648 -> s32 z = z.
Proof. apply (swrap_small 32). lia. Qed.

Lemma u64_add_idemp a b : u64 (u64 a + b) = u64 (a + b).
Proof. unfold wrap. by rewrite Zplus_mod_idemp_l. Qed.

Lemma u64_add_idemp_r a b : u64 (a + u64 b) = u64 (a + b).
Proof. unfold wrap. by rewrite Zplus_mod_idemp_r. Qed.
End Wrap.

(** ** Loops *)

(** A [while] loop: the body either goes on with a new state or leaves the loop
    with a result ([break] or [return]). *)
Fixpoint loop {S R : Type} (body : S -> outcome (S + R)) (fuel : nat) (s : S) : outcome R :=
  match fuel with
  | O => NoFuel
  | Datatypes.S fuel' =>
      r ← body s;
      match r with
      | inl s' => loop body fuel' s'
      | inr r => Ok r
      end
  end.

(** [n] rounds of a counting loop whose index starts at [i] and grows by
    [step]. *)
Fixpoint for_steps {S : Type} (step : Z) (body : Z -> S -> outcome S)
    (n : nat) (i : Z) (s : S) : outcome S :=
  match n with
  | O => Ok s
  | Datatypes.S n' => s' ← body i s; for_steps step body n' (i + step) s'
  end.

(** [for (i = lo; i < hi; i++)]. *)
Definition for_range {S : Type} (lo hi : Z) (body : Z -> S -> outcome S) (s : S) : outcome S :=
  for_steps 1 body (Z.to_nat (hi - lo)) lo s.

Section Loops.
Context {S R : Type}.

Lemma loop_step (body : S -> outcome (S + R)) n s :
  loop body (Datatypes.S n) s =
  (r ← body s; match r with inl s' => loop body n s' | inr r => Ok r end).
Proof. done. Qed.

(** Total correctness of a loop: an invariant indexed by the number of rounds
    that are left. *)
Lemma loop_total (body : S -> outcome (S + R)) (I : nat -> S -> Prop) (Q : R -> Prop) :
  (forall n s, I n s ->
     (exists s' n', body s = Ok (inl s') /\ (n' < n)%nat /\ I n' s') \/
     (exists r, body s = Ok (inr r) /\ Q r)) ->
  forall n s fuel, I n s -> (n < fuel)%nat ->
    exists r, loop body fuel s = Ok r /\ Q r.
Proof.
  intros Hstep n s fuel. revert n s.
  induction fuel as [|fuel IH]; intros n s HI Hn; [lia|].
  simpl. destruct (Hstep n s HI) as [(s' & n' & -> & Hlt & HI')|(r & -> & HQ)]; simpl.
  - apply (IH n'); [done|lia].
  - eauto.
Qed.

(** More fuel does not change a result that is already there. *)
Lemma loop_mono (body : S -> outcome (S + R)) n m s :
  (n <= m)%nat -> terminates (loop body n s) -> loop body m s = loop body n s.
Proof.
  revert m s. induction n as [|n IH]; intros m s Hle Ht; [done|].
  destruct m as [|m]; [lia|]. simpl in *.
  destruct (body s) as [[s'|r]| | | |]; simpl in *; try done.
  apply IH; [lia|done].
Qed.

(** Partial correctness of a loop: a property every round keeps. *)
Lemma loop_keeps (body : S -> outcome (S + R)) (I : S -> Prop) (Q : R -> Prop) :
  (forall s s', I s -> body s = Ok (inl s') -> I s') ->
  (forall s r, I s -> body s = Ok (inr r) -> Q r) ->
  forall fuel s r, I s -> loop body fuel s = Ok r -> Q r.
Proof.
  intros Hl Hr. induction fuel as [|fuel IH]; intros s r HI E; [done|]. rewrite loop_step in E.
  apply bind_inv in E as ([s'|r'] & Eb & E).
  - apply (IH s' r); [by apply (Hl s)|done].
  - injection E as <-. by apply (Hr s).
Qed.

Lemma for_range_nil lo hi (body : Z -> S -> outcome S) s :
  hi <= lo -> for_range lo hi body s = Ok s.
Proof. intros. unfold for_range. by replace (Z.to_nat (hi - lo)) with O by lia. Qed.

Lemma for_range_step lo hi (body : Z -> S -> outcome S) s :
  lo < hi ->
  for_range lo hi body s = (s' ← body lo s; for_range (lo + 1) hi body s').
Proof.
  intros. unfold for_range.
  by replace (Z.to_nat (hi - lo)) with (Datatypes.S (Z.to_nat (hi - (lo + 1)))) by lia.
Qed.

Lemma for_range_snoc lo hi (body : Z -> S -> outcome S) s :
  lo <= hi ->
  for_range lo (hi + 1) body s = (s' ← for_range lo hi body s; body hi s').
Proof.
  intros Hle. unfold for_range.
  replace (Z.to_nat (hi + 1 - lo)) with (Datatypes.S (Z.to_nat (hi - lo))) by lia.
  remember (Z.to_nat (hi - lo)) as n eqn:Hn.
  assert (hi = lo + Z.of_nat n) as -> by lia. clear Hn Hle.
  revert lo s. induction n as [|n IH]; intros lo s.
  - simpl. rewrite Z.add_0_r. by destruct (body lo s).
  - cbn [for_steps] in *. destruct (body lo s) as [s'| | | |]; simpl; try done.
    replace (lo + Z.of_nat (Datatypes.S n)) with (lo + 1 + Z.of_nat n) by lia.
    apply IH.
Qed.

Lemma for_range_ext lo hi (body body' : Z -> S -> outcome S) s :
  (forall i s, lo <= i < hi -> body i s = body' i s) ->
  for_range lo hi body s = for_range lo hi body' s.
Proof.
  unfold for_range. intros H.
  assert (forall n i s, lo <= i -> i + Z.of_nat n <= Z.max lo hi ->
            for_steps 1 body n i s = for_steps 1 body' n i s) as E.
  { induction n as [|n IH]; intros i t Hlo Hn; [done|]. cbn [for_steps].
    rewrite H by lia. destruct (body' i t); simpl; [|done..]. apply IH; lia. }
  apply E; lia.
Qed.

(** Counting loops with other indices. *)
Lemma for_steps_shift (step step' : Z) (f g : Z -> S -> outcome S) n i j s :
  (forall k s, 0 <= k < Z.of_nat n -> f (i + k * step) s = g (j + k * step') s) ->
  for_steps step f n i s = for_steps step' g n j s.
Proof.
  revert i j s. induction n as [|n IH]; intros i j s H; [done|]. cbn [for_steps].
  pose proof (H 0 s) as H0. rewrite !Z.mul_0_l, !Z.add_0_r in H0. rewrite H0 by lia.
  destruct (g j s) as [s'| | | |]; [|done..]. cbn [mbind outcome_bind]. apply IH. intros k t Hk.
  replace (i + step + k * step) with (i + (k + 1) * step) by lia.
  replace (j + step' + k * step') with (j + (k + 1) * step') by lia. apply H. lia.
Qed.

Lemma for_range_shift lo hi (body body' : Z -> S -> outcome S) s :
  (forall k s, 0 <= k < hi - lo -> body (lo + k) s = body' k s) ->
  for_range lo hi body s = for_range 0 (hi - lo) body' s.
Proof.
  intros H. unfold for_range. rewrite Z.sub_0_r. apply for_steps_shift.
  intros k t Hk. rewrite !Z.mul_1_r, Z.add_0_l. apply H. lia.
Qed.

(** The invariant rule for counting loops. *)
Lemma for_range_inv lo hi (body : Z -> S -> outcome S) (I : Z -> S -> Prop) s :
  lo <= hi ->
  I lo s ->
  (forall i s, lo <= i < hi -> I i s -> exists s', body i s = Ok s' /\ I (i + 1) s') ->
  exists s', for_range lo hi body s = Ok s' /\ I hi s'.
Proof.
  intros Hle H0 Hstep. unfold for_range.
  remember (Z.to_nat (hi - lo)) as n eqn:Hn.
  assert (hi = lo + Z.of_nat n) as Ehi by lia. clear Hn Hle.
  revert lo s H0 Hstep Ehi. induction n as [|n IH]; intros lo s H0 Hstep ->.
  - simpl. exists s. rewrite Z.add_0_r. done.
  - cbn [for_steps]. destruct (Hstep lo s) as (s' & -> & H1); [lia|done|].
    rewrite bind_Ok.
    destruct (IH (lo + 1) s') as (s'' & E & H2); [done| |lia|].
    + intros i t Hi. apply Hstep. lia.
    + by exists s''.
Qed.
End Loops.

#[global] Arguments loop : simpl never.
#[global] Arguments for_range : simpl never.

(** ** Lists indexed by machine integers *)

Section ListLemmas.
Context {A : Type}.

Lemma lookup_nat_cons (x : A) l i :
  0 < i -> (x :: l) !! Z.to_nat i = l !! Z.to_nat (i - 1).
Proof. intros. by replace (Z.to_nat i) with (S (Z.to_nat (i - 1))) by lia. Qed.

Lemma lookup_Z_lt_Some (l : list A) i x :
  0 <= i -> l !! Z.to_nat i = Some x -> i < Z.of_nat (length l).
Proof. intros ? H%lookup_lt_Some. lia. Qed.

Lemma lookup_Z_is_Some (l : list A) i :
  0 <= i < Z.of_nat (length l) -> is_Some (l !! Z.to_nat i).
Proof. intros. apply lookup_lt_is_Some. lia. Qed.

Lemma rev_lookup_Z (l : list A) i :
  0 <= i < Z.of_nat (length l) ->
  l !! Z.to_nat (Z.of_nat (length l) - 1 - i) = reverse l !! Z.to_nat i.
Proof. intros Hi. rewrite reverse_lookup by lia. f_equal. lia. Qed.

Lemma lookup_Z_None (l : list A) i :
  Z.of_nat (length l) <= i -> l !! Z.to_nat i = None.
Proof. intros. apply lookup_ge_None. lia. Qed.
End ListLemmas.

(** ** Sizes of finite sets and maps *)

Section SizeLemmas.
Context {A : Type} `{Countable A}.

Lemma size_list_to_set_le (l : list A) : (size (list_to_set l : gset A) <= length l)%nat.
Proof.
  induction l as [|x l IH]; cbn [list_to_set]; [by rewrite size_empty|]. rewrite size_union_alt, size_singleton.
  pose proof (subseteq_size ((list_to_set l : gset A) ∖ {[x]}) (list_to_set l)) as Hs. simpl.
  assert ((list_to_set l : gset A) ∖ {[x]} ⊆ list_to_set l) by set_solver. specialize (Hs ltac:(done)). lia.
Qed.

(** Keys within [X] do not fill it while one of [X] is missing. *)
Lemma size_missing {B : Type} (m : gmap A B) (X : gset A) k : (forall q, is_Some (m !! q) -> q ∈ X) ->
  k ∈ X -> m !! k = None -> (size m + 1 <= size X)%nat.
Proof.
  intros Hsub Hk Hn. rewrite <- (size_dom m). assert (k ∉ dom m) as Hd by (by apply not_elem_of_dom).
  assert (size ({[k]} ∪ dom m : gset A) = 1 + size (dom m))%nat as E.
  { rewrite size_union by set_solver. by rewrite size_singleton. }
  pose proof (subseteq_size ({[k]} ∪ dom m : gset A) X) as Hle. rewrite E in Hle.
  assert ({[k]} ∪ dom m ⊆ X); [|specialize (Hle ltac:(done)); lia].
  intros q [->%elem_of_singleton|Hq%elem_of_dom]%elem_of_union; [done|by apply Hsub].
Qed.
End SizeLemmas.

(** ** Automation *)

Create HintDb ice discriminated.
#[export] Hint Resolve u64_range u8_range : ice.

(** Decompose hypotheses of the form [c ≫= k = Ok b]. *)
Ltac inv_bind :=
  repeat match goal with
  | H : Ok _ = Ok _ |- _ => injection H as H; subst
  | H : (_ ≫= _) = Ok _ |- _ =>
      let E := fresh "E" in apply bind_inv in H as (? & E & H); simpl in H
  end.

(** Reduce binds whose first part is known, and nothing else. *)
Ltac bind_simpl := cbn [mbind outcome_bind].

(** Case analysis on the integer comparison the goal depends on. *)
Ltac zcases :=
  repeat match goal with
  | |- context [Z.eqb ?a ?b] => destruct (Z.eqb_spec a b)
  | |- context [Z.ltb ?a ?b] => destruct (Z.ltb_spec a b)
  | |- context [Z.leb ?a ?b] => destruct (Z.leb_spec a b)
  end.

(** Arithmetic with the machine-width constants. *)
Ltac zlia := unfold wrap, swrap in *; lia.
