(* ===== verification/Memory.v ===== *)
(** * Byte-addressed memory

    The memory the kernel runs in: a finite map from 64-bit addresses to bytes.
    Addresses outside the map are not mapped; touching one is a [Fault].
    Multi-byte accesses are little-endian, as on x86_64.  Every write of the
    program is described by the pure function [write_bytes], so that theorems
    about different routines compose by rewriting. *)

From S2P Require Import Prelude.

Abbreviation mem := (gmap Z Z).

(** Addresses fit in 64 bits and cells hold bytes. *)
Definition mem_wf (m : mem) : Prop :=
  forall a v, m !! a = Some v -> 0 <= a < W64 /\ 0 <= v < 256.

(** [p[i]] for a byte pointer [p]: pointer arithmetic wraps at 2^64. *)
Definition idx (p i : Z) : Z := u64 (p + i).

Definition load8 (m : mem) (a : Z) : outcome Z :=
  match m !! a with Some v => Ok v | None => Fault a end.

Definition store8 (m : mem) (a v : Z) : outcome mem :=
  match m !! a with Some _ => Ok (<[a := u8 v]> m) | None => Fault a end.

(** An [n]-byte little-endian access. *)
Fixpoint load_le (n : nat) (m : mem) (a : Z) : outcome Z :=
  match n with
  | O => Ok 0
  | S n' => b ← load8 m a; r ← load_le n' m (a + 1); Ok (b + 256 * r)
  end.

Fixpoint store_le (n : nat) (m : mem) (a v : Z) : outcome mem :=
  match n with
  | O => Ok m
  | S n' => m' ← store8 m a v; store_le n' m' (a + 1) (v / 256)
  end.

Definition load64 : mem -> Z -> outcome Z := load_le 8.
Definition store64 : mem -> Z -> Z -> outcome mem := store_le 8.

(** The bytes of an [n]-byte integer. *)
Fixpoint le_bytes (n : nat) (v : Z) : list Z :=
  match n with
  | O => []
  | S n' => u8 v :: le_bytes n' (v / 256)
  end.

Fixpoint of_le_bytes (l : list Z) : Z :=
  match l with
  | [] => 0
  | b :: l' => b + 256 * of_le_bytes l'
  end.

(** ** Predicates on memory *)

(** [n] bytes starting at [p] are mapped. *)
Definition valid (m : mem) (p n : Z) : Prop :=
  forall i, 0 <= i < n -> is_Some (m !! (p + i)).

(** The bytes [l] are stored at [p]. *)
Definition bytes_at (m : mem) (p : Z) (l : list Z) : Prop :=
  forall i, 0 <= i < Z.of_nat (length l) -> m !! (p + i) = l !! Z.to_nat i.

(** [p] points to the NUL-terminated string [s]. *)
Definition cstr (m : mem) (p : Z) (s : list Z) : Prop :=
  bytes_at m p (s ++ [0]) /\ Forall (fun c => c <> 0) s.

(** The [n] addresses from [p] and the [k] addresses from [q] do not meet. *)
Definition disjoint_ranges (p n q k : Z) : Prop := p + n <= q \/ q + k <= p.

Definition in_range (p n a : Z) : Prop := p <= a < p + n.

#[export] Instance in_range_dec p n a : Decision (in_range p n a).
Proof. unfold in_range. apply _. Defined.

(** [m'] differs from [m] at most on the [n] bytes at [p]. *)
Definition same_outside (m m' : mem) (p n : Z) : Prop :=
  forall a, ~ in_range p n a -> m' !! a = m !! a.

Definition same_dom (m m' : mem) : Prop :=
  forall a, is_Some (m' !! a) <-> is_Some (m !! a).

(** ** The pure effect of a write *)

Fixpoint write_bytes (m : mem) (p : Z) (l : list Z) : mem :=
  match l with
  | [] => m
  | b :: l' => write_bytes (<[p := b]> m) (p + 1) l'
  end.

Section WriteBytes.
Lemma lookup_write_bytes m p l a :
  write_bytes m p l !! a =
  if decide (in_range p (Z.of_nat (length l)) a) then l !! Z.to_nat (a - p) else m !! a.
Proof.
  revert m p. induction l as [|b l IH]; intros m p; simpl.
  - by rewrite decide_False by (unfold in_range; lia).
  - rewrite IH. unfold in_range.
    destruct (decide (p + 1 <= a < p + 1 + Z.of_nat (length l))).
    + rewrite decide_True by lia. rewrite lookup_nat_cons by lia. f_equal. lia.
    + destruct (decide (a = p)) as [->|].
      * rewrite decide_True by lia. rewrite lookup_insert_eq.
        by replace (Z.to_nat (p - p)) with O by lia.
      * rewrite decide_False by lia. by rewrite lookup_insert_ne.
Qed.

Lemma lookup_write_bytes_in m p l a :
  in_range p (Z.of_nat (length l)) a ->
  write_bytes m p l !! a = l !! Z.to_nat (a - p).
Proof. intros. rewrite lookup_write_bytes. by rewrite decide_True. Qed.

Lemma lookup_write_bytes_out m p l a :
  ~ in_range p (Z.of_nat (length l)) a -> write_bytes m p l !! a = m !! a.
Proof. intros. rewrite lookup_write_bytes. by rewrite decide_False. Qed.

Lemma write_bytes_snoc m p l b :
  write_bytes m p (l ++ [b]) = <[p + Z.of_nat (length l) := b]> (write_bytes m p l).
Proof.
  apply map_eq. intros a. rewrite lookup_write_bytes, length_app. simpl.
  unfold in_range.
  destruct (decide (a = p + Z.of_nat (length l))) as [->|Hne].
  - rewrite decide_True by lia. rewrite lookup_insert_eq.
    rewrite lookup_app_r by lia.
    by replace (Z.to_nat (p + Z.of_nat (length l) - p) - length l)%nat with O by lia.
  - rewrite lookup_insert_ne by congruence. rewrite lookup_write_bytes. unfold in_range.
    destruct (decide (p <= a < p + Z.of_nat (length l))).
    + rewrite decide_True by lia. apply lookup_app_l. lia.
    + by rewrite decide_False by lia.
Qed.

Lemma write_bytes_app m p l1 l2 :
  write_bytes m p (l1 ++ l2) =
  write_bytes (write_bytes m p l1) (p + Z.of_nat (length l1)) l2.
Proof.
  revert m p. induction l1 as [|b l1 IH]; intros m p; simpl.
  - by rewrite Z.add_0_r.
  - rewrite IH. f_equal. lia.
Qed.

Lemma write_bytes_same_outside m p l :
  same_outside m (write_bytes m p l) p (Z.of_nat (length l)).
Proof. intros a Ha. by apply lookup_write_bytes_out. Qed.

Lemma write_bytes_same_dom m p l :
  valid m p (Z.of_nat (length l)) -> same_dom m (write_bytes m p l).
Proof.
  intros Hv a. rewrite lookup_write_bytes.
  destruct (decide _) as [Hin|]; [|done]. unfold in_range in Hin. split; intros _.
  - destruct (Hv (a - p)) as [v Hv']; [lia|].
    exists v. rewrite <- Hv'. f_equal. lia.
  - apply lookup_Z_is_Some. lia.
Qed.

Lemma write_bytes_bytes_at m p l : bytes_at (write_bytes m p l) p l.
Proof.
  intros i Hi. rewrite lookup_write_bytes_in by (unfold in_range; lia).
  f_equal. lia.
Qed.

(** A memory that holds [l] at [p] and is unchanged elsewhere. *)
Lemma write_bytes_unique m m' p l :
  same_outside m m' p (Z.of_nat (length l)) -> bytes_at m' p l -> m' = write_bytes m p l.
Proof.
  intros Ho Hb. apply map_eq. intros a. rewrite lookup_write_bytes.
  destruct (decide _) as [Hin|Hin]; [|by apply Ho]. unfold in_range in Hin.
  rewrite <- Hb by lia. f_equal. lia.
Qed.

Lemma write_bytes_wf m p l :
  mem_wf m -> valid m p (Z.of_nat (length l)) -> Forall (fun b => 0 <= b < 256) l ->
  mem_wf (write_bytes m p l).
Proof.
  intros Hm Hv Hl a v. rewrite lookup_write_bytes.
  destruct (decide _) as [Hin|]; [|apply Hm]. intros Hlook. split.
  - destruct (Hv (a - p)) as [w Hw]; [unfold in_range in Hin; lia|].
    replace (p + (a - p)) with a in Hw by lia. by apply Hm in Hw as [? _].
  - exact (Forall_lookup_1 _ _ _ _ Hl Hlook).
Qed.
End WriteBytes.

(** ** Transport of the predicates *)

Section Predicates.
Lemma bytes_at_app m p l1 l2 :
  bytes_at m p (l1 ++ l2) <->
  bytes_at m p l1 /\ bytes_at m (p + Z.of_nat (length l1)) l2.
Proof.
  unfold bytes_at. rewrite length_app. split.
  - intros H. split; intros i Hi.
    + rewrite H by lia. apply lookup_app_l. lia.
    + rewrite <- Z.add_assoc, H by lia. rewrite lookup_app_r by lia. f_equal. lia.
  - intros [H1 H2] i Hi. destruct (decide (i < Z.of_nat (length l1))).
    + rewrite H1 by lia. rewrite lookup_app_l by lia. done.
    + rewrite lookup_app_r by lia.
      specialize (H2 (i - Z.of_nat (length l1))).
      replace (p + Z.of_nat (length l1) + (i - Z.of_nat (length l1))) with (p + i) in H2 by lia.
      rewrite H2 by lia. f_equal. lia.
Qed.

Lemma bytes_at_cons m p b l :
  bytes_at m p (b :: l) <-> m !! p = Some b /\ bytes_at m (p + 1) l.
Proof.
  change (b :: l) with ([b] ++ l). rewrite bytes_at_app. simpl.
  split; intros [H1 H2]; (split; [|done]).
  - specialize (H1 0). simpl in H1. rewrite Z.add_0_r in H1. apply H1. lia.
  - intros i Hi. simpl in Hi. replace i with 0 by lia. by rewrite Z.add_0_r.
Qed.

Lemma bytes_at_lookup m p l i b :
  bytes_at m p l -> 0 <= i -> l !! Z.to_nat i = Some b -> m !! (p + i) = Some b.
Proof.
  intros H Hi Hl. rewrite H; [done|]. split; [done|]. by eapply lookup_Z_lt_Some.
Qed.

Lemma bytes_at_valid m p l : bytes_at m p l -> valid m p (Z.of_nat (length l)).
Proof. intros H i Hi. rewrite H by done. by apply lookup_Z_is_Some. Qed.

Lemma bytes_at_frame m m' p l q n :
  same_outside m m' q n -> disjoint_ranges q n p (Z.of_nat (length l)) ->
  bytes_at m p l -> bytes_at m' p l.
Proof.
  intros Hs Hd H i Hi. rewrite Hs; [by apply H|].
  unfold in_range. destruct Hd; lia.
Qed.

Lemma valid_same_dom m m' p n : same_dom m m' -> valid m p n -> valid m' p n.
Proof. intros Hd Hv i Hi. apply Hd. by apply Hv. Qed.

Lemma valid_sub m p n q k :
  valid m p n -> p <= q -> q + k <= p + n -> valid m q k.
Proof.
  intros Hv ?? i Hi. replace (q + i) with (p + (q + i - p)) by lia. apply Hv. lia.
Qed.

Lemma valid_range m p n : mem_wf m -> 0 < n -> valid m p n -> 0 <= p /\ p + n <= W64.
Proof.
  intros Hm Hn Hv.
  destruct (Hv 0) as [a Ha]; [lia|]. destruct (Hv (n - 1)) as [b Hb]; [lia|].
  apply Hm in Ha, Hb. lia.
Qed.

Lemma same_dom_refl m : same_dom m m.
Proof. done. Qed.

Lemma same_dom_trans m1 m2 m3 : same_dom m1 m2 -> same_dom m2 m3 -> same_dom m1 m3.
Proof. intros H1 H2 a. etransitivity; [apply H2|apply H1]. Qed.

Lemma same_outside_refl m p n : same_outside m m p n.
Proof. done. Qed.

Lemma same_outside_trans m1 m2 m3 p n :
  same_outside m1 m2 p n -> same_outside m2 m3 p n -> same_outside m1 m3 p n.
Proof. intros H1 H2 a Ha. etransitivity; [by apply H2|by apply H1]. Qed.

Lemma same_outside_weaken m m' p n q k :
  same_outside m m' p n -> q <= p -> p + n <= q + k -> same_outside m m' q k.
Proof. intros H ?? a Ha. apply H. unfold in_range in *. lia. Qed.

Lemma idx_valid m p i : mem_wf m -> is_Some (m !! (p + i)) -> idx p i = p + i.
Proof. intros Hm [v Hv]. apply u64_small. apply Hm in Hv. lia. Qed.
End Predicates.

(** ** Loads and stores *)

Section Access.
Lemma load8_Ok m a v : m !! a = Some v -> load8 m a = Ok v.
Proof. intros H. unfold load8. by rewrite H. Qed.

Lemma store8_Ok m a v : is_Some (m !! a) -> store8 m a v = Ok (<[a := u8 v]> m).
Proof. intros [w H]. unfold store8. by rewrite H. Qed.

Lemma length_le_bytes n v : length (le_bytes n v) = n.
Proof. revert v. induction n; intros; simpl; auto. Qed.

Lemma le_bytes_range n v : Forall (fun b => 0 <= b < 256) (le_bytes n v).
Proof. revert v. induction n; intros; simpl; constructor; auto using u8_range. Qed.

Lemma of_le_bytes_le_bytes n v : of_le_bytes (le_bytes n v) = v mod 256 ^ Z.of_nat n.
Proof.
  revert v. induction n as [|n IH]; intros v; simpl.
  - by rewrite Z.mod_1_r.
  - rewrite IH, Nat2Z.inj_succ, Z.pow_succ_r by lia.
    rewrite Z.rem_mul_r by lia. unfold wrap. f_equal.
Qed.

Lemma le_bytes_of_le_bytes l :
  Forall (fun b => 0 <= b < 256) l -> le_bytes (length l) (of_le_bytes l) = l.
Proof.
  induction 1 as [|b l Hb Hl IH]; simpl; [done|].
  assert ((b + 256 * of_le_bytes l) / 256 = of_le_bytes l) as ->.
  { rewrite (Z.mul_comm 256), Z.div_add by lia. rewrite Z.div_small; lia. }
  f_equal; [|done]. unfold wrap. change (2 ^ 8) with 256.
  rewrite (Z.mul_comm 256), Z.mod_add by lia. apply Z.mod_small. lia.
Qed.

Lemma load_le_bytes n m a l :
  bytes_at m a l -> length l = n -> load_le n m a = Ok (of_le_bytes l).
Proof.
  revert a l. induction n as [|n IH]; intros a l H Hl; destruct l as [|b l]; try done.
  apply bytes_at_cons in H as [Hb H]. simpl in *.
  rewrite (load8_Ok _ _ _ Hb). simpl. rewrite (IH _ l) by (done || lia). done.
Qed.

Lemma store_le_write n m a v :
  valid m a (Z.of_nat n) -> store_le n m a v = Ok (write_bytes m a (le_bytes n v)).
Proof.
  revert m a v. induction n as [|n IH]; intros m a v Hv; simpl; [done|].
  rewrite store8_Ok.
  2:{ specialize (Hv 0). rewrite Z.add_0_r in Hv. apply Hv. lia. }
  simpl. apply IH. intros i Hi.
  destruct (decide (a = a + 1 + i)); [lia|]. rewrite lookup_insert_ne by done.
  replace (a + 1 + i) with (a + (i + 1)) by lia. apply Hv. lia.
Qed.

Lemma load_le_frame n m m' a :
  (forall i, 0 <= i < Z.of_nat n -> m' !! (a + i) = m !! (a + i)) ->
  load_le n m' a = load_le n m a.
Proof.
  revert a. induction n as [|n IH]; intros a H; simpl; [done|].
  assert (load8 m' a = load8 m a) as ->.
  { unfold load8. specialize (H 0). rewrite Z.add_0_r in H. rewrite H; [done|lia]. }
  rewrite (IH (a + 1)); [done|]. intros i Hi.
  replace (a + 1 + i) with (a + (i + 1)) by lia. apply H. lia.
Qed.
End Access.

(** The 64-bit accesses, as the kernel uses them. *)
Definition write64 (m : mem) (a v : Z) : mem := write_bytes m a (le_bytes 8 v).

Section Access64.
(** A store that succeeds was to mapped bytes. *)
Lemma store_le_valid n m a v m' : store_le n m a v = Ok m' -> valid m a (Z.of_nat n).
Proof.
  revert m a v. induction n as [|n IH]; intros m a v E i Hi; [lia|]. cbn [store_le] in E.
  apply bind_inv in E as (m1 & E1 & E). unfold store8 in E1. destruct (m !! a) as [b|] eqn:Ea; [|done]. injection E1 as <-.
  destruct (decide (i = 0)) as [->|Hi0]; [by rewrite Z.add_0_r, Ea|].
  specialize (IH _ _ _ E (i - 1) ltac:(lia)). replace (a + 1 + (i - 1)) with (a + i) in IH by lia.
  by rewrite lookup_insert_ne in IH by lia.
Qed.

Lemma store64_write m a v : valid m a 8 -> store64 m a v = Ok (write64 m a v).
Proof. apply (store_le_write 8). Qed.

Lemma load64_write64 m a v : load64 (write64 m a v) a = Ok (u64 v).
Proof.
  unfold load64, write64. rewrite (load_le_bytes 8 _ _ (le_bytes 8 v)).
  - by rewrite of_le_bytes_le_bytes.
  - apply write_bytes_bytes_at.
  - apply length_le_bytes.
Qed.

Lemma load64_frame m m' p n a :
  same_outside m m' p n -> disjoint_ranges p n a 8 -> load64 m' a = load64 m a.
Proof.
  intros Hs Hd. apply load_le_frame. intros i Hi. apply Hs.
  unfold in_range. destruct Hd; lia.
Qed.

Lemma write64_same_outside m a v : same_outside m (write64 m a v) a 8.
Proof.
  unfold write64. pose proof (write_bytes_same_outside m a (le_bytes 8 v)) as H.
  by rewrite length_le_bytes in H.
Qed.

Lemma load64_write64_ne m a v b :
  disjoint_ranges a 8 b 8 -> load64 (write64 m a v) b = load64 m b.
Proof. apply load64_frame, write64_same_outside. Qed.

Lemma write64_same_dom m a v : valid m a 8 -> same_dom m (write64 m a v).
Proof. intros. apply write_bytes_same_dom. by rewrite length_le_bytes. Qed.

Lemma write64_wf m a v : mem_wf m -> valid m a 8 -> mem_wf (write64 m a v).
Proof.
  intros. apply write_bytes_wf; [done| |apply le_bytes_range].
  by rewrite length_le_bytes.
Qed.

Lemma load64_Ok_valid m a v : load64 m a = Ok v -> valid m a 8.
Proof.
  assert (forall n a v, load_le n m a = Ok v -> valid m a (Z.of_nat n)) as H.
  { induction n as [|n IH]; intros b w Hb i Hi; [lia|]. simpl in Hb.
    apply bind_inv in Hb as (x & Hx & Hb). apply bind_inv in Hb as (y & Hy & _).
    destruct (decide (i = 0)) as [->|].
    - unfold load8 in Hx. rewrite Z.add_0_r. destruct (m !! b); [eauto|done].
    - replace (b + i) with (b + 1 + (i - 1)) by lia. eapply IH; [done|lia]. }
  apply (H 8%nat).
Qed.

Lemma load64_zero m a : bytes_at m a (replicate 8 0) -> load64 m a = Ok 0.
Proof. intros H. unfold load64. by rewrite (load_le_bytes 8 _ _ (replicate 8 0)). Qed.
End Access64.

#[global] Arguments load64 : simpl never.
#[global] Arguments store64 : simpl never.
#[global] Arguments write64 : simpl never.
#[global] Arguments idx : simpl never.

#[export] Hint Resolve same_dom_refl same_outside_refl write64_same_outside
  write64_same_dom write64_wf bytes_at_valid write_bytes_bytes_at : ice.

(** ** Executable checks

    Boolean forms of the predicates, to discharge them on concrete memories. *)

Definition mem_wfb (m : mem) : bool :=
  forallb (fun av => (0 <=? av.1) && (av.1 <? W64) && (0 <=? av.2) && (av.2 <? 256))
          (map_to_list m).

Fixpoint bytes_atb (m : mem) (p : Z) (l : list Z) : bool :=
  match l with
  | [] => true
  | b :: l' => bool_decide (m !! p = Some b) && bytes_atb m (p + 1) l'
  end.

Fixpoint validb (m : mem) (p : Z) (n : nat) : bool :=
  match n with
  | O => true
  | S n' => bool_decide (is_Some (m !! p)) && validb m (p + 1) n'
  end.

Section Checks.
Lemma mem_wfb_ok m : mem_wfb m = true -> mem_wf m.
Proof.
  unfold mem_wfb. rewrite forallb_forall. intros H a v Hav.
  apply elem_of_map_to_list, list_elem_of_In, H in Hav. simpl in Hav.
  rewrite !andb_true_iff, !Z.leb_le, !Z.ltb_lt in Hav. lia.
Qed.

Lemma bytes_atb_ok m p l : bytes_atb m p l = true -> bytes_at m p l.
Proof.
  revert p. induction l as [|b l IH]; intros p; simpl.
  - intros _ i Hi. simpl in Hi. lia.
  - intros [H%bool_decide_eq_true Hl]%andb_true_iff. apply bytes_at_cons. auto.
Qed.

Lemma validb_ok m p n : validb m p (Z.to_nat n) = true -> valid m p n.
Proof.
  assert (forall k q, validb m q k = true -> valid m q (Z.of_nat k)) as E.
  { induction k as [|k IH]; intros q Hq i Hi; [lia|]. simpl in Hq.
    apply andb_true_iff in Hq as [H0%bool_decide_eq_true Hk].
    destruct (decide (i = 0)) as [->|]; [by rewrite Z.add_0_r|].
    replace (q + i) with (q + 1 + (i - 1)) by lia. apply IH; [done|lia]. }
  intros H%E i Hi. apply H. lia.
Qed.

Lemma cstrb_ok m p s :
  bytes_atb m p (s ++ [0]) = true -> forallb (fun c => negb (c =? 0)) s = true -> cstr m p s.
Proof.
  intros H1%bytes_atb_ok H2. split; [done|]. rewrite Forall_forall. intros c Hc.
  rewrite forallb_forall in H2. apply list_elem_of_In, H2 in Hc.
  apply negb_true_iff, Z.eqb_neq in Hc. done.
Qed.
End Checks.

(** Prove a predicate on a concrete memory by evaluating its check. *)
Ltac mem_check :=
  first [ apply mem_wfb_ok | apply cstrb_ok | apply bytes_atb_ok | apply validb_ok ];
  vm_compute; reflexivity.
