(* ===== verification/LibcString.v ===== *)
(** * libs/libc/string.cpp

    The freestanding string and memory routines of the kernel, over the byte
    memory of [Memory].  A [char] is signed, as clang has it on x86_64, so the
    comparisons sign-extend the bytes they read.  Scanning loops are given as
    fuel the number of mapped bytes ([scan_fuel]); [scan_terminates] shows that
    this is enough for any loop that walks forward through memory. *)

From S2P Require Import Prelude Memory.

Definition scan_fuel (m : mem) : nat := S (size m).

(** ** Strings *)

Definition strlen (m : mem) (str : Z) : outcome Z :=
  loop (fun length =>
          c ← load8 m (idx str length);
          if c =? 0 then Ok (inr length) else Ok (inl (u64 (length + 1))))
       (scan_fuel m) 0.

Definition strnlen (m : mem) (str len : Z) : outcome Z :=
  loop (fun length =>
          c ← load8 m (idx str length);
          if negb (c =? 0) && (length <? len)
          then Ok (inl (u64 (length + 1))) else Ok (inr length))
       (scan_fuel m) 0.

(** [*str1 && *str2 && *str1 == *str2] *)
Definition same_char (m : mem) (str1 str2 : Z) : outcome bool :=
  a ← load8 m str1;
  if a =? 0 then Ok false
  else b ← load8 m str2;
       if b =? 0 then Ok false else Ok (s8 a =? s8 b).

(** [*str1 - *str2] *)
Definition char_diff (m : mem) (str1 str2 : Z) : outcome Z :=
  a ← load8 m str1; b ← load8 m str2; Ok (s8 a - s8 b).

Definition strcmp (m : mem) (str1 str2 : Z) : outcome Z :=
  '(p1, p2) ← loop (fun '(p1, p2) =>
                      c ← same_char m p1 p2;
                      if (c : bool) then Ok (inl (idx p1 1, idx p2 1)) else Ok (inr (p1, p2)))
                   (scan_fuel m) (str1, str2);
  char_diff m p1 p2.

Definition strncmp (m : mem) (str1 str2 len : Z) : outcome Z :=
  '(p1, p2, len') ←
    loop (fun '(p1, p2, n) =>
            c ← same_char m p1 p2;
            if (c : bool) then
              (* [len--] is evaluated last in the condition *)
              if n =? 0 then Ok (inr (p1, p2, u64 (n - 1)))
              else Ok (inl (idx p1 1, idx p2 1, u64 (n - 1)))
            else Ok (inr (p1, p2, n)))
         (scan_fuel m) (str1, str2, len);
  if len' =? 0 then Ok 0 else char_diff m p1 p2.

(** The copy loops return the memory and the final destination pointer. *)
Definition copy_step (st : mem * Z * Z) : outcome (mem * Z * Z + mem * Z) :=
  let '(m, dest, src) := st in
  c ← load8 m src;
  if c =? 0 then Ok (inr (m, dest))
  else m' ← store8 m dest c; Ok (inl (m', idx dest 1, idx src 1)).

Definition copy_n_step (st : mem * Z * Z * Z) : outcome (mem * Z * Z * Z + mem * Z) :=
  let '(m, dest, src, n) := st in
  c ← load8 m src;
  if (c =? 0) || (n =? 0) then Ok (inr (m, dest))
  else m' ← store8 m dest c; Ok (inl (m', idx dest 1, idx src 1, u64 (n - 1))).

#[global] Arguments copy_step !st /.
#[global] Arguments copy_n_step !st /.

Definition copy_until_nul (m : mem) (dest src : Z) : outcome (mem * Z) :=
  loop copy_step (scan_fuel m) (m, dest, src).

Definition copy_until_nul_n (m : mem) (dest src len : Z) : outcome (mem * Z) :=
  loop copy_n_step (scan_fuel m) (m, dest, src, len).

Definition strcpy (m : mem) (dest src : Z) : outcome (Z * mem) :=
  '(m1, d) ← copy_until_nul m dest src;
  m2 ← store8 m1 d 0;
  Ok (dest, m2).

Definition strncpy (m : mem) (dest src len : Z) : outcome (Z * mem) :=
  '(m1, d) ← copy_until_nul_n m dest src len;
  m2 ← store8 m1 d 0;
  Ok (dest, m2).

Definition strcat (m : mem) (dest src : Z) : outcome (Z * mem) :=
  n ← strlen m dest;
  '(m1, d) ← copy_until_nul m (idx dest n) src;
  m2 ← store8 m1 d 0;
  Ok (dest, m2).

Definition strncat (m : mem) (dest src len : Z) : outcome (Z * mem) :=
  n ← strlen m dest;
  '(m1, d) ← copy_until_nul_n m (idx dest n) src len;
  m2 ← store8 m1 d 0;
  Ok (dest, m2).

Definition strchr (m : mem) (str ch : Z) : outcome Z :=
  loop (fun p =>
          c ← load8 m p;
          if negb (c =? 0) && negb (s8 c =? ch) then Ok (inl (idx p 1))
          else Ok (inr (if ch =? s8 c then p else 0)))
       (scan_fuel m) str.

(** One step of the [while (true)] of [strstr]: the start of the attempt and the
    two cursors. *)
Definition strstr_step (m : mem) (substr : Z) (s : Z * Z * Z) : outcome (Z * Z * Z + Z) :=
  let '(str, a, b) := s in
  cb ← load8 m b;
  if cb =? 0 then Ok (inr str)
  else ca ← load8 m a;
       if ca =? 0 then Ok (inr 0)
       else if negb (s8 ca =? s8 cb) then Ok (inl (idx str 1, idx str 1, substr))
       else Ok (inl (str, idx a 1, idx b 1)).

Definition strstr (m : mem) (str substr : Z) : outcome Z :=
  loop (strstr_step m substr) (scan_fuel m * scan_fuel m) (str, str, substr).

Definition strrev_step (st : mem * Z * Z * Z) : outcome (mem * Z * Z * Z + mem) :=
  let '(m, str, i, j) := st in
  if i <? j then
    a ← load8 m (idx str i);
    b ← load8 m (idx str j);
    m1 ← store8 m (idx str i) b;
    m2 ← store8 m1 (idx str j) a;
    Ok (inl (m2, str, u64 (i + 1), u64 (j - 1)))
  else Ok (inr m).

#[global] Arguments strrev_step !st /.

Definition strrev (m : mem) (str : Z) : outcome mem :=
  len ← strlen m str;
  loop strrev_step (scan_fuel m) (m, str, 0, u64 (len - 1)).

(** ** Raw memory *)

Definition memcmp (m : mem) (ptr1 ptr2 len : Z) : outcome Z :=
  loop (fun i =>
          if i <? len then
            a ← load8 m (idx ptr1 i);
            b ← load8 m (idx ptr2 i);
            if a =? b then Ok (inl (u64 (i + 1)))
            else c ← load8 m (idx ptr2 2);
                 Ok (inr (if a <? c then -1 else 1))
          else Ok (inr 0))
       (scan_fuel m) 0.

Definition memcpy (m : mem) (dest src len : Z) : outcome (Z * mem) :=
  m' ← for_range 0 len (fun i m =>
         b ← load8 m (idx src i); store8 m (idx dest i) b) m;
  Ok (dest, m').

Definition memmove (m : mem) (dest src len : Z) : outcome (Z * mem) :=
  m' ← (if dest <? src then
          for_range 0 len (fun i m =>
            b ← load8 m (idx src i); store8 m (idx dest i) b) m
        else if src <? dest then
          for_range 0 len (fun i m =>
            b ← load8 m (idx src (u64 (i - 1))); store8 m (idx dest (u64 (i - 1))) b) m
        else Ok m);
  Ok (dest, m').

Definition memset (m : mem) (dest ch len : Z) : outcome (Z * mem) :=
  m' ← for_range 0 len (fun i m => store8 m (idx dest i) (u8 ch)) m;
  Ok (dest, m').

Definition memchr (m : mem) (ptr ch len : Z) : outcome Z :=
  loop (fun '(src, n) =>
          if 0 <? n then
            c ← load8 m src;
            if c =? ch then Ok (inr src) else Ok (inl (idx src 1, u64 (n - 1)))
          else Ok (inr 0))
       (scan_fuel m) (ptr, len).

(** ** Reference functions *)

(** Comparison of two strings given as lists of bytes. *)
Fixpoint strcmp_ref (s t : list Z) : Z :=
  match s, t with
  | [], [] => 0
  | [], b :: _ => - s8 b
  | a :: _, [] => s8 a
  | a :: s', b :: t' => if a =? b then strcmp_ref s' t' else s8 a - s8 b
  end.

(** The index of the first occurrence of [t] in [s]. *)
Fixpoint is_prefix (t s : list Z) : bool :=
  match t, s with
  | [], _ => true
  | _ :: _, [] => false
  | b :: t', a :: s' => (a =? b) && is_prefix t' s'
  end.

Fixpoint find_sub (t s : list Z) : option Z :=
  if is_prefix t s then Some 0
  else match s with
       | [] => None
       | _ :: s' => Z.succ <$> find_sub t s'
       end.

Definition is_char (c : Z) : Prop := 0 < c < 256.

(** ** Fuel *)

Section Fuel.
Context (m : mem) (Hwf : mem_wf m).

(** Distinct mapped addresses are at most as many as the mapped bytes. *)
Lemma mapped_bound (f : nat -> Z) n :
  (forall i j, (i < n)%nat -> (j < n)%nat -> f i = f j -> i = j) ->
  (forall i, (i < n)%nat -> is_Some (m !! f i)) ->
  (n <= size m)%nat.
Proof.
  intros Hinj Hin.
  assert (NoDup (f <$> seq 0 n)) as Hnd.
  { apply NoDup_fmap_2_strong; [|apply NoDup_seq].
    intros i j Hi%elem_of_seq Hj%elem_of_seq. apply Hinj; lia. }
  rewrite <- (length_seq n 0), <- (length_fmap f), <- size_dom.
  rewrite <- (size_list_to_set (C := gset Z) _ Hnd).
  apply subseteq_size. intros a Ha. apply elem_of_list_to_set in Ha.
  apply list_elem_of_fmap in Ha as (i & -> & Hi%elem_of_seq).
  apply elem_of_dom, Hin. lia.
Qed.

Lemma valid_size p n : valid m p n -> n <= Z.of_nat (size m).
Proof.
  intros Hv. destruct (decide (n <= 0)); [lia|].
  pose proof (mapped_bound (fun i => p + Z.of_nat i) (Z.to_nat n)) as H.
  enough (Z.to_nat n <= size m)%nat by lia.
  apply H; [intros; lia|]. intros i Hi. apply Hv. lia.
Qed.

Lemma idx_inj p i j : 0 <= i < W64 -> 0 <= j < W64 -> idx p i = idx p j -> i = j.
Proof.
  unfold idx, wrap. change (2 ^ 64) with W64. intros Hi Hj H.
  assert ((i - j) mod W64 = 0) as E.
  { replace (i - j) with ((p + i) - (p + j)) by lia.
    by rewrite Zminus_mod, H, Z.sub_diag. }
  apply Z.mod_divide in E as [k E]; [|lia]. nia.
Qed.

Lemma scan_bound p n :
  Z.of_nat n <= W64 -> (forall i, (i < n)%nat -> is_Some (m !! idx p (Z.of_nat i))) ->
  (n <= size m)%nat.
Proof.
  intros Hn Hv. apply (mapped_bound (fun i => idx p (Z.of_nat i))); [|done].
  intros i j Hi Hj E. apply idx_inj in E; lia.
Qed.

(** A loop that reads [p[i]] in every round and then goes to [i + 1] stops
    before it has used one unit of fuel per mapped byte. *)
Lemma scan_terminates {R} (body : Z -> outcome (Z + R)) p fuel k :
  Z.of_nat (size m) < W64 ->
  (forall i, terminates (body i)) ->
  (forall i j, body i = Ok (inl j) -> j = u64 (i + 1) /\ is_Some (m !! idx p i)) ->
  (forall i, (i < k)%nat -> is_Some (m !! idx p (Z.of_nat i))) ->
  (size m < k + fuel)%nat ->
  terminates (loop body fuel (Z.of_nat k)).
Proof.
  intros Hsize Hbody Hstep. revert k. induction fuel as [|fuel IH]; intros k Hk Hf.
  - assert (S (size m) <= size m)%nat; [|lia].
    apply (scan_bound p); [lia|]. intros i Hi. apply Hk. lia.
  - rewrite loop_step. apply bind_terminates; [done|]. intros [j|r] E; [|done].
    apply Hstep in E as [-> Hin].
    assert (k < size m + 1)%nat.
    { enough (k <= size m)%nat by lia. destruct (decide (Z.of_nat k <= W64)).
      - by apply (scan_bound p).
      - assert (S (size m) <= size m)%nat; [|lia].
        apply (scan_bound p); [lia|]. intros i Hi. apply Hk. lia. }
    assert (forall i, (i < S k)%nat -> is_Some (m !! idx p (Z.of_nat i))) as Hk'.
    { intros i Hi. destruct (decide (i = k)) as [->|]; [done|]. apply Hk. lia. }
    assert (S k <= size m)%nat by (apply (scan_bound p); [lia|done]).
    rewrite u64_small by lia. replace (Z.of_nat k + 1) with (Z.of_nat (S k)) by lia.
    apply IH; [done|lia].
Qed.
End Fuel.

(** ** Access to strings *)

Section Strings.
Context (m : mem) (Hwf : mem_wf m).

Lemma load8_idx p i v : m !! (p + i) = Some v -> load8 m (idx p i) = Ok v.
Proof. intros H. rewrite (idx_valid m); eauto using load8_Ok. Qed.

Lemma cstr_nul p s : cstr m p s -> m !! (p + Z.of_nat (length s)) = Some 0.
Proof.
  intros [H _]. apply (bytes_at_lookup _ _ _ _ _ H); [lia|].
  rewrite Nat2Z.id. by apply list_lookup_middle.
Qed.

Lemma cstr_lookup p s i c : cstr m p s -> s !! i = Some c ->
  m !! (p + Z.of_nat i) = Some c /\ 0 < c < 256.
Proof.
  intros [H Hs] Hi. assert (m !! (p + Z.of_nat i) = Some c) as Hm.
  { apply (bytes_at_lookup _ _ _ _ _ H); [lia|]. rewrite Nat2Z.id.
    rewrite lookup_app_l; [done|]. by eapply lookup_lt_Some. }
  split; [done|]. apply Hwf in Hm. pose proof (Forall_lookup_1 _ _ _ _ Hs Hi). simpl in *. lia.
Qed.

Lemma cstr_valid p s : cstr m p s -> valid m p (Z.of_nat (length s) + 1).
Proof.
  intros [H _]. apply bytes_at_valid in H. rewrite length_app in H. simpl in H.
  by rewrite Nat2Z.inj_add in H.
Qed.

Lemma cstr_fuel p s : cstr m p s -> (length s < scan_fuel m)%nat.
Proof.
  intros H%cstr_valid. apply (valid_size m) in H. unfold scan_fuel. lia.
Qed.

Lemma cstr_cons p c s : cstr m p (c :: s) <-> m !! p = Some c /\ c <> 0 /\ cstr m (p + 1) s.
Proof. unfold cstr. simpl. rewrite bytes_at_cons, Forall_cons. tauto. Qed.

Lemma cstr_nil p : cstr m p [] <-> m !! p = Some 0.
Proof.
  unfold cstr. simpl. rewrite bytes_at_cons. split; [tauto|].
  intros H. split_and!; auto. intros i Hi. simpl in Hi. lia.
Qed.

Lemma idx_next p s : cstr m (p + 1) s -> idx p 1 = p + 1.
Proof.
  intros H. apply (idx_valid m); [done|]. apply cstr_valid in H.
  specialize (H 0). rewrite Z.add_0_r in H. apply H. lia.
Qed.

Lemma cstr_chars p s : cstr m p s -> Forall is_char s.
Proof.
  intros H. apply Forall_lookup. intros i c Hc. by apply (cstr_lookup p s i c H) in Hc as [_ ?].
Qed.

Lemma strlen_cstr p s : cstr m p s -> strlen m p = Ok (Z.of_nat (length s)).
Proof.
  intros H. unfold strlen.
  pose proof (cstr_valid _ _ H) as Hv. apply (valid_range _ _ _ Hwf) in Hv; [|lia].
  match goal with |- loop ?b _ _ = _ =>
    destruct (loop_total b (fun n k => 0 <= k /\ k + Z.of_nat n = Z.of_nat (length s))
                (eq (Z.of_nat (length s)))) with (n := length s) (s := 0) (fuel := scan_fuel m)
      as (r & -> & <-); [|lia|by eapply cstr_fuel|done] end.
  intros n k [Hk Hn]. destruct (decide (n = O)) as [->|Hne].
  - right. exists k. rewrite (load8_idx _ _ 0); [split; [done|lia]|].
    rewrite <- (cstr_nul p s H). f_equal. lia.
  - left. exists (k + 1), (n - 1)%nat.
    destruct (lookup_lt_is_Some_2 s (Z.to_nat k)) as [c Hc]; [lia|].
    destruct (cstr_lookup _ _ _ _ H Hc) as [Hm Hr]. rewrite Z2Nat.id in Hm by lia.
    rewrite (load8_idx _ _ c) by done. simpl.
    rewrite (proj2 (Z.eqb_neq c 0)) by lia. rewrite u64_small by lia.
    split; [done|]. lia.
Qed.
End Strings.
