(* ===== verification/StringProofs.v ===== *)
(** * Correctness of libs/libc/string.cpp

    Lemmas about the routines of [LibcString]: reading routines against their
    list reference functions, writing routines as one [write_bytes]. *)

From S2P Require Import Prelude Memory LibcString.

(** ** Reading routines *)

Section Reading.
Context (m : mem) (Hwf : mem_wf m).

Lemma s8_eqb a b : 0 <= a < 256 -> 0 <= b < 256 -> (s8 a =? s8 b) = (a =? b).
Proof.
  intros Ha Hb. unfold swrap. change (2 ^ (8 - 1)) with 128. change (2 ^ 8) with 256.
  destruct (Z.eqb_spec a b) as [->|Hne]; [apply Z.eqb_refl|].
  apply Z.eqb_neq. intros E. apply Hne.
  assert ((a + 128) mod 256 = (b + 128) mod 256) as E' by lia.
  pose proof (Z.div_mod (a + 128) 256). pose proof (Z.div_mod (b + 128) 256).
  pose proof (Z.mod_pos_bound (a + 128) 256). pose proof (Z.mod_pos_bound (b + 128) 256). lia.
Qed.

Lemma cstr_char p c s : cstr m p (c :: s) ->
  load8 m p = Ok c /\ 0 < c < 256 /\ cstr m (p + 1) s /\ idx p 1 = p + 1.
Proof.
  intros H. pose proof H as (Hp & Hc & Hs)%cstr_cons. apply Hwf in Hp as Hr.
  split_and!; try lia; eauto using load8_Ok, idx_next.
Qed.

Lemma cstr_end p : cstr m p [] -> load8 m p = Ok 0.
Proof. rewrite cstr_nil. apply load8_Ok. Qed.

(** [same_char] and [char_diff] on two strings. *)
Lemma same_char_cstr p q s t : cstr m p s -> cstr m q t ->
  same_char m p q = Ok match s, t with a :: _, b :: _ => a =? b | _, _ => false end.
Proof.
  intros Hs Ht. unfold same_char. destruct s as [|a s].
  { by rewrite (cstr_end _ Hs). }
  apply cstr_char in Hs as (-> & Ha & _). simpl. rewrite (proj2 (Z.eqb_neq a 0)) by lia.
  destruct t as [|b t].
  { by rewrite (cstr_end _ Ht). }
  apply cstr_char in Ht as (-> & Hb & _). simpl. rewrite (proj2 (Z.eqb_neq b 0)) by lia.
  rewrite s8_eqb by lia. done.
Qed.

Lemma char_diff_cstr p q s t : cstr m p s -> cstr m q t ->
  char_diff m p q = Ok (s8 (default 0 (head s)) - s8 (default 0 (head t))).
Proof.
  intros Hs Ht. unfold char_diff.
  assert (forall r u, cstr m r u -> load8 m r = Ok (default 0 (head u))) as H.
  { intros r [|c u] Hu; [by apply cstr_end|]. by apply cstr_char in Hu as [-> _]. }
  by rewrite (H p s), (H q t).
Qed.

Lemma strcmp_cstr p q s t : cstr m p s -> cstr m q t ->
  strcmp m p q = Ok (strcmp_ref s t).
Proof.
  intros Hs Ht. unfold strcmp.
  assert (length s < scan_fuel m)%nat as Hf by eauto using cstr_fuel.
  remember (scan_fuel m) as fuel eqn:E. clear E.
  revert p q t fuel Hs Ht Hf. induction s as [|a s IH]; intros p q t fuel Hs Ht Hf;
    (destruct fuel as [|fuel]; [simpl in Hf; lia|]); rewrite loop_step;
    rewrite (same_char_cstr _ _ _ _ Hs Ht); simpl.
  - rewrite (char_diff_cstr _ _ _ _ Hs Ht). by destruct t.
  - destruct t as [|b t]; simpl.
    + rewrite (char_diff_cstr _ _ _ _ Hs Ht). simpl. by rewrite Z.sub_0_r.
    + pose proof Hs as (_ & _ & Hs' & ->)%cstr_char.
      pose proof Ht as (_ & _ & Ht' & ->)%cstr_char.
      destruct (Z.eqb_spec a b); simpl.
      * apply IH; [done..|simpl in Hf; lia].
      * by rewrite (char_diff_cstr _ _ _ _ Hs Ht).
Qed.

Lemma strncmp_cstr p q s t n : cstr m p s -> cstr m q t -> 0 <= n < W64 ->
  strncmp m p q n = Ok (strcmp_ref (take (Z.to_nat n) s) (take (Z.to_nat n) t)).
Proof.
  intros Hs Ht Hn. unfold strncmp.
  assert (length s < scan_fuel m)%nat as Hf by eauto using cstr_fuel.
  remember (scan_fuel m) as fuel eqn:E. clear E.
  revert p q t n fuel Hs Ht Hf Hn. induction s as [|a s IH]; intros p q t n fuel Hs Ht Hf Hn;
    (destruct fuel as [|fuel]; [simpl in Hf; lia|]); rewrite loop_step;
    rewrite (same_char_cstr _ _ _ _ Hs Ht); simpl.
  - rewrite take_nil. destruct (Z.eqb_spec n 0) as [->|]; [done|].
    rewrite (char_diff_cstr _ _ _ _ Hs Ht).
    destruct t; [by rewrite take_nil|].
    by replace (Z.to_nat n) with (S (Z.to_nat (n - 1))) by lia.
  - destruct t as [|b t]; simpl.
    { rewrite take_nil. destruct (Z.eqb_spec n 0) as [->|]; [done|].
      rewrite (char_diff_cstr _ _ _ _ Hs Ht).
      replace (Z.to_nat n) with (S (Z.to_nat (n - 1))) by lia. simpl.
      by rewrite Z.sub_0_r. }
    pose proof Hs as (_ & _ & Hs' & ->)%cstr_char.
    pose proof Ht as (_ & _ & Ht' & ->)%cstr_char.
    destruct (Z.eqb_spec n 0) as [->|]; simpl.
    + destruct (Z.eqb_spec a b) as [->|]; [|done]. simpl.
      rewrite (char_diff_cstr _ _ _ _ Hs Ht). simpl. by rewrite Z.sub_diag.
    + replace (Z.to_nat n) with (S (Z.to_nat (n - 1))) by lia. simpl.
      destruct (Z.eqb_spec a b) as [->|]; simpl.
      * rewrite u64_small by lia. apply IH; [done..|simpl in Hf; lia|lia].
      * rewrite (proj2 (Z.eqb_neq n 0)) by done. by rewrite (char_diff_cstr _ _ _ _ Hs Ht).
Qed.

Lemma strcmp_ref_0 s t :
  Forall is_char s -> Forall is_char t -> strcmp_ref s t = 0 <-> s = t.
Proof.
  unfold is_char. intros Hs. revert t.
  assert (forall c, 0 < c < 256 -> s8 c <> 0) as Hz.
  { intros c Hc E. assert ((s8 c =? s8 0) = true) as E' by (by rewrite E).
    rewrite s8_eqb in E' by lia. apply Z.eqb_eq in E'. lia. }
  induction Hs as [|a s Ha Hs IH]; intros [|b t] Ht; simpl; [done| | |].
  - apply Forall_cons in Ht as [Hb _]. specialize (Hz b Hb). split; [lia|done].
  - specialize (Hz a Ha). split; [lia|done].
  - apply Forall_cons in Ht as [Hb Ht]. destruct (Z.eqb_spec a b) as [->|Hne].
    + rewrite (IH t Ht). split; congruence.
    + split; [|congruence]. intros E. exfalso. apply Hne.
      assert ((s8 a =? s8 b) = true) as E' by (apply Z.eqb_eq; lia).
      rewrite s8_eqb in E' by lia. by apply Z.eqb_eq.
Qed.

Lemma strchr_cstr p s c : cstr m p s -> 0 < c < 128 ->
  strchr m p c =
  Ok match list_find (fun x => x = c) s with Some (i, _) => p + Z.of_nat i | None => 0 end.
Proof.
  intros Hs Hc. unfold strchr.
  assert (length s < scan_fuel m)%nat as Hf by eauto using cstr_fuel.
  remember (scan_fuel m) as fuel eqn:E. clear E.
  assert (s8 c = c) as Ec by (apply (swrap_small 8); simpl; lia).
  revert p fuel Hs Hf. induction s as [|a s IH]; intros p fuel Hs Hf;
    (destruct fuel as [|fuel]; [simpl in Hf; lia|]); rewrite loop_step.
  - rewrite (cstr_end _ Hs). simpl. rewrite (proj2 (Z.eqb_neq c (s8 0))); [done|].
    change (s8 0) with 0. lia.
  - apply cstr_char in Hs as (-> & Ha & Hs & ->). simpl.
    rewrite (proj2 (Z.eqb_neq a 0)) by lia. simpl.
    assert ((s8 a =? c) = (a =? c)) as -> by (rewrite <- Ec at 1; apply s8_eqb; lia).
    destruct (Z.eqb_spec a c) as [->|Hne]; simpl.
    + rewrite decide_True by done. rewrite Ec, Z.eqb_refl. f_equal. lia.
    + rewrite decide_False by done. rewrite IH by (done || simpl in Hf; lia).
      destruct (list_find _ s) as [[i x]|]; simpl; [|done]. f_equal. lia.
Qed.
End Reading.

(** ** Substring search *)

Section Search.
Context (m : mem) (Hwf : mem_wf m).

(** One attempt: with [s'] and [t'] left to compare it ends the search, or it
    moves on to the next start after at most [length t'] further rounds. *)
Lemma strstr_attempt substr s' t' str a b fuel :
  cstr m a s' -> cstr m b t' -> (length t' < fuel)%nat ->
  if is_prefix t' s' then loop (strstr_step m substr) fuel (str, a, b) = Ok str
  else (loop (strstr_step m substr) fuel (str, a, b) = Ok 0 /\ (length s' < length t')%nat) \/
       (s' <> [] /\ exists k, (k <= length t')%nat /\
        loop (strstr_step m substr) fuel (str, a, b) =
        loop (strstr_step m substr) (fuel - k) (idx str 1, idx str 1, substr)).
Proof.
  revert s' a b fuel. induction t' as [|d t IH]; intros s' a b fuel Ha Hb Hf;
    (destruct fuel as [|fuel]; [simpl in Hf; lia|]); rewrite loop_step; unfold strstr_step.
  { simpl. by rewrite (cstr_end _ _ Hb). }
  apply (cstr_char m Hwf) in Hb as (-> & Hd & Hb & ->). simpl.
  rewrite (proj2 (Z.eqb_neq d 0)) by lia.
  destruct s' as [|c s].
  { left. rewrite (cstr_end _ _ Ha). simpl. split; [done|lia]. }
  apply (cstr_char m Hwf) in Ha as (-> & Hc & Ha & ->). simpl.
  rewrite (proj2 (Z.eqb_neq c 0)) by lia. rewrite s8_eqb by lia.
  destruct (Z.eqb_spec c d) as [->|]; simpl.
  - assert (length t < fuel)%nat as Hf' by (simpl in Hf; lia).
    specialize (IH s (a + 1) (b + 1) fuel Ha Hb Hf').
    destruct (is_prefix t s); [done|].
    destruct IH as [[IH Hl]|(Hs & k & Hk & IH)]; [left; split; [done|lia]|].
    right. split; [done|]. exists (S k). split; [lia|]. exact IH.
  - right. split; [done|]. exists 1%nat. split; [lia|]. by rewrite Nat.sub_1_r.
Qed.

Lemma is_prefix_length t s : is_prefix t s = true -> (length t <= length s)%nat.
Proof.
  revert s. induction t as [|b t IH]; intros [|a s]; simpl; try done; [lia|].
  intros [_ H]%andb_true_iff. specialize (IH s H). lia.
Qed.

Lemma find_sub_short t s : (length s < length t)%nat -> find_sub t s = None.
Proof.
  assert (forall u, (length u < length t)%nat -> is_prefix t u = false) as Hp.
  { intros u Hu. destruct (is_prefix t u) eqn:E; [|done].
    apply is_prefix_length in E. lia. }
  induction s as [|a s IH]; intros Hl; cbn [find_sub]; rewrite Hp by done; [done|].
  rewrite IH by (simpl in Hl; lia). done.
Qed.

Lemma strstr_loop t substr s str fuel :
  cstr m str s -> cstr m substr t ->
  (S (length s) * S (length t) <= fuel)%nat ->
  loop (strstr_step m substr) fuel (str, str, substr) =
  Ok match find_sub t s with Some k => str + k | None => 0 end.
Proof.
  intros Hs Ht. revert str fuel Hs. induction s as [|a s IH]; intros str fuel Hs Hf;
    pose proof (strstr_attempt substr _ t str str substr fuel Hs Ht) as H;
    (assert (length t < fuel)%nat as Hlt by (simpl in *; lia)); specialize (H Hlt);
    cbn [find_sub]; destruct (is_prefix t _).
  - by rewrite H, Z.add_0_r.
  - destruct H as [[-> _]|[? _]]; done.
  - by rewrite H, Z.add_0_r.
  - destruct H as [[-> Hl]|(_ & k & Hk & ->)].
    + rewrite find_sub_short by (simpl in Hl; lia). done.
    + apply (cstr_char m Hwf) in Hs as (_ & _ & Hs & ->).
      rewrite IH by (done || simpl in Hf; lia).
      destruct (find_sub t s) as [i|]; simpl; [|done]. f_equal. lia.
Qed.

Lemma strstr_cstr p q s t : cstr m p s -> cstr m q t ->
  strstr m p q = Ok match find_sub t s with Some k => p + k | None => 0 end.
Proof.
  intros Hs Ht. apply strstr_loop; [done..|].
  pose proof (cstr_fuel _ _ _ Hs). pose proof (cstr_fuel _ _ _ Ht). nia.
Qed.

(** What the reference function means. *)
Lemma is_prefix_spec t s : is_prefix t s = true <-> exists u, s = t ++ u.
Proof.
  revert s. induction t as [|b t IH]; intros s; simpl; [split; eauto|].
  destruct s as [|a s]; [split; [done|by intros [u ?]]|].
  rewrite andb_true_iff, IH, Z.eqb_eq. split.
  - intros [-> [u ->]]. by exists u.
  - intros [u [= -> ->]]. eauto.
Qed.

Lemma find_sub_None t s : find_sub t s = None -> forall u v, s <> u ++ t ++ v.
Proof.
  intros Hf u v E. subst s. induction u as [|a u IH].
  - simpl in Hf. assert (is_prefix t (t ++ v) = true) as Hp by (apply is_prefix_spec; eauto).
    destruct (t ++ v); cbn [find_sub] in Hf; by rewrite Hp in Hf.
  - cbn [find_sub app] in Hf. destruct (is_prefix t _); [done|].
    apply IH. by apply fmap_None in Hf.
Qed.

Lemma find_sub_Some t s k : find_sub t s = Some k ->
  (exists u v, s = u ++ t ++ v /\ k = Z.of_nat (length u)) /\
  (forall u v, s = u ++ t ++ v -> k <= Z.of_nat (length u)).
Proof.
  revert k. induction s as [|a s IH]; intros k; cbn [find_sub];
    destruct (is_prefix t _) eqn:E; try done.
  - intros [= <-]. apply is_prefix_spec in E as [v E].
    split; [by exists [], v|lia].
  - intros [= <-]. apply is_prefix_spec in E as [v E].
    split; [by exists [], v|lia].
  - destruct (find_sub t s) as [j|]; [|done]. simpl. intros [= <-].
    destruct (IH j eq_refl) as [(u & v & -> & ->) Hmin]. split.
    + exists (a :: u), v. simpl. split; [done|lia].
    + intros [|b u'] v' E'; [|injection E' as _ E'; apply Hmin in E'; simpl; lia].
      simpl in E'. rewrite E' in E. assert (is_prefix t (t ++ v') = true); [|congruence].
      apply is_prefix_spec. eauto.
Qed.
End Search.

(** ** Writing routines *)

Section Writing.
Lemma cstr_frame m m' p s q n :
  same_outside m m' q n -> disjoint_ranges q n p (Z.of_nat (length s) + 1) ->
  cstr m p s -> cstr m' p s.
Proof.
  intros Hs Hd [H Hn]. split; [|done]. eapply bytes_at_frame; [done| |done].
  rewrite length_app. simpl. by rewrite Nat2Z.inj_add.
Qed.

Lemma store8_valid m d c n : valid m d n -> 0 < n -> 0 <= c < 256 ->
  store8 m d c = Ok (write_bytes m d [c]).
Proof.
  intros Hv Hn Hc. rewrite store8_Ok.
  - by rewrite u8_small.
  - specialize (Hv 0). rewrite Z.add_0_r in Hv. apply Hv. lia.
Qed.

(** The copy loops write the characters they pass and stop behind them.  The
    bounded loop is the general one. *)
Lemma copy_n_loop m d p s n fuel :
  mem_wf m -> cstr m p s -> 0 <= n < W64 ->
  valid m d (Z.of_nat (length s) + 1) ->
  disjoint_ranges d (Z.of_nat (length s) + 1) p (Z.of_nat (length s) + 1) ->
  (length s < fuel)%nat ->
  loop copy_n_step fuel (m, d, p, n) =
  Ok (write_bytes m d (take (Z.to_nat n) s),
      d + Z.min n (Z.of_nat (length s))).
Proof.
  intros Hwf Hs Hn Hv Hd Hf. revert m d p n fuel Hwf Hs Hn Hv Hd Hf.
  induction s as [|c s IH]; intros m d p n fuel Hwf Hs Hn Hv Hd Hf;
    (destruct fuel as [|fuel]; [simpl in Hf; lia|]); rewrite loop_step; simpl copy_n_step.
  { rewrite (cstr_end _ _ Hs). simpl. rewrite take_nil. simpl. do 2 f_equal. lia. }
  pose proof (cstr_char _ Hwf _ _ _ Hs) as (-> & Hc & Hs' & ->). simpl.
  rewrite (proj2 (Z.eqb_neq c 0)) by lia. simpl.
  destruct (Z.eqb_spec n 0) as [->|Hn0].
  { simpl. do 2 f_equal. lia. }
  rewrite (store8_valid _ _ _ _ Hv) by lia. bind_simpl.
  pose proof Hv as Hr. apply (valid_range _ _ _ Hwf) in Hr; [|lia].
  simpl length in *. rewrite u64_small by lia.
  assert (idx d 1 = d + 1) as -> by (apply u64_small; lia).
  rewrite IH.
  - replace (Z.to_nat n) with (S (Z.to_nat (n - 1))) by lia. simpl.
    do 2 f_equal. lia.
  - apply write_bytes_wf; [done| |by repeat constructor; lia].
    apply (valid_sub _ _ _ _ _ Hv); simpl; lia.
  - apply (cstr_frame m _ _ _ d 1); [apply (write_bytes_same_outside _ _ [c])| |done].
    unfold disjoint_ranges in *. lia.
  - lia.
  - eapply valid_same_dom; [apply write_bytes_same_dom|];
      apply (valid_sub _ _ _ _ _ Hv); simpl; lia.
  - unfold disjoint_ranges in *. lia.
  - lia.
Qed.

(** Without a bound the loop is the bounded one with a bound it cannot reach. *)
Lemma copy_as_copy_n fuel m d p n :
  Z.of_nat fuel <= n < W64 -> loop copy_step fuel (m, d, p) = loop copy_n_step fuel (m, d, p, n).
Proof.
  revert m d p n. induction fuel as [|fuel IH]; intros m d p n Hn; [done|].
  rewrite !loop_step. simpl copy_n_step. simpl copy_step.
  destruct (load8 m p) as [c| | | |]; simpl; try done.
  rewrite (proj2 (Z.eqb_neq n 0)) by lia. rewrite orb_false_r.
  destruct (c =? 0); simpl; [done|]. destruct (store8 m d c); simpl; try done.
  rewrite u64_small by lia. apply IH. lia.
Qed.

Section Copy.
Context (m : mem) (Hwf : mem_wf m) (d p : Z) (s : list Z).
Context (Hs : cstr m p s) (Hv : valid m d (Z.of_nat (length s) + 1)).
Context (Hd : disjoint_ranges d (Z.of_nat (length s) + 1) p (Z.of_nat (length s) + 1)).

Lemma copy_until_nul_cstr :
  copy_until_nul m d p = Ok (write_bytes m d s, d + Z.of_nat (length s)).
Proof.
  assert (Z.of_nat (S (length s)) < W64) as Hr.
  { pose proof Hv as H1. apply (valid_range _ _ _ Hwf) in H1; [|lia].
    pose proof (cstr_valid _ _ _ Hs) as H2. apply (valid_range _ _ _ Hwf) in H2; [|lia].
    unfold disjoint_ranges in Hd. lia. }
  pose proof (cstr_fuel _ _ _ Hs) as Hf.
  assert (loop copy_step (S (length s)) (m, d, p) =
          Ok (write_bytes m d s, d + Z.of_nat (length s))) as E.
  { rewrite (copy_as_copy_n _ _ _ _ (Z.of_nat (S (length s)))) by lia.
    rewrite (copy_n_loop _ _ _ s) by (done || lia).
    rewrite take_ge by lia. do 2 f_equal. lia. }
  unfold copy_until_nul. rewrite (loop_mono _ (S (length s))); [done|lia|by rewrite E].
Qed.

Lemma copy_until_nul_n_cstr n : 0 <= n < W64 ->
  copy_until_nul_n m d p n =
  Ok (write_bytes m d (take (Z.to_nat n) s), d + Z.of_nat (length (take (Z.to_nat n) s))).
Proof.
  intros Hn. unfold copy_until_nul_n. rewrite (copy_n_loop _ _ _ s); try done.
  - rewrite length_take. do 2 f_equal. lia.
  - by eapply cstr_fuel.
Qed.

Lemma terminate_write l :
  (length l <= length s)%nat ->
  store8 (write_bytes m d l) (d + Z.of_nat (length l)) 0 = Ok (write_bytes m d (l ++ [0])).
Proof.
  intros Hl. rewrite store8_Ok; [by rewrite write_bytes_snoc|].
  apply write_bytes_same_dom.
  - apply (valid_sub _ _ _ _ _ Hv); lia.
  - apply Hv. lia.
Qed.

Lemma strcpy_cstr : strcpy m d p = Ok (d, write_bytes m d (s ++ [0])).
Proof.
  unfold strcpy. rewrite copy_until_nul_cstr. bind_simpl.
  by rewrite terminate_write.
Qed.

Lemma strncpy_cstr n : 0 <= n < W64 ->
  strncpy m d p n = Ok (d, write_bytes m d (take (Z.to_nat n) s ++ [0])).
Proof.
  intros Hn. unfold strncpy. rewrite copy_until_nul_n_cstr by done. bind_simpl.
  rewrite terminate_write; [done|]. rewrite length_take. lia.
Qed.
End Copy.

(** Appending behind a string already at [d]. *)
Section Append.
Context (m : mem) (Hwf : mem_wf m) (d p : Z) (s t : list Z).
Context (Ht : cstr m d t) (Hs : cstr m p s).
Let e := d + Z.of_nat (length t).
Context (Hv : valid m e (Z.of_nat (length s) + 1)).
Context (Hd : disjoint_ranges e (Z.of_nat (length s) + 1) p (Z.of_nat (length s) + 1)).

Lemma idx_end : idx d (Z.of_nat (length t)) = e.
Proof. apply (idx_valid m); [done|]. rewrite (cstr_nul _ _ _ Ht). eauto. Qed.

Lemma strcat_cstr : strcat m d p = Ok (d, write_bytes m e (s ++ [0])).
Proof.
  unfold strcat. rewrite (strlen_cstr _ Hwf _ _ Ht). bind_simpl. rewrite idx_end.
  rewrite (copy_until_nul_cstr _ Hwf _ _ _ Hs Hv Hd). bind_simpl.
  by rewrite (terminate_write _ _ _ Hv).
Qed.

Lemma strncat_cstr n : 0 <= n < W64 ->
  strncat m d p n = Ok (d, write_bytes m e (take (Z.to_nat n) s ++ [0])).
Proof.
  intros Hn. unfold strncat. rewrite (strlen_cstr _ Hwf _ _ Ht). bind_simpl. rewrite idx_end.
  rewrite (copy_until_nul_n_cstr _ Hwf _ _ _ Hs Hv Hd n Hn). bind_simpl.
  rewrite (terminate_write _ _ _ Hv); [done|]. rewrite length_take. lia.
Qed.
End Append.
End Writing.

(** ** Raw memory *)

Section Raw.
Context (m : mem) (Hwf : mem_wf m).

Lemma take_snoc (l : list Z) i b :
  0 <= i -> l !! Z.to_nat i = Some b -> take (Z.to_nat (i + 1)) l = take (Z.to_nat i) l ++ [b].
Proof.
  intros Hi Hl. replace (Z.to_nat (i + 1)) with (S (Z.to_nat i)) by lia.
  by apply take_S_r.
Qed.

Lemma length_take_Z (l : list Z) i :
  0 <= i <= Z.of_nat (length l) -> Z.of_nat (length (take (Z.to_nat i) l)) = i.
Proof. intros. rewrite length_take. lia. Qed.

(** One byte of a left-to-right write of [l] at [d]. *)
Lemma write_bytes_step d l i b :
  valid m d (Z.of_nat (length l)) -> 0 <= i -> l !! Z.to_nat i = Some b ->
  0 <= b < 256 ->
  store8 (write_bytes m d (take (Z.to_nat i) l)) (d + i) b =
  Ok (write_bytes m d (take (Z.to_nat (i + 1)) l)).
Proof.
  intros Hv Hi Hl Hb. pose proof (lookup_Z_lt_Some _ _ _ Hi Hl) as Hlt.
  rewrite store8_Ok.
  - rewrite (take_snoc _ _ b), write_bytes_snoc by done. rewrite length_take_Z by lia.
    by rewrite u8_small.
  - apply write_bytes_same_dom; [|apply Hv; lia].
    rewrite length_take_Z by lia. apply (valid_sub _ _ _ _ _ Hv); lia.
Qed.

Lemma memset_valid d c n :
  valid m d n -> 0 <= n ->
  memset m d c n = Ok (d, write_bytes m d (replicate (Z.to_nat n) (u8 c))).
Proof.
  intros Hv Hn. unfold memset. set (l := replicate (Z.to_nat n) (u8 c)).
  assert (Z.of_nat (length l) = n) as Hl by (unfold l; rewrite length_replicate; lia).
  destruct (for_range_inv 0 n (fun i m => store8 m (idx d i) (u8 c))
              (fun i m' => m' = write_bytes m d (take (Z.to_nat i) l)) m) as (m' & -> & ->);
    [done|done| |].
  - intros i m' Hi ->. eexists. split; [cbv beta|done].
    rewrite (idx_valid m) by (done || apply Hv; lia).
    apply write_bytes_step; [by rewrite Hl|lia| |apply u8_range].
    apply lookup_replicate. split; [done|lia].
  - bind_simpl. by rewrite take_ge by lia.
Qed.

(** Copying forwards is right when the destination does not lie inside the
    source: the byte read in round [i] has not been written yet. *)
Lemma copy_forward d p l :
  bytes_at m p l -> valid m d (Z.of_nat (length l)) ->
  d <= p \/ p + Z.of_nat (length l) <= d ->
  for_range 0 (Z.of_nat (length l)) (fun i m =>
    b ← load8 m (idx p i); store8 m (idx d i) b) m = Ok (write_bytes m d l).
Proof.
  intros Hp Hv Hd.
  destruct (for_range_inv 0 (Z.of_nat (length l))
              (fun i m => b ← load8 m (idx p i); store8 m (idx d i) b)
              (fun i m' => m' = write_bytes m d (take (Z.to_nat i) l)) m) as (m' & -> & ->);
    [lia|done| |by rewrite take_ge by lia].
  intros i m' Hi ->. destruct (lookup_Z_is_Some l i) as [b Hb]; [lia|].
  assert (m !! (p + i) = Some b) as Hm by (eapply bytes_at_lookup; eauto; lia).
  eexists. split; [cbv beta|done].
  rewrite (idx_valid m p) by (done || eauto). rewrite (load8_Ok _ _ b).
  - bind_simpl. rewrite (idx_valid m d) by (done || apply Hv; lia).
    apply write_bytes_step; [done|lia|done|]. by apply Hwf in Hm as [_ ?].
  - rewrite lookup_write_bytes_out; [done|]. rewrite length_take_Z by lia.
    unfold in_range. lia.
Qed.

Lemma memcpy_bytes d p l :
  bytes_at m p l -> valid m d (Z.of_nat (length l)) ->
  disjoint_ranges d (Z.of_nat (length l)) p (Z.of_nat (length l)) ->
  memcpy m d p (Z.of_nat (length l)) = Ok (d, write_bytes m d l).
Proof.
  intros Hp Hv Hd. unfold memcpy. rewrite copy_forward; try done.
  unfold disjoint_ranges in Hd. lia.
Qed.

(** [memmove] towards lower addresses. *)
Lemma memmove_down d p l :
  bytes_at m p l -> valid m d (Z.of_nat (length l)) -> d < p ->
  memmove m d p (Z.of_nat (length l)) = Ok (d, write_bytes m d l).
Proof.
  intros Hp Hv Hd. unfold memmove. rewrite (proj2 (Z.ltb_lt d p)) by done.
  rewrite copy_forward by (done || lia). done.
Qed.

(** [memmove] towards higher addresses starts at index [-1]. *)
Lemma memmove_up d p l :
  bytes_at m (p - 1) l -> valid m (d - 1) (Z.of_nat (length l)) ->
  p < d -> p + Z.of_nat (length l) <= d ->
  memmove m d p (Z.of_nat (length l)) = Ok (d, write_bytes m (d - 1) l).
Proof.
  intros Hp Hv H0 Hd. unfold memmove. rewrite (proj2 (Z.ltb_ge d p)) by lia.
  rewrite (proj2 (Z.ltb_lt p d)) by lia.
  rewrite (for_range_ext _ _ _ (fun i m =>
    b ← load8 m (idx (p - 1) i); store8 m (idx (d - 1) i) b)).
  - rewrite copy_forward by (done || lia). done.
  - intros i m' _. unfold idx. rewrite !u64_add_idemp_r.
    by replace (p + (i - 1)) with (p - 1 + i) by lia;
      replace (d + (i - 1)) with (d - 1 + i) by lia.
Qed.

Lemma take_eq_snoc (l1 l2 : list Z) k a :
  0 <= k -> l1 !! Z.to_nat k = Some a -> l2 !! Z.to_nat k = Some a ->
  take (Z.to_nat k) l1 = take (Z.to_nat k) l2 ->
  take (Z.to_nat (k + 1)) l1 = take (Z.to_nat (k + 1)) l2.
Proof. intros Hk H1 H2 E. by rewrite (take_snoc _ _ a), (take_snoc l2 _ a), E. Qed.

(** The blocks differ first at [k]; the sign of [r] compares the byte of the
    first block with [p2[2]], wherever the difference is. *)
Definition memcmp_differs (q : Z) (l1 l2 : list Z) (r : Z) : Prop :=
  exists k a b v, 0 <= k /\ take (Z.to_nat k) l1 = take (Z.to_nat k) l2 /\
    l1 !! Z.to_nat k = Some a /\ l2 !! Z.to_nat k = Some b /\ a <> b /\
    m !! (q + 2) = Some v /\ r = (if a <? v then -1 else 1).

(** The answer is 0 exactly on equal blocks.  [p2[2]] must be mapped. *)
Lemma memcmp_bytes p q l1 l2 :
  bytes_at m p l1 -> bytes_at m q l2 -> length l1 = length l2 ->
  Z.of_nat (length l1) < W64 -> is_Some (m !! (q + 2)) ->
  exists r, memcmp m p q (Z.of_nat (length l1)) = Ok r /\
    ((l1 = l2 /\ r = 0) \/ memcmp_differs q l1 l2 r).
Proof.
  intros Hp Hq Hl Hw [v2 H2]. unfold memcmp.
  match goal with |- context [loop ?b _ _] =>
    apply (loop_total b
      (fun n k => 0 <= k /\ k + Z.of_nat n = Z.of_nat (length l1) /\
                  take (Z.to_nat k) l1 = take (Z.to_nat k) l2)
      (fun r => (l1 = l2 /\ r = 0) \/ memcmp_differs q l1 l2 r))
      with (n := length l1) end.
  2:{ split_and!; [lia..|done]. }
  2:{ apply bytes_at_valid, (valid_size m) in Hp. unfold scan_fuel. lia. }
  intros n k (Hk & Hn & He). destruct (Z.ltb_spec k (Z.of_nat (length l1))) as [Hlt|Hge].
  - destruct (lookup_Z_is_Some l1 k) as [a Ha]; [lia|].
    destruct (lookup_Z_is_Some l2 k) as [b Hb]; [lia|].
    rewrite (load8_idx _ Hwf p k a) by (eapply bytes_at_lookup; eauto).
    rewrite (load8_idx _ Hwf q k b) by (eapply bytes_at_lookup; eauto). bind_simpl.
    destruct (Z.eqb_spec a b) as [->|Hne].
    + left. exists (k + 1), (n - 1)%nat. rewrite u64_small by lia.
      split_and!; [done|lia|lia|lia|]. by apply (take_eq_snoc _ _ _ b).
    + right. rewrite (load8_idx _ Hwf q 2 v2) by done. bind_simpl. eexists. split; [done|].
      right. exists k, a, b, v2. split_and!; done.
  - right. exists 0. split; [done|]. rewrite !take_ge in He by lia. by left.
Qed.

Lemma memchr_bytes p l c :
  bytes_at m p l -> Z.of_nat (length l) < W64 ->
  memchr m p c (Z.of_nat (length l)) =
  Ok match list_find (fun x => x = c) l with Some (i, _) => p + Z.of_nat i | None => 0 end.
Proof.
  intros Hp Hw. unfold memchr.
  assert (length l < scan_fuel m)%nat as Hf.
  { apply bytes_at_valid, (valid_size m) in Hp. unfold scan_fuel. lia. }
  remember (scan_fuel m) as fuel eqn:E. clear E.
  revert p fuel Hp Hf. induction l as [|b l IH]; intros p fuel Hp Hf;
    (destruct fuel as [|fuel]; [simpl in Hf; lia|]); rewrite loop_step; [done|].
  rewrite (proj2 (Z.ltb_lt 0 (Z.of_nat (length (b :: l))))) by (simpl; lia).
  apply bytes_at_cons in Hp as [Hb Hp]. rewrite (load8_Ok _ _ _ Hb). simpl length. bind_simpl.
  cbn [list_find]. destruct (Z.eqb_spec b c) as [->|Hne].
  - rewrite decide_True by done. simpl. f_equal. lia.
  - rewrite decide_False by done. rewrite u64_small by (simpl in Hw; lia).
    destruct l as [|b' l'].
    + destruct fuel; [simpl in Hf; lia|]. done.
    + assert (idx p 1 = p + 1) as ->.
      { apply (idx_valid m); [done|]. apply bytes_at_cons in Hp as [Hb' _]. eauto. }
      replace (Z.of_nat (S (length (b' :: l'))) - 1) with (Z.of_nat (length (b' :: l'))) by lia.
      bind_simpl. rewrite IH by (done || simpl in *; lia).
      destruct (list_find _ (b' :: l')) as [[i x]|]; simpl; [|done]. f_equal. lia.
Qed.

(** [strrev] swaps from both ends. *)
Definition rev_progress (s : list Z) (k x : Z) : option Z :=
  if (x <? k) || (Z.of_nat (length s) - k <=? x)
  then s !! Z.to_nat (Z.of_nat (length s) - 1 - x) else s !! Z.to_nat x.

Definition rev_inv (p : Z) (s : list Z) (k : Z) (m' : mem) : Prop :=
  same_outside m m' p (Z.of_nat (length s)) /\
  forall x, 0 <= x < Z.of_nat (length s) -> m' !! (p + x) = rev_progress s k x.

Lemma rev_swap p s k m' :
  rev_inv p s k m' -> 0 <= k -> k < Z.of_nat (length s) - 1 - k ->
  Forall (fun c => 0 <= c < 256) s -> 0 <= p -> p + Z.of_nat (length s) <= W64 ->
  exists m'', strrev_step (m', p, k, Z.of_nat (length s) - 1 - k) =
                Ok (inl (m'', p, k + 1, Z.of_nat (length s) - 1 - (k + 1))) /\
              rev_inv p s (k + 1) m''.
Proof.
  intros [Hout Hin] Hk Hlt Hs Hp0 Hp1. set (j := Z.of_nat (length s) - 1 - k) in *.
  destruct (lookup_Z_is_Some s k) as [a Ha]; [lia|].
  destruct (lookup_Z_is_Some s j) as [b Hb]; [lia|].
  pose proof (Forall_lookup_1 _ _ _ _ Hs Ha) as Hra.
  pose proof (Forall_lookup_1 _ _ _ _ Hs Hb) as Hrb. cbv beta in Hra, Hrb.
  assert (forall x, 0 <= x < Z.of_nat (length s) -> idx p x = p + x) as Hidx.
  { intros x Hx. apply u64_small. lia. }
  assert (m' !! (p + k) = Some a) as Hma.
  { rewrite Hin by lia. unfold rev_progress. rewrite (proj2 (Z.ltb_ge k k)) by lia.
    rewrite (proj2 (Z.leb_gt _ _)) by lia. done. }
  assert (m' !! (p + j) = Some b) as Hmb.
  { rewrite Hin by lia. unfold rev_progress. rewrite (proj2 (Z.ltb_ge j k)) by lia.
    rewrite (proj2 (Z.leb_gt _ _)) by lia. done. }
  simpl. rewrite (proj2 (Z.ltb_lt k j)), !Hidx by lia.
  rewrite (load8_Ok _ _ _ Hma), (load8_Ok _ _ _ Hmb). bind_simpl.
  rewrite store8_Ok by eauto. bind_simpl.
  rewrite store8_Ok by (rewrite lookup_insert_ne by lia; eauto). bind_simpl.
  rewrite !u64_small by lia. eexists. split.
  { by replace (Z.of_nat (length s) - 1 - (k + 1)) with (j - 1) by lia. }
  rewrite !u8_small by lia. split.
  - intros x Hx. unfold in_range in Hx. rewrite !lookup_insert_ne by lia. by apply Hout.
  - intros x Hx. unfold rev_progress.
    destruct (decide (x = k)) as [->|]; [|destruct (decide (x = j)) as [->|]].
    + rewrite lookup_insert_ne, lookup_insert_eq by lia.
      rewrite (proj2 (Z.ltb_lt k (k + 1))) by lia. simpl. rewrite <- Hb. f_equal.
    + rewrite lookup_insert_eq. rewrite (proj2 (Z.leb_le _ j)), orb_true_r by lia.
      rewrite <- Ha. f_equal. lia.
    + rewrite !lookup_insert_ne, Hin by lia. unfold rev_progress.
      destruct (Z.ltb_spec x k), (Z.ltb_spec x (k + 1)); try lia; simpl; [done|].
      destruct (Z.leb_spec (Z.of_nat (length s) - k) x),
        (Z.leb_spec (Z.of_nat (length s) - (k + 1)) x); try lia; done.
Qed.

Lemma rev_done p s k m' :
  rev_inv p s k m' -> Z.of_nat (length s) - 1 - k <= k -> bytes_at m' p (reverse s).
Proof.
  intros [_ Hin] Hk i Hi. rewrite length_reverse in Hi. rewrite Hin by lia.
  unfold rev_progress. rewrite <- rev_lookup_Z by done.
  destruct (Z.ltb_spec i k); [done|].
  destruct (Z.leb_spec (Z.of_nat (length s) - k) i); [done|]. simpl. f_equal. lia.
Qed.

Lemma strrev_cstr p s : cstr m p s -> s <> [] ->
  strrev m p = Ok (write_bytes m p (reverse s)).
Proof.
  intros Hs Hne. unfold strrev. rewrite (strlen_cstr m Hwf _ _ Hs). bind_simpl.
  pose proof (cstr_valid _ _ _ Hs) as Hr. apply (valid_range _ _ _ Hwf) in Hr; [|lia].
  assert (0 < length s)%nat by (destruct s; simpl; lia || done).
  assert (Forall (fun c => 0 <= c < 256) s) as Hc.
  { eapply Forall_impl; [by eapply cstr_chars|]. unfold is_char. simpl. lia. }
  rewrite u64_small by lia.
  destruct (loop_total strrev_step
    (fun n st => exists m' k, st = (m', p, k, Z.of_nat (length s) - 1 - k) /\
       0 <= k <= Z.of_nat (length s) /\ k + Z.of_nat n = Z.of_nat (length s) /\ rev_inv p s k m')
    (fun m' => m' = write_bytes m p (reverse s)))
    with (n := length s) (s := (m, p, 0, Z.of_nat (length s) - 1)) (fuel := scan_fuel m)
    as (r & -> & ->); [| |by eapply cstr_fuel|done].
  - intros n st (m' & k & -> & Hk & Hn & Hinv).
    destruct (decide (k < Z.of_nat (length s) - 1 - k)).
    + left. destruct (rev_swap p s k m') as (m'' & E & Hinv'); try done; try lia.
      eexists _, (n - 1)%nat. split; [exact E|]. split; [lia|].
      exists m'', (k + 1). split_and!; try done; lia.
    + right. exists m'. simpl. rewrite (proj2 (Z.ltb_ge _ _)) by lia. split; [done|].
      apply write_bytes_unique; [rewrite length_reverse; apply Hinv|].
      eapply rev_done; [done|lia].
  - exists m, 0. rewrite Z.sub_0_r. split; [done|]. split; [lia|]. split; [lia|]. split; [done|].
    intros x Hx. unfold rev_progress. rewrite (proj2 (Z.ltb_ge x 0)) by lia.
    rewrite (proj2 (Z.leb_gt _ _)) by lia. simpl.
    destruct Hs as [Hs _]. rewrite Hs by (rewrite length_app; simpl; lia).
    apply lookup_app_l. lia.
Qed.
End Raw.

(** ** Theorems *)

(** A memory with two strings, ["banana"] at 100 and ["nan"] at 120, and 64
    mapped bytes in all, to instantiate the theorems on. *)
Definition sample_mem : mem :=
  write_bytes (write_bytes (write_bytes ∅ 96 (replicate 64 7))
    100 [98; 97; 110; 97; 110; 97; 0]) 120 [110; 97; 110; 0].

(** C21: on a NUL-terminated string [strlen] returns its length, and on any pointer
    whatsoever, terminated string or not, its loop ends. *)
Theorem strlen_correct m p :
  mem_wf m -> Z.of_nat (size m) < W64 ->
  terminates (strlen m p) /\
  forall s, cstr m p s -> strlen m p = Ok (Z.of_nat (length s)).
Proof.
  intros Hwf Hsz. split; [|intros s; by apply strlen_cstr].
  apply (scan_terminates m _ p (scan_fuel m) 0); [done| | |lia|unfold scan_fuel; lia].
  - intros i. unfold load8. destruct (m !! _); simpl; [by case_match|done].
  - intros i j. unfold load8. destruct (m !! _) eqn:E; simpl; [|done].
    case_match; [done|]. intros [= <-]. eauto.
Qed.

Lemma strlen_correct_witness :
  terminates (strlen sample_mem 100) /\ strlen sample_mem 100 = Ok 6.
Proof.
  destruct (strlen_correct sample_mem 100) as [Ht Hs]; [mem_check|vm_compute; reflexivity|].
  split; [exact Ht|]. apply (Hs [98; 97; 110; 97; 110; 97]). mem_check.
Defined.

(** [strcmp] on two strings returns the difference of their first differing
    (signed) characters, the end counting as 0; it is 0 exactly on equal
    strings. *)
Lemma strcmp_correct m p q s t :
  mem_wf m -> cstr m p s -> cstr m q t ->
  strcmp m p q = Ok (strcmp_ref s t) /\ (strcmp m p q = Ok 0 <-> s = t).
Proof.
  intros Hwf Hs Ht. rewrite (strcmp_cstr m Hwf _ _ _ _ Hs Ht). split; [done|].
  rewrite <- (strcmp_ref_0 s t) by eauto using cstr_chars. split; congruence.
Qed.

Lemma strcmp_correct_witness : strcmp sample_mem 102 120 = Ok 97.
Proof.
  destruct (strcmp_correct sample_mem 102 120 [110; 97; 110; 97] [110; 97; 110]) as [E _];
    [mem_check|mem_check|mem_check|exact E].
Defined.

(** [strncmp] compares the prefixes of at most [n] characters, for every
    [n] a [size_t] holds. *)
Theorem strncmp_correct m p q s t n :
  mem_wf m -> cstr m p s -> cstr m q t -> 0 <= n < W64 ->
  strncmp m p q n = Ok (strcmp_ref (take (Z.to_nat n) s) (take (Z.to_nat n) t)) /\
  (strncmp m p q n = Ok 0 <-> take (Z.to_nat n) s = take (Z.to_nat n) t).
Proof.
  intros Hwf Hs Ht Hn. rewrite (strncmp_cstr m Hwf _ _ _ _ n Hs Ht Hn). split; [done|].
  rewrite <- strcmp_ref_0 by (apply Forall_take; eauto using cstr_chars).
  split; congruence.
Qed.

Lemma strncmp_correct_witness : strncmp sample_mem 102 120 3 = Ok 0.
Proof.
  destruct (strncmp_correct sample_mem 102 120 [110; 97; 110; 97] [110; 97; 110] 3) as [E _];
    [mem_check|mem_check|mem_check|lia|exact E].
Defined.

(** [strcpy] into [strlen + 1] mapped bytes that do not meet the source
    makes the destination a copy of the string, and [strcat] then appends
    another one behind it; both return the destination, and only the bytes of
    the result are written. *)
Lemma strcpy_strcat_correct m d p s q t :
  let n := Z.of_nat (length s) in let k := Z.of_nat (length t) in
  mem_wf m -> cstr m p s -> cstr m q t -> valid m d (n + k + 1) ->
  disjoint_ranges d (n + k + 1) p (n + 1) -> disjoint_ranges d (n + k + 1) q (k + 1) ->
  exists m1 m2,
    strcpy m d p = Ok (d, m1) /\ strcat m1 d q = Ok (d, m2) /\
    cstr m1 d s /\ cstr m2 d (s ++ t) /\
    same_outside m m1 d (n + 1) /\ same_outside m m2 d (n + k + 1).
Proof.
  intros n k Hwf Hs Ht Hv Hdp Hdq. unfold n, k, disjoint_ranges in *.
  assert (valid m d (Z.of_nat (length s) + 1)) as Hv1 by (apply (valid_sub _ _ _ _ _ Hv); lia).
  set (m1 := write_bytes m d (s ++ [0])).
  assert (Z.of_nat (length (s ++ [0])) = Z.of_nat (length s) + 1) as Hl
    by (rewrite length_app; simpl; lia).
  assert (mem_wf m1) as Hwf1.
  { apply write_bytes_wf; [done|by rewrite Hl|].
    apply Forall_app_2; [|by repeat constructor; lia].
    eapply Forall_impl; [by eapply cstr_chars|]. unfold is_char. simpl. lia. }
  assert (same_outside m m1 d (Z.of_nat (length s) + 1)) as Hout1
    by (rewrite <- Hl; apply write_bytes_same_outside).
  assert (cstr m1 d s) as Hs1 by (split; [apply write_bytes_bytes_at|apply Hs]).
  assert (cstr m1 q t) as Ht1 by (eapply cstr_frame; eauto; unfold disjoint_ranges; lia).
  assert (valid m1 (d + Z.of_nat (length s)) (Z.of_nat (length t) + 1)) as Hv2.
  { eapply valid_same_dom; [apply write_bytes_same_dom; by rewrite Hl|].
    apply (valid_sub _ _ _ _ _ Hv); lia. }
  exists m1, (write_bytes m1 (d + Z.of_nat (length s)) (t ++ [0])). split_and!; [|  |done| |done|].
  - apply strcpy_cstr; try done. unfold disjoint_ranges. lia.
  - apply (strcat_cstr m1 Hwf1 d q t s); try done. unfold disjoint_ranges. lia.
  - split; [|apply Forall_app_2; [apply Hs|apply Ht]]. rewrite <- app_assoc.
    apply bytes_at_app. split; [|apply write_bytes_bytes_at].
    eapply bytes_at_frame; [apply write_bytes_same_outside|unfold disjoint_ranges; lia|].
    by apply bytes_at_app in Hs1 as [[H _]%bytes_at_app _] || by destruct Hs1 as [[H _]%bytes_at_app _].
  - intros a Ha. unfold in_range in Ha. rewrite lookup_write_bytes_out.
    + apply Hout1. unfold in_range. lia.
    + rewrite length_app. unfold in_range. simpl. lia.
Qed.

Lemma strcpy_strcat_correct_witness :
  exists m1 m2,
    strcpy sample_mem 140 120 = Ok (140, m1) /\ strcat m1 140 100 = Ok (140, m2) /\
    cstr m2 140 [110; 97; 110; 98; 97; 110; 97; 110; 97].
Proof.
  destruct (strcpy_strcat_correct sample_mem 140 120 [110; 97; 110] 100 [98; 97; 110; 97; 110; 97])
    as (m1 & m2 & H1 & H2 & _ & H3 & _);
    [mem_check|mem_check|mem_check|mem_check|right; simpl; lia|right; simpl; lia|].
  exists m1, m2. auto.
Defined.

(** C22: [strstr] returns a pointer to the first occurrence of the substring,
    that is, to the shortest prefix before it, or null when there is none. *)
Theorem strstr_correct m p q s t :
  mem_wf m -> cstr m p s -> cstr m q t ->
  match find_sub t s with
  | Some k =>
      strstr m p q = Ok (p + k) /\
      (exists u v, s = u ++ t ++ v /\ k = Z.of_nat (length u)) /\
      (forall u v, s = u ++ t ++ v -> k <= Z.of_nat (length u))
  | None => strstr m p q = Ok 0 /\ forall u v, s <> u ++ t ++ v
  end.
Proof.
  intros Hwf Hs Ht. pose proof (strstr_cstr m Hwf _ _ _ _ Hs Ht) as E.
  destruct (find_sub t s) as [k|] eqn:Hf; (split; [done|]).
  - by apply find_sub_Some.
  - by apply find_sub_None.
Qed.

Lemma strstr_correct_witness : strstr sample_mem 100 120 = Ok 102.
Proof.
  pose proof (strstr_correct sample_mem 100 120 [98; 97; 110; 97; 110; 97] [110; 97; 110]) as H.
  simpl in H. destruct H as [E _]; [mem_check|mem_check|mem_check|exact E].
Defined.

(** [strrev] reverses a non-empty string in place, NUL left where it is.
    On the empty string the index [len - 1] wraps, and the first access behind
    the pointer faults when the byte before the string is not mapped. *)
Lemma strrev_correct m p s :
  mem_wf m -> cstr m p s ->
  (s <> [] -> strrev m p = Ok (write_bytes m p (reverse s))) /\
  (s = [] -> 0 < p -> m !! (p - 1) = None -> strrev m p = Fault (p - 1)).
Proof.
  intros Hwf Hs. split.
  - intros Hne. by apply strrev_cstr.
  - intros -> Hp Hm. unfold strrev, scan_fuel. rewrite (strlen_cstr m Hwf _ _ Hs). bind_simpl.
    apply cstr_nil in Hs. pose proof (Hwf _ _ Hs) as [Hr _].
    assert (idx p 0 = p) as E0 by (unfold idx; rewrite Z.add_0_r; by apply u64_small).
    assert (idx p (W64 - 1) = p - 1) as E1.
    { unfold idx, wrap. change (2 ^ 64) with W64.
      replace (p + (W64 - 1)) with (p - 1 + 1 * W64) by lia.
      rewrite Z.mod_add, Z.mod_small; lia. }
    rewrite loop_step. change (u64 (Z.of_nat (length []) - 1)) with (W64 - 1).
    simpl strrev_step. rewrite E0, E1, (load8_Ok _ _ _ Hs). bind_simpl.
    unfold load8. by rewrite Hm.
Qed.

Lemma strrev_correct_witness :
  strrev sample_mem 120 = Ok (write_bytes sample_mem 120 [110; 97; 110]) /\
  strrev (<[96 := 0]> sample_mem) 96 = Fault 95.
Proof.
  split.
  - apply (strrev_correct sample_mem 120 [110; 97; 110]); [mem_check|mem_check|done].
  - apply (strrev_correct (<[96 := 0]> sample_mem) 96 []); try mem_check; [done|lia|].
    vm_compute. reflexivity.
Defined.

(** C23: [memcpy] between blocks that do not meet makes the destination equal to
    the source and changes nothing else; [memset] fills exactly the given range
    with the low byte of its argument. *)
Theorem memcpy_memset_correct m d p l c n :
  mem_wf m -> bytes_at m p l -> valid m d (Z.of_nat (length l)) ->
  disjoint_ranges d (Z.of_nat (length l)) p (Z.of_nat (length l)) ->
  valid m d n -> 0 <= n ->
  memcpy m d p (Z.of_nat (length l)) = Ok (d, write_bytes m d l) /\
  bytes_at (write_bytes m d l) p l /\
  memset m d c n = Ok (d, write_bytes m d (replicate (Z.to_nat n) (u8 c))).
Proof.
  intros Hwf Hp Hv Hd Hvn Hn. split_and!.
  - by apply memcpy_bytes.
  - eapply bytes_at_frame; [apply write_bytes_same_outside|done|done].
  - by apply memset_valid.
Qed.

Lemma memcpy_memset_correct_witness :
  memcpy sample_mem 140 100 3 = Ok (140, write_bytes sample_mem 140 [98; 97; 110]) /\
  memset sample_mem 140 256 2 = Ok (140, write_bytes sample_mem 140 [0; 0]).
Proof.
  destruct (memcpy_memset_correct sample_mem 140 100 [98; 97; 110] 256 2) as (H1 & _ & H2);
    [mem_check|mem_check|mem_check|right; simpl; lia|mem_check|lia|].
  split; [exact H1|exact H2].
Defined.

(** C24: [memmove] to a lower address copies the block, overlapping or not.  To a
    higher address it runs from index [-1]: with [l] at [src - 1], it writes [l]
    at [dest - 1], so the byte before the destination is overwritten and the
    last byte of the destination is left as it was. *)
Theorem memmove_correct m d p l :
  let n := Z.of_nat (length l) in
  mem_wf m ->
  (bytes_at m p l -> valid m d n -> d < p -> memmove m d p n = Ok (d, write_bytes m d l)) /\
  (d = p -> memmove m d p n = Ok (d, m)) /\
  (bytes_at m (p - 1) l -> valid m (d - 1) n -> 0 < n -> p + n <= d ->
   memmove m d p n = Ok (d, write_bytes m (d - 1) l) /\
   write_bytes m (d - 1) l !! (d + n - 1) = m !! (d + n - 1)).
Proof.
  intros n Hwf. unfold n. split_and!.
  - intros. by apply memmove_down.
  - intros ->. unfold memmove. by rewrite Z.ltb_irrefl.
  - intros Hp Hv Hn Hd. split.
    + apply memmove_up; try done; lia.
    + apply lookup_write_bytes_out. unfold in_range. lia.
Qed.

Lemma memmove_correct_witness :
  memmove sample_mem 99 100 3 = Ok (99, write_bytes sample_mem 99 [98; 97; 110]) /\
  memmove sample_mem 140 101 3 = Ok (140, write_bytes sample_mem 139 [98; 97; 110]).
Proof.
  split.
  - apply (memmove_correct sample_mem 99 100 [98; 97; 110]); [mem_check|mem_check|mem_check|lia].
  - apply (memmove_correct sample_mem 140 101 [98; 97; 110]);
      [mem_check|mem_check|mem_check|simpl; lia|simpl; lia].
Defined.

(** [memcmp] returns 0 exactly on equal blocks.  Otherwise the sign it
    returns orders the first differing byte of the first block against the third
    byte of the second block, and not against the byte it differs from. *)
Lemma memcmp_correct m p q l1 l2 :
  mem_wf m -> bytes_at m p l1 -> bytes_at m q l2 -> length l1 = length l2 ->
  Z.of_nat (length l1) < W64 -> is_Some (m !! (q + 2)) ->
  (memcmp m p q (Z.of_nat (length l1)) = Ok 0 <-> l1 = l2) /\
  (l1 <> l2 -> exists r, memcmp m p q (Z.of_nat (length l1)) = Ok r /\ memcmp_differs m q l1 l2 r).
Proof.
  intros Hwf Hp Hq Hl Hw H2.
  destruct (memcmp_bytes m Hwf p q l1 l2) as (r & -> & [[-> ->]|Hd]); try done.
  pose proof Hd as (k & a & b & v & Hk & _ & Ha & Hb & Hab & _ & Hr).
  assert (l1 <> l2) by congruence. split; [|eauto].
  split; [|done]. intros [= ->]. by destruct (a <? v).
Qed.

Lemma memcmp_correct_witness :
  memcmp_differs sample_mem 100 [97; 110; 97] [98; 97; 110] (-1) /\
  memcmp sample_mem 101 100 3 = Ok (-1).
Proof.
  destruct (memcmp_correct sample_mem 101 100 [97; 110; 97] [98; 97; 110]) as [_ H];
    [mem_check|mem_check|mem_check|done|simpl; lia|vm_compute; eauto|].
  destruct H as (r & Hr & Hd); [done|]. change (Z.of_nat (length [97; 110; 97])) with 3 in Hr.
  assert (r = -1) as ->; [|done].
  assert (memcmp sample_mem 101 100 3 = Ok (-1)) as E by (vm_compute; reflexivity).
  rewrite E in Hr. by injection Hr as <-.
Defined.
