(* ===== verification/Frames.v ===== *)
(** * The interface between the page manager and its clients

    [memory::physical] promises its clients page frames; the heap and the page
    tables rely on nothing else of it.  [Frames] names the operations, and
    [FrameLaws] the contract: which pages a client owns, what it may write, and
    what an allocation or a release leaves alone.  [PhysicalProofs] shows that
    memory/physical.cpp keeps the contract; the clients' theorems are proved for
    any implementation of it. *)

From S2P Require Import Prelude Memory LibcString.

Abbreviation page_size := 4096.

(** The machine of a client: the direct map's offset, the memory and the two
    operations of include/memory/physical.hpp. *)
Class Frames (W : Type) := {
  hhdm_offset : Z;
  wmem : W -> mem;
  with_mem : W -> mem -> W;
  frame_alloc : Z -> W -> outcome (Z * W);
  frame_free : Z -> Z -> W -> outcome W;
}.

(** The pages [page, page + count) as a set. *)
Definition pages (page count : Z) : gset Z := list_to_set (seqZ page count).

(** Addresses in the direct map of a page, or of one of a set of pages. *)
Definition in_page (hhdm i a : Z) : Prop := in_range (hhdm + i * page_size) page_size a.
Definition in_pages (hhdm : Z) (o : gset Z) (a : Z) : Prop := exists i, i ∈ o /\ in_page hhdm i a.

Class FrameLaws (W : Type) `{Frames W} := {
  (* [frames_inv w o]: the manager's invariant, with [o] the clients' pages *)
  frames_inv : W -> gset Z -> Prop;
  (* what the manager keeps for itself or may hand out *)
  managed : W -> Z -> Prop;
  (* how many single pages it can still hand out *)
  room : W -> nat;
  (* it can still hand out [n] pages one behind the other *)
  frames_run : W -> Z -> Prop;
  wmem_with_mem : forall w m, wmem (with_mem w m) = m;
  with_mem_with_mem : forall w m m', with_mem (with_mem w m) m' = with_mem w m';
  frames_aligned : hhdm_offset mod page_size = 0;
  frames_wf : forall w o, frames_inv w o -> mem_wf (wmem w);
  frames_page : forall w o i, frames_inv w o -> i ∈ o ->
    0 < i /\ (i + 1) * page_size <= hhdm_offset /\ hhdm_offset + (i + 1) * page_size <= W64 /\
    valid (wmem w) (hhdm_offset + i * page_size) page_size /\
    forall a, in_page hhdm_offset i a -> managed w a;
  (* physical addresses have at most 52 bits *)
  frames_52 : forall w o i, frames_inv w o -> i ∈ o -> i < 1099511627776;
  frames_write : forall w o m, frames_inv w o -> mem_wf m -> same_dom (wmem w) m ->
    (forall a, managed w a -> ~ in_pages hhdm_offset o a -> m !! a = wmem w !! a) ->
    frames_inv (with_mem w m) o /\ managed (with_mem w m) = managed w /\ room (with_mem w m) = room w /\
    (forall n, frames_run w n -> frames_run (with_mem w m) n);
  frames_alloc : forall w o count, frames_inv w o -> 0 < count ->
    (exists page w', frame_alloc count w = Ok (page * page_size, w') /\
       pages page count ## o /\ frames_inv w' (pages page count ∪ o) /\
       managed w' = managed w /\ same_dom (wmem w) (wmem w') /\
       bytes_at (wmem w') (hhdm_offset + page * page_size)
                (replicate (Z.to_nat (count * page_size)) 0) /\
       (forall a, ~ managed w a \/ in_pages hhdm_offset o a -> wmem w' !! a = wmem w !! a) /\
       (forall n, frames_run w n -> frames_run w' (n - count))) \/
    (frame_alloc count w = Panic /\ ~ frames_run w count);
  frames_run_le : forall w n k, frames_run w n -> k <= n -> frames_run w k;
  frames_room : forall w o, frames_inv w o ->
    (exists r, frame_alloc 1 w = Ok r /\ room w = S (room r.2)) \/
    (frame_alloc 1 w = Panic /\ room w = O);
  frames_free : forall w o page count, frames_inv w o -> 0 < count -> pages page count ⊆ o ->
    exists w', frame_free (page * page_size) count w = Ok w' /\
      frames_inv w' (o ∖ pages page count) /\
      managed w' = managed w /\ same_dom (wmem w) (wmem w') /\
      (forall a, ~ managed w a \/ in_pages hhdm_offset (o ∖ pages page count) a ->
                 wmem w' !! a = wmem w !! a) /\
      (* what could be handed out still can, and so can the pages returned *)
      (forall n, frames_run w n -> frames_run w' n) /\ frames_run w' count;
}.

(** [w'] is left after spending [k] pages of a run. *)
Definition spent {W : Type} `{FrameLaws W} (k : Z) (w w' : W) : Prop :=
  forall n, frames_run w n -> frames_run w' (n - k).

Section Spent.
Context {W : Type} `{FrameLaws W}.

Lemma spent_refl w : spent 0 w w.
Proof. intros n Hn. by rewrite Z.sub_0_r. Qed.

Lemma spent_trans k l w w1 w2 : spent k w w1 -> spent l w1 w2 -> spent (k + l) w w2.
Proof. intros H1 H2 n Hn. replace (n - (k + l)) with (n - k - l) by lia. by apply H2, H1. Qed.

Lemma spent_same w w' : (forall n, frames_run w n -> frames_run w' n) -> spent 0 w w'.
Proof. intros Hr n Hn. rewrite Z.sub_0_r. by apply Hr. Qed.

(** What a later state cannot provide, an earlier one could not with what was spent. *)
Lemma spent_short k n w w' : spent k w w' -> ~ frames_run w' n -> ~ frames_run w (k + n).
Proof. intros Hs Hn Hr. apply Hn. apply Hs in Hr. by replace (k + n - k) with n in Hr by lia. Qed.
End Spent.

(** ** Memory accesses of a client *)

Section Access.
Context {W : Type} `{Frames W}.

Definition load (w : W) (a : Z) : outcome Z := load64 (wmem w) a.
Definition store (w : W) (a v : Z) : outcome W :=
  m ← store64 (wmem w) a v; Ok (with_mem w m).
Definition fill (w : W) (p c n : Z) : outcome W :=
  '(_, m) ← memset (wmem w) p c n; Ok (with_mem w m).
Definition copy (w : W) (d s n : Z) : outcome W :=
  '(_, m) ← memcpy (wmem w) d s n; Ok (with_mem w m).
(** [p[i]] for a pointer to 64-bit words. *)
Definition elem (p i : Z) : Z := u64 (p + u64 (i * 8)).
End Access.

(** ** Sets of pages *)

Section Pages.
Lemma elem_of_pages page count i : i ∈ pages page count <-> page <= i < page + count.
Proof. unfold pages. rewrite elem_of_list_to_set, elem_of_seqZ. done. Qed.

Lemma size_pages page count : 0 <= count -> Z.of_nat (size (pages page count)) = count.
Proof.
  intros. unfold pages. rewrite size_list_to_set by apply NoDup_seqZ.
  rewrite length_seqZ. lia.
Qed.

(** Consecutive mapped pages form one mapped range. *)
Lemma valid_pages m hhdm page count :
  (forall i, page <= i < page + count -> valid m (hhdm + i * page_size) page_size) ->
  valid m (hhdm + page * page_size) (count * page_size).
Proof.
  intros H x Hx. pose proof (Z.div_mod x page_size). pose proof (Z.mod_pos_bound x page_size).
  assert (0 <= x / page_size < count).
  { split; [apply Z.div_pos; lia|]. apply Z.div_lt_upper_bound; lia. }
  replace (hhdm + page * page_size + x) with
    (hhdm + (page + x / page_size) * page_size + x mod page_size) by lia.
  apply H; lia.
Qed.

Lemma in_pages_range hhdm page count a :
  in_range (hhdm + page * page_size) (count * page_size) a ->
  exists i, page <= i < page + count /\ in_range (hhdm + i * page_size) page_size a.
Proof.
  unfold in_range. intros Ha. set (x := a - hhdm - page * page_size).
  pose proof (Z.div_mod x page_size). pose proof (Z.mod_pos_bound x page_size).
  exists (page + x / page_size).
  assert (0 <= x / page_size < count); [|lia].
  split; [apply Z.div_pos; lia|]. apply Z.div_lt_upper_bound; lia.
Qed.

(** An address lies in one page only. *)
Lemma in_page_inj hhdm i j a : in_page hhdm i a -> in_page hhdm j a -> i = j.
Proof. unfold in_page, in_range. lia. Qed.
End Pages.
