(* ===== verification/Math.v ===== *)
(** * utils/math.hpp

    Alignment, powers of two, and the translation between physical addresses
    and the higher-half direct map.  The callers use the templates at [size_t],
    so the functions work on 64-bit unsigned integers; [next_pow2] and [pow]
    compute in [int], as written. *)

From S2P Require Import Prelude.

(** [n & ~(a - 1)] *)
Definition align_down (n a : Z) : Z := Z.land n (u64 (Z.lnot (u64 (a - 1)))).

(** [align_down(n + a - 1, a)] *)
Definition align_up (n a : Z) : Z := align_down (u64 (u64 (n + a) - 1)) a.

Definition div_roundup (n a : Z) : Z := align_down (u64 (u64 (n + a) - 1)) a / a.

(** [__builtin_clzl]: the leading zeros of a non-zero 64-bit value. *)
Definition clzl (n : Z) : Z := 63 - Z.log2 n.

(** [1 << (64 - clzl(n - 1))] is an [int] shift: undefined from 32 on, and for
    the argument 0 of [clzl]. *)
Definition next_pow2 (n : Z) : outcome Z :=
  if n =? 1 then Ok 1
  else let s := 64 - clzl (u64 (n - 1)) in
       if (0 <=? s) && (s <? 32) then Ok (s32 (Z.shiftl 1 s)) else Undef.

(** The accumulator is an [int] whatever the template argument is; the product
    is truncated to it. *)
Fixpoint pow_loop (base : Z) (exp : nat) (result : Z) : Z :=
  match exp with
  | O => result
  | S e => pow_loop base e (s32 (result * base))
  end.

Definition pow (base exp : Z) : Z := pow_loop base (Z.to_nat exp) 1.

Definition abs (num : Z) : Z := if num <? 0 then - num else num.

Definition sign (num : Z) : Z := if 0 <? num then 1 else if num <? 0 then -1 else 0.

(** ** The higher-half direct map *)

Section HHDM.
Context (hhdm_offset : Z).

Definition ishh (a : Z) : bool := hhdm_offset <=? a.
Definition tohh (a : Z) : Z := if ishh a then a else u64 (a + hhdm_offset).
Definition fromhh (a : Z) : Z := if negb (ishh a) then a else u64 (a - hhdm_offset).
End HHDM.

(** ** Lemmas *)

Section Align.
Lemma land_u64_r n z : 0 <= n < W64 -> Z.land n (u64 z) = Z.land n z.
Proof.
  intros Hn. unfold wrap. rewrite <- Z.land_ones by lia.
  rewrite (Z.land_comm z), Z.land_assoc. f_equal.
  rewrite Z.land_ones by lia. by apply Z.mod_small.
Qed.

Lemma align_down_pow2 n k : 0 <= n < W64 -> 0 <= k < 64 ->
  align_down n (2 ^ k) = n - n mod 2 ^ k.
Proof.
  intros Hn Hk. unfold align_down. rewrite land_u64_r by done.
  assert (0 < 2 ^ k < W64) by (split; [lia|apply (Z.pow_lt_mono_r 2 k 64); lia]).
  rewrite u64_small by lia.
  replace (2 ^ k - 1) with (Z.ones k) by (rewrite Z.ones_equiv; lia).
  rewrite <- Z.ldiff_land, Z.ldiff_ones_r by lia.
  rewrite Z.shiftl_mul_pow2, Z.shiftr_div_pow2 by lia.
  pose proof (Z.div_mod n (2 ^ k)). lia.
Qed.

Lemma align_up_pow2 n k : 0 <= k < 64 -> 0 <= n -> n + 2 ^ k - 1 < W64 ->
  align_up n (2 ^ k) = (n + 2 ^ k - 1) / 2 ^ k * 2 ^ k.
Proof.
  intros Hk Hn Hb. assert (0 < 2 ^ k) by lia. unfold align_up, wrap.
  rewrite Zminus_mod_idemp_l, Z.mod_small by (change (2 ^ 64) with W64; lia).
  rewrite align_down_pow2 by lia. pose proof (Z.div_mod (n + 2 ^ k - 1) (2 ^ k)). lia.
Qed.

Lemma div_roundup_pow2 n k : 0 <= k < 64 -> 0 <= n -> n + 2 ^ k - 1 < W64 ->
  div_roundup n (2 ^ k) = (n + 2 ^ k - 1) / 2 ^ k.
Proof.
  intros Hk Hn Hb. assert (0 < 2 ^ k) by lia.
  change (div_roundup n (2 ^ k)) with (align_up n (2 ^ k) / 2 ^ k).
  rewrite align_up_pow2 by done. by rewrite Z.div_mul by lia.
Qed.
End Align.

Section Hhdm.
Context (hhdm : Z) (Hh : 0 <= hhdm < W64).

Lemma tohh_low a : 0 <= a < hhdm -> a + hhdm < W64 -> tohh hhdm a = a + hhdm.
Proof.
  intros Ha Hb. unfold tohh, ishh. rewrite (proj2 (Z.leb_gt _ _)) by lia.
  apply u64_small. lia.
Qed.

Lemma tohh_high a : hhdm <= a -> tohh hhdm a = a.
Proof. intros Ha. unfold tohh, ishh. by rewrite (proj2 (Z.leb_le _ _)). Qed.

Lemma fromhh_high a : hhdm <= a < W64 -> fromhh hhdm a = a - hhdm.
Proof.
  intros Ha. unfold fromhh, ishh. rewrite (proj2 (Z.leb_le _ _)) by lia.
  apply u64_small. lia.
Qed.

Lemma fromhh_tohh a : 0 <= a < hhdm -> a + hhdm < W64 -> fromhh hhdm (tohh hhdm a) = a.
Proof. intros. rewrite tohh_low, fromhh_high by lia. lia. Qed.
End Hhdm.

(** ** Theorems *)

(** For an alignment [2^k] and no overflow of the sum, [align_down] and
    [align_up] are the nearest multiples below and above, and [div_roundup] is
    the quotient rounded up. *)
Theorem align_correct n k :
  0 <= k < 64 -> 0 <= n -> n + 2 ^ k - 1 < W64 ->
  (align_down n (2 ^ k) mod 2 ^ k = 0 /\ align_down n (2 ^ k) <= n < align_down n (2 ^ k) + 2 ^ k) /\
  (align_up n (2 ^ k) mod 2 ^ k = 0 /\ align_up n (2 ^ k) - 2 ^ k < n <= align_up n (2 ^ k)) /\
  div_roundup n (2 ^ k) * 2 ^ k = align_up n (2 ^ k).
Proof.
  intros Hk Hn Hb. assert (0 < 2 ^ k) as Hp by lia.
  rewrite align_up_pow2, div_roundup_pow2, align_down_pow2 by lia.
  pose proof (Z.mod_pos_bound n (2 ^ k) Hp). pose proof (Z.div_mod n (2 ^ k)).
  pose proof (Z.mod_pos_bound (n + 2 ^ k - 1) (2 ^ k) Hp).
  pose proof (Z.div_mod (n + 2 ^ k - 1) (2 ^ k)).
  split_and!; try lia; [|by rewrite Z.mod_mul by lia].
  replace (n - n mod 2 ^ k) with (n / 2 ^ k * 2 ^ k) by lia. by rewrite Z.mod_mul by lia.
Qed.

Lemma align_correct_witness :
  align_up 4097 (2 ^ 12) mod 2 ^ 12 = 0 /\ div_roundup 4097 (2 ^ 12) * 2 ^ 12 = align_up 4097 (2 ^ 12).
Proof.
  destruct (align_correct 4097 12) as (_ & (H & _) & H'); [lia|lia|simpl; lia|].
  split; [exact H|exact H'].
Defined.

(** [next_pow2] is the least power of two that is at least [n], up to 2^30;
    from 2^31 + 1 on, and at 0, the shift is undefined. *)
Theorem next_pow2_correct n :
  (1 <= n <= 2 ^ 30 ->
     exists s, next_pow2 n = Ok (2 ^ s) /\ 0 <= s /\ n <= 2 ^ s /\ (forall j, 0 <= j -> n <= 2 ^ j -> s <= j)) /\
  (2 ^ 31 < n < W64 -> next_pow2 n = Undef) /\ next_pow2 0 = Undef.
Proof.
  split_and!; [| |done].
  - intros Hn. unfold next_pow2. destruct (Z.eqb_spec n 1) as [->|Hne].
    { exists 0. split_and!; [done|lia|lia|lia]. }
    assert (0 < n - 1) as Hp by lia. pose proof (Z.log2_spec (n - 1) Hp) as [Hl Hu].
    rewrite u64_small by lia. unfold clzl. set (l := Z.log2 (n - 1)) in *.
    assert (0 <= l) by apply Z.log2_nonneg.
    assert (l < 30) by (apply (Z.pow_lt_mono_r_iff 2); lia).
    replace (64 - (63 - l)) with (Z.succ l) by lia.
    rewrite (proj2 (Z.leb_le _ _)), (proj2 (Z.ltb_lt _ _)) by lia. simpl.
    rewrite Z.shiftl_1_l. assert (2 ^ Z.succ l <= 2 ^ 30) by (apply Z.pow_le_mono_r; lia).
    assert (0 < 2 ^ Z.succ l) by (apply Z.pow_pos_nonneg; lia).
    exists (Z.succ l). rewrite s32_small by lia. split_and!; [done|lia|lia|].
    intros j Hj Hnj. enough (l < j) by lia. apply (Z.pow_lt_mono_r_iff 2); lia.
  - intros Hn. unfold next_pow2. rewrite (proj2 (Z.eqb_neq n 1)) by lia.
    rewrite u64_small by lia. unfold clzl.
    assert (31 <= Z.log2 (n - 1)) by (apply Z.log2_le_pow2; lia).
    rewrite (proj2 (Z.ltb_ge _ _)) by lia. by rewrite andb_false_r.
Qed.

Lemma next_pow2_correct_witness :
  next_pow2 4294967296 = Undef /\
  exists s, next_pow2 5 = Ok (2 ^ s) /\ 0 <= s /\ 5 <= 2 ^ s /\ (forall j, 0 <= j -> 5 <= 2 ^ j -> s <= j).
Proof.
  destruct (next_pow2_correct 4294967296) as (_ & H1 & _). destruct (next_pow2_correct 5) as (H2 & _).
  split; [apply H1; lia|apply H2; lia].
Defined.
