(* ===== verification/Bitmap.v ===== *)
(** * utils/bitmap.cpp and include/utils/bitmap.hpp

    The bitmap of the physical memory manager: a view of [size] bytes at
    [buffer], one bit per page.  [get] keeps the byte index in a [uint8_t],
    [set] in a [uint16_t]. *)

From S2P Require Import Prelude Memory.

Record bitmap_t : Type := Bitmap { buffer : Z; bm_size : Z }.

#[export] Instance bitmap_eq_dec : EqDecision bitmap_t.
Proof. solve_decision. Defined.

Definition bitmap_empty : bitmap_t := Bitmap 0 0.

Definition bitmap_reassign (_ : bitmap_t) (buff sz : Z) : bitmap_t := Bitmap buff sz.

(** [1 << bit] in [int]; a count of 32 or more is undefined. *)
Definition bit_mask (bit : Z) : outcome Z :=
  if bit <? 32 then Ok (Z.shiftl 1 bit) else Undef.

Definition bitmap_get (m : mem) (bm : bitmap_t) (index : Z) : outcome bool :=
  let bit := u8 (Z.rem index 8) in
  let byte := u8 (Z.quot index 8) in
  b ← load8 m (idx (buffer bm) byte);
  k ← bit_mask bit;
  Ok (negb (Z.land b k =? 0)).

Definition bitmap_set (m : mem) (bm : bitmap_t) (index : Z) (value : bool) : outcome mem :=
  let bit := u8 (Z.rem index 8) in
  let byte := u16 (Z.quot index 8) in
  b ← load8 m (idx (buffer bm) byte);
  k ← bit_mask bit;
  store8 m (idx (buffer bm) byte) (if value then Z.lor b k else Z.land b (Z.lnot k)).

(** The value of bit [i] of the buffer. *)
Definition bit_of (m : mem) (bm : bitmap_t) (i : Z) : bool :=
  Z.testbit (default 0 (m !! (buffer bm + i / 8))) (i mod 8).

(** The bits below [n] lie in mapped memory. *)
Definition bits_valid (m : mem) (bm : bitmap_t) (n : Z) : Prop :=
  forall i, 0 <= i < n -> is_Some (m !! (buffer bm + i / 8)).

Section BitmapLemmas.
Context (m : mem) (Hwf : mem_wf m) (bm : bitmap_t).

Lemma land_bit_testbit b k : 0 <= k -> negb (Z.land b (Z.shiftl 1 k) =? 0) = Z.testbit b k.
Proof.
  intros Hk. rewrite Z.shiftl_1_l.
  assert (Z.land b (2 ^ k) = if Z.testbit b k then 2 ^ k else 0) as ->.
  { apply Z.bits_inj'. intros n Hn. rewrite Z.land_spec, Z.pow2_bits_eqb by done.
    destruct (Z.eqb_spec k n) as [<-|Hne].
    - destruct (Z.testbit b k); [by rewrite Z.pow2_bits_true by done|by rewrite Z.bits_0].
    - rewrite andb_false_r.
      destruct (Z.testbit b k); [by rewrite Z.pow2_bits_false by done|by rewrite Z.bits_0]. }
  destruct (Z.testbit b k); [|done]. apply negb_true_iff, Z.eqb_neq. lia.
Qed.

Lemma rem_quot_nonneg i : 0 <= i -> Z.rem i 8 = i mod 8 /\ Z.quot i 8 = i / 8.
Proof. intros. rewrite Z.rem_mod_nonneg, Z.quot_div_nonneg by lia. done. Qed.

Lemma bit_mask_mod i : 0 <= i -> bit_mask (u8 (i mod 8)) = Ok (Z.shiftl 1 (i mod 8)).
Proof.
  intros. pose proof (Z.mod_pos_bound i 8). rewrite u8_small by lia.
  unfold bit_mask. by rewrite (proj2 (Z.ltb_lt _ _)) by lia.
Qed.

Lemma bitmap_get_spec i : 0 <= i < 2048 -> is_Some (m !! (buffer bm + i / 8)) ->
  bitmap_get m bm i = Ok (bit_of m bm i).
Proof.
  intros Hi Hv. unfold bitmap_get. destruct (rem_quot_nonneg i) as [-> ->]; [lia|].
  assert (0 <= i / 8 < 256) by (split; [apply Z.div_pos; lia|apply Z.div_lt_upper_bound; lia]).
  rewrite bit_mask_mod, (u8_small (i / 8)), (idx_valid m) by (done || lia).
  unfold bit_of, load8. destruct Hv as [b ->]. simpl.
  by rewrite land_bit_testbit by (apply Z.mod_pos_bound; lia).
Qed.

(** The byte index of [get] wraps at 256: bit [i] is read from [i mod 2048]. *)
Lemma bitmap_get_alias_mod i : 0 <= i -> bitmap_get m bm i = bitmap_get m bm (i mod 2048).
Proof.
  intros Hi. pose proof (Z.mod_pos_bound i 2048). unfold bitmap_get.
  destruct (rem_quot_nonneg i) as [-> ->]; [lia|].
  destruct (rem_quot_nonneg (i mod 2048)) as [-> ->]; [lia|].
  assert ((i mod 2048) mod 8 = i mod 8) as ->.
  { apply Z.mod_mod_divide. by exists 256. }
  assert (u8 ((i mod 2048) / 8) = u8 (i / 8)) as ->; [|done].
  pose proof (Z.mod_pos_bound i 8). unfold wrap. change (2 ^ 8) with 256. change 2048 with (8 * 256).
  rewrite Z.rem_mul_r by lia.
  replace (i mod 8 + 8 * ((i / 8) mod 256)) with (i mod 8 + (i / 8) mod 256 * 8) by lia.
  rewrite Z.div_add, (Z.div_small (i mod 8)) by lia. by rewrite Z.add_0_l, Z.mod_mod by lia.
Qed.

(** The effect of [set] on memory. *)
Definition set_byte (i : Z) (v : bool) : Z :=
  let b := default 0 (m !! (buffer bm + i / 8)) in
  if v then Z.setbit b (i mod 8) else Z.clearbit b (i mod 8).

Lemma set_byte_range i v : is_Some (m !! (buffer bm + i / 8)) -> 0 <= set_byte i v < 256.
Proof.
  intros [b Hb]. unfold set_byte. rewrite Hb. simpl. apply Hwf in Hb as [_ Hb].
  pose proof (Z.mod_pos_bound i 8) as Hm.
  assert (forall z, 0 <= z -> (forall n, 8 <= n -> Z.testbit z n = false) -> 0 <= z < 256) as H.
  { intros z Hz Hn. split; [done|]. destruct (decide (z = 0)) as [->|]; [lia|].
    destruct (decide (Z.log2 z < 8)) as [Hl|Hl].
    - apply (Z.log2_lt_pow2 z 8); lia.
    - specialize (Hn (Z.log2 z)). rewrite Z.bit_log2 in Hn by lia. lia || (assert (8 <= Z.log2 z) by lia; by specialize (Hn ltac:(lia))). }
  assert (forall n, 8 <= n -> Z.testbit b n = false) as Hbn.
  { intros n Hn. destruct (decide (b = 0)) as [->|]; [apply Z.bits_0|].
    apply Z.bits_above_log2; [lia|]. assert (Z.log2 b < 8) by (apply Z.log2_lt_pow2; lia). lia. }
  destruct v; apply H.
  - rewrite Z.setbit_spec'. apply Z.lor_nonneg. lia.
  - intros n Hn. rewrite Z.setbit_neq by lia. by apply Hbn.
  - rewrite Z.clearbit_spec', Z.ldiff_land. apply Z.land_nonneg. lia.
  - intros n Hn. rewrite Z.clearbit_neq by lia. by apply Hbn.
Qed.

Lemma bitmap_set_spec i v : 0 <= i < 524288 -> is_Some (m !! (buffer bm + i / 8)) ->
  bitmap_set m bm i v = Ok (<[buffer bm + i / 8 := set_byte i v]> m).
Proof.
  intros Hi Hv. pose proof (set_byte_range i v Hv) as Hr. unfold bitmap_set.
  destruct (rem_quot_nonneg i) as [-> ->]; [lia|].
  assert (0 <= i / 8 < 65536) by (split; [apply Z.div_pos; lia|apply Z.div_lt_upper_bound; lia]).
  rewrite bit_mask_mod, (wrap_small 16 (i / 8)), (idx_valid m) by (done || simpl; lia).
  unfold set_byte in *. destruct Hv as [b Hb]. rewrite (load8_Ok _ _ _ Hb). bind_simpl.
  rewrite store8_Ok by eauto. rewrite Hb in *. simpl in *.
  rewrite Z.shiftl_1_l, <- Z.ldiff_land, <- Z.setbit_spec', <- Z.clearbit_spec'.
  by rewrite u8_small by (by destruct v).
Qed.
End BitmapLemmas.

(** Writing one bit: the new bit and all the others. *)
Section SetBit.
Context (m : mem) (bm : bitmap_t).

Lemma bit_of_set i j v : 0 <= i -> 0 <= j -> is_Some (m !! (buffer bm + i / 8)) ->
  bit_of (<[buffer bm + i / 8 := set_byte m bm i v]> m) bm j =
  if decide (i = j) then v else bit_of m bm j.
Proof.
  intros Hi Hj Hv. unfold bit_of.
  pose proof (Z.mod_pos_bound i 8). pose proof (Z.mod_pos_bound j 8).
  pose proof (Z.div_mod i 8). pose proof (Z.div_mod j 8).
  destruct (decide (i / 8 = j / 8)) as [E|E].
  - rewrite <- E, lookup_insert_eq. unfold set_byte. simpl.
    destruct (decide (i = j)) as [->|].
    + destruct v; [by rewrite Z.setbit_eq by lia|by rewrite Z.clearbit_eq].
    + destruct v; [by rewrite Z.setbit_neq by lia|by rewrite Z.clearbit_neq by lia].
  - rewrite lookup_insert_ne by lia. by rewrite decide_False by congruence.
Qed.

Lemma set_byte_wf i v : mem_wf m -> is_Some (m !! (buffer bm + i / 8)) ->
  mem_wf (<[buffer bm + i / 8 := set_byte m bm i v]> m).
Proof.
  intros Hwf Hv a w. destruct (decide (buffer bm + i / 8 = a)) as [<-|].
  - rewrite lookup_insert_eq. intros [= <-]. split; [|by apply set_byte_range].
    destruct Hv as [b Hb]. by apply Hwf in Hb as [? _].
  - rewrite lookup_insert_ne by done. apply Hwf.
Qed.

Lemma set_byte_same_dom i v : is_Some (m !! (buffer bm + i / 8)) ->
  same_dom m (<[buffer bm + i / 8 := set_byte m bm i v]> m).
Proof.
  intros Hv a. destruct (decide (buffer bm + i / 8 = a)) as [<-|].
  - rewrite lookup_insert_eq. split; eauto.
  - by rewrite lookup_insert_ne.
Qed.

Lemma bit_of_frame m' i :
  m' !! (buffer bm + i / 8) = m !! (buffer bm + i / 8) -> bit_of m' bm i = bit_of m bm i.
Proof. intros H. unfold bit_of. by rewrite H. Qed.
End SetBit.

(** ** Theorems *)

(** For page numbers below 2048, reading a bit that was set gives the value
    stored, reading any other bit gives what was there before, and [set] writes
    no byte but the one that holds the bit. *)
Theorem bitmap_set_get m bm i j v :
  mem_wf m -> bits_valid m bm 2048 -> 0 <= i < 2048 -> 0 <= j < 2048 ->
  exists m', bitmap_set m bm i v = Ok m' /\ bitmap_get m' bm i = Ok v /\
             (i <> j -> bitmap_get m' bm j = bitmap_get m bm j) /\ same_outside m m' (buffer bm + i / 8) 1.
Proof.
  intros Hwf Hv Hi Hj. pose proof (Hv i Hi) as Hvi. pose proof (Hv j Hj) as Hvj.
  set (m' := <[buffer bm + i / 8 := set_byte m bm i v]> m).
  pose proof (set_byte_same_dom m bm i v Hvi) as Hd. pose proof (set_byte_wf m bm i v Hwf Hvi) as Hwf'.
  exists m'. rewrite bitmap_set_spec by (done || lia). split; [done|].
  split_and!.
  - rewrite bitmap_get_spec by (auto; by apply Hd). unfold m'. rewrite bit_of_set by (done || lia).
    by rewrite decide_True.
  - intros Hne. rewrite !bitmap_get_spec by (auto; by apply Hd). unfold m'. rewrite bit_of_set by (done || lia).
    by rewrite decide_False.
  - intros a Ha. unfold in_range in Ha. apply lookup_insert_ne. lia.
Qed.

Lemma bitmap_set_get_witness :
  exists m', bitmap_set (write_bytes ∅ 4096 (replicate 256 0)) (Bitmap 4096 256) 9 true = Ok m' /\
             bitmap_get m' (Bitmap 4096 256) 9 = Ok true.
Proof.
  destruct (bitmap_set_get (write_bytes ∅ 4096 (replicate 256 0)) (Bitmap 4096 256) 9 10 true)
    as (m' & H1 & H2 & _); [mem_check| |lia|lia|eauto].
  intros i Hi. assert (valid (write_bytes ∅ 4096 (replicate 256 0)) 4096 256) as Hv by mem_check.
  apply Hv. split; [apply Z.div_pos; lia|apply Z.div_lt_upper_bound; lia].
Defined.

(** [get] reads bit [i mod 2048] whatever [i] is, while [set] reaches bit
    [i] itself, so a page from 2048 on that was marked used still reads as free
    when its alias below 2048 is free. *)
Theorem bitmap_get_alias m bm n i :
  mem_wf m -> bits_valid m bm n -> 2048 <= i < n -> n <= 524288 ->
  bitmap_get m bm i = bitmap_get m bm (i mod 2048) /\
  exists m', bitmap_set m bm i true = Ok m' /\ bit_of m' bm i = true /\
             bitmap_get m' bm i = Ok (bit_of m bm (i mod 2048)).
Proof.
  intros Hwf Hv Hi Hn. pose proof (Z.mod_pos_bound i 2048 eq_refl) as Hm.
  split; [apply bitmap_get_alias_mod; lia|].
  exists (<[buffer bm + i / 8 := set_byte m bm i true]> m).
  rewrite bitmap_set_spec by (first [done | lia | apply Hv; lia]). split; [done|].
  rewrite bit_of_set by (first [done | lia | apply Hv; lia]). rewrite decide_True by done. split; [done|].
  assert (i / 8 <> (i mod 2048) / 8) as Hne.
  { assert ((i mod 2048) / 8 < 256) by (apply Z.div_lt_upper_bound; lia).
    assert (256 <= i / 8) by (apply Z.div_le_lower_bound; lia). lia. }
  assert (is_Some (m !! (buffer bm + (i mod 2048) / 8))) as Hs by (apply Hv; lia).
  rewrite bitmap_get_alias_mod by lia.
  rewrite <- (bit_of_frame m bm (<[buffer bm + i / 8 := set_byte m bm i true]> m))
    by (apply lookup_insert_ne; lia).
  rewrite bitmap_get_spec; [done|by apply set_byte_wf; [|apply Hv; lia]|lia|].
  by rewrite lookup_insert_ne by lia.
Qed.

Lemma bitmap_get_alias_witness :
  exists m', bitmap_set (write_bytes ∅ 4096 (replicate 257 0)) (Bitmap 4096 257) 2048 true = Ok m' /\
             bit_of m' (Bitmap 4096 257) 2048 = true /\
             bitmap_get m' (Bitmap 4096 257) 2048 = Ok false.
Proof.
  destruct (bitmap_get_alias (write_bytes ∅ 4096 (replicate 257 0)) (Bitmap 4096 257) 2056 2048)
    as (_ & m' & H1 & H2 & H3); [mem_check| |lia|lia|].
  - intros i Hi. assert (valid (write_bytes ∅ 4096 (replicate 257 0)) 4096 257) as Hv by mem_check.
    apply Hv. split; [apply Z.div_pos; lia|apply Z.div_lt_upper_bound; lia].
  - exists m'. split; [exact H1|]. split; [exact H2|]. rewrite H3.
    vm_compute. reflexivity.
Defined.
