(* ===== verification/Physical.v ===== *)
(** * memory/physical.cpp

    The physical memory manager: a bitmap with one bit per page (set = used), a
    cursor [last_index], and the accounting counters.  The file's globals are
    the fields of [phys]; [ram] is the memory the code runs in, which holds the
    bitmap itself and, in the higher-half map at [hhdm_offset], the pages.
    [init] is split where its loops are; the call of the heap's constructor at
    its end is in [Heap].  The calls to the logger are not part of this state. *)

From S2P Require Import Prelude Memory LibcString Frames Math Bitmap.

Record phys : Type := Phys {
  mem_usable_top : Z;
  last_index : Z;
  bitmap : bitmap_t;
  usable_memory : Z;
  total_memory : Z;
  used_memory : Z;
  mem_top : Z;
  ram : mem;
}.

Definition phys_zero (m : mem) : phys := Phys 0 0 bitmap_empty 0 0 0 0 m.

Definition with_ram (st : phys) (m : mem) : phys :=
  Phys (mem_usable_top st) (last_index st) (bitmap st) (usable_memory st)
       (total_memory st) (used_memory st) (mem_top st) m.

(** Update what [alloc] and [free] change. *)
Definition with_alloc (st : phys) (m : mem) (last used : Z) : phys :=
  Phys (mem_usable_top st) last (bitmap st) (usable_memory st)
       (total_memory st) used (mem_top st) m.

Definition total (st : phys) : Z := total_memory st.
Definition usable (st : phys) : Z := usable_memory st.
Definition used (st : phys) : Z := used_memory st.
Definition free_memory (st : phys) : Z := u64 (usable_memory st - used_memory st).

Definition page_limit (st : phys) : Z := mem_usable_top st / page_size.

(** ** Allocation *)

(** [for (i = lo; i < hi; i++) bitmap.set(i, v)]; the index is converted to
    [int] at the call. *)
Definition set_range (bm : bitmap_t) (lo hi : Z) (v : bool) (m : mem) : outcome mem :=
  for_range lo hi (fun i m => bitmap_set m bm (s32 i) v) m.

(** One round of the search loop.  The state is the memory, [last_index] and
    the length [p] of the current run; the result is the page found (as an
    address, null for none), the memory and [last_index]. *)
Definition inner_step (bm : bitmap_t) (count limit : Z) (s : mem * Z * Z)
    : outcome (mem * Z * Z + Z * mem * Z) :=
  let '(m, last, p) := s in
  if last <? limit then
    b ← bitmap_get m bm (s32 last);
    let last := u64 (last + 1) in
    if negb b then
      let p := u64 (p + 1) in
      if p =? count then
        let page := u64 (last - count) in
        m' ← set_range bm page last true m;
        Ok (inr (u64 (page * page_size), m', last))
      else Ok (inl (m, last, p))
    else Ok (inl (m, last, 0))
  else Ok (inr (0, m, last)).

#[global] Arguments inner_step _ _ _ !s /.

(** The search makes one round per page below the limit, and a last one. *)
Definition inner_alloc (bm : bitmap_t) (count limit : Z) (m : mem) (last : Z)
    : outcome (Z * mem * Z) :=
  loop (inner_step bm count limit) (S (Z.to_nat (limit - last))) (m, last, 0).

Section Operations.
Context (hhdm_offset : Z).

Definition physical_alloc (count : Z) (st : phys) : outcome (Z * phys) :=
  if count =? 0 then Ok (0, st)
  else
    let i := last_index st in
    '(ret, m, last) ← inner_alloc (bitmap st) count (page_limit st) (ram st) (last_index st);
    '(ret, m, last) ←
      (if ret =? 0 then
         '(ret, m, last) ← inner_alloc (bitmap st) count i m 0;
         if ret =? 0 then Panic else Ok (ret, m, last)
       else Ok (ret, m, last));
    '(_, m) ← memset m (tohh hhdm_offset ret) 0 (u64 (count * page_size));
    Ok (ret, with_alloc st m last (u64 (used_memory st + u64 (count * page_size)))).

Definition physical_free (ptr count : Z) (st : phys) : outcome phys :=
  if ptr =? 0 then Ok st
  else
    let page := ptr / page_size in
    m ← set_range (bitmap st) page (u64 (page + count)) false (ram st);
    Ok (with_alloc st m (Z.min (last_index st) page)
          (u64 (used_memory st - u64 (count * page_size)))).
End Operations.

(** ** Initialisation *)

(** The entries of the boot loader's memory map. *)
Inductive memmap_type : Type :=
| LIMINE_MEMMAP_USABLE
| LIMINE_MEMMAP_OTHER (code : Z).

Record memmap_entry : Type := MemmapEntry { mm_base : Z; mm_length : Z; mm_type : memmap_type }.

Definition is_usable (e : memmap_entry) : bool :=
  match mm_type e with LIMINE_MEMMAP_USABLE => true | LIMINE_MEMMAP_OTHER _ => false end.

(** The first loop: the tops and the sizes. *)
Definition scan_entry (st : phys) (e : memmap_entry) : phys :=
  let top := u64 (mm_base e + mm_length e) in
  let mtop := Z.max (mem_top st) top in
  if is_usable e then
    Phys (Z.max (mem_usable_top st) top) (last_index st) (bitmap st)
         (u64 (usable_memory st + mm_length e)) (u64 (total_memory st + mm_length e))
         (used_memory st) mtop (ram st)
  else
    Phys (mem_usable_top st) (last_index st) (bitmap st) (usable_memory st)
         (total_memory st) (used_memory st) mtop (ram st).

Definition scan_memmap (es : list memmap_entry) (st : phys) : phys :=
  fold_left scan_entry es st.

Section Init.
Context (hhdm_offset : Z).

(** The second loop: the bitmap is placed in the first usable entry that holds
    it, and the entry shrinks. *)
Fixpoint place_bitmap (bitmap_size : Z) (es : list memmap_entry) (st : phys)
    : outcome (list memmap_entry * phys) :=
  match es with
  | [] => Ok ([], st)
  | e :: es' =>
      if is_usable e && (bitmap_size <=? mm_length e) then
        let bm := bitmap_reassign (bitmap st) (tohh hhdm_offset (mm_base e)) bitmap_size in
        '(_, m) ← memset (ram st) (buffer bm) 255 (bm_size bm);
        Ok (MemmapEntry (u64 (mm_base e + bitmap_size)) (u64 (mm_length e - bitmap_size)) (mm_type e) :: es',
            Phys (mem_usable_top st) (last_index st) bm (usable_memory st) (total_memory st)
                 (u64 (used_memory st + bitmap_size)) (mem_top st) m)
      else
        '(es'', st') ← place_bitmap bitmap_size es' st;
        Ok (e :: es'', st')
  end.

(** The third loop: the pages of the usable entries are marked free, in one round per
    started page; that is the loop over [t] for lengths up to [2^64 - page_size], where
    [t] does not wrap. *)
Definition free_entry (bm : bitmap_t) (e : memmap_entry) (m : mem) : outcome mem :=
  if is_usable e then
    for_steps page_size
      (fun t m => bitmap_set m bm (s32 (u64 (mm_base e + t) / page_size)) false)
      (Z.to_nat ((mm_length e + page_size - 1) / page_size)) 0 m
  else Ok m.

Fixpoint free_entries (bm : bitmap_t) (es : list memmap_entry) (m : mem) : outcome mem :=
  match es with
  | [] => Ok m
  | e :: es' => m' ← free_entry bm e m; free_entries bm es' m'
  end.

Definition bitmap_bytes (st : phys) : Z :=
  align_up (mem_usable_top st / page_size / 8) page_size.

(** [init] up to the construction of the heap. *)
Definition init_frames (es : list memmap_entry) (st : phys)
    : outcome (list memmap_entry * phys) :=
  let st1 := scan_memmap es st in
  '(es', st2) ← place_bitmap (bitmap_bytes st1) es st1;
  m ← free_entries (bitmap st2) es' (ram st2);
  Ok (es', Phys (mem_usable_top st2) (last_index st2) (bitmap st2) (usable_memory st2)
                (total_memory st2) (used_memory st2) (align_up (mem_top st2) 1073741824) m).
End Init.

(** The machine of a client of memory/physical.cpp. *)
#[export] Instance phys_frames (hhdm : Z) : Frames phys := {
  hhdm_offset := hhdm;
  wmem := ram;
  with_mem := with_ram;
  frame_alloc := physical_alloc hhdm;
  frame_free := physical_free;
}.
