(* ===== verification/PhysicalProofs.v ===== *)
(** * Correctness of the physical memory manager

    The invariant of the page bitmap, what one search, [alloc] and [free] do
    under it, and the behaviour of any sequence of requests.  Since
    [bitmap_t::get] sees only 2048 bits, the invariant bounds the pages by that;
    [alloc_beyond_2048] shows what happens behind the bound. *)

From S2P Require Import Prelude Memory LibcString StringProofs Frames Math Bitmap Physical.

(** ** Runs of pages *)

(** Every [count] consecutive pages of [lo, hi) contain a used one. *)
Definition no_run (m : mem) (bm : bitmap_t) (count lo hi : Z) : Prop :=
  forall s, lo <= s -> s + count <= hi -> exists j, s <= j < s + count /\ bit_of m bm j = true.

Definition run_free (m : mem) (bm : bitmap_t) (lo hi : Z) : Prop :=
  forall j, lo <= j < hi -> bit_of m bm j = false.

(** The bytes of the bitmap that hold the first [n] bits. *)
Definition bit_region (bm : bitmap_t) (n a : Z) : Prop :=
  exists j, 0 <= j < n /\ a = buffer bm + j / 8.

(** [m'] is [m] with the bits of [lo, hi) set to [v]. *)
Record bits_updated (m : mem) (bm : bitmap_t) (n lo hi : Z) (v : bool) (m' : mem) : Prop := {
  bu_wf : mem_wf m';
  bu_dom : same_dom m m';
  bu_bits : forall j, 0 <= j -> bit_of m' bm j = if decide (lo <= j < hi) then v else bit_of m bm j;
  bu_frame : forall a, ~ bit_region bm n a -> m' !! a = m !! a;
}.

Section SetRange.
Context (m : mem) (Hwf : mem_wf m) (bm : bitmap_t) (n : Z) (Hn : n <= 524288).
Context (Hv : bits_valid m bm n).

Lemma set_range_spec lo hi v : 0 <= lo <= hi -> hi <= n ->
  exists m', set_range bm lo hi v m = Ok m' /\ bits_updated m bm n lo hi v m'.
Proof.
  intros Hlo Hhi. unfold set_range.
  destruct (for_range_inv lo hi (fun i m => bitmap_set m bm (s32 i) v)
              (fun i m' => bits_updated m bm n lo i v m') m) as (m' & E & H); [lia| | |by eauto].
  - constructor; [done|done| |done]. intros j Hj. by rewrite decide_False by lia.
  - intros i m1 Hi [Hw Hd Hb Hf].
    assert (is_Some (m1 !! (buffer bm + i / 8))) as Hs by (apply Hd, Hv; lia).
    rewrite s32_small by lia. rewrite bitmap_set_spec by (done || lia).
    eexists. split; [done|]. constructor.
    + by apply set_byte_wf.
    + eapply same_dom_trans; [done|by apply set_byte_same_dom].
    + intros j Hj. rewrite bit_of_set by (done || lia). rewrite Hb by lia.
      repeat case_decide; try done; lia.
    + intros a Ha. rewrite lookup_insert_ne; [by apply Hf|].
      intros <-. apply Ha. exists i. split; [lia|done].
Qed.
End SetRange.

Section Search.
Context (m : mem) (Hwf : mem_wf m) (bm : bitmap_t) (n : Z) (Hn : n <= 2048).
Context (Hv : bits_valid m bm n).

(** What a search from [lo] below [n] returns. *)
Definition search_result (count lo : Z) (r : Z * mem * Z) : Prop :=
  (exists page m', r = (page * page_size, m', page + count) /\ lo <= page /\ page + count <= n /\
     run_free m bm page (page + count) /\ no_run m bm count lo (page + count - 1) /\
     bits_updated m bm n page (page + count) true m') \/
  (r = (0, m, Z.max lo n) /\ no_run m bm count lo n).

(** The loop invariant: [p] pages before [last] are free, and no more. *)
Definition search_inv (count lo : Z) (k : nat) (s : mem * Z * Z) : Prop :=
  exists last p, s = (m, last, p) /\ k = Z.to_nat (n - last) /\
    lo <= last <= Z.max lo n /\ 0 <= p < count /\ lo <= last - p /\
    run_free m bm (last - p) last /\
    (last - p = lo \/ bit_of m bm (last - p - 1) = true) /\ no_run m bm count lo last.

Lemma inner_step_inv count lo k s :
  0 <= lo -> 0 < count -> search_inv count lo k s ->
  (exists s' k', inner_step bm count n s = Ok (inl s') /\ (k' < k)%nat /\ search_inv count lo k' s') \/
  (exists r, inner_step bm count n s = Ok (inr r) /\ search_result count lo r).
Proof.
  intros Hlo Hc (last & p & -> & -> & Hlast & Hp & Hlp & Hfree & Hmax & Hno). simpl.
  destruct (Z.ltb_spec last n) as [Hlt|Hge].
  2:{ right. eexists. split; [done|]. right. replace last with (Z.max lo n) in * by lia.
      split; [done|]. intros s Hs Hs'. apply Hno; lia. }
  rewrite s32_small, bitmap_get_spec by (done || lia || apply Hv; lia). simpl.
  rewrite (u64_small (last + 1)) by lia.
  destruct (bit_of m bm last) eqn:Eb; simpl.
  - left. exists (m, last + 1, 0), (Z.to_nat (n - (last + 1))). split; [done|]. split; [lia|].
    exists (last + 1), 0. split; [done|]. split; [done|]. split_and!; try lia.
    + intros j Hj. lia.
    + right. by replace (last + 1 - 0 - 1) with last by lia.
    + intros s Hs Hs'. destruct (decide (s + count <= last)); [by apply Hno|].
      exists last. split; [lia|done].
  - rewrite (u64_small (p + 1)) by lia.
    assert (run_free m bm (last - p) (last + 1)) as Hfree'.
    { intros j Hj. destruct (decide (j = last)) as [->|]; [done|]. apply Hfree. lia. }
    assert (forall s, lo <= s -> s + count = last + 1 -> p + 1 < count ->
              exists j, s <= j < s + count /\ bit_of m bm j = true) as Hshort.
    { intros s Hs Hs' Hpc. destruct Hmax as [?|Hu]; [lia|]. exists (last - p - 1). split; [lia|done]. }
    destruct (Z.eqb_spec (p + 1) count) as [Epc|Hpc].
    + right. rewrite (u64_small (last + 1 - count)) by lia.
      destruct (set_range_spec m Hwf bm n) with (lo := last + 1 - count) (hi := last + 1)
        (v := true) as (m' & -> & Hu); [lia|done|lia|lia|].
      bind_simpl. eexists. split; [done|]. left. exists (last + 1 - count), m'.
      rewrite u64_small by lia. split_and!; try lia.
      * by replace (last + 1 - count + count) with (last + 1) by lia.
      * replace (last + 1 - count + count) with (last + 1) by lia.
        intros j Hj. apply Hfree'. lia.
      * intros s Hs Hs'. apply Hno; lia.
      * by replace (last + 1 - count + count) with (last + 1) by lia.
    + left. exists (m, last + 1, p + 1), (Z.to_nat (n - (last + 1))).
      split; [done|]. split; [lia|].
      exists (last + 1), (p + 1). split; [done|]. split; [done|]. split_and!; try lia.
      * intros j Hj. apply Hfree'. lia.
      * replace (last + 1 - (p + 1)) with (last - p) by lia. done.
      * intros s Hs Hs'. destruct (decide (s + count <= last)); [by apply Hno|].
        apply Hshort; lia.
Qed.

Lemma inner_alloc_spec count lo : 0 <= lo -> 0 < count ->
  exists r, inner_alloc bm count n m lo = Ok r /\ search_result count lo r.
Proof.
  intros Hlo Hc. unfold inner_alloc.
  apply (loop_total _ (search_inv count lo)) with (n := Z.to_nat (n - lo)); [|  |lia].
  - intros k s. by apply inner_step_inv.
  - exists lo, 0. split; [done|]. split; [done|]. split_and!; try lia.
    + intros j Hj. lia.
    + intros s Hs Hs'. lia.
Qed.
End Search.

(** ** The invariant *)

(** [owned] are the pages handed out and not yet returned. *)
Record pmm_inv (hhdm : Z) (st : phys) (owned : gset Z) : Prop := {
  pi_wf : mem_wf (ram st);
  pi_limit : 0 < page_limit st <= 2048;
  pi_last : 0 <= last_index st <= page_limit st;
  pi_bits : bits_valid (ram st) (bitmap st) (page_limit st);
  pi_hhdm : page_limit st * page_size <= hhdm /\ hhdm + page_limit st * page_size <= W64;
  (* the null page is never handed out *)
  pi_null : bit_of (ram st) (bitmap st) 0 = true /\ 0 ∉ owned;
  pi_owned : forall i, i ∈ owned ->
    0 <= i < page_limit st /\ bit_of (ram st) (bitmap st) i = true;
  (* free and handed-out pages are mapped and do not hold the bitmap *)
  pi_pages : forall i, 0 <= i < page_limit st ->
    bit_of (ram st) (bitmap st) i = false \/ i ∈ owned ->
    valid (ram st) (hhdm + i * page_size) page_size /\
    forall a, in_range (hhdm + i * page_size) page_size a ->
              ~ bit_region (bitmap st) (page_limit st) a;
  pi_used : page_size * Z.of_nat (size owned) <= used_memory st /\
    used_memory st + page_size * (page_limit st - Z.of_nat (size owned)) < W64;
}.

Lemma owned_bound hhdm st owned : pmm_inv hhdm st owned -> Z.of_nat (size owned) <= page_limit st.
Proof.
  intros Hinv. pose proof (pi_limit _ _ _ Hinv).
  rewrite <- (size_pages 0 (page_limit st)) by lia.
  apply Nat2Z.inj_le, subseteq_size. intros i Hi. apply elem_of_pages.
  apply (pi_owned _ _ _ Hinv) in Hi as [? _]. lia.
Qed.

Section Alloc.
Context (hhdm : Z) (st : phys) (owned : gset Z) (Hinv : pmm_inv hhdm st owned).
Local Abbreviation bm := (bitmap st).
Local Abbreviation limit := (page_limit st).

(** The state after [count] free pages from [page] have been taken. *)
Record allocated (page count : Z) (st' : phys) : Prop := {
  al_page : 0 < page /\ page + count <= limit;
  al_free : run_free (ram st) bm page (page + count);
  al_bits : forall j, 0 <= j < limit ->
    bit_of (ram st') bm j = if decide (page <= j < page + count) then true else bit_of (ram st) bm j;
  al_zero : bytes_at (ram st') (hhdm + page * page_size) (replicate (Z.to_nat (count * page_size)) 0);
  al_frame : forall a, ~ bit_region bm limit a ->
    ~ in_range (hhdm + page * page_size) (count * page_size) a -> ram st' !! a = ram st !! a;
  al_dom : same_dom (ram st) (ram st');
  al_wf : mem_wf (ram st');
  al_state : st' = with_alloc st (ram st') (page + count) (used_memory st + count * page_size);
}.

Lemma run_not_owned page count i :
  0 <= page -> run_free (ram st) bm page (page + count) -> page <= i < page + count -> i ∉ owned.
Proof.
  intros Hp Hf Hi Ho. apply (pi_owned _ _ _ Hinv) in Ho as [_ Hb]. by rewrite (Hf i Hi) in Hb.
Qed.

Lemma used_after page count :
  0 <= page -> 0 <= count -> page + count <= limit ->
  run_free (ram st) bm page (page + count) ->
  count + Z.of_nat (size owned) <= limit /\
  Z.of_nat (size (pages page count ∪ owned)) = count + Z.of_nat (size owned).
Proof.
  intros Hp Hc Hl Hf.
  assert (pages page count ## owned) as Hd.
  { intros i Hi%elem_of_pages Ho. by apply (run_not_owned page count i). }
  assert (Z.of_nat (size (pages page count ∪ owned)) = count + Z.of_nat (size owned)) as E.
  { rewrite size_union by done. pose proof (size_pages page count). lia. }
  split; [|done]. rewrite <- E.
  pose proof (pi_limit _ _ _ Hinv). rewrite <- (size_pages 0 limit) by lia.
  apply Nat2Z.inj_le, subseteq_size. intros i [Hi%elem_of_pages|Hi]%elem_of_union.
  - apply elem_of_pages. lia.
  - apply elem_of_pages. apply (pi_owned _ _ _ Hinv) in Hi as [? _]. lia.
Qed.

(** Zeroing the pages of a successful search. *)
Lemma finish_alloc page count m1 :
  0 < count -> 0 < page -> page + count <= limit ->
  run_free (ram st) bm page (page + count) ->
  bits_updated (ram st) bm limit page (page + count) true m1 ->
  exists m2, memset m1 (tohh hhdm (page * page_size)) 0 (u64 (count * page_size)) =
      Ok (tohh hhdm (page * page_size), m2) /\
    u64 (used_memory st + u64 (count * page_size)) = used_memory st + count * page_size /\
    allocated page count
      (with_alloc st m2 (page + count) (used_memory st + count * page_size)).
Proof.
  intros Hc Hp Hl Hf [Hw Hd Hb Hfr].
  destruct Hinv as [_ Hlim _ Hbits Hhh _ _ Hpg [Hu1 Hu2]].
  destruct (used_after page count) as [Hcap _]; [lia..|done|].
  assert (0 < count * page_size <= 8388608) as Hcp by lia.
  rewrite (u64_small (count * page_size)) by lia. rewrite tohh_low by lia.
  replace (page * page_size + hhdm) with (hhdm + page * page_size) by lia.
  assert (valid m1 (hhdm + page * page_size) (count * page_size)) as Hv.
  { eapply valid_same_dom; [done|]. apply valid_pages. intros i Hi.
    apply Hpg; [lia|]. left. by apply Hf. }
  rewrite (memset_valid _ Hw) by (done || lia).
  set (l := replicate (Z.to_nat (count * page_size)) (u8 0)).
  assert (Z.of_nat (length l) = count * page_size) as El
    by (unfold l; rewrite length_replicate; lia).
  assert (forall a, in_range (hhdm + page * page_size) (count * page_size) a ->
                    ~ bit_region bm limit a) as Hnb.
  { intros a Ha. apply in_pages_range in Ha as (i & Hi & Ha).
    assert (0 <= i < limit) as Hi' by lia. apply (Hpg i Hi'); [|done]. left. by apply Hf. }
  exists (write_bytes m1 (hhdm + page * page_size) l). split; [done|].
  split; [apply u64_small; lia|]. constructor; cbn [ram with_alloc]; try done.
  - intros j Hj. rewrite <- Hb by lia.
    apply bit_of_frame, lookup_write_bytes_out. rewrite El. intros Ha.
    apply (Hnb _ Ha). exists j. split; [lia|done].
  - apply write_bytes_bytes_at.
  - intros a Ha Ho. rewrite lookup_write_bytes_out by (by rewrite El). by apply Hfr.
  - eapply same_dom_trans; [done|]. apply write_bytes_same_dom. by rewrite El.
  - apply write_bytes_wf; [done|by rewrite El|]. unfold l. apply Forall_replicate, u8_range.
Qed.

Lemma allocated_inv page count st' : 0 < count ->
  allocated page count st' -> pmm_inv hhdm st' (pages page count ∪ owned).
Proof.
  intros Hc [[Hp Hl] Hf Hb _ Hfr Hd Hw Est].
  destruct Hinv as [_ Hlim Hlast Hbits Hhh [Hn0 Hn] Hown Hpg [Hu1 Hu2]].
  destruct (used_after page count) as [Hcap Hsz]; [lia..|done|].
  assert (bitmap st' = bm /\ page_limit st' = limit /\ last_index st' = page + count /\
          used_memory st' = used_memory st + count * page_size) as (Eb & El & Ei & Eu)
    by (rewrite Est; done).
  constructor; rewrite ?Eb, ?El, ?Ei, ?Eu; try done; try lia.
  - intros i Hi. apply Hd. by apply Hbits.
  - split; [rewrite Hb by lia; by rewrite decide_False by lia|].
    rewrite elem_of_union, elem_of_pages. intros [?|?]; [lia|done].
  - intros i [Hi%elem_of_pages|Hi]%elem_of_union.
    + split; [lia|]. rewrite Hb by lia. by rewrite decide_True.
    + apply Hown in Hi as [Hi Hbi]. split; [done|]. rewrite Hb by lia. by case_decide.
  - intros i Hi Hor. destruct (Hpg i Hi) as [Hv Hr].
    { rewrite Hb in Hor by lia. rewrite elem_of_union, elem_of_pages in Hor.
      destruct Hor as [Hor|[Hor|Hor]]; [|left; by apply Hf|by right].
      case_decide; [done|by left]. }
    split; [by eapply valid_same_dom|done].
Qed.

Lemma bits_updated_mono m n n' lo hi v m' :
  n <= n' -> bits_updated m bm n lo hi v m' -> bits_updated m bm n' lo hi v m'.
Proof.
  intros Hle [Hw Hd Hb Hf]. constructor; try done. intros a Ha. apply Hf.
  intros (j & Hj & ->). apply Ha. exists j. split; [lia|done].
Qed.

(** A run found below [n <= limit] ends in a good state. *)
Lemma found_run n count page m1 :
  0 < count -> n <= limit -> 0 <= page -> page + count <= n ->
  run_free (ram st) bm page (page + count) ->
  bits_updated (ram st) bm n page (page + count) true m1 ->
  page * page_size <> 0 /\
  exists st',
    ('(_, m) ← memset m1 (tohh hhdm (page * page_size)) 0 (u64 (count * page_size));
     Ok (page * page_size, with_alloc st m (page + count)
           (u64 (used_memory st + u64 (count * page_size))))) = Ok (page * page_size, st') /\
    allocated page count st' /\ pmm_inv hhdm st' (pages page count ∪ owned).
Proof.
  intros Hc Hn Hp Hpn Hf Hu.
  assert (0 < page) as Hp0.
  { destruct (decide (page = 0)) as [->|]; [|lia].
    pose proof (proj1 (pi_null _ _ _ Hinv)) as H0. by rewrite (Hf 0) in H0 by lia. }
  split; [lia|].
  destruct (finish_alloc page count m1) as (m2 & -> & -> & Ha); try done; try lia.
  { by apply (bits_updated_mono _ n). }
  bind_simpl. eexists. split; [done|]. split; [done|]. by apply allocated_inv.
Qed.

(** The run that [alloc] takes: the first behind the cursor, or else the first before it. *)
Definition first_fit (page count : Z) : Prop :=
  last_index st <= page /\ no_run (ram st) bm count (last_index st) (page + count - 1) \/
  page + count <= last_index st /\ no_run (ram st) bm count (last_index st) limit /\
    no_run (ram st) bm count 0 (page + count - 1).

Lemma physical_alloc_spec count : 0 < count ->
  (exists page st', physical_alloc hhdm count st = Ok (page * page_size, st') /\
     allocated page count st' /\ pmm_inv hhdm st' (pages page count ∪ owned) /\ first_fit page count) \/
  (physical_alloc hhdm count st = Panic /\
     no_run (ram st) bm count (last_index st) limit /\
     no_run (ram st) bm count 0 (last_index st)).
Proof.
  intros Hc. pose proof (pi_limit _ _ _ Hinv) as Hlim. pose proof (pi_last _ _ _ Hinv) as Hlast.
  unfold physical_alloc. rewrite (proj2 (Z.eqb_neq count 0)) by lia.
  destruct (inner_alloc_spec (ram st) (pi_wf _ _ _ Hinv) bm limit) with (count := count)
    (lo := last_index st) as (r & -> & Hr); [lia|apply Hinv|lia|done|].
  destruct Hr as [(page & m1 & -> & Hlo & Hhi & Hf & Hno & Hu)|[-> Hno1]]; bind_simpl.
  { left. destruct (found_run limit count page m1) as (Hne & st' & E & Ha & Hi); try done; try lia.
    rewrite (proj2 (Z.eqb_neq _ 0)) by done. exists page, st'. bind_simpl. split_and!; try done. by left. }
  rewrite Z.eqb_refl.
  destruct (inner_alloc_spec (ram st) (pi_wf _ _ _ Hinv) bm (last_index st)) with (count := count)
    (lo := 0) as (r & -> & Hr); [lia|intros i Hi; apply Hinv; lia|lia|done|].
  destruct Hr as [(page & m1 & -> & Hlo & Hhi & Hf & Hno & Hu)|[-> Hno2]]; bind_simpl.
  { left. destruct (found_run (last_index st) count page m1) as (Hne & st' & E & Ha & Hi); try done; try lia.
    rewrite (proj2 (Z.eqb_neq _ 0)) by done. exists page, st'. bind_simpl. split_and!; try done. by right. }
  right. by rewrite Z.eqb_refl.
Qed.
End Alloc.

(** ** Freeing *)

Section Free.
Context (hhdm : Z) (st : phys) (owned : gset Z) (Hinv : pmm_inv hhdm st owned).

Record freed (page count : Z) (st' : phys) : Prop := {
  fr_bits : forall j, 0 <= j < page_limit st -> bit_of (ram st') (bitmap st) j =
    if decide (page <= j < page + count) then false else bit_of (ram st) (bitmap st) j;
  fr_frame : forall a, ~ bit_region (bitmap st) (page_limit st) a -> ram st' !! a = ram st !! a;
  fr_dom : same_dom (ram st) (ram st');
  fr_wf : mem_wf (ram st');
  fr_state : st' = with_alloc st (ram st') (Z.min (last_index st) page)
                     (used_memory st - count * page_size);
}.

Lemma physical_free_spec page count : 0 < count -> pages page count ⊆ owned ->
  exists st', physical_free (page * page_size) count st = Ok st' /\
    freed page count st' /\ pmm_inv hhdm st' (owned ∖ pages page count).
Proof.
  intros Hc Hsub.
  assert (forall i, page <= i < page + count -> i ∈ owned) as Hin.
  { intros i Hi. by apply Hsub, elem_of_pages. }
  pose proof Hinv as [Hw Hlim Hlast Hbits Hhh [Hn0 Hn] Hown Hpg [Hu1 Hu2]].
  assert (0 < page /\ page + count <= page_limit st) as [Hp Hl].
  { pose proof (proj1 (Hown page (Hin page ltac:(lia)))).
    pose proof (proj1 (Hown (page + count - 1) (Hin (page + count - 1) ltac:(lia)))).
    destruct (decide (page = 0)) as [->|]; [|lia]. destruct Hn. apply Hin. lia. }
  assert (Z.of_nat (size owned) = count + Z.of_nat (size (owned ∖ pages page count))) as Esz.
  { rewrite size_difference by done. pose proof (subseteq_size _ _ Hsub).
    pose proof (size_pages page count). lia. }
  pose proof (owned_bound _ _ _ Hinv) as Hob.
  unfold physical_free. rewrite (proj2 (Z.eqb_neq _ 0)) by lia.
  rewrite Z.div_mul, (u64_small (page + count)) by lia.
  destruct (set_range_spec (ram st) Hw (bitmap st) (page_limit st)) with (lo := page) (hi := page + count)
    (v := false) as (m' & -> & [Hw' Hd Hb Hfr]); [lia|done|lia|lia|]. bind_simpl.
  rewrite (u64_small (count * page_size)), u64_small by lia.
  eexists. split; [done|]. split.
  { constructor; cbn [ram with_alloc]; try done. intros j Hj. apply Hb. lia. }
  constructor; cbn [ram with_alloc last_index bitmap used_memory page_limit mem_usable_top];
    try done; try (unfold page_limit in *; simpl; lia).
  - intros i Hi. apply Hd. by apply Hbits.
  - split; [rewrite Hb by lia; by rewrite decide_False by lia|].
    by intros [? _]%elem_of_difference.
  - intros i [Hi Hni]%elem_of_difference. rewrite elem_of_pages in Hni.
    destruct (Hown i Hi) as [Hi' Hbi]. split; [done|]. rewrite Hb by lia. by rewrite decide_False.
  - intros i Hi Hor. destruct (Hpg i Hi) as [Hv Hr]; [|by split; [eapply valid_same_dom|]].
    rewrite Hb in Hor by lia. case_decide; [right; by apply Hin|].
    destruct Hor as [Hor|Hor]; [by left|right]. by apply elem_of_difference in Hor as [? _].
Qed.
End Free.

(** ** Sequences of requests *)

Section Traces.
Context (hhdm : Z).

(** What can happen to the manager: an allocation that succeeds, a client
    returning pages it owns, and a client writing to pages it owns. *)
Inductive pmm_step : phys * gset Z -> phys * gset Z -> Prop :=
| step_alloc st owned count page st' :
    0 < count -> physical_alloc hhdm count st = Ok (page * page_size, st') ->
    pmm_step (st, owned) (st', pages page count ∪ owned)
| step_free st owned count page st' :
    0 < count -> pages page count ⊆ owned ->
    physical_free (page * page_size) count st = Ok st' ->
    pmm_step (st, owned) (st', owned ∖ pages page count)
| step_write st owned m :
    mem_wf m -> same_dom (ram st) m ->
    (forall a, ~ in_pages hhdm owned a -> m !! a = ram st !! a) ->
    pmm_step (st, owned) (with_ram st m, owned).

Lemma write_inv st owned m :
  pmm_inv hhdm st owned -> mem_wf m -> same_dom (ram st) m ->
  (forall a, bit_region (bitmap st) (page_limit st) a -> m !! a = ram st !! a) ->
  pmm_inv hhdm (with_ram st m) owned.
Proof.
  intros [Hw Hlim Hlast Hbits Hhh [Hn0 Hn] Hown Hpg Hu] Hwm Hd Hf.
  assert (forall j, 0 <= j < page_limit st ->
            bit_of m (bitmap st) j = bit_of (ram st) (bitmap st) j) as Hb.
  { intros j Hj. apply bit_of_frame, Hf. by exists j. }
  constructor; cbn [with_ram ram bitmap last_index used_memory]; try done.
  - intros i Hi. apply Hd. by apply Hbits.
  - split; [|done]. by rewrite Hb by lia.
  - intros i Hi. destruct (Hown i Hi) as [Hil Hbi]. split; [done|]. by rewrite Hb.
  - intros i Hi Hor. change (page_limit (with_ram st m)) with (page_limit st) in Hi.
    rewrite Hb in Hor by done. destruct (Hpg i Hi Hor) as [Hv Hr].
    split; [by eapply valid_same_dom|done].
Qed.

Lemma owned_not_bitmap st o a :
  pmm_inv hhdm st o -> in_pages hhdm o a -> ~ bit_region (bitmap st) (page_limit st) a.
Proof.
  intros Hinv (i & Hi & Ha). apply (pi_pages _ _ _ Hinv i); [apply Hinv, Hi|by right|done].
Qed.

(** One step: the invariant, and what [used_memory] accounts for. *)
Lemma pmm_step_inv st owned st' owned' :
  pmm_inv hhdm st owned -> pmm_step (st, owned) (st', owned') ->
  pmm_inv hhdm st' owned' /\ page_limit st' = page_limit st /\
  used_memory st' - page_size * Z.of_nat (size owned') =
  used_memory st - page_size * Z.of_nat (size owned).
Proof.
  intros Hinv Hs. inversion Hs as [? ? count page ? Hc E|? ? count page ? Hc Hsub E|? ? m Hw Hd Hf]; subst.
  - destruct (physical_alloc_spec _ _ _ Hinv count Hc) as [(page' & st1 & E' & Ha & Hi & _)|[E' _]];
      [|congruence].
    rewrite E in E'. injection E' as Ep <-. assert (page' = page) as -> by lia.
    split; [done|]. destruct Ha as [[Hp Hl] Hf _ _ _ _ _ Est].
    destruct (used_after _ _ _ Hinv page count) as [_ ->]; [lia..|done|].
    rewrite Est. cbn. split; [done|lia].
  - destruct (physical_free_spec _ _ _ Hinv page count Hc Hsub) as (st1 & E' & Hfr & Hi).
    rewrite E in E'. injection E' as <-. split; [done|].
    rewrite size_difference by done. pose proof (subseteq_size _ _ Hsub).
    pose proof (size_pages page count). rewrite (fr_state _ _ _ _ Hfr). cbn. split; [done|lia].
  - split; [|done]. apply write_inv; try done. intros a Ha. apply Hf.
    intros Hp. by apply (owned_not_bitmap _ _ _ Hinv Hp).
Qed.

Lemma pmm_steps_inv s s' :
  rtc pmm_step s s' -> pmm_inv hhdm s.1 s.2 ->
  pmm_inv hhdm s'.1 s'.2 /\ page_limit s'.1 = page_limit s.1 /\
  used_memory s'.1 - page_size * Z.of_nat (size s'.2) =
  used_memory s.1 - page_size * Z.of_nat (size s.2).
Proof.
  induction 1 as [s|[st o] [st1 o1] s2 H1 _ IH]; intros Hinv; [done|].
  destruct (pmm_step_inv _ _ _ _ Hinv H1) as (Hi & El & Eu).
  destruct (IH Hi) as (Hi' & El' & Eu'). simpl in *. split_and!; [done|lia|lia].
Qed.
End Traces.

(** ** Beyond the 2048 pages *)

Section Beyond.
Context (m : mem) (Hwf : mem_wf m) (bm : bitmap_t) (n : Z) (Hn : 2048 <= n <= 524288).
Context (Hv : bits_valid m bm n).

(** With every bit below 2048 set, a search finds nothing. *)
Lemma search_all_used count limit lo :
  (forall j, 0 <= j < 2048 -> bit_of m bm j = true) ->
  0 < count -> 0 <= lo -> limit <= n ->
  inner_alloc bm count limit m lo = Ok (0, m, Z.max lo limit).
Proof.
  intros Hall Hc Hlo Hl. unfold inner_alloc.
  destruct (loop_total (inner_step bm count limit)
    (fun k s => exists last, s = (m, last, 0) /\ k = Z.to_nat (limit - last) /\ lo <= last <= Z.max lo limit)
    (fun r => r = (0, m, Z.max lo limit)))
    with (n := Z.to_nat (limit - lo)) (s := (m, lo, 0)) (fuel := S (Z.to_nat (limit - lo)))
    as (r & -> & ->); [| |lia|done].
  - intros k s (last & -> & -> & Hlast). simpl. destruct (Z.ltb_spec last limit) as [Hlt|Hge].
    + left. rewrite s32_small, bitmap_get_alias_mod by lia.
      pose proof (Z.mod_pos_bound last 2048 eq_refl).
      rewrite bitmap_get_spec by (done || lia || (apply Hv; lia)). rewrite Hall by done. simpl.
      rewrite u64_small by lia. eexists _, _. split; [done|]. split; [|by exists (last + 1); eauto with lia]. lia.
    + right. eexists. split; [done|]. by replace (Z.max lo limit) with last by lia.
  - exists lo. split_and!; [done|done|lia|lia].
Qed.
End Beyond.

(** ** The contract *)

(** The manager's addresses: the bitmap and the direct map of its pages. *)
Definition pmm_managed (hhdm : Z) (st : phys) (a : Z) : Prop :=
  bit_region (bitmap st) (page_limit st) a \/ in_range hhdm (page_limit st * page_size) a.

Lemma filter_ext_in {A} (P Q : A -> Prop) `{!forall x, Decision (P x), !forall x, Decision (Q x)} (l : list A) :
  (forall x, x ∈ l -> (P x <-> Q x)) -> filter P l = filter Q l :> list A.
Proof.
  induction l as [|a l IH]; intros Hl; [done|]. rewrite !filter_cons.
  rewrite IH by (intros x Hx; apply Hl; by right).
  pose proof (Hl a ltac:(left)). repeat case_decide; tauto.
Qed.

(** Filters that differ in one element. *)
Lemma filter_remove (P Q : Z -> Prop) `{!forall x, Decision (P x), !forall x, Decision (Q x)} (l : list Z) p :
  NoDup l -> p ∈ l -> P p -> (forall x, x ∈ l -> (Q x <-> P x /\ x <> p)) ->
  length (filter P l) = S (length (filter Q l)).
Proof.
  induction l as [|a l IH]; intros Hnd Hp HP HQ; [by apply elem_of_nil in Hp|].
  apply NoDup_cons in Hnd as [Ha Hnd]. rewrite !filter_cons.
  pose proof (HQ a ltac:(left)) as HQa. apply elem_of_cons in Hp as [->|Hp].
  - rewrite decide_True, decide_False by tauto. simpl. f_equal. f_equal.
    apply filter_ext_in. intros x Hx. rewrite HQ by (by right).
    split; [|tauto]. intros ?. split; [done|]. by intros ->.
  - assert (a <> p) by (intros ->; done).
    assert (length (filter P l) = S (length (filter Q l))) as E.
    { apply IH; [done..|]. intros x Hx. apply HQ. by right. }
    destruct (decide (P a)) as [HPa|HPa].
    + rewrite decide_True by tauto. simpl. by rewrite E.
    + rewrite decide_False by tauto. done.
Qed.

(** The free pages. *)
Definition free_pages (st : phys) : list Z :=
  filter (fun i => bit_of (ram st) (bitmap st) i = false) (seqZ 0 (page_limit st)).
Definition pmm_room (st : phys) : nat := length (free_pages st).

(** *** Runs ahead of the cursor *)

(** [n] free pages one behind the other, which the search has not passed. *)
Definition pmm_run (st : phys) (n : Z) : Prop :=
  exists s, last_index st <= s /\ s + n <= page_limit st /\ run_free (ram st) (bitmap st) s (s + n).

Lemma pmm_run_le st n k : pmm_run st n -> k <= n -> pmm_run st k.
Proof. intros (s & Hs & Hn & Hf) Hk. exists s. split_and!; [done|lia|]. intros j Hj. apply Hf. lia. Qed.

Section Runs.
Context (hhdm : Z) (st : phys) (o : gset Z) (Hinv : pmm_inv hhdm st o).

Lemma run_none count : no_run (ram st) (bitmap st) count (last_index st) (page_limit st) -> ~ pmm_run st count.
Proof.
  intros Hno (s & Hs & Hn & Hf). destruct (Hno s Hs Hn) as (j & Hj & Hb). by rewrite (Hf j Hj) in Hb.
Qed.

(** The first run that is long enough costs a longer one at most its length. *)
Lemma run_after page count st' n : 0 < count -> allocated hhdm st page count st' -> first_fit st page count ->
  pmm_run st n -> pmm_run st' (n - count).
Proof.
  intros Hc [[Hp Hl] _ Hb _ _ _ _ Est] Hff (s & Hs & Hn & Hf).
  assert (bitmap st' = bitmap st /\ page_limit st' = page_limit st /\ last_index st' = page + count) as (Eb & El & Ei)
    by (by rewrite Est).
  pose proof (pi_last _ _ _ Hinv). destruct (decide (n < count)) as [Hlt|Hge].
  { exists (page + count). rewrite El, Ei. split_and!; [lia|lia|]. intros j Hj. lia. }
  assert (page <= s) as Hps.
  { destruct Hff as [[Hlp Hno]|(_ & Hno & _)].
    - destruct (decide (page <= s)) as [|Hgt]; [done|]. destruct (Hno s) as (j & Hj & Hbj); [lia|lia|].
      rewrite (Hf j) in Hbj by lia. done.
    - destruct (Hno s) as (j & Hj & Hbj); [lia|lia|]. rewrite (Hf j) in Hbj by lia. done. }
  exists (Z.max s (page + count)). rewrite Eb, El, Ei. split_and!; [lia|lia|]. intros j Hj.
  rewrite Hb by lia. rewrite decide_False by lia. apply Hf. lia.
Qed.

(** Pages that are returned are a run again, and no other run is lost. *)
Lemma run_freed page count st' : 0 < count -> pages page count ⊆ o -> freed st page count st' ->
  (forall n, pmm_run st n -> pmm_run st' n) /\ pmm_run st' count.
Proof.
  intros Hc Hs [Hb _ _ _ Est].
  assert (bitmap st' = bitmap st /\ page_limit st' = page_limit st /\ last_index st' = Z.min (last_index st) page) as (Eb & El & Ei)
    by (by rewrite Est).
  pose proof (pi_last _ _ _ Hinv).
  assert (forall i, page <= i < page + count -> 0 <= i < page_limit st) as Hin
    by (intros i Hi; apply (pi_owned _ _ _ Hinv), Hs, elem_of_pages; lia).
  pose proof (Hin page ltac:(lia)). pose proof (Hin (page + count - 1) ltac:(lia)). split.
  - intros n (s & Hs1 & Hn & Hf). exists s. rewrite Eb, El, Ei. split_and!; [lia|lia|]. intros j Hj.
    rewrite Hb by lia. destruct (decide _); [done|]. by apply Hf.
  - exists page. rewrite Eb, El, Ei. split_and!; [lia|lia|]. intros j Hj. rewrite Hb by lia. by rewrite decide_True.
Qed.
End Runs.

Section Contract.
Context (hhdm : Z) (Hal : hhdm mod page_size = 0).

Lemma run_pages o page count a :
  in_range (hhdm + page * page_size) (count * page_size) a -> in_pages hhdm o a ->
  pages page count ## o -> False.
Proof.
  intros (i & Hi & Hia)%in_pages_range (j & Hj & Hja) Hd.
  apply (Hd j); [|done]. apply elem_of_pages. by rewrite <- (in_page_inj _ _ _ _ Hia Hja).
Qed.

Lemma pmm_contract_page st o i :
  pmm_inv hhdm st o -> i ∈ o ->
  0 < i /\ (i + 1) * page_size <= hhdm /\ hhdm + (i + 1) * page_size <= W64 /\
  valid (ram st) (hhdm + i * page_size) page_size /\
  forall a, in_page hhdm i a -> pmm_managed hhdm st a.
Proof.
  intros Hinv Hi. destruct (pi_owned _ _ _ Hinv i Hi) as [Hil _].
  destruct (pi_hhdm _ _ _ Hinv) as [Hh1 Hh2].
  assert (i <> 0) by (intros ->; by apply (pi_null _ _ _ Hinv)).
  split_and!; try lia.
  - by apply (pi_pages _ _ _ Hinv i Hil); right.
  - intros a Ha. right. unfold in_page, in_range in *. lia.
Qed.

Lemma pmm_contract_52 st o i : pmm_inv hhdm st o -> i ∈ o -> i < 1099511627776.
Proof.
  intros Hinv Hi. destruct (pi_owned _ _ _ Hinv i Hi) as [? _]. pose proof (pi_limit _ _ _ Hinv). lia.
Qed.

Lemma pmm_contract_alloc st o count :
  pmm_inv hhdm st o -> 0 < count ->
  (exists page st', physical_alloc hhdm count st = Ok (page * page_size, st') /\
     pages page count ## o /\ pmm_inv hhdm st' (pages page count ∪ o) /\
     pmm_managed hhdm st' = pmm_managed hhdm st /\ same_dom (ram st) (ram st') /\
     bytes_at (ram st') (hhdm + page * page_size) (replicate (Z.to_nat (count * page_size)) 0) /\
     (forall a, ~ pmm_managed hhdm st a \/ in_pages hhdm o a -> ram st' !! a = ram st !! a) /\
     (forall n, pmm_run st n -> pmm_run st' (n - count))) \/
  (physical_alloc hhdm count st = Panic /\ ~ pmm_run st count).
Proof.
  intros Hinv Hc.
  destruct (physical_alloc_spec _ _ _ Hinv count Hc) as [(page & st' & E & Ha & Hi & Hff)|(Hp & Hno & _)];
    [left|right; split; [done|by apply run_none]].
  pose proof Ha as [[Hp Hl] Hf _ Hz Hfr Hd _ Est].
  assert (pages page count ## o) as Hdis.
  { intros i Hi1%elem_of_pages Hi2. by apply (run_not_owned _ _ _ Hinv page count i); [lia| | |]. }
  exists page, st'. split_and!; try done; [by rewrite Est| |intros n; by apply (run_after hhdm st o Hinv page count)].
  intros a Ha'. apply Hfr.
  - destruct Ha' as [Hm|Ho]; [|by apply (owned_not_bitmap _ _ _ _ Hinv)]. intros Hb. apply Hm. by left.
  - intros Hr. destruct Ha' as [Hm|Ho]; [|by apply (run_pages o page count a)].
    apply Hm. right. unfold in_range in *. lia.
Qed.

Lemma pmm_contract_free st o page count :
  pmm_inv hhdm st o -> 0 < count -> pages page count ⊆ o ->
  exists st', physical_free (page * page_size) count st = Ok st' /\
    pmm_inv hhdm st' (o ∖ pages page count) /\
    pmm_managed hhdm st' = pmm_managed hhdm st /\ same_dom (ram st) (ram st') /\
    (forall a, ~ pmm_managed hhdm st a \/ in_pages hhdm (o ∖ pages page count) a ->
               ram st' !! a = ram st !! a) /\
    (forall n, pmm_run st n -> pmm_run st' n) /\ pmm_run st' count.
Proof.
  intros Hinv Hc Hs. destruct (physical_free_spec _ _ _ Hinv page count Hc Hs) as (st' & E & Hf & Hi).
  destruct (run_freed hhdm st o Hinv page count st' Hc Hs Hf) as [Hr1 Hr2].
  destruct Hf as [_ Hfr Hd _ Est]. exists st'. split_and!; try done; [by rewrite Est|].
  intros a Ha. apply Hfr. destruct Ha as [Hm|(i & Hi1%elem_of_difference & Hi2)].
  - intros Hb. apply Hm. by left.
  - apply (owned_not_bitmap _ _ _ _ Hinv). exists i. split; [apply Hi1|done].
Qed.

Lemma pmm_contract_write st o m :
  pmm_inv hhdm st o -> mem_wf m -> same_dom (ram st) m ->
  (forall a, pmm_managed hhdm st a -> ~ in_pages hhdm o a -> m !! a = ram st !! a) ->
  pmm_inv hhdm (with_ram st m) o /\ pmm_managed hhdm (with_ram st m) = pmm_managed hhdm st /\
  pmm_room (with_ram st m) = pmm_room st /\ (forall n, pmm_run st n -> pmm_run (with_ram st m) n).
Proof.
  intros Hinv Hw Hd Hf.
  assert (forall a, bit_region (bitmap st) (page_limit st) a -> m !! a = ram st !! a) as Hbr.
  { intros a Ha. apply Hf; [by left|]. intros Hp. by apply (owned_not_bitmap _ _ _ _ Hinv Hp). }
  assert (forall i, 0 <= i < page_limit st -> bit_of m (bitmap st) i = bit_of (ram st) (bitmap st) i) as Hbit.
  { intros i Hi. apply bit_of_frame, Hbr. by exists i. }
  split_and!; [by apply write_inv|done| |].
  - unfold pmm_room, free_pages. f_equal. apply filter_ext_in. intros i Hi%elem_of_seqZ. cbn [with_ram ram bitmap].
    change (page_limit (with_ram st m)) with (page_limit st) in Hi. rewrite Hbit; [done|lia].
  - intros n (s & Hs & Hn & Hfree). exists s. split_and!; [done|done|]. intros i Hi. cbn [with_ram ram bitmap].
    pose proof (pi_last _ _ _ Hinv). rewrite Hbit by lia. by apply Hfree.
Qed.

Lemma pmm_contract_room st o : pmm_inv hhdm st o ->
  (exists r, physical_alloc hhdm 1 st = Ok r /\ pmm_room st = S (pmm_room r.2)) \/
  (physical_alloc hhdm 1 st = Panic /\ pmm_room st = O).
Proof.
  intros Hinv. pose proof (pi_last _ _ _ Hinv) as Hlast.
  destruct (physical_alloc_spec _ _ _ Hinv 1) as [(page & st' & E & Ha & Hi & _)|[Hp [H1 H2]]]; [lia|left|right].
  - destruct Ha as [[Hp Hl] Hf Hb _ _ _ _ Est]. eexists. split; [exact E|]. simpl.
    unfold pmm_room, free_pages.
    assert (page_limit st' = page_limit st) as -> by (by rewrite Est).
    assert (bitmap st' = bitmap st) as -> by (by rewrite Est).
    apply (filter_remove _ _ _ page); [apply NoDup_seqZ|apply elem_of_seqZ; lia|apply Hf; lia|].
    intros x Hx%elem_of_seqZ. rewrite Hb by lia. case_decide; [|split; [|tauto]; intros; split; [done|lia]].
    split; [done|]. intros [_ Hne]. lia.
  - split; [done|]. unfold pmm_room, free_pages.
    destruct (filter _ _) as [|i l] eqn:El; [done|]. exfalso.
    assert (i ∈ i :: l) as Hi by left. rewrite <- El in Hi.
    apply list_elem_of_filter in Hi as [Hb Hi%elem_of_seqZ].
    destruct (decide (i < last_index st)).
    + destruct (H2 i) as (j & Hj & Hbj); [lia..|]. replace j with i in Hbj by lia. congruence.
    + destruct (H1 i) as (j & Hj & Hbj); [lia..|]. replace j with i in Hbj by lia. congruence.
Qed.

#[export] Instance phys_frame_laws : @FrameLaws phys (phys_frames hhdm) :=
  @Build_FrameLaws phys (phys_frames hhdm) (pmm_inv hhdm) (pmm_managed hhdm) pmm_room pmm_run
    (fun _ _ => eq_refl) (fun _ _ _ => eq_refl) Hal (pi_wf hhdm) pmm_contract_page pmm_contract_52 pmm_contract_write
    pmm_contract_alloc pmm_run_le pmm_contract_room pmm_contract_free.
End Contract.

(** ** A small machine *)

(** Sixteen pages, mapped at 1 MiB beside the memory [m]; page 0 holds the bitmap,
    whose first sixteen bits are [b]. *)
Definition sample_hhdm : Z := 1048576.
Definition sample_ram (m : mem) (b : Z) : mem :=
  write_bytes (write_bytes m sample_hhdm (replicate (Z.to_nat 65536) 0)) sample_hhdm (le_bytes 2 b).
Definition sample_phys (m : mem) (b used : Z) : phys :=
  Phys 65536 0 (Bitmap sample_hhdm 4096) 65536 65536 used 1073741824 (sample_ram m b).

Lemma sample_limit m b used : page_limit (sample_phys m b used) = 16.
Proof. done. Qed.

Section Sample.
Context (m : mem) (b : Z) (Hm : mem_wf m).

Lemma sample_ram_valid : valid (sample_ram m b) sample_hhdm 65536.
Proof.
  intros i Hi. unfold sample_ram. rewrite !lookup_write_bytes, length_replicate.
  unfold in_range, sample_hhdm. simpl length. case_decide; [apply lookup_Z_is_Some; simpl; lia|].
  rewrite decide_True by lia. apply lookup_Z_is_Some. rewrite length_replicate. lia.
Qed.

Lemma sample_ram_wf : mem_wf (sample_ram m b).
Proof.
  apply write_bytes_wf; [| |apply le_bytes_range].
  - intros a v. rewrite lookup_write_bytes, length_replicate. unfold in_range, sample_hhdm.
    case_decide; [|apply Hm]. intros [-> _]%lookup_replicate. lia.
  - intros i Hi. simpl in Hi. rewrite lookup_write_bytes_in.
    + apply lookup_Z_is_Some. rewrite length_replicate. lia.
    + rewrite length_replicate. unfold in_range. lia.
Qed.

Lemma sample_bit j : 0 <= j < 16 -> bit_of (sample_ram m b) (Bitmap sample_hhdm 4096) j = Z.testbit b j.
Proof.
  intros Hj. unfold bit_of. simpl buffer. unfold sample_ram.
  assert (j / 8 = 0 /\ j mod 8 = j /\ j < 8 \/ j / 8 = 1 /\ j mod 8 = j - 8 /\ 8 <= j)
    as [(-> & -> & Hj8)|(-> & -> & Hj8)].
  { pose proof (Z.div_mod j 8). pose proof (Z.mod_pos_bound j 8).
    destruct (decide (j < 8)); [left|right]; lia. }
  - rewrite lookup_write_bytes_in by (unfold in_range; simpl; lia). rewrite Z.add_0_r, Z.sub_diag. simpl.
    unfold wrap. by rewrite Z.mod_pow2_bits_low by lia.
  - rewrite lookup_write_bytes_in by (unfold in_range; simpl; lia).
    replace (sample_hhdm + 1 - sample_hhdm) with 1 by lia. simpl. unfold wrap.
    rewrite Z.mod_pow2_bits_low by lia.
    change 256 with (2 ^ 8). rewrite Z.div_pow2_bits by lia. f_equal. lia.
Qed.

Lemma sample_region j : 0 <= j < 16 -> 0 <= j / 8 < 2.
Proof. intros Hj. split; [apply Z.div_pos; lia|apply Z.div_lt_upper_bound; lia]. Qed.

Lemma sample_phys_inv used owned : Z.testbit b 0 = true ->
  (forall i, i ∈ owned -> 0 < i < 16 /\ Z.testbit b i = true) ->
  4096 * Z.of_nat (size owned) <= used <= 65536 -> pmm_inv sample_hhdm (sample_phys m b used) owned.
Proof.
  intros H0 Ho Hu.
  constructor; rewrite ?sample_limit; simpl ram; simpl bitmap; simpl last_index; simpl used_memory; try lia.
  - apply sample_ram_wf.
  - intros i Hi. simpl buffer. pose proof (sample_region i Hi). apply sample_ram_valid. lia.
  - unfold sample_hhdm. lia.
  - rewrite sample_bit by lia. split; [done|]. intros Hi%Ho. lia.
  - intros i Hi%Ho. split; [lia|]. rewrite sample_bit by lia. apply Hi.
  - intros i Hi Hor.
    assert (i <> 0) as Hi0.
    { intros ->. destruct Hor as [Hz|Hz%Ho]; [|lia]. rewrite sample_bit in Hz by lia. congruence. }
    split; [apply (valid_sub _ _ _ _ _ sample_ram_valid); lia|].
    intros a Ha (j & Hj & ->). simpl buffer in Ha. pose proof (sample_region j Hj).
    unfold in_range in Ha. lia.
Qed.
End Sample.

(** A machine of 2050 pages, its bitmap of 257 bytes over the memory [m]: all
    bits below 2048 equal, the others in the last byte. *)
Definition large_hhdm : Z := 16777216.
Definition large_ram (m : mem) (v last_byte : Z) : mem :=
  write_bytes m large_hhdm (replicate (Z.to_nat 256) v ++ [last_byte]).
Definition large_phys (m : mem) (v last_byte last : Z) : phys :=
  Phys (2050 * page_size) last (Bitmap large_hhdm 4096) (2050 * page_size) (2050 * page_size) 0 0
    (large_ram m v last_byte).

Section LargeMachine.
Context (m : mem) (v last_byte last : Z) (Hv : 0 <= v < 256) (Hl : 0 <= last_byte < 256).
Local Abbreviation st := (large_phys m v last_byte last).

Lemma large_valid : valid (ram st) large_hhdm 257.
Proof.
  intros i Hi. simpl ram. unfold large_ram. rewrite lookup_write_bytes_in.
  - apply lookup_Z_is_Some. rewrite length_app, length_replicate; simpl length; lia.
  - unfold in_range. rewrite length_app, length_replicate; simpl length; lia.
Qed.

Lemma large_bits : bits_valid (ram st) (bitmap st) 2050.
Proof.
  intros i Hi. apply large_valid. split; [apply Z.div_pos; lia|].
  apply Z.div_lt_upper_bound; lia.
Qed.

Lemma large_wf : mem_wf m -> mem_wf (ram st).
Proof.
  intros Hm a b. simpl ram. unfold large_ram. rewrite lookup_write_bytes. unfold in_range, large_hhdm.
  rewrite length_app, length_replicate. simpl length. case_decide; [|apply Hm].
  intros Hb%list_elem_of_lookup_2. rewrite elem_of_app, elem_of_replicate, list_elem_of_singleton in Hb.
  lia.
Qed.

Lemma large_bit j : 0 <= j < 2056 ->
  bit_of (ram st) (bitmap st) j = Z.testbit (if decide (j < 2048) then v else last_byte) (j mod 8).
Proof.
  intros Hj. unfold bit_of. simpl ram. unfold large_ram. simpl buffer.
  assert (0 <= j / 8 < 257) by (split; [apply Z.div_pos; lia|apply Z.div_lt_upper_bound; lia]).
  rewrite lookup_write_bytes_in.
  2:{ unfold in_range. rewrite length_app, length_replicate; simpl length; lia. }
  replace (large_hhdm + j / 8 - large_hhdm) with (j / 8) by lia. case_decide.
  - assert (j / 8 < 256) by (apply Z.div_lt_upper_bound; lia).
    rewrite lookup_app_l by (rewrite length_replicate; lia).
    by rewrite lookup_replicate_2 by lia.
  - assert (256 <= j / 8) by (apply Z.div_le_lower_bound; lia).
    assert (j / 8 = 256) as -> by lia. done.
Qed.
End LargeMachine.

(** The sixteen pages alone, page 0 used. *)
Definition empty_sample : phys := sample_phys ∅ 1 4096.

Lemma empty_wf : mem_wf ∅.
Proof. intros a v. by rewrite lookup_empty. Qed.

Lemma empty_sample_inv : pmm_inv sample_hhdm empty_sample ∅.
Proof.
  apply sample_phys_inv; [exact empty_wf|done|set_solver|]. rewrite size_empty. lia.
Qed.

Lemma empty_sample_free j : 1 <= j < 16 -> bit_of (ram empty_sample) (bitmap empty_sample) j <> true.
Proof.
  intros Hj. unfold empty_sample. simpl ram. simpl bitmap. rewrite sample_bit by lia.
  rewrite Z.bits_above_log2; [done|lia|simpl; lia].
Qed.

(** ** Theorems *)

(** C15: below 2048 pages, [alloc] of a positive count returns the address of the
    first run of free pages behind the cursor, or else before it: it marks exactly them used, zeroes them, leaves all other
    memory but the bitmap as it was, accounts for them, and keeps the invariant;
    it panics only if no such run exists on either side of the cursor.  It never
    faults, and its search loop ends. *)
Theorem physical_alloc_correct hhdm st owned count :
  pmm_inv hhdm st owned -> 0 < count ->
  (exists page st', physical_alloc hhdm count st = Ok (page * page_size, st') /\
     allocated hhdm st page count st' /\ pages page count ## owned /\ first_fit st page count /\
     pmm_inv hhdm st' (pages page count ∪ owned)) \/
  (physical_alloc hhdm count st = Panic /\
     no_run (ram st) (bitmap st) count (last_index st) (page_limit st) /\
     no_run (ram st) (bitmap st) count 0 (last_index st)).
Proof.
  intros Hinv Hc. destruct (physical_alloc_spec _ _ _ Hinv count Hc) as [(page & st' & E & Ha & Hi & Hff)|Hp];
    [left|by right].
  exists page, st'. split_and!; try done. intros i Hi1%elem_of_pages Hi2.
  destruct Ha as [[Hp _] Hf _ _ _ _ _ _].
  by apply (run_not_owned _ _ _ Hinv page count i); [lia| | |].
Qed.

Lemma physical_alloc_correct_witness :
  exists page st', physical_alloc sample_hhdm 2 empty_sample = Ok (page * page_size, st') /\
                   allocated sample_hhdm empty_sample page 2 st'.
Proof.
  destruct (physical_alloc_correct sample_hhdm empty_sample ∅ 2 empty_sample_inv) as [H|(_ & H & _)];
    [lia|destruct H as (page & st' & H1 & H2 & _); eauto|].
  exfalso. destruct (H 1) as (j & Hj & Hb); [simpl; lia|done|].
  by apply (empty_sample_free j) in Hb; [|lia].
Defined.

(** C19: with at most 2048 pages (8 MiB), as [pmm_inv] has it, returning the pages just
    allocated restores every bit and the amount of used memory, and the pages are
    the client's no longer. *)
Theorem physical_free_alloc_roundtrip hhdm st owned count page st1 :
  pmm_inv hhdm st owned -> 0 < count ->
  physical_alloc hhdm count st = Ok (page * page_size, st1) ->
  exists st2, physical_free (page * page_size) count st1 = Ok st2 /\
    (forall j, 0 <= j < page_limit st ->
       bit_of (ram st2) (bitmap st2) j = bit_of (ram st) (bitmap st) j) /\
    used_memory st2 = used_memory st /\ last_index st2 <= page /\ pmm_inv hhdm st2 owned.
Proof.
  intros Hinv Hc E.
  destruct (physical_alloc_spec _ _ _ Hinv count Hc) as [(page' & st' & E' & Ha & Hi & _)|[E' _]];
    [|congruence].
  rewrite E in E'. injection E' as Ep <-. assert (page' = page) as -> by lia.
  destruct (physical_free_spec _ _ _ Hi page count Hc) as (st2 & Ef & Hfr & Hi2); [set_solver|].
  pose proof Ha as [[Hp Hl'] Hf Hb _ _ _ _ Est].
  assert (bitmap st1 = bitmap st /\ page_limit st1 = page_limit st) as [Eb El] by (by rewrite Est).
  exists st2. split; [done|]. destruct Hfr as [Hb2 _ _ _ Est2]. rewrite Eb, El in Hb2.
  assert (bitmap st2 = bitmap st) as Eb2 by (rewrite Est2; simpl; done).
  split_and!.
  - intros j Hj. rewrite Eb2, Hb2, Hb by done. case_decide; [|done]. symmetry. by apply Hf.
  - rewrite Est2, Est. simpl. lia.
  - rewrite Est2. simpl. lia.
  - replace owned with ((pages page count ∪ owned) ∖ pages page count); [done|].
    apply set_eq. intros i. rewrite elem_of_difference, elem_of_union, elem_of_pages.
    split; [tauto|]. intros Ho. split; [tauto|]. intros Hi'.
    by apply (run_not_owned _ _ _ Hinv page count i); [lia| | |].
Qed.

Lemma physical_free_alloc_roundtrip_witness :
  exists page st1 st2, physical_alloc sample_hhdm 1 empty_sample = Ok (page * page_size, st1) /\
    physical_free (page * page_size) 1 st1 = Ok st2 /\ used_memory st2 = 4096.
Proof.
  destruct (physical_alloc_spec _ _ _ empty_sample_inv 1) as [(page & st1 & E & _)|(_ & H & _)]; [lia| |].
  - destruct (physical_free_alloc_roundtrip sample_hhdm empty_sample ∅ 1 page st1 empty_sample_inv)
      as (st2 & E2 & _ & Hu & _); [lia|exact E|]. exists page, st1, st2. auto.
  - exfalso. destruct (H 1) as (j & Hj & Hb); [simpl; lia|done|].
    by apply (empty_sample_free j) in Hb; [|lia].
Defined.

(** C16: with at most 2048 pages (8 MiB), as [pmm_inv] has it, along any sequence of
    successful allocations, frees of owned pages and client writes to owned pages, the
    invariant holds, the memory counted as used beyond the pages handed out stays what
    it was at the start, and every allocation hands out pages nobody owns.  Beyond the
    bound this fails: [alloc_beyond_2048]. *)
Theorem pmm_trace_safety hhdm st owned st' owned' :
  pmm_inv hhdm st owned -> rtc (pmm_step hhdm) (st, owned) (st', owned') ->
  pmm_inv hhdm st' owned' /\
  used_memory st' = used_memory st + page_size * (Z.of_nat (size owned') - Z.of_nat (size owned)) /\
  forall count page st2, 0 < count ->
    physical_alloc hhdm count st' = Ok (page * page_size, st2) -> pages page count ## owned'.
Proof.
  intros Hinv Hs. destruct (pmm_steps_inv _ _ _ Hs Hinv) as (Hi & _ & Hu). simpl in *.
  split_and!; [done|lia|]. intros count page st2 Hc E i Hi1%elem_of_pages Hi2.
  destruct (physical_alloc_spec _ _ _ Hi count Hc) as [(page' & st3 & E' & Ha & _)|[E' _]]; [|congruence].
  rewrite E in E'. injection E' as Ep <-. assert (page' = page) as -> by lia.
  destruct Ha as [[Hp _] Hf _ _ _ _ _ _].
  by apply (run_not_owned _ _ _ Hi page count i); [lia| | |].
Qed.

Lemma pmm_trace_safety_witness :
  exists page st1, pmm_inv sample_hhdm st1 (pages page 1 ∪ ∅) /\ used_memory st1 = 8192.
Proof.
  destruct (physical_alloc_spec _ _ _ empty_sample_inv 1) as [(page & st1 & E & _)|(_ & H & _)]; [lia| |].
  - destruct (pmm_trace_safety sample_hhdm empty_sample ∅ st1 (pages page 1 ∪ ∅) empty_sample_inv)
      as (Hi & Hu & _).
    + apply rtc_once, step_alloc; [lia|exact E].
    + exists page, st1. split; [exact Hi|]. rewrite Hu.
      rewrite union_empty_r_L, size_pages, size_empty by lia. done.
  - exfalso. destruct (H 1) as (j & Hj & Hb); [simpl; lia|done|].
    by apply (empty_sample_free j) in Hb; [|lia].
Defined.

(** C20: with 2048 pages or more the manager misbehaves.  A page from 2048 on that
    is marked used is handed out again when the cursor stands on it and its alias
    below 2048 is free; and once all pages below 2048 are used, every allocation
    panics, however many pages above are free. *)
Theorem alloc_beyond_2048 hhdm st :
  mem_wf (ram st) -> 2048 <= page_limit st <= 524288 ->
  bits_valid (ram st) (bitmap st) (page_limit st) ->
  page_limit st * page_size <= hhdm -> hhdm + page_limit st * page_size <= W64 ->
  0 <= last_index st <= page_limit st ->
  (let i := last_index st in
   2048 <= i < page_limit st -> bit_of (ram st) (bitmap st) i = true ->
   bit_of (ram st) (bitmap st) (i mod 2048) = false ->
   valid (ram st) (hhdm + i * page_size) page_size ->
   exists st', physical_alloc hhdm 1 st = Ok (i * page_size, st')) /\
  ((forall j, 0 <= j < 2048 -> bit_of (ram st) (bitmap st) j = true) ->
   forall count, 0 < count -> physical_alloc hhdm count st = Panic).
Proof.
  intros Hwf Hl Hv Hh1 Hh2 Hlast. split.
  - intros i Hi Hu Ha Hp. subst i. set (i := last_index st) in *. unfold physical_alloc. simpl (1 =? 0).
    unfold inner_alloc. rewrite loop_step. simpl inner_step. fold i.
    rewrite (proj2 (Z.ltb_lt _ _)) by lia. rewrite s32_small, bitmap_get_alias_mod by lia.
    pose proof (Z.mod_pos_bound i 2048 eq_refl).
    rewrite bitmap_get_spec by (done || lia || (apply Hv; lia)). rewrite Ha. simpl.
    rewrite (u64_small (i + 1)), (u64_small (i + 1 - 1)) by lia.
    destruct (set_range_spec (ram st) Hwf (bitmap st) (page_limit st)) with (lo := i + 1 - 1)
      (hi := i + 1) (v := true) as (m' & -> & [Hw Hd _ _]); [lia|done|lia|lia|].
    replace (i + 1 - 1) with i by lia. bind_simpl. rewrite (u64_small (i * page_size)) by lia.
    rewrite (proj2 (Z.eqb_neq (i * page_size) 0)) by lia. bind_simpl. rewrite tohh_low by lia.
    rewrite (memset_valid m' Hw); [by eexists| |done].
    replace (i * page_size + hhdm) with (hhdm + i * page_size) by lia.
    by eapply valid_same_dom.
  - intros Hall count Hc. unfold physical_alloc. rewrite (proj2 (Z.eqb_neq count 0)) by lia.
    rewrite (search_all_used (ram st) Hwf (bitmap st) (page_limit st)) by (done || lia).
    bind_simpl. rewrite Z.eqb_refl.
    rewrite (search_all_used (ram st) Hwf (bitmap st) (page_limit st)) by (done || lia).
    by bind_simpl.
Qed.

Lemma alloc_beyond_2048_witness :
  (exists st', physical_alloc large_hhdm 1
     (large_phys (write_bytes ∅ (large_hhdm + 2049 * page_size) (replicate (Z.to_nat page_size) 7)) 0 2 2049)
     = Ok (2049 * page_size, st')) /\
  physical_alloc large_hhdm 1 (large_phys ∅ 255 0 0) = Panic.
Proof.
  set (m := write_bytes ∅ (large_hhdm + 2049 * page_size) (replicate (Z.to_nat page_size) 7)).
  assert (mem_wf m) as Hm.
  { intros a b. unfold m. rewrite lookup_write_bytes, length_replicate. unfold in_range, large_hhdm.
    case_decide; [|done]. intros [-> _]%lookup_replicate. lia. }
  split.
  - apply (alloc_beyond_2048 large_hhdm (large_phys m 0 2 2049)); try (unfold large_hhdm; simpl; lia).
    + by apply large_wf.
    + change (page_limit (large_phys m 0 2 2049)) with 2050. lia.
    + apply large_bits.
    + done.
    + done.
    + change (page_limit (large_phys m 0 2 2049)) with 2050. simpl. lia.
    + change (page_limit (large_phys m 0 2 2049)) with 2050. simpl. lia.
    + simpl last_index. by rewrite large_bit by lia.
    + simpl last_index. by rewrite large_bit by done.
    + simpl last_index. intros i Hi. simpl ram. unfold large_ram.
      rewrite lookup_write_bytes_out by (unfold in_range; rewrite length_app, length_replicate; unfold large_hhdm; simpl length; lia).
      unfold m. rewrite lookup_write_bytes_in by (unfold in_range; rewrite length_replicate; lia).
      apply lookup_Z_is_Some. rewrite length_replicate. lia.
  - apply (alloc_beyond_2048 large_hhdm (large_phys ∅ 255 0 0)); try (unfold large_hhdm; simpl; lia); try done.
    + by apply large_wf.
    + apply large_bits.
    + intros j Hj. rewrite large_bit, decide_True by lia.
      pose proof (Z.mod_pos_bound j 8 eq_refl). generalize dependent (j mod 8). intros k Hk.
      assert (k = 0 \/ k = 1 \/ k = 2 \/ k = 3 \/ k = 4 \/ k = 5 \/ k = 6 \/ k = 7) as Hc by lia.
      by repeat destruct Hc as [->|Hc]; subst.
Defined.
