(* ===== verification/Heap.v ===== *)
(** * memory/memory.cpp: the kernel heap

    A slab allocator for sizes up to 1024 bytes and whole pages behind it.  The
    ten [slab_t] structures lie in the allocator object, the free lists are
    threaded through the free cells, and the first cell-aligned bytes of a slab
    page ([slab_header]) point back to the [slab_t]; all of that is read from and
    written to memory here as the code does.  The page manager is the interface
    of [Frames]. *)

From S2P Require Import Prelude Memory LibcString Frames Math Physical.

(** [sizeof(slab_header)] *)
Abbreviation header_size := 8.

Section Heap.
Context {W : Type} `{Frames W}.

(** The address of the [slab_allocator] object: [initialized] at offset 0, the
    [slabs] from offset 8, each with [head] at 0 and [size] at 8. *)
Context (allocator : Z).

Definition slab_at (i : Z) : Z := allocator + 8 + 16 * i.

(** *** slab_t *)

(** The loop threads the free list; [available / size - 1] wraps, and dividing
    by a size of 0 is undefined. *)
Definition slab_init (slab size : Z) (w : W) : outcome W :=
  w ← store w (slab + 8) size;
  '(page, w) ← frame_alloc 1 w;
  w ← store w slab (tohh hhdm_offset page);
  size ← load w (slab + 8);
  let available := u64 (4096 - align_up header_size size) in
  slab_ptr ← load w slab;
  w ← store w slab_ptr slab;
  head ← load w slab;
  size ← load w (slab + 8);
  w ← store w slab (u64 (head + align_up header_size size));
  array ← load w slab;
  size ← load w (slab + 8);
  if size =? 0 then Undef
  else
    let max := u64 (available / size - 1) in
    let count := size / 8 in
    w ← for_range 0 max (fun i w => store w (elem array (i * count)) (elem array ((i + 1) * count))) w;
    store w (elem array (max * count)) 0.

Definition slab_alloc (slab : Z) (w : W) : outcome (Z * W) :=
  head ← load w slab;
  w ← (if head =? 0 then size ← load w (slab + 8); slab_init slab size w else Ok w);
  old_free ← load w slab;
  next ← load w old_free;
  w ← store w slab next;
  size ← load w (slab + 8);
  w ← fill w old_free 0 size;
  Ok (old_free, w).

Definition slab_free (slab ptr : Z) (w : W) : outcome W :=
  if ptr =? 0 then Ok w
  else
    head ← load w slab;
    w ← store w ptr head;
    store w slab ptr.

(** *** slab_allocator *)

Definition class_sizes : list Z := [16; 32; 48; 80; 128; 192; 288; 448; 672; 1024].

Fixpoint init_slabs (i : Z) (sizes : list Z) (w : W) : outcome W :=
  match sizes with
  | [] => Ok w
  | size :: sizes' => w ← slab_init (slab_at i) size w; init_slabs (i + 1) sizes' w
  end.

(** The constructor. *)
Definition slab_allocator_init (w : W) : outcome W :=
  m ← store8 (wmem w) allocator 0;
  init_slabs 0 class_sizes (with_mem w m).

(** [std::allocator::initialize]: the object is built in the storage, the flag
    behind it is set. *)
Definition allocator_initialize (w : W) : outcome W :=
  w ← slab_allocator_init w;
  m ← store8 (wmem w) (allocator + 168) 1;
  Ok (with_mem w m).

(** The loop of [get_slab] over the slabs from [i]; null is 0. *)
Fixpoint get_slab_from (n : nat) (i size : Z) (w : W) : outcome Z :=
  match n with
  | O => Ok 0
  | S n' =>
      s ← load w (slab_at i + 8);
      if size <=? s then Ok (slab_at i) else get_slab_from n' (i + 1) size w
  end.

Definition get_slab (size : Z) (w : W) : outcome Z := get_slab_from 10 0 size w.

(** The meta data of a big block lies one page before it. *)
Definition meta_of (ptr : Z) : Z := u64 (ptr - 4096).

Definition big_malloc (size : Z) (w : W) : outcome (Z * W) :=
  let pages := div_roundup size 4096 in
  '(p, w) ← frame_alloc (u64 (pages + 1)) w;
  let ptr := tohh hhdm_offset p in
  w ← store w ptr pages;
  w ← store w (u64 (ptr + 8)) size;
  Ok (u64 (ptr + 4096), w).

Definition big_free (ptr : Z) (w : W) : outcome W :=
  pages ← load w (meta_of ptr);
  frame_free (fromhh hhdm_offset (meta_of ptr)) (u64 (pages + 1)) w.

Definition big_alloc_size (ptr : Z) (w : W) : outcome Z := load w (u64 (meta_of ptr + 8)).

Definition malloc (size : Z) (w : W) : outcome (Z * W) :=
  slab ← get_slab size w;
  if slab =? 0 then big_malloc size w else slab_alloc slab w.

Definition calloc (num size : Z) (w : W) : outcome (Z * W) :=
  '(ptr, w) ← malloc (u64 (num * size)) w;
  if ptr =? 0 then Ok (0, w)
  else
    w ← fill w ptr 0 (u64 (num * size));
    Ok (ptr, w).

(** [(ptr & 0xFFF) == 0] *)
Definition is_big (ptr : Z) : bool := Z.land ptr 4095 =? 0.

(** The slab that the header of the page of [ptr] points to. *)
Definition slab_of (ptr : Z) (w : W) : outcome Z := load w (align_down ptr 4096).

Definition free (ptr : Z) (w : W) : outcome W :=
  if ptr =? 0 then Ok w
  else if is_big ptr then big_free ptr w
  else slab ← slab_of ptr w; slab_free slab ptr w.

Definition alloc_size (ptr : Z) (w : W) : outcome Z :=
  if ptr =? 0 then Ok 0
  else if is_big ptr then big_alloc_size ptr w
  else slab ← slab_of ptr w; load w (slab + 8).

(** The common end of [realloc] and [big_realloc]: a new block, the contents
    copied, the old block freed. *)
Definition move_block (old_ptr old_size size : Z) (w : W) : outcome (Z * W) :=
  let old_size := if size <? old_size then size else old_size in
  '(new_ptr, w) ← malloc size w;
  if new_ptr =? 0 then Ok (old_ptr, w)
  else
    w ← copy w new_ptr old_ptr old_size;
    w ← free old_ptr w;
    Ok (new_ptr, w).

Definition big_realloc (old_ptr size : Z) (w : W) : outcome (Z * W) :=
  if old_ptr =? 0 then malloc size w
  else
    old_size ← load w (u64 (meta_of old_ptr + 8));
    if div_roundup old_size 4096 =? div_roundup size 4096 then
      w ← store w (u64 (meta_of old_ptr + 8)) size;
      Ok (0, w)
    else if size =? 0 then w ← free old_ptr w; Ok (0, w)
    else move_block old_ptr old_size size w.

Definition realloc (old_ptr size : Z) (w : W) : outcome (Z * W) :=
  if old_ptr =? 0 then malloc size w
  else if is_big old_ptr then big_realloc old_ptr size w
  else
    slab ← slab_of old_ptr w;
    old_size ← load w (slab + 8);
    if size =? 0 then w ← free old_ptr w; Ok (0, w)
    else move_block old_ptr old_size size w.

(** *** operator new and operator delete, and the wrappers of stdlib.cpp *)

Definition operator_new (size : Z) (w : W) : outcome (Z * W) := malloc size w.
Definition operator_delete (ptr : Z) (w : W) : outcome W := free ptr w.
End Heap.

(** The end of [memory::physical::init]: the heap is built on the pages. *)
Definition physical_init (hhdm allocator : Z) (es : list memmap_entry) (st : phys)
    : outcome (list memmap_entry * phys) :=
  '(es, st) ← init_frames hhdm es st;
  st ← allocator_initialize (H := phys_frames hhdm) allocator st;
  Ok (es, st).
