(* ===== verification/HeapInv.v ===== *)
(** * The heap's invariant

    The geometry of slab pages, what slabs, free lists and big blocks look like
    in memory, and the frame rules: which writes keep the invariant. *)

From S2P Require Import Prelude Memory LibcString StringProofs Frames Math Physical Heap.

(** ** Size classes *)

Definition size_of (i : Z) : Z := nth (Z.to_nat i) class_sizes 0.
Definition off_of (i : Z) : Z := align_up header_size (size_of i).
Definition cells_of (i : Z) : Z := (4096 - off_of i) / size_of i.

Lemma class_cases i : 0 <= i < 10 ->
  i = 0 \/ i = 1 \/ i = 2 \/ i = 3 \/ i = 4 \/ i = 5 \/ i = 6 \/ i = 7 \/ i = 8 \/ i = 9.
Proof. lia. Qed.

Lemma class_facts i : 0 <= i < 10 ->
  16 <= size_of i <= 1024 /\ size_of i = size_of i / 8 * 8 /\ 16 <= off_of i /\
  1 <= cells_of i /\ off_of i + cells_of i * size_of i <= 4096 /\
  u64 (4096 - off_of i) = 4096 - off_of i.
Proof.
  intros Hi. destruct (class_cases i Hi) as [->|[->|[->|[->|[->|[->|[->|[->|[->| ->]]]]]]]]];
    vm_compute; intuition congruence.
Qed.

Lemma cells_bound i : 0 <= i < 10 -> cells_of i <= 4096.
Proof. intros Hi. destruct (class_facts i Hi) as (? & _ & ? & ? & ? & _). nia. Qed.

(** The first class that is large enough. *)
Lemma class_mono i j : 0 <= i < 10 -> 0 <= j < 10 -> i < j -> size_of i < size_of j.
Proof.
  intros Hi Hj Hij.
  destruct (class_cases i Hi) as [->|[->|[->|[->|[->|[->|[->|[->|[->| ->]]]]]]]]];
    destruct (class_cases j Hj) as [->|[->|[->|[->|[->|[->|[->|[->|[->| ->]]]]]]]]];
    first [exfalso; lia|reflexivity].
Qed.

(** ** Ghost state *)

(** What the heap knows of itself: the pages it owns, the class of each slab
    page, the free cells of each class in list order, the cells handed out, and
    the big blocks by their first page, with the pages and the size of each. *)
Record heap : Type := MkHeap {
  h_owned : gset Z;
  h_slab : gmap Z Z;
  h_free : Z -> list Z;
  h_live : gset Z;
  h_big : gmap Z (Z * Z);
}.

(** Updates of the free list of a class and of the cells handed out. *)
Definition set_free (h : heap) (i : Z) (l : list Z) : heap :=
  MkHeap (h_owned h) (h_slab h) (fun j => if decide (j = i) then l else h_free h j) (h_live h) (h_big h).
Definition set_live (h : heap) (s : gset Z) : heap :=
  MkHeap (h_owned h) (h_slab h) (h_free h) s (h_big h).

Section Inv.
Context {W : Type} `{FrameLaws W} (allocator : Z).
Local Abbreviation hh := hhdm_offset.

Definition page_addr (pg : Z) : Z := hh + pg * page_size.
Definition cell (pg i k : Z) : Z := page_addr pg + off_of i + k * size_of i.
Definition cells (pg i : Z) : list Z := map (cell pg i) (seqZ 0 (cells_of i)).

Definition is_cell (h : heap) (i a : Z) : Prop :=
  exists pg k, h_slab h !! pg = Some i /\ 0 <= k < cells_of i /\ a = cell pg i k.

(** The free list from [head]: each cell holds the address of the next. *)
Fixpoint chain (m : mem) (head : Z) (l : list Z) : Prop :=
  match l with
  | [] => head = 0
  | a :: l' => head = a /\ exists next, load64 m a = Ok next /\ chain m next l'
  end.

(** The facts on the ghost state alone. *)
Record heap_shape (h : heap) : Prop := {
  hs_slab : forall pg i, h_slab h !! pg = Some i -> pg ∈ h_owned h /\ 0 <= i < 10;
  hs_free : forall i a, 0 <= i < 10 -> a ∈ h_free h i -> is_cell h i a /\ a ∉ h_live h;
  hs_nodup : forall i, 0 <= i < 10 -> NoDup (h_free h i);
  hs_live : forall a, a ∈ h_live h -> exists i, is_cell h i a;
  hs_big : forall pg n sz, h_big h !! pg = Some (n, sz) ->
    1 <= n /\ 0 < sz <= n * page_size /\ pages pg (n + 1) ⊆ h_owned h /\
    pages pg (n + 1) ## dom (h_slab h);
  hs_disjoint : forall pg n sz pg' n' sz', h_big h !! pg = Some (n, sz) ->
    h_big h !! pg' = Some (n', sz') -> pg <> pg' -> pages pg (n + 1) ## pages pg' (n' + 1);
}.

(** What the memory holds for it; [n] of the ten slabs are set up, which is all
    of them after the constructor. *)
Record heap_mem_upto (n : Z) (m : mem) (h : heap) : Prop := {
  hm_header : forall pg i, h_slab h !! pg = Some i -> load64 m (page_addr pg) = Ok (slab_at allocator i);
  hm_size : forall i, 0 <= i < n -> load64 m (slab_at allocator i + 8) = Ok (size_of i);
  hm_free : forall i, 0 <= i < n ->
    exists head, load64 m (slab_at allocator i) = Ok head /\ chain m head (h_free h i);
  hm_big : forall pg k sz, h_big h !! pg = Some (k, sz) ->
    load64 m (page_addr pg) = Ok k /\ load64 m (page_addr pg + 8) = Ok sz;
}.

(** The allocator object is mapped and is nobody else's. *)
Definition table_ok (w : W) : Prop :=
  0 < allocator /\ valid (wmem w) allocator 169 /\ forall a, in_range allocator 169 a -> ~ managed w a.

Record heap_inv_upto (n : Z) (w : W) (h : heap) : Prop := {
  hi_frames : frames_inv w (h_owned h);
  hi_table : table_ok w;
  hi_shape : heap_shape h;
  hi_mem : heap_mem_upto n (wmem w) h;
}.

Definition heap_mem : mem -> heap -> Prop := heap_mem_upto 10.
Definition heap_inv : W -> heap -> Prop := heap_inv_upto 10.

(** The blocks a client holds: [block h p n], the [n] bytes at [p].  A small block
    has the size of its class, a big one the size it was asked for. *)
Inductive block (h : heap) : Z -> Z -> Prop :=
| block_small a i : a ∈ h_live h -> is_cell h i a -> block h a (size_of i)
| block_big pg n sz : h_big h !! pg = Some (n, sz) -> block h (page_addr (pg + 1)) sz.

(** ** Geometry *)

Lemma in_page_addr pg a : in_page hh pg a <-> page_addr pg <= a < page_addr pg + page_size.
Proof. done. Qed.

Lemma cell_in_page pg i k x : 0 <= i < 10 -> 0 <= k < cells_of i ->
  in_range (cell pg i k) (size_of i) x -> page_addr pg + 16 <= x < page_addr pg + page_size.
Proof.
  intros Hi Hk. destruct (class_facts i Hi) as (? & ? & ? & ? & ? & ?).
  unfold cell, in_range. assert ((k + 1) * size_of i <= cells_of i * size_of i) by nia. nia.
Qed.

Lemma cell_range_inj pg pg' i k k' x : 0 <= i < 10 ->
  in_range (cell pg i k) (size_of i) x -> in_range (cell pg' i k') (size_of i) x -> pg = pg' ->
  k = k'.
Proof.
  intros Hi Hx Hx' ->. destruct (class_facts i Hi) as (? & _). unfold cell, in_range in *. nia.
Qed.

Section Shape.
Context (h : heap) (Hs : heap_shape h).

Lemma is_cell_page i a x : is_cell h i a -> in_range a (size_of i) x ->
  exists pg, h_slab h !! pg = Some i /\ page_addr pg + 16 <= x < page_addr pg + page_size.
Proof.
  intros (pg & k & Hp & Hk & ->) Hx. exists pg. split; [done|].
  destruct (hs_slab _ Hs _ _ Hp) as [_ Hi]. by apply (cell_in_page pg i k).
Qed.

Lemma is_cell_class i a : is_cell h i a -> 0 <= i < 10.
Proof. intros (pg & k & Hp & _). apply (hs_slab _ Hs) in Hp. apply Hp. Qed.

(** Cells that share an address are the same cell of the same class. *)
Lemma is_cell_disjoint i j a b x : is_cell h i a -> is_cell h j b ->
  in_range a (size_of i) x -> in_range b (size_of j) x -> i = j /\ a = b.
Proof.
  intros Ha Hb Hx Hy.
  destruct (is_cell_page i a x Ha Hx) as (pg & Hp & Hpx).
  destruct (is_cell_page j b x Hb Hy) as (pg' & Hp' & Hpx').
  pose proof (is_cell_class _ _ Ha) as Hi. pose proof (is_cell_class _ _ Hb) as Hj.
  destruct Ha as (pa & k & Ha & Hk & ->), Hb as (pb & k' & Hb & Hk' & ->).
  pose proof (cell_in_page pa i k x Hi Hk Hx). pose proof (cell_in_page pb j k' x Hj Hk' Hy).
  assert (pa = pb) as -> by (apply (in_page_inj hh _ _ x); apply in_page_addr; lia).
  assert (i = j) as -> by congruence. split; [done|].
  by rewrite (cell_range_inj pb pb j k k' x).
Qed.

Lemma is_cell_owned i a x : is_cell h i a -> in_range a (size_of i) x -> in_pages hh (h_owned h) x.
Proof.
  intros Ha Hx. destruct (is_cell_page i a x Ha Hx) as (pg & Hp & Hpx).
  exists pg. split; [apply (hs_slab _ Hs pg i Hp)|]. apply in_page_addr. lia.
Qed.

(** The pages a big block's bytes lie in. *)
Lemma big_block_page pg n sz x : h_big h !! pg = Some (n, sz) -> in_range (page_addr (pg + 1)) sz x ->
  exists q, pg + 1 <= q < pg + 1 + n /\ in_page hh q x.
Proof.
  intros Hb Hx. destruct (hs_big _ Hs _ _ _ Hb) as (_ & ? & _).
  apply in_pages_range. unfold page_addr, in_range in *. lia.
Qed.

Lemma is_cell_8 i a x : is_cell h i a -> in_range a 8 x -> in_range a (size_of i) x.
Proof.
  intros Ha%is_cell_class. destruct (class_facts i Ha) as (? & _). unfold in_range. lia.
Qed.
End Shape.

(** ** Memory *)

Lemma load64_same m m' a :
  (forall x, in_range a 8 x -> m' !! x = m !! x) -> load64 m' a = load64 m a.
Proof.
  intros Hx. apply load_le_frame. intros i Hi. apply Hx. unfold in_range. lia.
Qed.

Lemma load64_range m a v : mem_wf m -> load64 m a = Ok v -> 0 <= v < W64.
Proof.
  intros Hw. assert (forall n a v, load_le n m a = Ok v -> 0 <= v < 256 ^ Z.of_nat n) as Hn.
  { induction n as [|n IH]; intros b u Hb; cbn [load_le] in Hb; [injection Hb as <-; lia|].
    apply bind_inv in Hb as (x & Hx & Hb). apply bind_inv in Hb as (y & Hy & Hb). injection Hb as <-.
    apply IH in Hy. unfold load8 in Hx. destruct (m !! b) eqn:Eb; [|done]. injection Hx as ->.
    apply Hw in Eb. rewrite Nat2Z.inj_succ, Z.pow_succ_r by lia. lia. }
  apply (Hn 8%nat).
Qed.

Lemma chain_same m m' head l :
  (forall a, a ∈ l -> load64 m' a = load64 m a) -> chain m head l -> chain m' head l.
Proof.
  revert head. induction l as [|a l IH]; intros head Hl; simpl; [done|].
  intros (-> & next & Hn & Hc). split; [done|]. exists next. split; [rewrite Hl; [done|left]|].
  apply IH; [|done]. intros b Hb. apply Hl. by right.
Qed.

Lemma write64_out m a v x : ~ in_range a 8 x -> write64 m a v !! x = m !! x.
Proof. apply write64_same_outside. Qed.

Lemma load64_write64_sep m a v b :
  (forall x, in_range a 8 x -> in_range b 8 x -> False) -> load64 (write64 m a v) b = load64 m b.
Proof. intros Hx. apply load64_same. intros x Hb. apply write64_out. eauto. Qed.

Lemma write64_ok m a v : mem_wf m -> valid m a 8 ->
  mem_wf (write64 m a v) /\ same_dom m (write64 m a v).
Proof. split; auto with ice. Qed.

Lemma load64_write64_small m a v : 0 <= v < W64 -> load64 (write64 m a v) a = Ok v.
Proof. intros. by rewrite load64_write64, u64_small. Qed.

Lemma store_valid w a v : valid (wmem w) a 8 -> store w a v = Ok (with_mem w (write64 (wmem w) a v)).
Proof. intros Hv. unfold store. by rewrite store64_write. Qed.

Lemma load_wmem w a v : load64 (wmem w) a = Ok v -> load w a = Ok v.
Proof. done. Qed.

Lemma load_with_mem w m a : load (with_mem w m) a = load64 m a.
Proof. unfold load. by rewrite wmem_with_mem. Qed.

Lemma load_Ok w m a v : load64 m a = Ok v -> load (with_mem w m) a = Ok v.
Proof. by rewrite load_with_mem. Qed.

Lemma store_with_mem w m a v : valid m a 8 ->
  store (with_mem w m) a v = Ok (with_mem w (write64 m a v)).
Proof. intros. rewrite store_valid by (by rewrite wmem_with_mem). by rewrite wmem_with_mem, with_mem_with_mem. Qed.

Lemma fill_valid w p c n : mem_wf (wmem w) -> valid (wmem w) p n -> 0 <= n ->
  fill w p c n = Ok (with_mem w (write_bytes (wmem w) p (replicate (Z.to_nat n) (u8 c)))).
Proof. intros Hw Hv Hn. unfold fill. by rewrite (memset_valid _ Hw _ _ _ Hv Hn). Qed.

(** A table entry of the class [i] lies in the allocator object. *)
Lemma slab_at_range i x : 0 <= i < 10 -> in_range (slab_at allocator i) 16 x -> in_range allocator 169 x.
Proof. unfold slab_at, in_range. lia. Qed.

Lemma table_valid w i : table_ok w -> 0 <= i < 10 ->
  valid (wmem w) (slab_at allocator i) 8 /\ valid (wmem w) (slab_at allocator i + 8) 8.
Proof.
  intros (_ & Hv & _) Hi. unfold slab_at.
  split; (eapply valid_sub; [apply Hv|lia..]).
Qed.

Lemma table_after w w' : table_ok w -> same_dom (wmem w) (wmem w') -> managed w' = managed w -> table_ok w'.
Proof.
  intros (Hp & Hv & Hm) Hd E. split_and!; [done|by eapply valid_same_dom|]. by rewrite E.
Qed.

(** The frame rule: a write the manager allows, after which the memory shows
    the new ghost state. *)
Lemma heap_write w h h' m :
  heap_inv w h -> mem_wf m -> same_dom (wmem w) m ->
  (forall x, managed w x -> ~ in_pages hh (h_owned h) x -> m !! x = wmem w !! x) ->
  h_owned h' = h_owned h -> heap_shape h' -> heap_mem m h' ->
  heap_inv (with_mem w m) h' /\ managed (with_mem w m) = managed w /\ spent 0 w (with_mem w m).
Proof.
  intros [Hf Ht _ _] Hw Hd Hx Eo Hs Hm.
  destruct (frames_write w (h_owned h) m) as (Hf' & E & _ & Hr); [done..|]. split; [|split; [done|by apply spent_same]].
  constructor; rewrite ?Eo, ?wmem_with_mem; try done.
  apply (table_after w); [done|by rewrite wmem_with_mem|done].
Qed.

(** The allocator object does not meet the clients' pages. *)
Lemma table_page w w' o pg x : table_ok w -> managed w' = managed w -> frames_inv w' o -> pg ∈ o ->
  in_range allocator 169 x -> in_range (page_addr pg) page_size x -> False.
Proof.
  intros (_ & _ & Hm) E Hf Hp Hx Hpx. apply (Hm x Hx). rewrite <- E.
  destruct (frames_page w' o pg Hf Hp) as (_ & _ & _ & _ & Hin). by apply Hin.
Qed.

Lemma page_in_pages w o pg : frames_inv w o -> pg ∈ o ->
  0 < page_addr pg /\ page_addr pg + page_size <= W64 /\ valid (wmem w) (page_addr pg) page_size /\
  tohh hh (pg * page_size) = page_addr pg /\ 0 < pg * page_size /\
  Z.land (page_addr pg) 4095 = 0.
Proof.
  intros Hf Hp. destruct (frames_page w o pg Hf Hp) as (? & ? & ? & ? & _).
  pose proof frames_aligned as Ha. unfold page_addr. split_and!; try done; try lia.
  - rewrite tohh_low; lia.
  - change 4095 with (Z.ones 12). rewrite Z.land_ones by done. change (2 ^ 12) with page_size.
    rewrite Z.add_mod, Ha, Z.mod_mul by lia. done.
Qed.

Lemma heap_mem_live m h s : heap_mem m h -> heap_mem m (set_live h s).
Proof. by intros [? ? ? ?]; constructor. Qed.

(** ** Which addresses the invariant looks at *)

Section Separation.
Context (w : W) (h : heap) (Hinv : heap_inv w h).

Lemma owned_not_table pg x : pg ∈ h_owned h -> in_range allocator 169 x -> ~ in_page hh pg x.
Proof.
  destruct Hinv as [Hf Ht _ _]. intros Hp Hx Hpx. by apply (table_page w w (h_owned h) pg x Ht eq_refl Hf Hp).
Qed.

Lemma cell_not_table i a x : is_cell h i a -> in_range a (size_of i) x -> ~ in_range allocator 169 x.
Proof.
  intros Ha Hx Ht. destruct (is_cell_owned h (hi_shape _ _ _ Hinv) i a x Ha Hx) as (pg & Hp & Hpx).
  by apply (owned_not_table pg x).
Qed.

Lemma cell_not_header i a x pg : is_cell h i a -> in_range a (size_of i) x ->
  ~ in_range (page_addr pg) 8 x.
Proof.
  intros Ha Hx Hh. destruct (is_cell_page h (hi_shape _ _ _ Hinv) i a x Ha Hx) as (pg' & _ & Hpx).
  unfold in_range, page_addr in *. lia.
Qed.

Lemma cell_not_big i a x pg n sz q : is_cell h i a -> in_range a (size_of i) x ->
  h_big h !! pg = Some (n, sz) -> q ∈ pages pg (n + 1) -> ~ in_page hh q x.
Proof.
  intros Ha Hx Hb Hq Hqx. destruct (is_cell_page h (hi_shape _ _ _ Hinv) i a x Ha Hx) as (pg' & Hp & Hpx).
  destruct (hs_big _ (hi_shape _ _ _ Hinv) _ _ _ Hb) as (_ & _ & _ & Hd). apply (Hd q); [done|].
  apply elem_of_dom. exists i. replace q with pg'; [done|].
  apply (in_page_inj hh _ _ x); [|done]. apply in_page_addr. lia.
Qed.

Lemma big_meta_page pg n sz x : h_big h !! pg = Some (n, sz) -> in_range (page_addr pg) 16 x ->
  in_page hh pg x /\ pg ∈ pages pg (n + 1).
Proof.
  intros Hb Hx. destruct (hs_big _ (hi_shape _ _ _ Hinv) _ _ _ Hb) as (Hn & _). split.
  - apply in_page_addr. unfold in_range in Hx. lia.
  - apply elem_of_pages. lia.
Qed.

Lemma big_not_header pg n sz pg' i q x : h_big h !! pg = Some (n, sz) -> q ∈ pages pg (n + 1) ->
  in_page hh q x -> h_slab h !! pg' = Some i -> ~ in_page hh pg' x.
Proof.
  intros Hb Hq Hqx Hp Hx. destruct (hs_big _ (hi_shape _ _ _ Hinv) _ _ _ Hb) as (_ & _ & _ & Hd).
  apply (Hd q); [done|]. apply elem_of_dom. exists i. by rewrite (in_page_inj _ _ _ _ Hqx Hx).
Qed.

Lemma big_owned pg n sz q : h_big h !! pg = Some (n, sz) -> q ∈ pages pg (n + 1) -> q ∈ h_owned h.
Proof. intros Hb. apply (hs_big _ (hi_shape _ _ _ Hinv) _ _ _ Hb). Qed.

(** *** Writes to a cell that is not on a free list *)

Lemma heap_mem_cell m m' h' i a : heap_mem m h' -> h_slab h' = h_slab h -> h_big h' = h_big h ->
  is_cell h i a ->
  (forall j b, 0 <= j < 10 -> b ∈ h_free h' j -> is_cell h j b /\ b <> a) ->
  (forall x, ~ in_range a (size_of i) x -> m' !! x = m !! x) ->
  heap_mem m' h'.
Proof.
  intros [Hh Hsz Hfr Hb] Eslab Ebig Ha Hn Hm.
  assert (forall j, 0 <= j < 10 -> forall x, in_range (slab_at allocator j) 16 x -> m' !! x = m !! x) as Ht.
  { intros j Hj x Hx. apply Hm. intros Hc. apply (cell_not_table i a x Ha Hc). by apply (slab_at_range j). }
  constructor.
  - intros pg j Hp. rewrite (load64_same m); [by apply Hh|]. intros x Hx. apply Hm.
    intros Hc. by apply (cell_not_header i a x pg).
  - intros j Hj. rewrite (load64_same m); [by apply Hsz|]. intros x Hx. apply (Ht j Hj).
    unfold in_range in *. lia.
  - intros j Hj. destruct (Hfr j Hj) as (head & Hl & Hc). exists head. split.
    + rewrite (load64_same m); [done|]. intros x Hx. apply (Ht j Hj). unfold in_range in *. lia.
    + apply (chain_same m); [|done]. intros b Hb'. destruct (Hn j b Hj Hb') as [Hcb Hne].
      apply load64_same. intros x Hx. apply Hm. intros Hax. apply Hne.
      apply (is_cell_disjoint h (hi_shape _ _ _ Hinv) j i b a x); [done|done| |done].
      by apply (is_cell_8 h (hi_shape _ _ _ Hinv)).
  - intros pg n sz Hp. destruct (Hb pg n sz Hp) as [Hb1 Hb2]. rewrite Ebig in Hp.
    assert (forall x, in_range (page_addr pg) 16 x -> m' !! x = m !! x) as Hk.
    { intros x Hx. apply Hm. intros Hc. destruct (big_meta_page pg n sz x Hp Hx) as [Hx1 Hx2].
      by apply (cell_not_big i a x pg n sz pg). }
    split; (rewrite (load64_same m); [done|]); intros x Hx; apply Hk; unfold in_range in *; lia.
Qed.

(** *** A new head of a free list *)

Lemma heap_mem_head m i head l : heap_mem m h -> 0 <= i < 10 -> 0 <= head < W64 -> chain m head l ->
  (forall b, b ∈ l -> is_cell h i b) ->
  heap_mem (write64 m (slab_at allocator i) head) (set_free h i l).
Proof.
  intros [Hh Hsz Hfr Hb] Hi Hhd Hc Hl. pose proof (hi_shape _ _ _ Hinv) as Hs.
  assert (forall q x, q ∈ h_owned h -> in_page hh q x -> ~ in_range (slab_at allocator i) 8 x) as Hsep.
  { intros q x Hq Hqx Hx. apply (owned_not_table q x Hq); [|done].
    apply (slab_at_range i); [done|]. unfold in_range in *. lia. }
  assert (forall j b, is_cell h j b ->
    load64 (write64 m (slab_at allocator i) head) b = load64 m b) as Hcell.
  { intros j b Hb'. apply load64_write64_sep. intros x Hx Hx'.
    destruct (is_cell_owned h Hs j b x Hb') as (q & Hq & Hqx); [by apply (is_cell_8 h Hs)|].
    by apply (Hsep q x). }
  constructor; cbn [set_free h_slab h_free h_big].
  - intros pg j Hp. rewrite load64_write64_sep; [by apply Hh|]. intros x Hx Hx'.
    apply (Hsep pg x); [by apply (hs_slab _ Hs pg j)| |done]. apply in_page_addr. unfold in_range in *. lia.
  - intros j Hj. rewrite load64_write64_ne; [by apply Hsz|]. unfold disjoint_ranges, slab_at. lia.
  - intros j Hj. case_decide as Hji.
    + subst j. exists head. split; [by apply load64_write64_small|].
      apply (chain_same m); [|done]. intros b Hb'. apply (Hcell i). by apply Hl.
    + destruct (Hfr j Hj) as (hd & Hld & Hch). exists hd. split.
      * rewrite load64_write64_ne; [done|]. unfold disjoint_ranges, slab_at. lia.
      * apply (chain_same m); [|done]. intros b Hb'. apply (Hcell j). by apply (hs_free _ Hs).
  - intros pg n sz Hp. destruct (Hb pg n sz Hp) as [Hb1 Hb2].
    assert (forall x, in_range (page_addr pg) 16 x -> ~ in_range (slab_at allocator i) 8 x) as Hk.
    { intros x Hx. destruct (big_meta_page pg n sz x Hp Hx) as [Hx1 Hx2].
      apply (Hsep pg x); [by apply (big_owned pg n sz)|done]. }
    split; (rewrite load64_write64_sep; [done|]); intros x Hx Hx'; apply (Hk x); unfold in_range in *; lia.
Qed.
End Separation.
End Inv.
