(* ===== verification/HeapProofs.v ===== *)
(** * Correctness of the heap

    Proved against the contract [FrameLaws] of the page manager: building a slab,
    allocation, release, and what each leaves alone. *)

From S2P Require Import Prelude Memory LibcString StringProofs Frames Math Physical Heap HeapInv.

Section Proofs.
Context {W : Type} `{FrameLaws W} (allocator : Z).
Local Abbreviation hh := hhdm_offset.
Local Abbreviation slab_at := (slab_at allocator).

(** ** Building a slab *)

(** The loop threads the cells of the page. *)
Definition threaded (m0 : mem) (pg i k : Z) (m : mem) : Prop :=
  mem_wf m /\ same_dom m0 m /\
  same_outside m0 m (cell pg i 0) (cells_of i * size_of i) /\
  forall k', 0 <= k' < k -> load64 m (cell pg i k') = Ok (cell pg i (k' + 1)).

Section Thread.
Context (w0 : W) (m0 : mem) (pg i : Z) (Hi : 0 <= i < 10).
Context (Hv : valid m0 (page_addr pg) page_size) (Hb : 0 < page_addr pg /\ page_addr pg + page_size <= W64).

Lemma cell_bounds k : 0 <= k < cells_of i ->
  page_addr pg + 16 <= cell pg i k /\ cell pg i k + size_of i <= page_addr pg + page_size /\
  16 <= size_of i.
Proof.
  intros Hk. destruct (class_facts i Hi) as (? & _).
  pose proof (cell_in_page pg i k (cell pg i k) Hi Hk) as Hc1.
  pose proof (cell_in_page pg i k (cell pg i k + size_of i - 1) Hi Hk) as Hc2.
  unfold in_range in *. lia.
Qed.

Lemma cell_elem k : 0 <= k < cells_of i -> elem (cell pg i 0) (k * (size_of i / 8)) = cell pg i k.
Proof.
  intros Hk. destruct (class_facts i Hi) as (? & Es & _). pose proof (cell_bounds k Hk).
  unfold elem. replace (k * (size_of i / 8) * 8) with (k * size_of i) by nia.
  assert (0 <= k * size_of i) by nia.
  assert (cell pg i k = cell pg i 0 + k * size_of i) as E by (unfold cell; lia).
  pose proof (cell_bounds 0 ltac:(lia)).
  rewrite (u64_small (k * size_of i)) by lia. rewrite u64_small; lia.
Qed.

Lemma cell_valid k m : 0 <= k < cells_of i -> same_dom m0 m -> valid m (cell pg i k) 8.
Proof.
  intros Hk Hd. pose proof (cell_bounds k Hk). eapply valid_same_dom; [done|].
  eapply valid_sub; [apply Hv|lia..].
Qed.

Lemma cell_within k x : 0 <= k < cells_of i -> in_range (cell pg i k) 8 x ->
  in_range (cell pg i 0) (cells_of i * size_of i) x.
Proof.
  intros Hk. destruct (class_facts i Hi) as (? & _). unfold in_range, cell. nia.
Qed.

Lemma cell_disjoint k k' : k <> k' -> disjoint_ranges (cell pg i k) 8 (cell pg i k') 8.
Proof.
  intros Hk. destruct (class_facts i Hi) as (? & _). unfold disjoint_ranges, cell. nia.
Qed.

(** One store of a link. *)
Lemma thread_store k v m : 0 <= k < cells_of i -> threaded m0 pg i k m ->
  exists m', store (with_mem w0 m) (cell pg i k) v = Ok (with_mem w0 m') /\
    m' = write64 m (cell pg i k) v /\ threaded m0 pg i k m'.
Proof.
  intros Hk (Hw & Hd & Ho & Hl). pose proof (cell_valid k m Hk Hd) as Hvk.
  exists (write64 m (cell pg i k) v). split_and!; [|done|].
  - rewrite store_valid by (by rewrite wmem_with_mem). by rewrite wmem_with_mem, with_mem_with_mem.
  - split_and!.
    + by apply write64_wf.
    + eapply same_dom_trans; [done|]. by apply write64_same_dom.
    + intros x Hx. rewrite write64_out; [by apply Ho|]. intros Hc. by apply Hx, (cell_within k).
    + intros k' Hk'. rewrite load64_write64_ne; [by apply Hl|]. apply cell_disjoint. lia.
Qed.

Lemma thread_loop m : mem_wf m -> same_dom m0 m -> m = m0 ->
  exists m', for_range 0 (cells_of i - 1)
    (fun k w => store w (elem (cell pg i 0) (k * (size_of i / 8)))
                        (elem (cell pg i 0) ((k + 1) * (size_of i / 8)))) (with_mem w0 m) =
      Ok (with_mem w0 m') /\ threaded m0 pg i (cells_of i - 1) m'.
Proof.
  intros Hw Hd ->. destruct (class_facts i Hi) as (? & _ & _ & ? & _).
  destruct (for_range_inv 0 (cells_of i - 1)
    (fun k w => store w (elem (cell pg i 0) (k * (size_of i / 8)))
                        (elem (cell pg i 0) ((k + 1) * (size_of i / 8))))
    (fun k w => exists m, w = with_mem w0 m /\ threaded m0 pg i k m) (with_mem w0 m0))
    as (w' & E & m' & -> & Ht); [lia| | |by eauto].
  - exists m0. split; [done|]. split_and!; try done. intros k' Hk'. lia.
  - intros k w Hk (m & -> & Ht). rewrite !cell_elem by lia.
    destruct (thread_store k (cell pg i (k + 1)) m) as (m' & E & Em & Hw' & Hd' & Ho' & Hl'); [lia|done|].
    exists (with_mem w0 m'). split; [done|]. exists m'. split; [done|]. split_and!; try done.
    intros k' Hk'. destruct (decide (k' = k)) as [->|]; [|apply Hl'; lia].
    pose proof (cell_bounds (k + 1) ltac:(lia)). rewrite Em. apply load64_write64_small. lia.
Qed.

(** Threaded cells with a null link in the last one are a free list. *)
Lemma threaded_chain m : threaded m0 pg i (cells_of i - 1) m ->
  load64 m (cell pg i (cells_of i - 1)) = Ok 0 -> chain m (cell pg i 0) (cells pg i).
Proof.
  intros (_ & _ & _ & Hl) Hz. destruct (class_facts i Hi) as (_ & _ & _ & Hc & _).
  assert (forall n k, 0 <= k -> k + Z.of_nat (S n) = cells_of i ->
    chain m (cell pg i k) (map (cell pg i) (seqZ k (Z.of_nat (S n))))) as Hn.
  { induction n as [|n IH]; intros k Hk Hkn.
    - split; [done|]. exists 0. replace k with (cells_of i - 1) by lia. done.
    - rewrite seqZ_cons by lia. cbn [map]. split; [done|].
      exists (cell pg i (k + 1)). split; [apply Hl; lia|].
      replace (Z.pred (Z.of_nat (S (S n)))) with (Z.of_nat (S n)) by lia. apply IH; lia. }
  unfold cells. replace (cells_of i) with (Z.of_nat (S (Z.to_nat (cells_of i - 1)))) by lia.
  apply Hn; lia.
Qed.
End Thread.

(** What [slab_init] leaves behind: a new page [pg] of the class [i]. *)
Record slab_built (w : W) (o : gset Z) (i pg : Z) (w' : W) : Prop := {
  sb_new : pg ∉ o;
  sb_inv : frames_inv w' ({[pg]} ∪ o);
  sb_managed : managed w' = managed w;
  sb_room : room w = S (room w');
  sb_run : spent 1 w w';
  sb_dom : same_dom (wmem w) (wmem w');
  sb_header : load64 (wmem w') (page_addr pg) = Ok (slab_at i);
  sb_size : load64 (wmem w') (slab_at i + 8) = Ok (size_of i);
  sb_head : load64 (wmem w') (slab_at i) = Ok (cell pg i 0);
  sb_chain : chain (wmem w') (cell pg i 0) (cells pg i);
  sb_frame : forall a, ~ managed w a \/ in_pages hh o a -> ~ in_range (slab_at i) 16 a ->
    wmem w' !! a = wmem w !! a;
}.

(** The memory after the stores between the allocation and the loop. *)
Definition slab_header_mem (m : mem) (i pg : Z) : mem :=
  write64 (write64 (write64 m (slab_at i) (page_addr pg)) (page_addr pg) (slab_at i))
          (slab_at i) (cell pg i 0).

Section Build.
Context (w w2 : W) (o : gset Z) (i pg : Z) (Hi : 0 <= i < 10) (Ht : table_ok allocator w).
Context (Hinv : frames_inv w2 ({[pg]} ∪ o)) (Em : managed w2 = managed w)
  (Hd : same_dom (wmem w) (wmem w2)) (Hsz : load64 (wmem w2) (slab_at i + 8) = Ok (size_of i)).
Local Abbreviation m3 := (slab_header_mem (wmem w2) i pg).

Lemma pg_owned : pg ∈ {[pg]} ∪ o.
Proof. apply elem_of_union. left. by apply elem_of_singleton. Qed.

Lemma pg_facts : 0 < page_addr pg /\ page_addr pg + page_size <= W64 /\
  valid (wmem w2) (page_addr pg) page_size /\ tohh hh (pg * page_size) = page_addr pg.
Proof.
  destruct (page_in_pages w2 ({[pg]} ∪ o) pg Hinv) as (? & ? & ? & ? & _); [exact pg_owned|by split_and!].
Qed.

Lemma table_sep x a : in_range (slab_at i) 16 x -> in_range (page_addr pg) page_size a -> x <> a.
Proof.
  intros Hx Ha ->. apply (table_page allocator w w2 ({[pg]} ∪ o) pg a Ht Em Hinv); [exact pg_owned| |done].
  by apply (slab_at_range allocator i).
Qed.

Lemma slab_at_bounds : 0 < slab_at i /\ slab_at i + 16 <= W64.
Proof.
  destruct Ht as (Hp & Hv & _). pose proof (frames_wf _ _ Hinv) as Hw.
  destruct (valid_range (wmem w2) allocator 169 Hw) as [_ Hr]; [done|by eapply valid_same_dom|].
  unfold Heap.slab_at. lia.
Qed.

Lemma header_valid : valid (wmem w2) (slab_at i) 16 /\ valid (wmem w2) (page_addr pg) 8.
Proof.
  destruct Ht as (_ & Hv & _). split.
  - eapply valid_same_dom; [done|]. unfold Heap.slab_at. eapply valid_sub; [apply Hv|lia..].
  - destruct pg_facts as (_ & _ & Hvp & _). eapply valid_sub; [apply Hvp|lia..].
Qed.

Lemma header_mem_ok : mem_wf m3 /\ same_dom (wmem w2) m3.
Proof.
  destruct header_valid as [Hv1 Hv2]. pose proof (frames_wf _ _ Hinv) as Hw.
  assert (valid (wmem w2) (slab_at i) 8) as Hv3 by (eapply valid_sub; [apply Hv1|lia..]).
  unfold slab_header_mem. set (ma := write64 (wmem w2) _ _).
  assert (mem_wf ma /\ same_dom (wmem w2) ma) as [Hwa Hda] by (by apply write64_ok).
  set (mb := write64 ma _ _). assert (valid ma (page_addr pg) 8) by (by eapply valid_same_dom).
  assert (mem_wf mb /\ same_dom ma mb) as [Hwb Hdb] by (by apply write64_ok).
  assert (same_dom (wmem w2) mb) as Hdc by (by eapply same_dom_trans).
  assert (valid mb (slab_at i) 8) by (by eapply valid_same_dom).
  split; [by apply write64_ok|]. eapply same_dom_trans; [done|by apply write64_ok].
Qed.

Lemma header_mem_loads :
  load64 m3 (page_addr pg) = Ok (slab_at i) /\ load64 m3 (slab_at i) = Ok (cell pg i 0) /\
  load64 m3 (slab_at i + 8) = Ok (size_of i).
Proof.
  pose proof slab_at_bounds. destruct pg_facts as (? & ? & _).
  destruct (cell_bounds pg i Hi 0) as (? & ? & ?).
  { destruct (class_facts i Hi) as (_ & _ & _ & ? & _). lia. }
  unfold slab_header_mem. split_and!.
  - rewrite load64_write64_sep; [apply load64_write64_small; lia|].
    intros x Hx Hx'. apply (table_sep x x); unfold in_range in *; lia.
  - apply load64_write64_small. lia.
  - rewrite load64_write64_ne by (unfold disjoint_ranges; lia).
    rewrite load64_write64_sep; [|intros x Hx Hx'; apply (table_sep x x); unfold in_range in *; lia].
    rewrite load64_write64_ne by (unfold disjoint_ranges; lia). done.
Qed.

(** The loads between those stores. *)
Lemma header_prefix_loads :
  let ma := write64 (wmem w2) (slab_at i) (page_addr pg) in
  let mb := write64 ma (page_addr pg) (slab_at i) in
  load64 ma (slab_at i + 8) = Ok (size_of i) /\ load64 ma (slab_at i) = Ok (page_addr pg) /\
  load64 mb (slab_at i) = Ok (page_addr pg) /\ load64 mb (slab_at i + 8) = Ok (size_of i) /\
  valid (wmem w2) (slab_at i) 8 /\ valid ma (page_addr pg) 8 /\ valid mb (slab_at i) 8.
Proof.
  intros ma mb. destruct header_valid as [Hv1 Hv2]. pose proof (frames_wf _ _ Hinv) as Hw.
  assert (valid (wmem w2) (slab_at i) 8) as Hv3 by (eapply valid_sub; [apply Hv1|lia..]).
  destruct (write64_ok (wmem w2) (slab_at i) (page_addr pg)) as [Hwa Hda]; [done..|].
  assert (valid ma (page_addr pg) 8) as Hva by (by eapply valid_same_dom).
  destruct (write64_ok ma (page_addr pg) (slab_at i)) as [Hwb Hdb]; [done..|].
  destruct pg_facts as (? & ? & _).
  assert (load64 ma (slab_at i + 8) = Ok (size_of i)) as Ha1.
  { unfold ma. rewrite load64_write64_ne by (unfold disjoint_ranges; lia). done. }
  assert (load64 ma (slab_at i) = Ok (page_addr pg)) as Ha2 by (apply load64_write64_small; lia).
  split_and!; try done.
  - unfold mb. rewrite load64_write64_sep; [done|].
    intros x Hx Hx'. apply (table_sep x x); unfold in_range in *; lia.
  - unfold mb. rewrite load64_write64_sep; [done|].
    intros x Hx Hx'. apply (table_sep x x); unfold in_range in *; lia.
  - eapply valid_same_dom; [|by apply Hv3]. by eapply same_dom_trans.
Qed.

Lemma header_mem_out a : ~ in_range (slab_at i) 16 a -> ~ in_range (page_addr pg) page_size a ->
  m3 !! a = wmem w2 !! a.
Proof.
  intros Ha Hp. unfold slab_header_mem, in_range in *. rewrite !write64_out; [done|..]; unfold in_range; lia.
Qed.

(** The page after the loop: a free list of all its cells. *)
Lemma header_thread m' : threaded m3 pg i (cells_of i - 1) m' ->
  let m7 := write64 m' (cell pg i (cells_of i - 1)) 0 in
  chain m7 (cell pg i 0) (cells pg i) /\ mem_wf m7 /\ same_dom (wmem w2) m7 /\
  (forall a, ~ in_range (cell pg i 0) (cells_of i * size_of i) a -> m7 !! a = m3 !! a) /\
  store (with_mem w2 m') (elem (cell pg i 0) ((cells_of i - 1) * (size_of i / 8))) 0 = Ok (with_mem w2 m7).
Proof.
  intros Ht'. destruct header_mem_ok as [Hw3 Hd3]. destruct pg_facts as (Hp1 & Hp2 & Hvp & _).
  destruct (class_facts i Hi) as (_ & _ & _ & Hc & _).
  assert (valid m3 (page_addr pg) page_size) as Hv3 by (by eapply valid_same_dom).
  destruct (thread_store w2 m3 pg i Hi Hv3 (conj Hp1 Hp2) (cells_of i - 1) 0 m')
    as (m7 & E & Em7 & Ht7); [lia|done|].
  rewrite <- Em7 in *. intros m7'. subst m7'. destruct Ht7 as (Hw7 & Hd7 & Ho7 & Hl7). split_and!.
  - apply (threaded_chain m3 pg i Hi); [done|]. rewrite Em7. apply load64_write64_small. lia.
  - done.
  - by eapply same_dom_trans.
  - done.
  - by rewrite (cell_elem pg i Hi (conj Hp1 Hp2)) by lia.
Qed.

Lemma build_done m' : threaded m3 pg i (cells_of i - 1) m' -> pg ∉ o -> room w = S (room w2) -> spent 1 w w2 ->
  (forall a, ~ managed w a \/ in_pages hh o a -> ~ in_range (slab_at i) 16 a -> wmem w2 !! a = wmem w !! a) ->
  slab_built w o i pg (with_mem w2 (write64 m' (cell pg i (cells_of i - 1)) 0)).
Proof.
  intros Ht' Hn Hroom Hrun Hfr. destruct (header_thread m' Ht') as (Hch & Hw7 & Hd7 & Ho7 & _).
  set (m7 := write64 m' _ _) in *. destruct header_mem_loads as (Hl1 & Hl2 & Hl3).
  destruct (class_facts i Hi) as (? & _ & _ & Hc & _).
  assert (forall a, in_range (cell pg i 0) (cells_of i * size_of i) a ->
            page_addr pg + 16 <= a < page_addr pg + page_size) as Hcr.
  { intros a Ha. destruct (class_facts i Hi) as (_ & _ & Hoff & _ & Hsum & _).
    unfold in_range, cell in *. lia. }
  assert (forall a, in_range (page_addr pg) 8 a \/ in_range (slab_at i) 16 a -> m7 !! a = m3 !! a) as Hkeep.
  { intros a Ha. apply Ho7. intros Hc'%Hcr. destruct Ha as [Ha|Ha]; [unfold in_range in *; lia|].
    apply (table_sep a a); [done|unfold in_range; lia|done]. }
  destruct (frames_write w2 ({[pg]} ∪ o) m7) as (Hinv7 & Em7 & Er7 & Hr7); [done..| |].
  { intros a Hm Ha. rewrite Ho7, header_mem_out; [done| | |].
    - intros Hs. destruct Ht as (_ & _ & Hnm). apply (Hnm a); [by apply (slab_at_range allocator i)|].
      by rewrite <- Em.
    - intros Hp. apply Ha. exists pg. split; [exact pg_owned|]. done.
    - intros Hr%Hcr. apply Ha. exists pg. split; [exact pg_owned|]. apply in_page_addr. lia. }
  constructor; rewrite ?wmem_with_mem, ?Em7, ?Er7; try done.
  - by apply (spent_trans 1 0 w w2), spent_same.
  - by eapply same_dom_trans.
  - rewrite (load64_same m3); [done|]. intros x Hx. apply Hkeep. by left.
  - rewrite (load64_same m3); [done|]. intros x Hx. apply Hkeep. right. unfold in_range in *. lia.
  - rewrite (load64_same m3); [done|]. intros x Hx. apply Hkeep. right. unfold in_range in *. lia.
  - intros a Ha Hs.
    assert (~ in_range (page_addr pg) page_size a) as Hnp.
    { intros Hp. destruct Ha as [Hm|(j & Hj & Hja)].
      - apply Hm. rewrite <- Em. apply (frames_page w2 _ pg Hinv); [exact pg_owned|done].
      - apply Hn. by rewrite (in_page_inj _ _ _ _ Hp Hja). }
    rewrite Ho7, header_mem_out; [by apply Hfr|done..|].
    intros Hr%Hcr. apply Hnp. unfold in_range. lia.
Qed.
End Build.

Lemma slab_init_spec w o i : frames_inv w o -> table_ok allocator w -> 0 <= i < 10 ->
  (exists pg w', slab_init (slab_at i) (size_of i) w = Ok w' /\ slab_built w o i pg w') \/
  (slab_init (slab_at i) (size_of i) w = Panic /\ room w = O /\ ~ frames_run w 1).
Proof.
  intros Hf Ht Hi. destruct (table_valid allocator w i Ht Hi) as [Hv1 Hv2].
  destruct (class_facts i Hi) as (Hs & _ & _ & Hc & _ & Hu).
  unfold slab_init. rewrite store_valid by done. bind_simpl.
  set (m1 := write64 (wmem w) (slab_at i + 8) (size_of i)).
  destruct (write64_ok (wmem w) (slab_at i + 8) (size_of i)) as [Hw1 Hd1]; [by apply (frames_wf w o)|done|].
  assert (forall a, ~ in_range (slab_at i) 16 a -> m1 !! a = wmem w !! a) as Ho1.
  { intros a Ha. apply write64_out. unfold in_range in *. lia. }
  destruct (frames_write w o m1 Hf Hw1 Hd1) as (Hf1 & Em1 & Er1 & Hrun1).
  { intros a Hm _. apply Ho1. intros Ha%slab_at_range; [|done]. by apply (proj2 (proj2 Ht) a). }
  pose proof (frames_room (with_mem w m1) o Hf1) as Hroom. rewrite Er1 in Hroom.
  destruct (frames_alloc (with_mem w m1) o 1 Hf1) as [(pg & w2 & E & Hn & Hf2 & Em2 & Hd2 & _ & Hfr & Hrun2)|[E Hno]];
    [lia| |]; rewrite E in Hroom |- *; destruct Hroom as [(r & Er & Hr)|[Er Hr]]; try done;
    [|right; split_and!; [done..|by intros ?%Hrun1]].
  left. injection Er as <-. simpl in Hr. rewrite wmem_with_mem in Hd2, Hfr. rewrite Em1 in Em2, Hfr.
  assert (pages pg 1 = {[pg]}) as Ep by (apply set_eq; intros j; rewrite elem_of_pages, elem_of_singleton; lia).
  rewrite Ep in *. assert (same_dom (wmem w) (wmem w2)) as Hd by (by eapply same_dom_trans).
  assert (load64 (wmem w2) (slab_at i + 8) = Ok (size_of i)) as Hsz.
  { rewrite (load64_same m1); [apply load64_write64_small; lia|]. intros x Hx. apply Hfr. left.
    apply (proj2 (proj2 Ht)). apply (slab_at_range allocator i); [done|]. unfold in_range in *. lia. }
  destruct (header_mem_loads w w2 o i pg Hi Ht Hf2 Em2 Hd Hsz) as (_ & Hl2 & Hl3).
  destruct (header_mem_ok w w2 o i pg Hi Ht Hf2 Hd) as [Hw3 Hd3].
  destruct (header_prefix_loads w w2 o i pg Hi Ht Hf2 Em2 Hd Hsz) as (Ha1 & Ha2 & Hb1 & Hb2 & Hvs & Hva & Hvb).
  destruct (pg_facts w2 o pg Hf2) as (Hp1 & Hp2 & Hvpg & Etohh).
  assert (valid (slab_header_mem (wmem w2) i pg) (page_addr pg) page_size) as Hv3 by (by eapply valid_same_dom).
  destruct (thread_loop w2 (slab_header_mem (wmem w2) i pg) pg i Hi Hv3 (conj Hp1 Hp2)
    (slab_header_mem (wmem w2) i pg)) as (m' & El & Htm); [done..|].
  destruct (header_thread w w2 o i pg Hi Ht Hf2 Hd m' Htm) as (_ & _ & _ & _ & Est).
  exists pg, (with_mem w2 (write64 m' (cell pg i (cells_of i - 1)) 0)). split.
  - bind_simpl. rewrite Etohh, store_valid by done. bind_simpl.
    rewrite (load_Ok _ _ _ _ Ha1). bind_simpl. rewrite (load_Ok _ _ _ _ Ha2). bind_simpl.
    rewrite store_with_mem by done. bind_simpl.
    rewrite (load_Ok _ _ _ _ Hb1). bind_simpl. rewrite (load_Ok _ _ _ _ Hb2). bind_simpl.
    rewrite store_with_mem by done. bind_simpl.
    replace (u64 (page_addr pg + align_up header_size (size_of i))) with (cell pg i 0).
    2:{ pose proof (cell_bounds pg i Hi 0). unfold cell in *. fold (off_of i).
        rewrite u64_small; lia. }
    fold (slab_header_mem (wmem w2) i pg).
    rewrite (load_Ok _ _ _ _ Hl2). bind_simpl. rewrite (load_Ok _ _ _ _ Hl3). bind_simpl.
    rewrite (proj2 (Z.eqb_neq _ 0)) by lia. fold (off_of i). rewrite Hu. fold (cells_of i).
    rewrite (u64_small (cells_of i - 1)) by (pose proof (cells_bound i Hi); lia).
    rewrite El. bind_simpl. exact Est.
  - apply (build_done w w2 o i pg Hi Ht Hf2 Em2 Hd Hsz m' Htm).
    { intros Ho. apply (Hn pg); [by apply elem_of_singleton|done]. }
    { exact Hr. }
    { intros n Hrn. by apply Hrun2, Hrun1. }
    intros a Ha Hs'. rewrite <- Ho1 by done. by apply Hfr.
Qed.


(** ** Allocation from a slab *)

(** What every heap operation guarantees of the client's blocks. *)
Record heap_step (w : W) (h : heap) (w' : W) (h' : heap) : Prop := {
  st_inv : heap_inv allocator w' h';
  st_managed : managed w' = managed w;
  st_dom : same_dom (wmem w) (wmem w');
  st_keep : forall p n, block h p n -> block h' p n ->
    forall x, in_range p n x -> wmem w' !! x = wmem w !! x;
}.

Definition take_cell (h : heap) (i a : Z) (l : list Z) : heap :=
  set_live (set_free h i l) ({[a]} ∪ h_live h).

Section Take.
Context (w : W) (h : heap) (i a : Z) (l : list Z) (Hinv : heap_inv allocator w h)
  (Hi : 0 <= i < 10) (El : h_free h i = a :: l).

Lemma head_cell : is_cell h i a /\ (a ∉ h_live h) /\ a ∉ l.
Proof.
  destruct (hs_free _ (hi_shape _ _ _ _ Hinv) i a Hi) as [Ha Hn]; [rewrite El; left|].
  split_and!; [done..|]. pose proof (hs_nodup _ (hi_shape _ _ _ _ Hinv) i Hi) as Hnd.
  rewrite El in Hnd. by apply NoDup_cons in Hnd as [? _].
Qed.

Lemma take_shape : heap_shape (take_cell h i a l).
Proof.
  destruct head_cell as (Ha & Hn & Hl). pose proof (hi_shape _ _ _ _ Hinv) as Hs.
  constructor; cbn [take_cell set_live set_free h_slab h_owned h_free h_live h_big]; try apply Hs.
  - intros j b Hj Hb. case_decide as Hji.
    + subst j. assert (b ∈ h_free h i) as Hb' by (rewrite El; by right).
      destruct (hs_free _ Hs i b Hj Hb') as [Hc Hbn]. split; [done|].
      apply not_elem_of_union. split; [|done]. apply not_elem_of_singleton. intros ->. by apply Hl.
    + destruct (hs_free _ Hs j b Hj Hb) as [Hc Hbn]. split; [done|].
      apply not_elem_of_union. split; [|done]. apply not_elem_of_singleton. intros ->.
      apply Hji. destruct (class_facts i Hi) as (? & _). destruct (class_facts j Hj) as (? & _).
      apply (is_cell_disjoint h Hs j i a a a); [done|done|unfold in_range; lia|unfold in_range; lia].
  - intros j Hj. case_decide as Hji; [|by apply Hs]. subst j.
    pose proof (hs_nodup _ Hs i Hi) as Hnd. rewrite El in Hnd. by apply NoDup_cons in Hnd as [_ ?].
  - intros b [->%elem_of_singleton|Hb]%elem_of_union; [by exists i|]. by apply (hs_live _ Hs).
Qed.

(** A cell's bytes as a range of mapped client memory. *)
Lemma cell_addr j b : is_cell h j b ->
  0 < b /\ b + size_of j <= W64 /\ valid (wmem w) b (size_of j) /\ Z.land b 4095 <> 0.
Proof.
  intros Hb. pose proof (hi_shape _ _ _ _ Hinv) as Hs. pose proof (is_cell_class h Hs j b Hb) as Hj.
  destruct Hb as (pg & k & Hp & Hk & ->). destruct (hs_slab _ Hs _ _ Hp) as [Ho _].
  destruct (page_in_pages w (h_owned h) pg (hi_frames _ _ _ _ Hinv) Ho) as (? & ? & Hv & _ & _ & Hal).
  destruct (cell_bounds pg j Hj k Hk) as (? & ? & ?). split_and!; try lia.
  - eapply valid_sub; [apply Hv|lia..].
  - change 4095 with (Z.ones 12) in *. rewrite Z.land_ones in * by done. change (2 ^ 12) with page_size in *.
    replace (cell pg j k) with (page_addr pg + (cell pg j k - page_addr pg)) by lia.
    rewrite Z.add_mod, Hal, Z.add_0_l, Z.mod_mod, Z.mod_small by lia. lia.
Qed.

Lemma slab_take : exists w',
  slab_alloc (slab_at i) w = Ok (a, w') /\ heap_step w h w' (take_cell h i a l) /\
  bytes_at (wmem w') a (replicate (Z.to_nat (size_of i)) 0) /\ spent 0 w w'.
Proof.
  destruct head_cell as (Ha & Hn & Hl). pose proof (hi_shape _ _ _ _ Hinv) as Hs.
  pose proof (hi_mem _ _ _ _ Hinv) as Hm. destruct (hm_free _ _ _ _ Hm i Hi) as (hd & Hhd & Hch).
  rewrite El in Hch. destruct Hch as (-> & next & Hnext & Hch).
  destruct (cell_addr i a Ha) as (Ha0 & Ha1 & Hva & _).
  destruct (table_valid allocator w i (hi_table _ _ _ _ Hinv) Hi) as [Hvt _].
  pose proof (frames_wf _ _ (hi_frames _ _ _ _ Hinv)) as Hw.
  destruct (write64_ok (wmem w) (slab_at i) next Hw Hvt) as [Hw1 Hd1].
  assert (0 <= next < W64) as Hnx by (by apply (load64_range (wmem w) a)).
  set (m1 := write64 (wmem w) (slab_at i) next) in *.
  assert (forall b, b ∈ l -> is_cell h i b) as Hlc.
  { intros b Hb. apply (hs_free _ Hs i b Hi). rewrite El. by right. }
  pose proof (heap_mem_head allocator w h Hinv (wmem w) i next l Hm Hi Hnx Hch Hlc) as Hm1. fold m1 in Hm1.
  set (z := replicate (Z.to_nat (size_of i)) 0). destruct (class_facts i Hi) as (Hsz & _).
  assert (valid m1 a (size_of i)) as Hva1 by (by eapply valid_same_dom).
  assert (Z.of_nat (length z) = size_of i) as Elen by (unfold z; rewrite length_replicate; lia).
  set (m2 := write_bytes m1 a z).
  assert (forall x, ~ in_range a (size_of i) x -> m2 !! x = m1 !! x) as Ho2.
  { intros x Hx. unfold m2. rewrite lookup_write_bytes_out; [done|]. by rewrite Elen. }
  assert (same_dom m1 m2) as Hd2 by (apply write_bytes_same_dom; by rewrite Elen).
  assert (mem_wf m2) as Hw2.
  { apply write_bytes_wf; [done|by rewrite Elen|]. apply Forall_replicate. lia. }
  assert (heap_mem allocator m2 (take_cell h i a l)) as Hm2.
  { apply heap_mem_live. apply (heap_mem_cell allocator w h Hinv m1 m2 _ i a); try done.
    intros j b Hj Hb. destruct (hs_free _ take_shape j b Hj Hb) as [Hcb Hlb]. split; [done|].
    intros ->. apply Hlb, elem_of_union. left. by apply elem_of_singleton. }
  assert (same_dom (wmem w) m2) as Hd by (by eapply same_dom_trans).
  assert (forall x, in_range (slab_at i) 16 x -> ~ managed w x) as Htn.
  { intros x Hx. apply (hi_table _ _ _ _ Hinv). by apply (slab_at_range allocator i). }
  assert (forall x, ~ in_range a (size_of i) x -> ~ in_range (slab_at i) 16 x -> m2 !! x = wmem w !! x) as Hout.
  { intros x Hx1 Hx2. rewrite Ho2 by done. apply write64_out. unfold in_range in *. lia. }
  destruct (heap_write allocator w h (take_cell h i a l) m2) as (Hinv2 & Emg & Hsp); try done.
  { intros x Hmx Hox. apply Hout; [|by intros Hx%Htn]. intros Hx. apply Hox.
    by apply (is_cell_owned h Hs i a). }
  { exact take_shape. }
  exists (with_mem w m2). split_and!.
  - unfold slab_alloc. rewrite (load_wmem _ _ _ Hhd). bind_simpl.
    rewrite (proj2 (Z.eqb_neq a 0)) by lia. bind_simpl.
    rewrite (load_wmem _ _ _ Hhd). bind_simpl. rewrite (load_wmem _ _ _ Hnext). bind_simpl.
    rewrite store_valid by done. bind_simpl. fold m1.
    rewrite (load_Ok _ _ _ _ (hm_size _ _ _ _ Hm1 i Hi)). bind_simpl.
    rewrite fill_valid, !wmem_with_mem, with_mem_with_mem by (rewrite ?wmem_with_mem; done || lia).
    bind_simpl. done.
  - constructor; rewrite ?wmem_with_mem; try done.
    intros p n Hb _ x Hx. apply Hout.
    + intros Hax. destruct Hb as [b j Hbl Hbc|pg n sz Hbg].
      * destruct (is_cell_disjoint h Hs i j a b x Ha Hbc Hax Hx) as [_ <-]. done.
      * destruct (big_block_page h (hi_shape _ _ _ _ Hinv) pg n sz x Hbg Hx) as (q & Hq & Hqx).
        apply (cell_not_big allocator w h Hinv i a x pg n sz q Ha Hax Hbg); [|done].
        apply elem_of_pages. lia.
    + intros Ht%slab_at_range; [|done]. destruct Hb as [b j Hbl Hbc|pg n sz Hbg].
      * by apply (cell_not_table allocator w h Hinv j b x Hbc Hx).
      * destruct (big_block_page h (hi_shape _ _ _ _ Hinv) pg n sz x Hbg Hx) as (q & Hq & Hqx).
        apply (owned_not_table allocator w h Hinv q x); [|done|done].
        apply (big_owned allocator w h Hinv pg n sz q Hbg). apply elem_of_pages. lia.
  - rewrite wmem_with_mem. apply write_bytes_bytes_at.
  - exact Hsp.
Qed.
End Take.

(** ** A fresh slab page *)

Definition add_page (h : heap) (i pg : Z) : heap :=
  MkHeap ({[pg]} ∪ h_owned h) (<[pg := i]> (h_slab h))
         (fun j => if decide (j = i) then cells pg i else h_free h j) (h_live h) (h_big h).

Section Refill.
Context (w w' : W) (h : heap) (n i pg : Z) (Hinv : heap_inv_upto allocator n w h)
  (Hi : 0 <= i < 10) (Hin : i <= n <= 10) (El : h_free h i = [])
  (Hb : slab_built w (h_owned h) i pg w').

Lemma refill_new : (pg ∉ h_owned h) /\ h_slab h !! pg = None.
Proof.
  pose proof (sb_new _ _ _ _ _ Hb) as Hn. split; [done|].
  destruct (h_slab h !! pg) eqn:E; [|done]. by apply (hs_slab _ (hi_shape _ _ _ _ Hinv)) in E as [? _].
Qed.

Lemma refill_cell j a : is_cell h j a -> is_cell (add_page h i pg) j a.
Proof.
  intros (q & k & Hq & Hk & ->). exists q, k. split; [|done]. cbn.
  rewrite lookup_insert_ne; [done|]. intros Eq. destruct refill_new as [_ E]. congruence.
Qed.

Lemma new_cells a : a ∈ cells pg i -> is_cell (add_page h i pg) i a /\ a ∉ h_live h.
Proof.
  intros (k & -> & Hk%elem_of_seqZ)%list_elem_of_fmap. split.
  - exists pg, k. cbn. rewrite lookup_insert_eq. split_and!; (done || lia).
  - pose proof (hi_shape _ _ _ _ Hinv) as Hs. intros (j & Hc)%(hs_live _ Hs).
    pose proof (is_cell_class h Hs j _ Hc) as Hj. destruct (class_facts j Hj) as (? & _).
    destruct (is_cell_page h Hs j _ (cell pg i k) Hc) as (q & Hq & Hqx); [unfold in_range; lia|].
    destruct (cell_bounds pg i Hi k) as (? & ? & ?); [lia|].
    assert (q = pg) by (apply (in_page_inj hh _ _ (cell pg i k)); apply in_page_addr; lia).
    destruct refill_new as [_ E]. congruence.
Qed.

Lemma NoDup_cells : NoDup (cells pg i).
Proof.
  apply NoDup_fmap_2_strong; [|apply NoDup_seqZ]. intros k k' _ _ E.
  destruct (class_facts i Hi) as (? & _).
  apply (cell_range_inj pg pg i k k' (cell pg i k) Hi); [unfold in_range; lia| |done].
  rewrite E. unfold in_range. lia.
Qed.

Lemma refill_shape : heap_shape (add_page h i pg).
Proof.
  pose proof (hi_shape _ _ _ _ Hinv) as Hs. destruct refill_new as [Hn Hns].
  constructor; cbn [add_page h_slab h_owned h_free h_live h_big].
  - intros q j Hq. apply lookup_insert_Some in Hq as [[<- <-]|[_ Hq]].
    + split; [|done]. apply elem_of_union. left. by apply elem_of_singleton.
    + apply Hs in Hq as [? ?]. split; [|done]. apply elem_of_union. by right.
  - intros j a Hj Ha. case_decide as Hji; [subst j; by apply new_cells|].
    apply (hs_free _ Hs) in Ha as [? ?]; [|done]. split; [by apply refill_cell|done].
  - intros j Hj. case_decide; [apply NoDup_cells|by apply Hs].
  - intros a Ha. apply (hs_live _ Hs) in Ha as [j Ha]. exists j. by apply refill_cell.
  - intros q k sz Hq. destruct (hs_big _ Hs q k sz Hq) as (? & ? & Hsub & Hd). split_and!; try lia.
    + intros x Hx. apply elem_of_union. right. by apply Hsub.
    + intros x Hx. rewrite dom_insert. intros [->%elem_of_singleton|?]%elem_of_union.
      * by apply Hn, Hsub.
      * by apply (Hd x).
  - apply Hs.
Qed.

(** A page the heap owned before keeps its contents. *)
Lemma refill_keep q x : q ∈ h_owned h -> in_page hh q x -> wmem w' !! x = wmem w !! x.
Proof.
  intros Hq Hx. apply (sb_frame _ _ _ _ _ Hb); [right; by exists q|].
  intros Ht%slab_at_range; [|done].
  by apply (table_page allocator w w (h_owned h) q x (hi_table _ _ _ _ Hinv) eq_refl (hi_frames _ _ _ _ Hinv)).
Qed.

Lemma refill_load q a : q ∈ h_owned h -> page_addr q <= a -> a + 8 <= page_addr q + page_size ->
  load64 (wmem w') a = load64 (wmem w) a.
Proof.
  intros Hq Ha1 Ha2. apply load64_same. intros x Hx. apply (refill_keep q); [done|].
  apply in_page_addr. unfold in_range in Hx. lia.
Qed.

Lemma refill_table j x : 0 <= j < 10 -> j <> i -> in_range (slab_at j) 16 x -> wmem w' !! x = wmem w !! x.
Proof.
  intros Hj Hji Hx. apply (sb_frame _ _ _ _ _ Hb).
  - left. apply (hi_table _ _ _ _ Hinv). by apply (slab_at_range allocator j).
  - unfold Heap.slab_at, in_range in *. lia.
Qed.

Lemma refill_mem : heap_mem_upto allocator (Z.max n (i + 1)) (wmem w') (add_page h i pg).
Proof.
  pose proof (hi_shape _ _ _ _ Hinv) as Hs. destruct (hi_mem _ _ _ _ Hinv) as [Hh Hsz Hfr Hbg].
  constructor; cbn [add_page h_slab h_owned h_free h_live h_big].
  - intros q j Hq. apply lookup_insert_Some in Hq as [[Eq Ej]|[_ Hq]].
    { rewrite <- Eq, <- Ej. apply Hb. }
    rewrite (refill_load q); [by apply Hh|by apply (hs_slab _ Hs q j)|lia..].
  - intros j Hj. destruct (decide (j = i)) as [->|Hji]; [apply Hb|].
    rewrite (load64_same (wmem w)); [apply Hsz; lia|]. intros x Hx.
    apply (refill_table j); [lia|done|]. unfold in_range in *. lia.
  - intros j Hj. case_decide as Hji.
    + subst j. exists (cell pg i 0). split; [apply Hb|]. apply Hb.
    + destruct (Hfr j) as (hd & Hl & Hc); [lia|]. exists hd. split.
      * rewrite (load64_same (wmem w)); [done|]. intros x Hx.
        apply (refill_table j); [lia|done|]. unfold in_range in *. lia.
      * apply (chain_same (wmem w)); [|done]. intros a Ha. apply load64_same. intros x Hx.
        destruct (hs_free _ Hs j a) as [Hca _]; [lia|done|].
        destruct (is_cell_owned h Hs j a x Hca) as (q & Hq & Hqx); [by apply (is_cell_8 h Hs)|].
        by apply (refill_keep q).
  - intros q k sz Hq. destruct (Hbg q k sz Hq) as [? ?].
    destruct (hs_big _ Hs q k sz Hq) as (? & _ & Hsub & _).
    assert (q ∈ h_owned h) by (apply Hsub, elem_of_pages; lia).
    split; (rewrite (refill_load q); [done|done|lia..]).
Qed.

Lemma slab_refill : heap_inv_upto allocator (Z.max n (i + 1)) w' (add_page h i pg).
Proof.
  constructor; [apply Hb| |exact refill_shape|exact refill_mem].
  apply (table_after allocator w); [apply Hinv|apply Hb|apply Hb].
Qed.

Lemma block_refill p k : block (add_page h i pg) p k <-> block h p k.
Proof.
  pose proof (hi_shape _ _ _ _ Hinv) as Hs. split; intros Hbl; destruct Hbl as [a j Ha Hc|q m sz Hq].
  - destruct (hs_live _ Hs a Ha) as [j' Hc']. pose proof (refill_cell _ _ Hc') as Hc''.
    pose proof (is_cell_class _ refill_shape _ _ Hc) as Hj. pose proof (is_cell_class _ refill_shape _ _ Hc'') as Hj'.
    destruct (class_facts j Hj) as (? & _). destruct (class_facts j' Hj') as (? & _).
    destruct (is_cell_disjoint _ refill_shape j j' a a a Hc Hc'') as [-> _]; [unfold in_range; lia..|].
    by apply block_small.
  - by apply (block_big _ q m sz).
  - apply block_small; [done|by apply refill_cell].
  - by apply (block_big _ q m sz).
Qed.
End Refill.

(** ** New blocks *)

Lemma ranges_disjoint p n q k : 0 < n -> 0 < k ->
  (forall x, in_range p n x -> in_range q k x -> False) -> disjoint_ranges p n q k.
Proof.
  intros Hn Hk Hx. unfold disjoint_ranges, in_range in *.
  destruct (decide (p + n <= q)); [by left|]. destruct (decide (q + k <= p)); [by right|].
  exfalso. apply (Hx (Z.max p q)); lia.
Qed.

(** The result of a successful allocation of [n] bytes at [p]. *)
Record new_block (w : W) (h : heap) (p n : Z) (w' : W) (h' : heap) : Prop := {
  nb_step : heap_step w h w' h';
  nb_blocks : forall q k, block h' q k <-> block h q k \/ (q = p /\ k = n);
  nb_fresh : forall q k, block h q k -> disjoint_ranges p n q k;
  nb_zero : bytes_at (wmem w') p (replicate (Z.to_nat n) 0);
  nb_null : 0 < p /\ p + n <= W64;
}.

Lemma block_pos h p n : heap_shape h -> block h p n -> 0 < n.
Proof.
  intros Hs Hb. destruct Hb as [a i Ha Hc|pg n sz Hb].
  - pose proof (is_cell_class h Hs i a Hc) as Hi. destruct (class_facts i Hi) as (? & _). lia.
  - apply (hs_big _ Hs) in Hb as (_ & ? & _). lia.
Qed.

Lemma block_cell_sep w h i a p n x : heap_inv allocator w h -> is_cell h i a -> a ∉ h_live h ->
  block h p n -> in_range a (size_of i) x -> in_range p n x -> False.
Proof.
  intros Hinv Ha Hn Hb Hax Hx. destruct Hb as [b j Hb Hc|pg n sz Hb].
  - by destruct (is_cell_disjoint h (hi_shape _ _ _ _ Hinv) i j a b x Ha Hc Hax Hx) as [_ ->].
  - destruct (big_block_page h (hi_shape _ _ _ _ Hinv) pg n sz x Hb Hx) as (q & Hq & Hqx).
    apply (cell_not_big allocator w h Hinv i a x pg n sz q Ha Hax Hb); [|done]. apply elem_of_pages. lia.
Qed.

Lemma take_new_block w h i a l : heap_inv allocator w h -> 0 <= i < 10 -> h_free h i = a :: l ->
  exists w', slab_alloc (slab_at i) w = Ok (a, w') /\ new_block w h a (size_of i) w' (take_cell h i a l) /\ spent 0 w w'.
Proof.
  intros Hinv Hi El. destruct (slab_take w h i a l Hinv Hi El) as (w' & E & Hst & Hz & Hsp).
  pose proof (head_cell w h i a l Hinv Hi El) as (Ha & Hn & _).
  destruct (cell_addr w h Hinv i a Ha) as (? & ? & _). pose proof (hi_shape _ _ _ _ Hinv) as Hs.
  destruct (class_facts i Hi) as (? & _). exists w'. split; [done|]. split; [|done]. constructor; try done.
  - intros q k. split.
    + intros Hb. destruct Hb as [b j Hb Hc|pg n sz Hb]; [|left; by apply (block_big h pg n sz)].
      change (is_cell h j b) in Hc. apply elem_of_union in Hb as [->%elem_of_singleton|Hb].
      * right. split; [done|]. pose proof (is_cell_class h Hs j a Hc) as Hj. destruct (class_facts j Hj) as (? & _).
        destruct (is_cell_disjoint h Hs i j a a a Ha Hc) as [-> _]; [unfold in_range; lia..|done].
      * left. by apply block_small.
    + intros [Hb|[-> ->]]; [destruct Hb as [b j Hb Hc|pg n sz Hb]|].
      * apply block_small; [|done]. apply elem_of_union. by right.
      * by apply (block_big (take_cell h i a l) pg n sz).
      * apply block_small; [|done]. apply elem_of_union. left. by apply elem_of_singleton.
  - intros q k Hb. apply ranges_disjoint; [lia|by apply (block_pos h q)|]. intros x Hx Hx'.
    by apply (block_cell_sep w h i a q k x).
Qed.

(** The blocks of a step that adds none. *)
Lemma new_block_after w h w1 h1 p n w2 h2 : heap_step w h w1 h1 ->
  (forall q k, block h1 q k <-> block h q k) -> new_block w1 h1 p n w2 h2 -> new_block w h p n w2 h2.
Proof.
  intros [_ Em1 Hd1 Hk1] Hb1 [[Hi2 Em2 Hd2 Hk2] Hb2 Hf2 Hz2 Hn2]. constructor; try done.
  - constructor; [done|congruence|by eapply same_dom_trans|].
    intros q k Hb Hb' x Hx. pose proof (proj2 (Hb1 q k) Hb) as Hbm.
    rewrite (Hk2 q k), (Hk1 q k); done.
  - intros q k. by rewrite Hb2, Hb1.
  - intros q k Hb. apply Hf2. by apply Hb1.
Qed.

Lemma block_owned w h p n x : heap_inv allocator w h -> block h p n -> in_range p n x ->
  in_pages hh (h_owned h) x.
Proof.
  intros Hinv Hb Hx. destruct Hb as [b j Hb Hc|pg n sz Hb].
  - by apply (is_cell_owned h (hi_shape _ _ _ _ Hinv) j b).
  - destruct (big_block_page h (hi_shape _ _ _ _ Hinv) pg n sz x Hb Hx) as (q & Hq & Hqx). exists q. split; [|done].
    apply (big_owned allocator w h Hinv pg n sz q Hb). apply elem_of_pages. lia.
Qed.

Lemma slab_alloc_spec w h i : heap_inv allocator w h -> 0 <= i < 10 ->
  (exists p w' h', slab_alloc (slab_at i) w = Ok (p, w') /\ new_block w h p (size_of i) w' h' /\ spent 1 w w') \/
  (slab_alloc (slab_at i) w = Panic /\ h_free h i = [] /\ room w = O /\ ~ frames_run w 1).
Proof.
  intros Hinv Hi. destruct (h_free h i) as [|a l] eqn:El.
  2:{ left. destruct (take_new_block w h i a l Hinv Hi El) as (w' & E & Hn & Hsp).
      eexists _, _, _. split_and!; [done..|]. intros n Hr. apply (frames_run_le _ _ _ (Hsp n Hr)). lia. }
  destruct (hm_free _ _ _ _ (hi_mem _ _ _ _ Hinv) i Hi) as (hd & Hhd & Hch). rewrite El in Hch.
  simpl in Hch. subst hd. pose proof (hm_size _ _ _ _ (hi_mem _ _ _ _ Hinv) i Hi) as Hsz.
  assert (slab_alloc (slab_at i) w = (w ← slab_init (slab_at i) (size_of i) w;
    old_free ← load w (slab_at i); next ← load w old_free; w ← store w (slab_at i) next;
    size ← load w (slab_at i + 8); w ← fill w old_free 0 size; Ok (old_free, w))) as E1.
  { unfold slab_alloc. rewrite (load_wmem _ _ _ Hhd). bind_simpl. rewrite Z.eqb_refl.
    by rewrite (load_wmem _ _ _ Hsz). }
  destruct (slab_init_spec w (h_owned h) i) as [(pg & w1 & E & Hb)|(E & Hr & Hno)]; [apply Hinv|apply Hinv|done| |].
  2:{ right. by rewrite E1, E. }
  left. destruct (class_facts i Hi) as (_ & _ & _ & Hc & _).
  pose proof (slab_refill w w1 h 10 i pg Hinv Hi ltac:(lia) Hb) as Hinv1.
  replace (Z.max 10 (i + 1)) with 10 in Hinv1 by lia.
  assert (h_free (add_page h i pg) i = cell pg i 0 :: map (cell pg i) (seqZ 1 (cells_of i - 1))) as El1.
  { cbn. rewrite decide_True by done. unfold cells. rewrite seqZ_cons by lia. done. }
  destruct (take_new_block w1 _ i _ _ Hinv1 Hi El1) as (w2 & E2 & Hn & Hsp).
  exists (cell pg i 0), w2. eexists. split_and!.
  - rewrite E1, E. bind_simpl. rewrite <- E2. unfold slab_alloc.
    pose proof (sb_head _ _ _ _ _ Hb) as Hh1. rewrite (load_wmem _ _ _ Hh1). bind_simpl.
    destruct (page_in_pages w1 _ pg (sb_inv _ _ _ _ _ Hb)) as (? & ? & _).
    { apply elem_of_union. left. by apply elem_of_singleton. }
    destruct (cell_bounds pg i Hi 0) as (? & _); [lia|].
    rewrite (proj2 (Z.eqb_neq _ 0)) by lia. bind_simpl. by rewrite (load_wmem _ _ _ Hh1).
  - eapply new_block_after; [|intros q k; by apply (block_refill w w1 h 10 i pg)|exact Hn].
    constructor; [done|apply Hb|apply Hb|]. intros p n Hbl _ x Hx.
    destruct (block_owned w h p n x Hinv Hbl Hx) as (q & Hq & Hqx).
    by apply (refill_keep w w1 h 10 i pg Hinv Hi Hb q).
  - apply (spent_trans 1 0 w w1); [apply Hb|done].
Qed.
End Proofs.
