(* ===== verification/HeapTheorems.v ===== *)
(** * The heap's contract

    [malloc], [free], [alloc_size], [realloc] and the constructor under the
    invariant of [HeapInv], for any page manager that keeps [FrameLaws]; and the
    instance with memory/physical.cpp. *)

From S2P Require Import Prelude Memory LibcString StringProofs Frames Math Physical PhysicalProofs.
From S2P Require Import Heap HeapInv HeapProofs.

Section Operations.
Context {W : Type} `{FrameLaws W} (allocator : Z).
Local Abbreviation hh := hhdm_offset.
Local Abbreviation slab_at := (slab_at allocator).
Local Abbreviation heap_inv := (heap_inv allocator).

(** ** Choice of the slab *)

(** [i] is the smallest class that holds [size] bytes. *)
Definition fits (size i : Z) : Prop :=
  0 <= i < 10 /\ size <= size_of i /\ forall j, 0 <= j < i -> size_of j < size.

Lemma get_slab_from_spec w h size n i : heap_inv w h -> 0 <= i -> i + Z.of_nat n = 10 ->
  (forall j, 0 <= j < i -> size_of j < size) ->
  (exists k, get_slab_from allocator n i size w = Ok (slab_at k) /\ fits size k) \/
  (get_slab_from allocator n i size w = Ok 0 /\ 1024 < size).
Proof.
  intros Hinv. revert i. induction n as [|n IH]; intros i Hi Hn Hj.
  - right. split; [done|]. apply (Hj 9). lia.
  - cbn [get_slab_from].
    rewrite (load_wmem _ _ _ (hm_size _ _ _ _ (hi_mem _ _ _ _ Hinv) i ltac:(lia))). bind_simpl.
    destruct (Z.leb_spec size (size_of i)); [left; exists i; by repeat split; try lia; auto|].
    apply IH; [lia..|]. intros j Hj'. destruct (decide (j = i)) as [->|]; [done|]. apply Hj. lia.
Qed.

Lemma slab_at_pos w h i : heap_inv w h -> 0 <= i -> 0 < slab_at i.
Proof. intros [_ (Hp & _) _ _] Hi. unfold Heap.slab_at. lia. Qed.

Lemma fits_small size k : fits size k -> size <= 1024.
Proof. intros (Hk & Hs & _). destruct (class_facts k Hk) as (? & _). lia. Qed.

Lemma fits_inj size i j : fits size i -> fits size j -> i = j.
Proof.
  intros (Hi & Hsi & Hi') (Hj & Hsj & Hj'). destruct (Z.lt_trichotomy i j) as [Hlt|[?|Hlt]]; [|done|].
  - specialize (Hj' i). lia.
  - specialize (Hi' j). lia.
Qed.

(** ** Big blocks *)

Definition add_big (h : heap) (pg n size : Z) : heap :=
  MkHeap (pages pg (n + 1) ∪ h_owned h) (h_slab h) (h_free h) (h_live h) (<[pg := (n, size)]> (h_big h)).

Section BigMalloc.
Context (w w1 : W) (h : heap) (pg n size : Z) (Hinv : heap_inv w h) (Hn : 1 <= n)
  (Hsz : 0 < size <= n * page_size) (Hsz64 : size < W64)
  (Hfresh : pages pg (n + 1) ## h_owned h)
  (Hf1 : frames_inv w1 (pages pg (n + 1) ∪ h_owned h))
  (Em : managed w1 = managed w) (Hd : same_dom (wmem w) (wmem w1))
  (Hz : bytes_at (wmem w1) (page_addr pg) (replicate (Z.to_nat ((n + 1) * page_size)) 0))
  (Hfr : forall a, ~ managed w a \/ in_pages hh (h_owned h) a -> wmem w1 !! a = wmem w !! a).

Definition big_mem : mem := write64 (write64 (wmem w1) (page_addr pg) n) (page_addr pg + 8) size.

Lemma big_first : pg ∈ pages pg (n + 1) ∪ h_owned h.
Proof. apply elem_of_union. left. apply elem_of_pages. lia. Qed.

Lemma big_not_old pg' n' sz' : h_big h !! pg' = Some (n', sz') -> pg <> pg'.
Proof.
  intros Hb <-. apply (Hfresh pg); [apply elem_of_pages; lia|].
  apply (big_owned allocator w h Hinv pg n' sz'); [done|].
  apply (hs_big _ (hi_shape _ _ _ _ Hinv)) in Hb as (? & _). apply elem_of_pages. lia.
Qed.

Lemma big_mem_facts : mem_wf big_mem /\ same_dom (wmem w1) big_mem /\
  load64 big_mem (page_addr pg) = Ok n /\ load64 big_mem (page_addr pg + 8) = Ok size /\
  (forall x, ~ in_range (page_addr pg) 16 x -> big_mem !! x = wmem w1 !! x).
Proof.
  destruct (page_in_pages w1 _ pg Hf1 big_first) as (? & ? & Hv & _).
  assert (n < W64).
  { destruct (page_in_pages w1 _ (pg + n) Hf1) as (? & ? & _).
    { apply elem_of_union. left. apply elem_of_pages. lia. }
    unfold page_addr in *. lia. }
  assert (valid (wmem w1) (page_addr pg) 8) as Hv1 by (eapply valid_sub; [apply Hv|lia..]).
  destruct (write64_ok (wmem w1) (page_addr pg) n (frames_wf _ _ Hf1) Hv1) as [Hwa Hda].
  assert (valid (write64 (wmem w1) (page_addr pg) n) (page_addr pg + 8) 8) as Hv2.
  { eapply valid_same_dom; [done|]. eapply valid_sub; [apply Hv|lia..]. }
  destruct (write64_ok _ (page_addr pg + 8) size Hwa Hv2) as [Hwb Hdb].
  split_and!; [done|by eapply same_dom_trans| | |].
  - unfold big_mem. rewrite load64_write64_ne by (unfold disjoint_ranges; lia). apply load64_write64_small. lia.
  - apply load64_write64_small. lia.
  - intros x Hx. unfold big_mem. rewrite !write64_out; [done|..]; unfold in_range in *; lia.
Qed.

Lemma big_shape : heap_shape (add_big h pg n size).
Proof.
  pose proof (hi_shape _ _ _ _ Hinv) as Hs.
  assert (pages pg (n + 1) ## dom (h_slab h)) as Hsl.
  { intros q Hq (i & Hi)%elem_of_dom. apply (Hfresh q Hq). by apply (hs_slab _ Hs q i). }
  assert (forall q k sz, h_big h !! q = Some (k, sz) -> pages pg (n + 1) ## pages q (k + 1)) as Hbg.
  { intros q k sz Hq x Hx Hx'. apply (Hfresh x Hx). by apply (big_owned allocator w h Hinv q k sz). }
  constructor; cbn [add_big h_slab h_owned h_free h_live h_big]; try apply Hs.
  - intros q i Hq. destruct (hs_slab _ Hs q i Hq). split; [apply elem_of_union; by right|done].
  - intros q k sz Hq. apply lookup_insert_Some in Hq as [[Eq E]|[_ Hq]].
    + injection E as <- <-. rewrite <- Eq. split_and!; (done || lia || apply union_subseteq_l).
    + destruct (hs_big _ Hs q k sz Hq) as (? & ? & Hsub & ?). split_and!; try (done || lia).
      intros x Hx. apply elem_of_union. right. by apply Hsub.
  - intros q k sz q' k' sz' Hq Hq' Hne.
    apply lookup_insert_Some in Hq as [[Eq E]|[_ Hq]]; apply lookup_insert_Some in Hq' as [[Eq' E']|[_ Hq']].
    + congruence.
    + injection E as <- <-. rewrite <- Eq. by apply (Hbg q' k' sz').
    + injection E' as <- <-. rewrite <- Eq'. symmetry. by apply (Hbg q k sz).
    + by apply (hs_disjoint _ Hs q k sz q' k' sz').
Qed.

(** The meta data is the client's to write. *)
Lemma big_write : frames_inv (with_mem w1 big_mem) (pages pg (n + 1) ∪ h_owned h) /\
  managed (with_mem w1 big_mem) = managed w1 /\ forall k, frames_run w1 k -> frames_run (with_mem w1 big_mem) k.
Proof.
  destruct big_mem_facts as (Hw & Hd2 & _ & _ & Ho).
  destruct (frames_write w1 _ big_mem Hf1 Hw Hd2) as (Hf2 & Em2 & _ & Hr); [|done].
  intros x _ Hx. apply Ho. intros Hp. apply Hx. exists pg. split; [exact big_first|].
  apply in_page_addr. unfold in_range in Hp. lia.
Qed.

(** What the new pages do not touch. *)
Lemma big_old x : ~ managed w x \/ in_pages hh (h_owned h) x -> big_mem !! x = wmem w !! x.
Proof.
  intros Hx. destruct big_mem_facts as (_ & _ & _ & _ & Ho). rewrite Ho; [by apply Hfr|].
  intros Hp. assert (in_page hh pg x) as Hpx by (apply in_page_addr; unfold in_range in Hp; lia).
  destruct Hx as [Hm|(q & Hq & Hqx)].
  - apply Hm. rewrite <- Em. apply (frames_page w1 _ pg Hf1 big_first). done.
  - apply (Hfresh pg); [apply elem_of_pages; lia|]. by rewrite (in_page_inj _ _ _ _ Hpx Hqx).
Qed.

Lemma old_load a q : q ∈ h_owned h -> page_addr q <= a -> a + 8 <= page_addr q + page_size ->
  load64 big_mem a = load64 (wmem w) a.
Proof.
  intros Hq Ha Ha'. apply load64_same. intros x Hx. apply big_old. right. exists q.
  split; [done|]. apply in_page_addr. unfold in_range in Hx. lia.
Qed.

Lemma old_table i a : 0 <= i < 10 -> slab_at i <= a -> a + 8 <= slab_at i + 16 ->
  load64 big_mem a = load64 (wmem w) a.
Proof.
  intros Hi Ha Ha'. apply load64_same. intros x Hx. apply big_old. left.
  apply (hi_table _ _ _ _ Hinv). apply (slab_at_range allocator i); [done|]. unfold in_range in *. lia.
Qed.

Lemma big_heap_mem : heap_mem allocator big_mem (add_big h pg n size).
Proof.
  pose proof (hi_shape _ _ _ _ Hinv) as Hs. destruct (hi_mem _ _ _ _ Hinv) as [Hh Hszs Hfrl Hbg].
  destruct big_mem_facts as (_ & _ & Hl1 & Hl2 & _).
  constructor; cbn [add_big h_slab h_owned h_free h_live h_big].
  - intros q i Hq. rewrite (old_load _ q); [by apply Hh|by apply (hs_slab _ Hs q i)|lia..].
  - intros i Hi. rewrite (old_table i); [by apply Hszs|done|lia..].
  - intros i Hi. destruct (Hfrl i Hi) as (hd & Hhd & Hch). exists hd. split.
    + by rewrite (old_table i); [|done|lia..].
    + apply (chain_same (wmem w)); [|done]. intros b Hb. apply load64_same. intros x Hx. apply big_old.
      right. apply (is_cell_owned h Hs i b); [by apply (hs_free _ Hs)|].
      apply (is_cell_8 h Hs); [by apply (hs_free _ Hs)|done].
  - intros q k sz Hq. apply lookup_insert_Some in Hq as [[Eq E]|[_ Hq]].
    + injection E as <- <-. by rewrite <- Eq.
    + destruct (Hbg q k sz Hq) as [? ?]. destruct (hs_big _ Hs q k sz Hq) as (? & _ & Hsub & _).
      assert (q ∈ h_owned h) by (apply Hsub, elem_of_pages; lia).
      split; (rewrite (old_load _ q); [done|done|lia..]).
Qed.

Lemma big_new_block : new_block allocator w h (page_addr (pg + 1)) size
  (with_mem w1 big_mem) (add_big h pg n size).
Proof.
  destruct big_mem_facts as (Hw & Hd2 & _ & _ & Ho). pose proof (hi_shape _ _ _ _ Hinv) as Hs.
  destruct big_write as (Hf2 & Em2 & _).
  assert (heap_inv (with_mem w1 big_mem) (add_big h pg n size)) as Hinv2.
  { constructor; rewrite ?wmem_with_mem; [done| |exact big_shape|exact big_heap_mem].
    apply (table_after allocator w); [apply Hinv|rewrite wmem_with_mem; by eapply same_dom_trans|congruence]. }
  constructor.
  - constructor; rewrite ?wmem_with_mem; [done|congruence|by eapply same_dom_trans|].
    intros p k Hb _ x Hx. apply big_old. right. by apply (block_owned allocator w h p k).
  - intros q k. split.
    + intros Hb. destruct Hb as [b j Hb Hc|q m sz Hb]; [left; by apply block_small|].
      cbn [add_big h_big] in Hb. apply lookup_insert_Some in Hb as [[Eq E]|[_ Hb]].
      * injection E as <- <-. right. by rewrite <- Eq.
      * left. by apply (block_big h q m sz).
    + intros [Hb|[-> ->]].
      * destruct Hb as [b j Hb Hc|q m sz Hb]; [by apply block_small|].
        apply (block_big (add_big h pg n size) q m sz). cbn.
        rewrite lookup_insert_ne; [done|]. by apply (big_not_old q m sz Hb).
      * apply (block_big (add_big h pg n size) pg n size). cbn. by rewrite lookup_insert_eq.
  - intros q k Hb. apply ranges_disjoint; [lia|by apply (block_pos h q)|]. intros x Hx Hx'.
    assert (in_range (hh + (pg + 1) * page_size) (n * page_size) x) as Hxp by (unfold in_range, page_addr in *; lia).
    apply in_pages_range in Hxp as (q1 & Hq1 & Hq1x).
    destruct (block_owned allocator w h q k x Hinv Hb Hx') as (q2 & Hq2 & Hq2x).
    apply (Hfresh q2); [|done]. rewrite <- (in_page_inj _ _ _ _ Hq1x Hq2x). apply elem_of_pages. lia.
  - rewrite wmem_with_mem. intros x Hx. rewrite length_replicate in Hx.
    rewrite Ho by (unfold in_range, page_addr; lia).
    replace (page_addr (pg + 1) + x) with (page_addr pg + (x + page_size)) by (unfold page_addr; lia).
    rewrite Hz by (rewrite length_replicate; lia). rewrite !lookup_replicate_2 by lia. done.
  - destruct (page_in_pages w1 _ (pg + 1) Hf1) as (? & _).
    { apply elem_of_union. left. apply elem_of_pages. lia. }
    destruct (page_in_pages w1 _ (pg + n) Hf1) as (? & ? & _).
    { apply elem_of_union. left. apply elem_of_pages. lia. }
    unfold page_addr in *. lia.
Qed.
End BigMalloc.

Lemma div_roundup_pages size : 0 <= size -> size + page_size <= W64 ->
  div_roundup size page_size = (size + 4095) / page_size /\
  size <= (size + 4095) / page_size * page_size < size + page_size.
Proof.
  intros Hs Hb. change page_size with (2 ^ 12) at 1. rewrite div_roundup_pow2 by lia.
  change (2 ^ 12) with page_size. pose proof (Z.div_mod (size + page_size - 1) page_size).
  pose proof (Z.mod_pos_bound (size + page_size - 1) page_size).
  replace (size + 4095) with (size + page_size - 1) by lia. split; [done|lia].
Qed.

(** The pages of a big block, with the one for the meta data. *)
Definition big_pages (size : Z) : Z := (size + 4095) / page_size + 1.

Lemma big_malloc_spec w h size : heap_inv w h -> 1024 < size -> size + 2 * page_size <= W64 ->
  (exists p w' h', big_malloc size w = Ok (p, w') /\
     new_block allocator w h p size w' h' /\ spent (big_pages size) w w' /\
     exists pg, p = page_addr pg /\ pg ∈ h_owned h') \/
  (big_malloc size w = Panic /\ ~ frames_run w (big_pages size)).
Proof.
  intros Hinv Hsz Hb. destruct (div_roundup_pages size) as [Ed Hr]; [lia..|].
  unfold big_pages. set (n := (size + 4095) / page_size) in *. assert (1 <= n) as Hn by lia.
  unfold big_malloc. rewrite Ed. rewrite (u64_small (n + 1)) by lia.
  destruct (frames_alloc w (h_owned h) (n + 1)) as [(pg & w1 & -> & Hdis & Hf1 & Em & Hd & Hz & Hfr & Hrun)|[-> Hrun]];
    [apply Hinv|lia| |by right].
  left. pose proof (big_first h pg n Hn) as Hfst.
  destruct (page_in_pages w1 _ pg Hf1 Hfst) as (? & ? & Hv & Et & _).
  pose proof (big_mem_facts w1 h pg n size Hn ltac:(lia) ltac:(lia) Hf1) as (_ & Hd2 & _).
  destruct (big_write w1 h pg n size Hn ltac:(lia) ltac:(lia) Hf1) as (_ & _ & Hrun2).
  assert (valid (wmem w1) (page_addr pg) 8) as Hv1 by (eapply valid_sub; [apply Hv|lia..]).
  destruct (write64_ok (wmem w1) (page_addr pg) n (frames_wf _ _ Hf1) Hv1) as [Hwa Hda].
  assert (valid (write64 (wmem w1) (page_addr pg) n) (page_addr pg + 8) 8) as Hv2.
  { eapply valid_same_dom; [done|]. eapply valid_sub; [apply Hv|lia..]. }
  exists (page_addr (pg + 1)), (with_mem w1 (big_mem w1 pg n size)), (add_big h pg n size). split.
  - bind_simpl. rewrite Et, store_valid by done. bind_simpl.
    rewrite (u64_small (page_addr pg + 8)) by lia. rewrite store_with_mem by done. bind_simpl.
    destruct (page_in_pages w1 _ (pg + 1) Hf1) as (? & ? & _).
    { apply elem_of_union. left. apply elem_of_pages. lia. }
    replace (u64 (page_addr pg + 4096)) with (page_addr (pg + 1)); [done|].
    unfold page_addr in *. rewrite u64_small; lia.
  - split; [apply (big_new_block w w1 h pg n size); try done; lia|]. split; [intros k Hk; by apply Hrun2, Hrun|].
    exists (pg + 1). split; [done|]. apply elem_of_union. left. apply elem_of_pages. lia.
Qed.

(** [malloc]: a fresh block that is large enough and zero. *)
Lemma malloc_spec w h size : heap_inv w h -> 0 <= size -> size + 2 * page_size <= W64 ->
  (exists p n w' h', malloc allocator size w = Ok (p, w') /\ size <= n /\
     new_block allocator w h p n w' h' /\
     (1024 < size -> n = size /\ spent (big_pages size) w w' /\ exists pg, p = page_addr pg /\ pg ∈ h_owned h')) \/
  (malloc allocator size w = Panic /\ (forall i, fits size i -> h_free h i = [] /\ room w = O) /\
     (1024 < size -> ~ frames_run w (big_pages size))).
Proof.
  intros Hinv Hs Hb. unfold malloc, get_slab.
  destruct (get_slab_from_spec w h size 10 0 Hinv) as [(k & -> & Hk)|[-> Hbig]]; [lia..| |]; bind_simpl.
  - pose proof Hk as Hfits. destruct Hk as (Hk & Hfit & _). pose proof (slab_at_pos w h k Hinv ltac:(lia)).
    rewrite (proj2 (Z.eqb_neq _ 0)) by lia.
    destruct (slab_alloc_spec allocator w h k Hinv Hk) as [(p & w' & h' & E & Hn & _)|(E & El & Er & _)]; [left|right].
    + exists p, (size_of k), w', h'. split_and!; try done. intros ?. apply fits_small in Hfits. lia.
    + apply fits_small in Hfits as Hle. split_and!; [done| |lia]. intros i Hi. by rewrite (fits_inj size i k).
  - rewrite Z.eqb_refl.
    destruct (big_malloc_spec w h size Hinv Hbig Hb) as [(p & w' & h' & E & Hn & Hpg)|[E Hno]]; [left|right].
    2:{ split_and!; [done| |done]. intros i Hi%fits_small. lia. }
    by exists p, size, w', h'.
Qed.

(** A small block takes at most one page. *)
Lemma small_malloc_spec w h size : heap_inv w h -> 0 <= size <= 1024 ->
  (exists p w' h', malloc allocator size w = Ok (p, w') /\ heap_inv w' h' /\ spent 1 w w') \/
  (malloc allocator size w = Panic /\ ~ frames_run w 1).
Proof.
  intros Hinv Hs. unfold malloc, get_slab.
  destruct (get_slab_from_spec w h size 10 0 Hinv) as [(k & -> & (Hk & _))|[_ ?]]; [lia..| |lia]. bind_simpl.
  pose proof (slab_at_pos w h k Hinv ltac:(lia)). rewrite (proj2 (Z.eqb_neq _ 0)) by lia.
  destruct (slab_alloc_spec allocator w h k Hinv Hk) as [(p & w' & h' & E & Hn & Hsp)|(E & _ & _ & Hno)]; [left|by right].
  exists p, w', h'. split_and!; [done|apply Hn|done].
Qed.

(** The page manager has nothing left for [size] bytes: no page for a new slab, or no
    run of pages for a big block. *)
Definition no_memory (size : Z) (w : W) : Prop :=
  if size <=? 1024 then room w = O else ~ frames_run w (big_pages size).

Lemma malloc_panic w h size : heap_inv w h -> 0 <= size -> size + 2 * page_size <= W64 ->
  malloc allocator size w = Panic -> no_memory size w.
Proof.
  intros Hinv Hs Hb E. destruct (malloc_spec w h size Hinv Hs Hb) as [(p & n & w' & h' & E' & _)|(_ & Hr & Hno)]; [congruence|].
  unfold no_memory. destruct (Z.leb_spec size 1024) as [Hle|Hgt]; [|by apply Hno].
  destruct (get_slab_from_spec w h size 10 0 Hinv) as [(k & _ & Hk)|[_ ?]]; [lia..| |lia]. by apply (Hr k).
Qed.

(** ** Release *)

(** The page of a small cell, as [free] computes it. *)
Lemma slab_of_cell w h i a : heap_inv w h -> is_cell h i a ->
  is_big a = false /\ (a =? 0) = false /\ slab_of a w = Ok (slab_at i).
Proof.
  intros Hinv Hc. destruct (cell_addr allocator w h Hinv i a Hc) as (? & Ha & _ & Hl).
  pose proof (hi_shape _ _ _ _ Hinv) as Hs. pose proof (is_cell_class h Hs i a Hc) as Hi.
  split_and!; [by apply Z.eqb_neq|apply Z.eqb_neq; lia|].
  destruct (class_facts i Hi) as (? & _).
  destruct (is_cell_page h Hs i a a Hc) as (pg & Hp & Hr); [unfold in_range; lia|].
  unfold slab_of. replace (align_down a 4096) with (page_addr pg).
  - apply load_wmem. by apply (hm_header _ _ _ _ (hi_mem _ _ _ _ Hinv)).
  - change 4096 with (2 ^ 12). rewrite align_down_pow2 by lia. change (2 ^ 12) with page_size.
    pose proof frames_aligned as Hal.
    assert (a mod page_size = a - page_addr pg) as ->; [|lia].
    symmetry. apply (Z.mod_unique a page_size (hh / page_size + pg)); [lia|].
    pose proof (Z.div_mod hh page_size). unfold page_addr in *. lia.
Qed.

Definition put_cell (h : heap) (i a : Z) : heap :=
  set_live (set_free h i (a :: h_free h i)) (h_live h ∖ {[a]}).

Section FreeSmall.
Context (w : W) (h : heap) (i a : Z) (Hinv : heap_inv w h) (Hc : is_cell h i a) (Hl : a ∈ h_live h).

Lemma put_shape : heap_shape (put_cell h i a).
Proof.
  pose proof (hi_shape _ _ _ _ Hinv) as Hs. pose proof (is_cell_class h Hs i a Hc) as Hi.
  constructor; cbn [put_cell set_live set_free h_slab h_owned h_free h_live h_big]; try apply Hs.
  - intros j b Hj Hb. case_decide as Hji; [subst j; apply elem_of_cons in Hb as [->|Hb]|].
    + split; [done|]. intros [_ Hb]%elem_of_difference. by apply Hb, elem_of_singleton.
    + destruct (hs_free _ Hs i b Hj Hb) as [? Hn]. split; [done|]. by intros [? _]%elem_of_difference.
    + destruct (hs_free _ Hs j b Hj Hb) as [? Hn]. split; [done|]. by intros [? _]%elem_of_difference.
  - intros j Hj. case_decide as Hji; [subst j|by apply Hs]. apply NoDup_cons. split; [|by apply Hs].
    intros Hf. by destruct (hs_free _ Hs i a Hj Hf).
  - intros b [Hb _]%elem_of_difference. by apply (hs_live _ Hs).
Qed.

Lemma slab_free_spec : exists w', slab_free (slab_at i) a w = Ok w' /\
  heap_step allocator w h w' (put_cell h i a).
Proof.
  pose proof (hi_shape _ _ _ _ Hinv) as Hs. pose proof (is_cell_class h Hs i a Hc) as Hi.
  destruct (hi_mem _ _ _ _ Hinv) as [Hmh Hms Hmf Hmb] eqn:Em. clear Em.
  destruct (Hmf i Hi) as (hd & Hhd & Hch). pose proof (hi_mem _ _ _ _ Hinv) as Hm.
  destruct (cell_addr allocator w h Hinv i a Hc) as (Ha0 & Ha1 & Hva & _). destruct (class_facts i Hi) as (Hsz & _).
  assert (valid (wmem w) a 8) as Hv8 by (eapply valid_sub; [apply Hva|lia..]).
  pose proof (frames_wf _ _ (hi_frames _ _ _ _ Hinv)) as Hw.
  pose proof (load64_range _ _ _ Hw Hhd) as Hhr.
  destruct (write64_ok (wmem w) a hd Hw Hv8) as [Hw1 Hd1]. set (m1 := write64 (wmem w) a hd) in *.
  assert (forall x, ~ in_range a (size_of i) x -> m1 !! x = wmem w !! x) as Ho1.
  { intros x Hx. apply write64_out. unfold in_range in *. lia. }
  assert (forall j b, 0 <= j < 10 -> b ∈ h_free h j -> is_cell h j b /\ b <> a) as Hne.
  { intros j b Hj Hb. destruct (hs_free _ Hs j b Hj Hb) as [? Hn]. split; [done|]. by intros ->. }
  assert (heap_mem allocator m1 h) as Hm1 by (by apply (heap_mem_cell allocator w h Hinv (wmem w) m1 h i a)).
  assert (chain m1 a (a :: h_free h i)) as Hch1.
  { split; [done|]. exists hd. split; [by apply load64_write64_small|].
    apply (chain_same (wmem w)); [|done]. intros b Hb. destruct (Hne i b Hi Hb) as [Hcb Hba].
    apply load64_same. intros x Hx. apply Ho1. intros Hx'. apply Hba.
    apply (is_cell_disjoint h Hs i i b a x); [done|done|by apply (is_cell_8 h Hs)|done]. }
  destruct (table_valid allocator w i (hi_table _ _ _ _ Hinv) Hi) as [Hvt _].
  assert (valid m1 (slab_at i) 8) as Hvt1 by (by eapply valid_same_dom).
  destruct (write64_ok m1 (slab_at i) a Hw1 Hvt1) as [Hw2 Hd2].
  set (m2 := write64 m1 (slab_at i) a) in *.
  assert (same_dom (wmem w) m2) as Hd by (by eapply same_dom_trans).
  assert (heap_mem allocator m2 (put_cell h i a)) as Hm2.
  { apply heap_mem_live, (heap_mem_head allocator w h Hinv); [done|done|lia|done|].
    intros b [->|Hb]%elem_of_cons; [done|]. by apply (hs_free _ Hs). }
  assert (forall x, ~ in_range a (size_of i) x -> ~ in_range (slab_at i) 16 x -> m2 !! x = wmem w !! x) as Hout.
  { intros x Hx1 Hx2. unfold m2. rewrite write64_out by (unfold in_range in *; lia). by apply Ho1. }
  destruct (heap_write allocator w h (put_cell h i a) m2) as (Hinv2 & Em2 & _); try done.
  { intros x Hmx Hox. apply Hout.
    - intros Hx. apply Hox. by apply (is_cell_owned h Hs i a).
    - intros Hx%slab_at_range; [|done]. by apply (hi_table _ _ _ _ Hinv) in Hx. }
  { exact put_shape. }
  exists (with_mem w m2). split.
  - unfold slab_free. rewrite (proj2 (Z.eqb_neq a 0)) by lia.
    rewrite (load_wmem _ _ _ Hhd). bind_simpl. rewrite store_valid by done. bind_simpl.
    by rewrite store_with_mem.
  - constructor; rewrite ?wmem_with_mem; [done|done|done|]. intros p n Hb Hb' x Hx. apply Hout.
    + intros Hax. destruct Hb' as [b j Hbl Hbc|pg n sz Hbg].
      * apply elem_of_difference in Hbl as [_ Hbn]. apply Hbn, elem_of_singleton.
        by destruct (is_cell_disjoint h Hs j i b a x Hbc Hc Hx Hax).
      * destruct (big_block_page h Hs pg n sz x Hbg Hx) as (q & Hq & Hqx).
        apply (cell_not_big allocator w h Hinv i a x pg n sz q Hc Hax Hbg); [|done]. apply elem_of_pages. lia.
    + intros Ht%slab_at_range; [|done].
      destruct (block_owned allocator w h p n x Hinv Hb Hx) as (q & Hq & Hqx).
      by apply (owned_not_table allocator w h Hinv q x).
Qed.

Lemma put_blocks q k : block (put_cell h i a) q k <-> block h q k /\ q <> a.
Proof.
  pose proof (hi_shape _ _ _ _ Hinv) as Hs. pose proof (is_cell_class h Hs i a Hc) as Hi.
  destruct (class_facts i Hi) as (? & _). split.
  - intros Hb. destruct Hb as [b j Hb Hbc|pg n sz Hb].
    + apply elem_of_difference in Hb as [Hb Hn]. split; [by apply block_small|].
      intros ->. by apply Hn, elem_of_singleton.
    + split; [by apply (block_big h pg n sz)|]. intros E.
      destruct (hs_big _ Hs _ _ _ Hb) as (? & _).
      apply (cell_not_big allocator w h Hinv i a a pg n sz (pg + 1) Hc); [unfold in_range; lia|done| |].
      * apply elem_of_pages. lia.
      * apply in_page_addr. lia.
  - intros [Hb Hn]. destruct Hb as [b j Hb Hbc|pg n sz Hb]; [|by apply (block_big (put_cell h i a) pg n sz)].
    apply block_small; [|done]. apply elem_of_difference. split; [done|]. by rewrite elem_of_singleton.
Qed.
End FreeSmall.

Definition drop_big (h : heap) (pg n : Z) : heap :=
  MkHeap (h_owned h ∖ pages pg (n + 1)) (h_slab h) (h_free h) (h_live h) (delete pg (h_big h)).

(** Where the meta data of a big block lies. *)
Lemma big_meta w h pg n sz : heap_inv w h -> h_big h !! pg = Some (n, sz) ->
  let p := page_addr (pg + 1) in
  is_big p = true /\ (p =? 0) = false /\ meta_of p = page_addr pg /\
  fromhh hh (page_addr pg) = pg * page_size /\ u64 (page_addr pg + 8) = page_addr pg + 8 /\
  load w (page_addr pg) = Ok n /\ load w (page_addr pg + 8) = Ok sz /\ 0 <= sz < W64 /\
  u64 (n + 1) = n + 1.
Proof.
  intros Hinv Hb p. pose proof (hi_shape _ _ _ _ Hinv) as Hs. destruct (hs_big _ Hs _ _ _ Hb) as (? & ? & Hsub & _).
  assert (forall q, pg <= q <= pg + n -> q ∈ h_owned h) as Hq by (intros q Hq; apply Hsub, elem_of_pages; lia).
  pose proof (hi_frames _ _ _ _ Hinv) as Hf.
  destruct (page_in_pages w _ pg Hf) as (? & ? & _); [apply Hq; lia|].
  destruct (page_in_pages w _ (pg + 1) Hf) as (? & ? & _ & _ & _ & Hal); [apply Hq; lia|].
  destruct (frames_page w _ (pg + n) Hf) as (? & ? & ? & _); [apply Hq; lia|].
  destruct (frames_page w _ pg Hf) as (? & _); [apply Hq; lia|].
  destruct (hm_big _ _ _ _ (hi_mem _ _ _ _ Hinv) _ _ _ Hb) as [Hl1 Hl2].
  pose proof (frames_wf _ _ Hf) as Hw. pose proof (load64_range _ _ _ Hw Hl2).
  unfold page_addr in *. subst p. split_and!; try done; try lia.
  - by apply Z.eqb_eq.
  - unfold meta_of. rewrite u64_small; lia.
  - rewrite fromhh_high; lia.
  - rewrite u64_small; lia.
  - rewrite u64_small; lia.
Qed.

Section FreeBig.
Context (w : W) (h : heap) (pg n sz : Z) (Hinv : heap_inv w h) (Hb : h_big h !! pg = Some (n, sz)).

Lemma drop_other q k sz' : delete pg (h_big h) !! q = Some (k, sz') ->
  h_big h !! q = Some (k, sz') /\ pages q (k + 1) ⊆ h_owned h ∖ pages pg (n + 1).
Proof.
  intros Hq. apply lookup_delete_Some in Hq as [Hne Hq]. split; [done|].
  pose proof (hi_shape _ _ _ _ Hinv) as Hs. intros x Hx. apply elem_of_difference.
  split; [by apply (hs_big _ Hs _ _ _ Hq)|]. intros Hx'.
  by apply (hs_disjoint _ Hs _ _ _ _ _ _ Hb Hq Hne x).
Qed.

Lemma drop_slab q i : h_slab h !! q = Some i -> q ∈ h_owned h ∖ pages pg (n + 1).
Proof.
  intros Hq. pose proof (hi_shape _ _ _ _ Hinv) as Hs. apply elem_of_difference.
  split; [by apply (hs_slab _ Hs q i)|]. intros Hx.
  destruct (hs_big _ Hs _ _ _ Hb) as (_ & _ & _ & Hd). apply (Hd q Hx). apply elem_of_dom. by exists i.
Qed.

Lemma drop_shape : heap_shape (drop_big h pg n).
Proof.
  pose proof (hi_shape _ _ _ _ Hinv) as Hs.
  constructor; cbn [drop_big h_slab h_owned h_free h_live h_big]; try apply Hs.
  - intros q i Hq. split; [by apply (drop_slab q i)|by apply (hs_slab _ Hs q i)].
  - intros q k sz' Hq. destruct (drop_other _ _ _ Hq) as [Hq' Hsub].
    destruct (hs_big _ Hs _ _ _ Hq') as (? & ? & _ & ?). done.
  - intros q k sz1 q' k' sz2 Hq Hq'. apply drop_other in Hq as [Hq _]. apply drop_other in Hq' as [Hq' _].
    by apply (hs_disjoint _ Hs q k sz1 q' k' sz2).
Qed.

Lemma big_free_spec : exists w', big_free (page_addr (pg + 1)) w = Ok w' /\
  heap_step allocator w h w' (drop_big h pg n) /\ frames_run w' (n + 1) /\ (forall k, frames_run w k -> frames_run w' k).
Proof.
  destruct (big_meta w h pg n sz Hinv Hb) as (_ & _ & Em & Ef & _ & El & _ & _ & Eu).
  pose proof (hi_shape _ _ _ _ Hinv) as Hs. destruct (hs_big _ Hs _ _ _ Hb) as (? & _ & Hsub & _).
  unfold big_free. rewrite Em, El. bind_simpl. rewrite Ef, Eu.
  destruct (frames_free w (h_owned h) pg (n + 1)) as (w' & -> & Hf & Emg & Hd & Hfr & Hrk & Hrn); [apply Hinv|lia|done|].
  exists w'. split; [done|]. split; [|done].
  assert (forall a q, q ∈ h_owned h ∖ pages pg (n + 1) -> page_addr q <= a -> a + 8 <= page_addr q + page_size ->
    load64 (wmem w') a = load64 (wmem w) a) as Hkeep.
  { intros a q Hq Ha Ha'. apply load64_same. intros x Hx. apply Hfr. right. exists q.
    split; [done|]. apply in_page_addr. unfold in_range in Hx. lia. }
  assert (forall i a, 0 <= i < 10 -> slab_at i <= a -> a + 8 <= slab_at i + 16 ->
    load64 (wmem w') a = load64 (wmem w) a) as Htab.
  { intros i a Hi Ha Ha'. apply load64_same. intros x Hx. apply Hfr. left.
    apply (hi_table _ _ _ _ Hinv). apply (slab_at_range allocator i); [done|]. unfold in_range in *. lia. }
  assert (heap_mem allocator (wmem w') (drop_big h pg n)) as Hm.
  { destruct (hi_mem _ _ _ _ Hinv) as [Hh Hszs Hfrl Hbg].
    constructor; cbn [drop_big h_slab h_owned h_free h_live h_big].
    - intros q i Hq. rewrite (Hkeep _ q); [by apply Hh|by apply (drop_slab q i)|lia..].
    - intros i Hi. rewrite (Htab i); [by apply Hszs|done|lia..].
    - intros i Hi. destruct (Hfrl i Hi) as (hd & Hhd & Hch). exists hd. split.
      + by rewrite (Htab i); [|done|lia..].
      + apply (chain_same (wmem w)); [|done]. intros b Hbf. apply load64_same. intros x Hx. apply Hfr. right.
        destruct (hs_free _ Hs i b Hi Hbf) as [Hcb _].
        destruct (is_cell_page h Hs i b x Hcb) as (q & Hq & Hqx); [by apply (is_cell_8 h Hs)|].
        exists q. split; [by apply (drop_slab q i)|]. apply in_page_addr. lia.
    - intros q k sz' Hq. destruct (drop_other _ _ _ Hq) as [Hq' Hsq]. destruct (Hbg _ _ _ Hq') as [? ?].
      destruct (hs_big _ Hs _ _ _ Hq') as (? & _).
      assert (q ∈ h_owned h ∖ pages pg (n + 1)) by (apply Hsq, elem_of_pages; lia).
      split; (rewrite (Hkeep _ q); [done|done|lia..]). }
  assert (heap_inv w' (drop_big h pg n)) as Hinv'.
  { constructor; [done| |exact drop_shape|done]. by apply (table_after allocator w); [apply Hinv|..]. }
  constructor; try done. intros p k _ Hb' x Hx. apply Hfr. right.
  by apply (block_owned allocator w' (drop_big h pg n) p k).
Qed.

Lemma drop_blocks q k : block (drop_big h pg n) q k <-> block h q k /\ q <> page_addr (pg + 1).
Proof.
  pose proof (hi_shape _ _ _ _ Hinv) as Hs. destruct (hs_big _ Hs _ _ _ Hb) as (? & _). split.
  - intros Hbl. destruct Hbl as [b j Hbl Hbc|q m sz' Hq].
    + split; [by apply block_small|]. intros E.
      pose proof (is_cell_class h Hs j b Hbc) as Hj. destruct (class_facts j Hj) as (? & _).
      apply (cell_not_big allocator w h Hinv j b b pg n sz (pg + 1) Hbc); [unfold in_range; lia|done| |].
      * apply elem_of_pages. lia.
      * apply in_page_addr. lia.
    + cbn [drop_big h_big] in Hq. apply lookup_delete_Some in Hq as [Hne Hq].
      split; [by apply (block_big h q m sz')|]. unfold page_addr. lia.
  - intros [Hbl Hn]. destruct Hbl as [b j Hbl Hbc|q m sz' Hq]; [by apply block_small|].
    apply (block_big (drop_big h pg n) q m sz'). cbn [drop_big h_big].
    rewrite lookup_delete_ne; [done|]. intros E. apply Hn. by rewrite E.
Qed.
End FreeBig.

(** The head of a free list is its first cell. *)
Lemma chain_head m x l : chain m x l -> x = hd 0 l.
Proof. destruct l; [done|]. by intros [-> _]. Qed.

(** [malloc] takes the first free cell of the class. *)
Lemma malloc_head w h size i a l : heap_inv w h -> 0 <= size -> fits size i -> h_free h i = a :: l ->
  exists w', malloc allocator size w = Ok (a, w').
Proof.
  intros Hinv Hs Hf El. unfold malloc, get_slab.
  destruct (get_slab_from_spec w h size 10 0 Hinv) as [(k & -> & Hk)|[_ Hbig]]; [lia..| |apply fits_small in Hf; lia].
  rewrite (fits_inj size k i) by done. bind_simpl. pose proof (slab_at_pos w h i Hinv (proj1 (proj1 Hf))).
  rewrite (proj2 (Z.eqb_neq _ 0)) by lia.
  destruct (take_new_block allocator w h i a l Hinv (proj1 Hf) El) as (w' & -> & _). by exists w'.
Qed.

(** What was released can be had again: a cell is the head of the free list of its
    class, in front of the cells that were there; the pages of a big block, with that of
    its meta data, are a run the page manager can hand out, and no run is lost. *)
Definition released (w : W) (p n : Z) (w' : W) : Prop :=
  if is_big p then frames_run w' (big_pages n) /\ (forall k, frames_run w k -> frames_run w' k)
  else exists i head, 0 <= i < 10 /\ n = size_of i /\
    load w (slab_at i) = Ok head /\ load w' (slab_at i) = Ok p /\ load w' p = Ok head.

Lemma released_cell w h i a w' : heap_inv w h -> is_cell h i a -> heap_inv w' (put_cell h i a) -> released w a (size_of i) w'.
Proof.
  intros Hinv Hc Hinv'. destruct (slab_of_cell w h i a Hinv Hc) as (Eb & _). unfold released. rewrite Eb.
  pose proof (is_cell_class h (hi_shape _ _ _ _ Hinv) i a Hc) as Hi.
  destruct (hm_free _ _ _ _ (hi_mem _ _ _ _ Hinv) i Hi) as (hd0 & Hh & Hch%chain_head).
  destruct (hm_free _ _ _ _ (hi_mem _ _ _ _ Hinv') i Hi) as (hd1 & Hh' & Hch'). cbn [put_cell set_live set_free h_free] in Hch'.
  rewrite decide_True in Hch' by done. destruct Hch' as (-> & next & Hn & Hch1%chain_head).
  exists i, hd0. split_and!; [lia|lia|done|done|done|]. unfold load. by rewrite Hn, Hch1, Hch.
Qed.

(** [free] of a block: exactly that block is gone, and what it took can be had again. *)
Lemma free_spec w h p n : heap_inv w h -> block h p n ->
  exists w' h', free p w = Ok w' /\ heap_step allocator w h w' h' /\
    (forall q k, block h' q k <-> block h q k /\ q <> p) /\ released w p n w' /\
    (is_big p = false -> forall size i, 0 <= size -> fits size i -> n = size_of i -> exists w2, malloc allocator size w' = Ok (p, w2)).
Proof.
  intros Hinv Hb. destruct Hb as [a i Ha Hc|pg n sz Hb]; unfold free.
  - destruct (slab_of_cell w h i a Hinv Hc) as (-> & -> & Es). rewrite Es. bind_simpl.
    destruct (slab_free_spec w h i a Hinv Hc Ha) as (w' & -> & Hst).
    exists w', (put_cell h i a). split_and!; [done..| | |].
    + intros q k. by apply (put_blocks w).
    + apply (released_cell w h i a w' Hinv Hc), Hst.
    + intros _ size j Hs Hf Ej. assert (j = i) as ->.
      { pose proof (is_cell_class h (hi_shape _ _ _ _ Hinv) i a Hc) as Hi. destruct (Z.lt_trichotomy i j) as [Hlt|[?|Hlt]]; [|done|];
          [pose proof (class_mono i j Hi (proj1 Hf) Hlt)|pose proof (class_mono j i (proj1 Hf) Hi Hlt)]; lia. }
      apply (malloc_head w' (put_cell h i a) size i a (h_free h i)); [apply Hst|done|done|].
      cbn [put_cell set_live set_free h_free]. by rewrite decide_True.
  - destruct (big_meta w h pg n sz Hinv Hb) as (Eb & -> & _). rewrite Eb.
    destruct (big_free_spec w h pg n sz Hinv Hb) as (w' & -> & Hst & Hr & Hk).
    exists w', (drop_big h pg n). split_and!; [done..| | |done].
    + intros q k. by apply (drop_blocks w h pg n sz).
    + unfold released. rewrite Eb. split; [|done]. apply (frames_run_le _ _ _ Hr). unfold big_pages.
      destruct (hs_big _ (hi_shape _ _ _ _ Hinv) _ _ _ Hb) as (_ & ? & _). Z.to_euclidean_division_equations. lia.
Qed.

(** A big block has the page of its meta data before it, and page 0 before that. *)
Lemma big_room w h p n : heap_inv w h -> block h p n -> is_big p = true -> n + 2 * page_size <= W64.
Proof.
  intros Hinv Hb Eb. pose proof (hi_shape _ _ _ _ Hinv) as Hs. destruct Hb as [a i _ Hc|pg k sz Hb].
  { destruct (slab_of_cell w h i a Hinv Hc) as (E & _). congruence. }
  destruct (hs_big _ Hs _ _ _ Hb) as (? & ? & Hsub & _).
  destruct (frames_page w _ (pg + k) (hi_frames _ _ _ _ Hinv)) as (_ & ? & ? & _); [apply Hsub, elem_of_pages; lia|].
  destruct (frames_page w _ pg (hi_frames _ _ _ _ Hinv)) as (? & _); [apply Hsub, elem_of_pages; lia|]. lia.
Qed.

(** [alloc_size] reports the block's size. *)
Lemma alloc_size_spec w h p n : heap_inv w h -> block h p n -> alloc_size p w = Ok n.
Proof.
  intros Hinv Hb. destruct Hb as [a i Ha Hc|pg n sz Hb]; unfold alloc_size.
  - destruct (slab_of_cell w h i a Hinv Hc) as (-> & -> & ->). bind_simpl. apply load_wmem.
    apply (hm_size _ _ _ _ (hi_mem _ _ _ _ Hinv)).
    by apply (is_cell_class h (hi_shape _ _ _ _ Hinv) i a).
  - destruct (big_meta w h pg n sz Hinv Hb) as (-> & -> & Em & _ & Eu & _ & El & _).
    unfold big_alloc_size. by rewrite Em, Eu.
Qed.

(** ** Writes of the client *)

Lemma block_in w h p n : heap_inv w h -> block h p n ->
  0 < p /\ p + n <= W64 /\ valid (wmem w) p n.
Proof.
  intros Hinv Hb. destruct Hb as [a i Ha Hc|pg n sz Hb].
  - destruct (cell_addr allocator w h Hinv i a Hc) as (? & ? & ? & _). done.
  - pose proof (hi_shape _ _ _ _ Hinv) as Hs. destruct (hs_big _ Hs _ _ _ Hb) as (? & ? & Hsub & _).
    pose proof (hi_frames _ _ _ _ Hinv) as Hf.
    assert (forall q, pg <= q <= pg + n -> q ∈ h_owned h) as Hq by (intros q Hq; apply Hsub, elem_of_pages; lia).
    destruct (page_in_pages w _ (pg + 1) Hf) as (? & _); [apply Hq; lia|].
    destruct (page_in_pages w _ (pg + n) Hf) as (? & ? & _); [apply Hq; lia|].
    split_and!; [done|unfold page_addr in *; lia|].
    assert (valid (wmem w) (hh + (pg + 1) * page_size) (n * page_size)) as Hv.
    { apply valid_pages. intros q Hq'. apply (page_in_pages w _ q Hf), Hq. lia. }
    eapply valid_sub; [apply Hv|unfold page_addr; lia..].
Qed.

(** A client may write its blocks. *)
Lemma block_write w h p n m : heap_inv w h -> block h p n -> mem_wf m -> same_dom (wmem w) m ->
  (forall x, ~ in_range p n x -> m !! x = wmem w !! x) ->
  heap_inv (with_mem w m) h /\ managed (with_mem w m) = managed w /\ spent 0 w (with_mem w m).
Proof.
  intros Hinv Hb Hw Hd Hx. pose proof (hi_shape _ _ _ _ Hinv) as Hs.
  apply (heap_write allocator w h h m Hinv Hw Hd); [|done|done|].
  { intros x _ Ho. apply Hx. intros Hpx. apply Ho. by apply (block_owned allocator w h p n). }
  destruct Hb as [a i Ha Hc|pg n sz Hb].
  - apply (heap_mem_cell allocator w h Hinv (wmem w) m h i a); try done; [apply Hinv|].
    intros j b Hj Hb. destruct (hs_free _ Hs j b Hj Hb) as [? Hn]. split; [done|]. by intros ->.
  - assert (forall q x, q ∉ pages (pg + 1) n -> in_page hh q x -> m !! x = wmem w !! x) as Hk.
    { intros q x Hq Hqx. apply Hx. intros (q' & Hq' & Hqx')%(big_block_page h Hs pg n sz x Hb). apply Hq.
      rewrite (in_page_inj _ _ _ _ Hqx Hqx'). apply elem_of_pages. lia. }
    destruct (hs_big _ Hs _ _ _ Hb) as (Hn1 & _ & Hsub & Hd').
    assert (forall q, q ∈ pages (pg + 1) n -> q ∈ pages pg (n + 1)) as Hq1.
    { intros q Hq. apply elem_of_pages. apply elem_of_pages in Hq. lia. }
    assert (forall q i, h_slab h !! q = Some i -> q ∉ pages (pg + 1) n) as Hsl.
    { intros q i Hq Hq'%Hq1. apply (Hd' q Hq'). apply elem_of_dom. by exists i. }
    assert (forall i a, 0 <= i < 10 -> slab_at i <= a -> a + 8 <= slab_at i + 16 ->
              load64 m a = load64 (wmem w) a) as Htab.
    { intros i a Hi Ha Ha'. apply load64_same. intros x Hx'. apply Hx. intros (q & Hq & Hqx)%(big_block_page h Hs pg n sz x Hb).
      apply (owned_not_table allocator w h Hinv q x); [apply Hsub, Hq1, elem_of_pages; lia| |done].
      apply (slab_at_range allocator i); [done|]. unfold in_range in *. lia. }
    destruct (hi_mem _ _ _ _ Hinv) as [Hh Hszs Hfrl Hbg]. constructor.
    + intros q i Hq. rewrite (load64_same (wmem w)); [by apply Hh|]. intros x Hx'.
      apply (Hk q); [by apply (Hsl q i)|]. apply in_page_addr. unfold in_range in Hx'. lia.
    + intros i Hi. rewrite (Htab i); [by apply Hszs|done|lia..].
    + intros i Hi. destruct (Hfrl i Hi) as (hd & Hhd & Hch). exists hd. split.
      * by rewrite (Htab i); [|done|lia..].
      * apply (chain_same (wmem w)); [|done]. intros b Hbf. apply load64_same. intros x Hx'.
        destruct (hs_free _ Hs i b Hi Hbf) as [Hcb _].
        destruct (is_cell_page h Hs i b x Hcb) as (q & Hq & Hqx); [by apply (is_cell_8 h Hs)|].
        apply (Hk q); [by apply (Hsl q i)|]. apply in_page_addr. lia.
    + intros q k sz' Hq. destruct (Hbg _ _ _ Hq) as [? ?].
      assert (q ∉ pages (pg + 1) n) as Hqn.
      { intros Hq'. destruct (decide (q = pg)) as [->|Hne]; [apply elem_of_pages in Hq'; lia|].
        destruct (hs_big _ Hs _ _ _ Hq) as (? & _).
        apply (hs_disjoint _ Hs _ _ _ _ _ _ Hq Hb Hne q); [apply elem_of_pages; lia|by apply Hq1]. }
      split; (rewrite (load64_same (wmem w)); [done|]); intros x Hx'; apply (Hk q); try done;
        apply in_page_addr; unfold in_range in Hx'; lia.
Qed.

(** ** Moving a block *)

(** The block [p] is replaced by [q] of [m] bytes, which starts with the first
    [len] bytes of the old one; all other blocks stay as they were. *)
Record moved (w : W) (h : heap) (p q m len : Z) (w' : W) (h' : heap) : Prop := {
  mv_inv : heap_inv w' h';
  mv_blocks : forall r k, block h' r k <-> (block h r k /\ r <> p) \/ (r = q /\ k = m);
  mv_fresh : forall r k, block h r k -> disjoint_ranges q m r k;
  mv_copy : forall x, 0 <= x < len -> wmem w' !! (q + x) = wmem w !! (p + x);
  mv_keep : forall r k x, block h r k -> r <> p -> in_range r k x -> wmem w' !! x = wmem w !! x;
}.

Lemma valid_bytes m p n : 0 <= n -> valid m p n ->
  exists l, Z.of_nat (length l) = n /\ bytes_at m p l.
Proof.
  intros Hn Hv. exists (map (fun i => default 0 (m !! (p + i))) (seqZ 0 n)).
  assert (length (map (fun i => default 0 (m !! (p + i))) (seqZ 0 n)) = Z.to_nat n) as E.
  { by rewrite length_map, length_seqZ. }
  rewrite E. split; [lia|]. intros i Hi. rewrite E in Hi.
  change (map ?f ?l) with (f <$> l). rewrite list_lookup_fmap, lookup_seqZ_lt by lia. simpl.
  destruct (Hv i) as [b Hb]; [lia|]. replace (p + (0 + Z.of_nat (Z.to_nat i))) with (p + i) by lia.
  by rewrite Hb.
Qed.

Lemma copy_block w h p n q m len : heap_inv w h -> block h p n -> block h q m ->
  disjoint_ranges q m p n -> 0 <= len <= n -> len <= m ->
  exists m2, copy w q p len = Ok (with_mem w m2) /\ heap_inv (with_mem w m2) h /\
    (forall x, ~ in_range q m x -> m2 !! x = wmem w !! x) /\
    (forall x, 0 <= x < len -> m2 !! (q + x) = wmem w !! (p + x)).
Proof.
  intros Hinv Hbp Hbq Hdis Hl1 Hl2.
  destruct (block_in w h p n Hinv Hbp) as (_ & _ & Hvp). destruct (block_in w h q m Hinv Hbq) as (_ & _ & Hvq).
  destruct (valid_bytes (wmem w) p len) as (l & Hl & Hlb); [lia|eapply valid_sub; [apply Hvp|lia..]|].
  assert (valid (wmem w) q (Z.of_nat (length l))) as Hvl by (eapply valid_sub; [apply Hvq|lia..]).
  pose proof (frames_wf _ _ (hi_frames _ _ _ _ Hinv)) as Hw.
  pose proof (memcpy_bytes (wmem w) Hw q p l Hlb Hvl) as Ecpy. rewrite Hl in Ecpy.
  set (m2 := write_bytes (wmem w) q l) in *.
  assert (forall x, ~ in_range q m x -> m2 !! x = wmem w !! x) as Ho.
  { intros x Hx. apply lookup_write_bytes_out. unfold in_range in *. lia. }
  assert (mem_wf m2) as Hw2.
  { apply write_bytes_wf; [done|done|]. apply Forall_lookup. intros i b Hib.
    pose proof (lookup_lt_Some _ _ _ Hib). specialize (Hlb (Z.of_nat i)). rewrite Nat2Z.id, Hib in Hlb.
    apply (Hw (p + Z.of_nat i)). apply Hlb. lia. }
  assert (same_dom (wmem w) m2) as Hd2 by (by apply write_bytes_same_dom).
  exists m2. split_and!; [| |done|].
  - unfold copy. rewrite Ecpy; [done|]. unfold disjoint_ranges in *. lia.
  - by apply (block_write w h q m m2).
  - intros x Hx. unfold m2. rewrite lookup_write_bytes_in by (unfold in_range; lia).
    replace (q + x - q) with x by lia. rewrite <- Hlb by lia. done.
Qed.

Lemma move_block_spec w h p n size : heap_inv w h -> block h p n ->
  0 <= size -> size + 2 * page_size <= W64 ->
  (exists q m w' h', move_block allocator p n size w = Ok (q, w') /\ size <= m /\
     moved w h p q m (Z.min n size) w' h') \/
  (move_block allocator p n size w = Panic /\ no_memory size w).
Proof.
  intros Hinv Hb Hsz Hsz'. unfold move_block.
  replace (if size <? n then size else n) with (Z.min n size) by (destruct (Z.ltb_spec size n); lia).
  pose proof (malloc_panic w h size Hinv Hsz Hsz') as Hpanic.
  destruct (malloc_spec w h size Hinv Hsz Hsz') as [(q & m & w1 & h1 & -> & Hm & Hnb & _)|[E _]];
    [left|right; rewrite E; split; [done|by apply Hpanic]].
  bind_simpl. destruct Hnb as [[Hinv1 Em1 Hd1 Hk1] Hbl1 Hfr1 _ [Hq0 Hq1]].
  rewrite (proj2 (Z.eqb_neq q 0)) by lia.
  assert (block h1 p n) as Hbp by (apply Hbl1; by left).
  assert (block h1 q m) as Hbq by (apply Hbl1; by right).
  pose proof (block_pos h1 p n (hi_shape _ _ _ _ Hinv1) Hbp). pose proof (block_pos h1 q m (hi_shape _ _ _ _ Hinv1) Hbq).
  pose proof (Hfr1 p n Hb) as Hdis.
  destruct (copy_block w1 h1 p n q m (Z.min n size) Hinv1 Hbp Hbq Hdis) as (m2 & -> & Hinv2 & Ho2 & Hc2); [lia..|].
  destruct (free_spec (with_mem w1 m2) h1 p n Hinv2 Hbp) as (w3 & h3 & Ef & [Hinv3 _ _ Hk3] & Hbl3 & _).
  rewrite wmem_with_mem in Hk3. assert (q <> p) as Hqp by (unfold disjoint_ranges in Hdis; lia).
  exists q, m, w3, h3. bind_simpl. rewrite Ef. bind_simpl.
  split_and!; [done|done|]. constructor; [done| |done| |].
  - intros r k. rewrite Hbl3, Hbl1. split.
    + intros [[?|[-> ->]] ?]; [by left|by right].
    + intros [[? ?]|[-> ->]]; (split; [|done]); [by left|by right].
  - intros x Hx. rewrite (Hk3 q m); [|done|by apply Hbl3|unfold in_range; lia]. rewrite Hc2 by done.
    apply (Hk1 p n); [done|done|]. unfold in_range. lia.
  - intros r k x Hr Hne Hx. assert (block h1 r k) as Hr1 by (apply Hbl1; by left).
    rewrite (Hk3 r k); [|done|by apply Hbl3|done]. rewrite Ho2; [by apply (Hk1 r k)|].
    intros Hqx. pose proof (Hfr1 r k Hr). unfold disjoint_ranges, in_range in *. lia.
Qed.

(** ** The constructor *)

Lemma init_slabs_spec n : forall i w h, 0 <= i -> i + Z.of_nat n = 10 ->
  heap_inv_upto allocator i w h -> (forall j, i <= j -> h_free h j = []) ->
  (exists w' h', init_slabs allocator i (drop (Z.to_nat i) class_sizes) w = Ok w' /\
     heap_inv w' h' /\ (forall p k, block h' p k <-> block h p k) /\ h_owned h ⊆ h_owned h' /\
     managed w' = managed w /\ same_dom (wmem w) (wmem w') /\
     (forall x, in_pages hh (h_owned h) x -> wmem w' !! x = wmem w !! x) /\ spent (Z.of_nat n) w w') \/
  (init_slabs allocator i (drop (Z.to_nat i) class_sizes) w = Panic /\ (room w < n)%nat /\ ~ frames_run w (Z.of_nat n)).
Proof.
  induction n as [|n IH]; intros i w h Hi Hn Hinv Hfree.
  { left. replace i with 10 in * by lia. exists w, h. split_and!; try done. apply spent_refl. }
  assert (drop (Z.to_nat i) class_sizes = size_of i :: drop (Z.to_nat (i + 1)) class_sizes) as ->.
  { replace (Z.to_nat (i + 1)) with (S (Z.to_nat i)) by lia. apply drop_S. unfold size_of.
    destruct (lookup_lt_is_Some_2 class_sizes (Z.to_nat i)) as [x Hx]; [simpl; lia|].
    rewrite Hx. f_equal. symmetry. by apply nth_lookup_Some. }
  cbn [init_slabs].
  destruct (slab_init_spec allocator w (h_owned h) i) as [(pg & w1 & -> & Hb)|(-> & Hr & Hno)]; [apply Hinv|apply Hinv|lia| |].
  2:{ right. split_and!; [done|lia|]. intros Hrun. apply Hno. apply (frames_run_le _ _ _ Hrun). lia. }
  bind_simpl. pose proof (sb_room _ _ _ _ _ _ Hb) as Hr. pose proof (sb_run _ _ _ _ _ _ Hb) as Hrun. pose proof (slab_refill allocator w w1 h i i pg Hinv ltac:(lia) ltac:(lia) Hb) as Hinv1.
  replace (Z.max i (i + 1)) with (i + 1) in Hinv1 by lia.
  destruct (IH (i + 1) w1 (add_page h i pg)) as [(w' & h' & -> & Hinv' & Hbl & Hsub & Em & Hd & Hk & Hrun')|(-> & Hr' & Hno)];
    [lia|lia|done| | |].
  3:{ right. split_and!; [done|lia|]. replace (Z.of_nat (S n)) with (1 + Z.of_nat n) by lia. by apply (spent_short 1 _ w w1). }
  { intros j Hj. cbn. rewrite decide_False by lia. apply Hfree. lia. }
  left. exists w', h'. split_and!; try done.
  - intros p k. rewrite Hbl. by apply (block_refill allocator w w1 h i i pg Hinv ltac:(lia) Hb).
  - intros x Hx. apply Hsub, elem_of_union. by right.
  - rewrite Em. apply Hb.
  - eapply same_dom_trans; [apply Hb|done].
  - intros x (q & Hq & Hqx). rewrite Hk.
    + by apply (refill_keep allocator w w1 h i i pg Hinv ltac:(lia) Hb q).
    + exists q. split; [apply elem_of_union; by right|done].
  - replace (Z.of_nat (S n)) with (1 + Z.of_nat n) by lia. by apply (spent_trans _ _ w w1).
Qed.

(** The two flags of the object lie beside the slabs. *)
Lemma flag_write n w h a b : heap_inv_upto allocator n w h -> 0 <= n <= 10 ->
  a = allocator \/ a = allocator + 168 -> 0 <= b < 256 ->
  exists m, store8 (wmem w) a b = Ok m /\ heap_inv_upto allocator n (with_mem w m) h /\
    managed (with_mem w m) = managed w /\ room (with_mem w m) = room w /\ same_dom (wmem w) m /\
    (forall x, x <> a -> m !! x = wmem w !! x) /\ spent 0 w (with_mem w m).
Proof.
  intros [Hf Ht Hs [Hh Hszs Hfrl Hbg]] Hn Ha Hb. destruct Ht as (Hp & Hv & Hnm).
  assert (in_range allocator 169 a) as Hat by (unfold in_range; lia).
  assert (is_Some (wmem w !! a)) as Hsome.
  { replace a with (allocator + (a - allocator)) by lia. apply Hv. unfold in_range in Hat. lia. }
  rewrite store8_Ok, u8_small by done. set (m := <[a := b]> (wmem w)).
  assert (forall x, x <> a -> m !! x = wmem w !! x) as Ho by (intros x Hx; by apply lookup_insert_ne).
  pose proof (frames_wf _ _ Hf) as Hw.
  assert (mem_wf m) as Hwm.
  { intros x v Hxv. apply lookup_insert_Some in Hxv as [[<- <-]|[_ Hxv]]; [|by apply Hw].
    destruct Hsome as [v Hv']. apply Hw in Hv'. lia. }
  assert (same_dom (wmem w) m) as Hd.
  { intros x. destruct (decide (x = a)) as [->|Hx]; [|by rewrite Ho]. unfold m. rewrite lookup_insert_eq. by split. }
  destruct (frames_write w (h_owned h) m Hf Hwm Hd) as (Hf' & Em & Er & Hrun).
  { intros x Hm _. apply Ho. intros ->. by apply (Hnm a). }
  exists m. split_and!; try done; [|by apply spent_same].
  assert (forall q y, q ∈ h_owned h -> page_addr q <= y -> y + 8 <= page_addr q + page_size ->
            load64 m y = load64 (wmem w) y) as Hpg.
  { intros q y Hq Hy Hy'. apply load64_same. intros x Hx. apply Ho. intros ->.
    apply (table_page allocator w w (h_owned h) q a (conj Hp (conj Hv Hnm)) eq_refl Hf Hq Hat).
    unfold in_range in *. lia. }
  assert (forall i y, 0 <= i < 10 -> slab_at i <= y -> y + 8 <= slab_at i + 16 -> load64 m y = load64 (wmem w) y) as Htab.
  { intros i y Hi Hy Hy'. apply load64_same. intros x Hx. apply Ho. unfold Heap.slab_at, in_range in *. lia. }
  constructor; [done| |done|].
  - apply (table_after allocator w); [done|by rewrite wmem_with_mem|done].
  - rewrite wmem_with_mem. constructor.
    + intros q i Hq. rewrite (Hpg q); [by apply Hh|by apply (hs_slab _ Hs q i)|lia..].
    + intros i Hi. rewrite (Htab i); [by apply Hszs|lia..].
    + intros i Hi. destruct (Hfrl i Hi) as (hd & Hhd & Hch). exists hd. split; [by rewrite (Htab i); [|lia..]|].
      apply (chain_same (wmem w)); [|done]. intros c Hc.
      destruct (hs_free _ Hs i c ltac:(lia) Hc) as [(pg & k & Hpgi & Hk & ->) _].
      destruct (cell_bounds pg i ltac:(lia) k Hk) as (? & ? & ?).
      rewrite (Hpg pg); [done|by apply (hs_slab _ Hs pg i)|lia..].
    + intros q k sz Hq. destruct (Hbg _ _ _ Hq) as [? ?]. destruct (hs_big _ Hs _ _ _ Hq) as (? & _ & Hsub & _).
      assert (q ∈ h_owned h) by (apply Hsub, elem_of_pages; lia).
      split; (rewrite (Hpg q); [done|done|lia..]).
Qed.

(** ** The client's view *)

Lemma blocks_disjoint w h p n q k : heap_inv w h -> block h p n -> block h q k -> p <> q ->
  disjoint_ranges p n q k.
Proof.
  intros Hinv Hp Hq Hne. pose proof (hi_shape _ _ _ _ Hinv) as Hs.
  apply ranges_disjoint; [by apply (block_pos h p)|by apply (block_pos h q)|]. intros x Hx Hx'.
  assert (forall a i pg m sz y, is_cell h i a -> h_big h !! pg = Some (m, sz) -> in_range a (size_of i) y ->
            in_range (page_addr (pg + 1)) sz y -> False) as Hcb.
  { intros a i pg m sz y Ha Hb Hy (r & Hr & Hry)%(big_block_page h Hs pg m sz y Hb).
    apply (cell_not_big allocator w h Hinv i a y pg m sz r Ha Hy Hb); [|done]. apply elem_of_pages. lia. }
  destruct Hp as [a i Ha Hc|pg m sz Hb], Hq as [b j Hb' Hc'|pg' m' sz' Hb'].
  - by destruct (is_cell_disjoint h Hs i j a b x Hc Hc' Hx Hx').
  - by apply (Hcb a i pg' m' sz' x).
  - by apply (Hcb b j pg m sz x).
  - destruct (big_block_page h Hs pg m sz x Hb Hx) as (r & Hr & Hrx).
    destruct (big_block_page h Hs pg' m' sz' x Hb' Hx') as (r' & Hr' & Hrx').
    rewrite (in_page_inj _ _ _ _ Hrx Hrx') in Hr.
    assert (pg <> pg') as Hpg by (intros ->; done).
    apply (hs_disjoint _ Hs _ _ _ _ _ _ Hb Hb' Hpg r'); apply elem_of_pages; lia.
Qed.

(** What a client knows: its blocks and their contents. *)
Definition client_view (w : W) (s : gmap Z (list Z)) : Prop :=
  exists h, heap_inv w h /\ forall p l, s !! p = Some l ->
    exists n, block h p n /\ Z.of_nat (length l) <= n /\ bytes_at (wmem w) p l.

(** Requests of a client. *)
Inductive request : Type :=
| Rmalloc (size : Z)
| Rcalloc (num size : Z)
| Rfree (p : Z)
| Rrealloc (p size : Z)
| Rwrite (p i b : Z).

Definition run_request (r : request) (w : W) : outcome (Z * W) :=
  match r with
  | Rmalloc size => malloc allocator size w
  | Rcalloc num size => calloc allocator num size w
  | Rfree p => w' ← free p w; Ok (0, w')
  | Rrealloc p size => realloc allocator p size w
  | Rwrite p i b => m ← store8 (wmem w) (idx p i) b; Ok (0, with_mem w m)
  end.

(** Requests the heap must honour.  A [realloc] that leaves a big block's number
    of pages as it is is excluded: [realloc_same_pages]. *)
Definition legal (w : W) (s : gmap Z (list Z)) (r : request) : Prop :=
  match r with
  | Rmalloc size => 0 <= size /\ size + 2 * page_size <= W64
  | Rcalloc num size => 0 <= num * size /\ num * size + 2 * page_size <= W64
  | Rfree p => is_Some (s !! p)
  | Rrealloc p size => is_Some (s !! p) /\ 0 < size /\ size + 2 * page_size <= W64 /\
      forall old, is_big p = true -> alloc_size p w = Ok old ->
        div_roundup old page_size <> div_roundup size page_size
  | Rwrite p i b => (exists l, s !! p = Some l /\ 0 <= i < Z.of_nat (length l)) /\ 0 <= b < 256
  end.

(** The abstract heap: what the request and its answer [q] do to the view. *)
Definition request_spec (r : request) (q : Z) (s s' : gmap Z (list Z)) : Prop :=
  match r with
  | Rmalloc size => s !! q = None /\ s' = <[q := replicate (Z.to_nat size) 0]> s
  | Rcalloc num size => s !! q = None /\ s' = <[q := replicate (Z.to_nat (num * size)) 0]> s
  | Rfree p => s' = delete p s
  | Rrealloc p size => exists l l', s !! p = Some l /\ s !! q = None /\
      Z.of_nat (length l') = size /\
      take (length l `min` length l') l' = take (length l `min` length l') l /\
      s' = <[q := l']> (delete p s)
  | Rwrite p i b => exists l, s !! p = Some l /\ s' = <[p := <[Z.to_nat i := b]> l]> s
  end.

Section Simulation.
Context (w : W) (h : heap) (s : gmap Z (list Z)) (Hinv : heap_inv w h).
Context (Hview : forall p l, s !! p = Some l ->
  exists n, block h p n /\ Z.of_nat (length l) <= n /\ bytes_at (wmem w) p l).

(** A block that survives unchanged shows the same bytes. *)
Lemma view_keep w' h' p n l : block h' p n -> Z.of_nat (length l) <= n -> bytes_at (wmem w) p l ->
  (forall x, in_range p n x -> wmem w' !! x = wmem w !! x) ->
  exists n, block h' p n /\ Z.of_nat (length l) <= n /\ bytes_at (wmem w') p l.
Proof.
  intros Hb Hl Hbt Hk. exists n. split_and!; [done|done|]. intros i Hi. rewrite Hk; [by apply Hbt|].
  unfold in_range. lia.
Qed.

Lemma view_fresh q n : 0 < n -> (forall r k, block h r k -> disjoint_ranges q n r k) -> s !! q = None.
Proof.
  intros Hn Hd. destruct (s !! q) as [l|] eqn:E; [|done]. destruct (Hview q l E) as (k & Hb & _).
  pose proof (Hd q k Hb). pose proof (block_pos h q k (hi_shape _ _ _ _ Hinv) Hb).
  unfold disjoint_ranges in *. lia.
Qed.

Lemma zero_bytes m p n k : 0 <= k <= n -> bytes_at m p (replicate (Z.to_nat n) 0) ->
  bytes_at m p (replicate (Z.to_nat k) 0).
Proof.
  intros Hk Hz i Hi. rewrite length_replicate in Hi. rewrite Hz by (rewrite length_replicate; lia).
  by rewrite !lookup_replicate_2 by lia.
Qed.

Lemma sim_alloc q n w' h' k : new_block allocator w h q n w' h' -> 0 <= k <= n ->
  s !! q = None /\ forall p l, <[q := replicate (Z.to_nat k) 0]> s !! p = Some l ->
    exists n, block h' p n /\ Z.of_nat (length l) <= n /\ bytes_at (wmem w') p l.
Proof.
  intros [Hst Hbl Hfr Hz _] Hk.
  assert (0 < n) as Hn.
  { apply (block_pos h' q n); [apply (st_inv _ _ _ _ _ Hst)|]. apply Hbl. by right. }
  pose proof (view_fresh q n Hn Hfr) as Hq. split; [done|].
  intros p l Hp. apply lookup_insert_Some in Hp as [[<- <-]|[_ Hp]].
  - exists n. split_and!; [apply Hbl; by right|rewrite length_replicate; lia|by apply (zero_bytes _ _ n)].
  - destruct (Hview p l Hp) as (m & Hb & Hl & Hbt). assert (block h' p m) by (apply Hbl; by left).
    apply (view_keep w' h' p m); [done..|]. by apply (st_keep _ _ _ _ _ Hst p m).
Qed.

Lemma sim_free p : is_Some (s !! p) -> exists w', free p w = Ok w' /\ client_view w' (delete p s).
Proof.
  intros [l Hl]. destruct (Hview p l Hl) as (n & Hb & _).
  destruct (free_spec w h p n Hinv Hb) as (w' & h' & E & Hst & Hbl & _). exists w'. split; [done|].
  exists h'. split; [apply Hst|]. intros q l' Hq. apply lookup_delete_Some in Hq as [Hne Hq].
  destruct (Hview q l' Hq) as (m & Hbq & Hlq & Hbt). assert (block h' q m) by (by apply Hbl).
  apply (view_keep w' h' q m); [done..|]. by apply (st_keep _ _ _ _ _ Hst q m).
Qed.

Lemma sim_write p l i b : s !! p = Some l -> 0 <= i < Z.of_nat (length l) -> 0 <= b < 256 ->
  exists w', run_request (Rwrite p i b) w = Ok (0, w') /\ client_view w' (<[p := <[Z.to_nat i := b]> l]> s).
Proof.
  intros Hp Hi Hb. destruct (Hview p l Hp) as (n & Hbl & Hl & Hbt).
  destruct (block_in w h p n Hinv Hbl) as (? & ? & Hv). pose proof (frames_wf _ _ (hi_frames _ _ _ _ Hinv)) as Hw.
  unfold run_request. assert (is_Some (wmem w !! (p + i))) as Hs by (apply Hv; lia).
  rewrite (idx_valid (wmem w)), store8_Ok, u8_small by done. bind_simpl.
  set (m := <[p + i := b]> (wmem w)).
  assert (mem_wf m) as Hwm.
  { intros a v Hav. apply lookup_insert_Some in Hav as [[<- <-]|[_ Hav]]; [lia|by apply Hw]. }
  assert (same_dom (wmem w) m) as Hd.
  { intros a. unfold m. destruct (decide (p + i = a)) as [<-|Hne]; [rewrite lookup_insert_eq; by split|].
    by rewrite lookup_insert_ne. }
  assert (forall x, x <> p + i -> m !! x = wmem w !! x) as Ho by (intros x Hx; by apply lookup_insert_ne).
  destruct (block_write w h p n m Hinv Hbl Hwm Hd) as [Hinv' _].
  { intros x Hx. apply Ho. unfold in_range in Hx. lia. }
  exists (with_mem w m). split; [done|]. exists h. split; [done|]. rewrite wmem_with_mem.
  intros q l' Hq. apply lookup_insert_Some in Hq as [[<- <-]|[Hne Hq]].
  - exists n. rewrite length_insert. split_and!; [done|done|]. intros j Hj. rewrite length_insert in Hj.
    destruct (decide (j = i)) as [->|Hji].
    + unfold m. rewrite lookup_insert_eq, list_lookup_insert_eq by lia. done.
    + rewrite Ho by lia. rewrite list_lookup_insert_ne by lia. by apply Hbt.
  - destruct (Hview q l' Hq) as (k & Hbq & Hlq & Hbtq). exists k. split_and!; [done|done|].
    pose proof (blocks_disjoint w h p n q k Hinv Hbl Hbq Hne).
    intros j Hj. rewrite Ho; [by apply Hbtq|]. unfold disjoint_ranges in *. lia.
Qed.

Lemma sim_moved p l q m len w' h' size : s !! p = Some l -> moved w h p q m len w' h' -> 0 < size <= m ->
  Z.min (Z.of_nat (length l)) size <= len ->
  exists s', request_spec (Rrealloc p size) q s s' /\ client_view w' s'.
Proof.
  intros Hp [Hinv' Hbl Hfr Hcp Hk] Hsz Hlen. pose proof (view_fresh q m ltac:(lia) Hfr) as Hq.
  assert (block h' q m) as Hbq by (apply Hbl; by right).
  destruct (block_in w' h' q m Hinv' Hbq) as (_ & _ & Hv).
  destruct (valid_bytes (wmem w') q size) as (l' & Hl' & Hb'); [lia|eapply valid_sub; [apply Hv|lia..]|].
  destruct (Hview p l Hp) as (n & Hb & Hln & Hbt).
  exists (<[q := l']> (delete p s)). split.
  - exists l, l'. split_and!; try done. apply list_eq. intros i.
    destruct (decide (i < length l `min` length l')%nat) as [Hi|Hi].
    + rewrite !lookup_take_lt by done. specialize (Hb' (Z.of_nat i)). specialize (Hbt (Z.of_nat i)).
      rewrite Nat2Z.id in Hb', Hbt. rewrite <- Hb', <- Hbt by lia. apply Hcp. lia.
    + rewrite !lookup_take_ge by lia. done.
  - exists h'. split; [done|]. intros r lr Hr. apply lookup_insert_Some in Hr as [[<- <-]|[_ Hr]].
    + exists m. split_and!; [done|lia|done].
    + apply lookup_delete_Some in Hr as [Hne Hr]. destruct (Hview r lr Hr) as (k & Hbr & Hlr & Hbtr).
      assert (block h' r k) by (apply Hbl; left; done).
      apply (view_keep w' h' r k); [done..|]. intros x Hx. by apply (Hk r k).
Qed.

Lemma sim_calloc num size : 0 <= num * size -> num * size + 2 * page_size <= W64 ->
  (exists q w' s', calloc allocator num size w = Ok (q, w') /\ request_spec (Rcalloc num size) q s s' /\
     client_view w' s') \/
  (calloc allocator num size w = Panic /\ no_memory (num * size) w).
Proof.
  intros Hn Hb. unfold calloc. rewrite (u64_small (num * size)) by lia.
  pose proof (malloc_panic w h (num * size) Hinv Hn Hb) as Hpanic.
  destruct (malloc_spec w h (num * size) Hinv Hn Hb) as [(q & n & w1 & h1 & -> & Hle & Hnb & _)|[E _]];
    [left|right; rewrite E; split; [done|by apply Hpanic]].
  bind_simpl. pose proof (nb_null _ _ _ _ _ _ _ Hnb). rewrite (proj2 (Z.eqb_neq q 0)) by lia.
  pose proof (st_inv _ _ _ _ _ (nb_step _ _ _ _ _ _ _ Hnb)) as Hinv1.
  assert (block h1 q n) as Hbq by (apply (nb_blocks _ _ _ _ _ _ _ Hnb); by right).
  destruct (block_in w1 h1 q n Hinv1 Hbq) as (_ & _ & Hv).
  pose proof (frames_wf _ _ (hi_frames _ _ _ _ Hinv1)) as Hw1.
  rewrite fill_valid by (done || lia || (eapply valid_sub; [apply Hv|lia..])).
  change (u8 0) with 0. bind_simpl.
  assert (write_bytes (wmem w1) q (replicate (Z.to_nat (num * size)) 0) = wmem w1) as ->.
  { symmetry. apply write_bytes_unique; [by intros ? ?|]. apply (zero_bytes _ _ n); [lia|].
    apply (nb_zero _ _ _ _ _ _ _ Hnb). }
  destruct (sim_alloc q n w1 h1 (num * size) Hnb) as [Hq Hv2]; [lia|].
  exists q, (with_mem w1 (wmem w1)), (<[q := replicate (Z.to_nat (num * size)) 0]> s).
  split_and!; [done|done|]. exists h1. split; [by apply (block_write w1 h1 q n (wmem w1))|].
  by rewrite wmem_with_mem.
Qed.

Lemma sim_realloc p size : legal w s (Rrealloc p size) ->
  (exists q w' s', realloc allocator p size w = Ok (q, w') /\ request_spec (Rrealloc p size) q s s' /\
     client_view w' s') \/
  (realloc allocator p size w = Panic /\ no_memory size w).
Proof.
  intros ([l Hl] & Hsz & Hsz' & Hpg). destruct (Hview p l Hl) as (n & Hb & Hln & _).
  pose proof (alloc_size_spec w h p n Hinv Hb) as Has.
  assert (realloc allocator p size w = move_block allocator p n size w) as ->.
  { unfold realloc. destruct Hb as [a i Ha Hc|pg n sz Hb].
    - destruct (slab_of_cell w h i a Hinv Hc) as (E1 & E2 & E3). rewrite E1, E2, E3. bind_simpl.
      pose proof (is_cell_class h (hi_shape _ _ _ _ Hinv) i a Hc) as Hi.
      rewrite (load_wmem _ _ _ (hm_size _ _ _ _ (hi_mem _ _ _ _ Hinv) i Hi)). bind_simpl.
      by rewrite (proj2 (Z.eqb_neq size 0)) by lia.
    - destruct (big_meta w h pg n sz Hinv Hb) as (E1 & E2 & Em & _ & Eu & _ & El & _).
      rewrite E1, E2. unfold big_realloc. rewrite E2, Em, Eu, El. bind_simpl.
      rewrite (proj2 (Z.eqb_neq (div_roundup sz 4096) _)) by (by apply Hpg).
      by rewrite (proj2 (Z.eqb_neq size 0)) by lia. }
  destruct (move_block_spec w h p n size Hinv Hb) as [(q & m & w' & h' & -> & Hm & Hmv)|E]; [lia|lia|left|by right].
  destruct (sim_moved p l q m (Z.min n size) w' h' size Hl Hmv) as (s' & H1' & H2'); [lia|lia|].
  by exists q, w', s'.
Qed.
End Simulation.
End Operations.
