(* ===== verification/Machine.v ===== *)
(** * Small concrete machines

    Sixteen pages at 1 MiB, the first of them holding the bitmap, the allocator
    object at 2 MiB, and a list of 64-bit stores that set up a heap: what the
    witnesses of the heap's and the page tables' theorems run on. *)

From S2P Require Import Prelude Memory LibcString StringProofs Frames Math Bitmap Physical PhysicalProofs.
From S2P Require Import Heap HeapInv.

(** Several 64-bit stores. *)
Definition write_all (ws : list (Z * Z)) (m : mem) : mem :=
  foldr (fun av m => write64 m av.1 av.2) m ws.

Fixpoint assoc (ws : list (Z * Z)) (a : Z) : option Z :=
  match ws with
  | [] => None
  | av :: ws' => if av.1 =? a then Some av.2 else assoc ws' a
  end.

Lemma assoc_none ws a : a ∉ List.map fst ws -> assoc ws a = None.
Proof.
  induction ws as [|[b v] ws IH]; [done|]. cbn [List.map assoc fst snd]. rewrite not_elem_of_cons. intros [Hb Hws].
  rewrite (proj2 (Z.eqb_neq b a)) by congruence. by apply IH.
Qed.

Section WriteAll.
Lemma write_all_ok ws m : mem_wf m -> Forall (fun av => valid m av.1 8) ws ->
  mem_wf (write_all ws m) /\ same_dom m (write_all ws m) /\
  forall x, Forall (fun av => ~ in_range av.1 8 x) ws -> write_all ws m !! x = m !! x.
Proof.
  intros Hw Hv. induction Hv as [|[a v] ws Ha Hv IH]; [by split_and!|].
  destruct IH as (Hw' & Hd' & Ho'). simpl in *. assert (valid (write_all ws m) a 8) by (by eapply valid_same_dom).
  destruct (write64_ok (write_all ws m) a v) as [? ?]; [done..|]. split_and!; [done|by eapply same_dom_trans|].
  intros x Hx. inversion Hx as [|? ? Hx1 Hx2]; subst. rewrite write64_out by done. by apply Ho'.
Qed.

Lemma load_write_all ws m a : a mod 8 = 0 -> Forall (fun av => av.1 mod 8 = 0) ws ->
  load64 (write_all ws m) a = match assoc ws a with Some v => Ok (u64 v) | None => load64 m a end.
Proof.
  intros Ha Hws. induction Hws as [|[b v] ws Hb _ IH]; [done|]. simpl in *.
  destruct (Z.eqb_spec b a) as [->|Hne]; [by rewrite load64_write64|].
  rewrite load64_write64_ne; [done|]. unfold disjoint_ranges.
  pose proof (Z.div_mod a 8). pose proof (Z.div_mod b 8). lia.
Qed.
End WriteAll.

Definition sample_alloc : Z := 2097152.
Definition sample_base : mem := write_bytes ∅ sample_alloc (replicate (Z.to_nat 169) 0).

#[export] Instance sample_laws : @FrameLaws phys (phys_frames sample_hhdm) :=
  phys_frame_laws sample_hhdm eq_refl.

Lemma room_is_pmm_room st : @room phys (phys_frames sample_hhdm) sample_laws st = pmm_room st.
Proof. reflexivity. Qed.

(** The pages [os] are the clients', as the bitmap [b] shows. *)
Definition machine_base (b : Z) : phys := sample_phys sample_base b 65536.
Definition machine (b : Z) (ws : list (Z * Z)) : phys :=
  with_ram (machine_base b) (write_all ws (sample_ram sample_base b)).

(** Stores to whole words of the clients' pages and of the allocator object. *)
Definition stores_ok (os : list Z) (ws : list (Z * Z)) : bool :=
  forallb (fun av => (av.1 mod 8 =? 0) &&
    (existsb (fun i => (sample_hhdm + i * 4096 <=? av.1) && (av.1 + 8 <=? sample_hhdm + (i + 1) * 4096)) os
     || (sample_alloc <=? av.1) && (av.1 + 8 <=? sample_alloc + 168))) ws.

Definition pages_ok (b : Z) (os : list Z) : bool :=
  Z.testbit b 0 && forallb (fun i => (0 <? i) && (i <? 16) && Z.testbit b i) os.

Section Machine.
Context (b : Z) (os : list Z) (ws : list (Z * Z)) (Hos : pages_ok b os = true) (Hws : stores_ok os ws = true).
Context (Hsize : 4096 * Z.of_nat (size (list_to_set os : gset Z)) <= 65536).
Local Abbreviation owned := (list_to_set os : gset Z).
Local Abbreviation base := (sample_ram sample_base b).

Lemma sample_base_wf : mem_wf sample_base.
Proof.
  intros a v. unfold sample_base. rewrite lookup_write_bytes, length_replicate.
  unfold in_range, sample_alloc. case_decide; [|by rewrite lookup_empty]. intros [-> _]%lookup_replicate. lia.
Qed.

Lemma machine_base_inv : pmm_inv sample_hhdm (machine_base b) owned.
Proof.
  apply andb_true_iff in Hos as [H0 Ho]. rewrite forallb_forall in Ho.
  apply sample_phys_inv; [exact sample_base_wf|done| |lia].
  intros i Hi%elem_of_list_to_set. apply list_elem_of_In, Ho in Hi.
  rewrite !andb_true_iff, !Z.ltb_lt in Hi. destruct Hi as [[? ?] ?]. split; [lia|done].
Qed.

Lemma sample_table_valid : valid base sample_alloc 169.
Proof.
  intros i Hi. unfold sample_ram.
  rewrite !lookup_write_bytes_out by (rewrite ?length_replicate; simpl length; unfold in_range, sample_alloc, sample_hhdm; lia).
  unfold sample_base. rewrite lookup_write_bytes_in by (rewrite length_replicate; unfold in_range; lia).
  apply lookup_Z_is_Some. rewrite length_replicate. lia.
Qed.

Lemma sample_not_managed st x : bitmap st = Bitmap sample_hhdm 4096 -> page_limit st = 16 ->
  in_range sample_alloc 169 x -> ~ pmm_managed sample_hhdm st x.
Proof.
  intros Eb El Hx [(j & Hj & Ej)|Hr].
  - rewrite Eb in Ej. rewrite El in Hj. simpl buffer in Ej. pose proof (sample_region j Hj).
    unfold in_range, sample_alloc, sample_hhdm in *. lia.
  - rewrite El in Hr. unfold in_range, sample_alloc, sample_hhdm in *. lia.
Qed.

Lemma store_place av : av ∈ ws -> av.1 mod 8 = 0 /\
  ((exists i, i ∈ owned /\ 0 < i < 16 /\
      sample_hhdm + i * 4096 <= av.1 /\ av.1 + 8 <= sample_hhdm + (i + 1) * 4096) \/
   sample_alloc <= av.1 /\ av.1 + 8 <= sample_alloc + 168).
Proof.
  intros Hav. unfold stores_ok in Hws. rewrite forallb_forall in Hws. apply list_elem_of_In, Hws in Hav.
  apply andb_true_iff in Hav as [Hm Hav]. apply Z.eqb_eq in Hm. split; [done|].
  apply orb_true_iff in Hav as [Hav|Hav]; [left|right].
  - apply existsb_exists in Hav as (i & Hi & Hr). rewrite andb_true_iff, !Z.leb_le in Hr.
    apply andb_true_iff in Hos as [_ Ho]. rewrite forallb_forall in Ho.
    pose proof (Ho i Hi) as Hb. rewrite !andb_true_iff, !Z.ltb_lt in Hb.
    exists i. split; [by apply elem_of_list_to_set, list_elem_of_In|]. lia.
  - rewrite andb_true_iff, !Z.leb_le in Hav. done.
Qed.

Lemma stores_valid : Forall (fun av => valid base av.1 8) ws.
Proof.
  apply Forall_forall. intros av Hav. destruct (store_place av Hav) as [_ [(i & _ & Hi & Hr)|Hr]].
  - eapply valid_sub; [apply sample_ram_valid|lia..].
  - eapply valid_sub; [apply sample_table_valid|lia..].
Qed.

Lemma machine_written_ok : pmm_inv sample_hhdm (machine b ws) owned /\
  same_dom base (ram (machine b ws)) /\ pmm_room (machine b ws) = pmm_room (machine_base b) /\
  (forall n, pmm_run (machine_base b) n -> pmm_run (machine b ws) n).
Proof.
  destruct (write_all_ok ws base) as (Hw & Hd & Ho); [apply sample_ram_wf, sample_base_wf|exact stores_valid|].
  destruct (pmm_contract_write sample_hhdm (machine_base b) owned (write_all ws base))
    as (Hi & _ & Hr & Hrun); [exact machine_base_inv|done|done| |split; [exact Hi|split; [exact Hd|split; [exact Hr|exact Hrun]]]].
  intros x Hm Hx. apply Ho, Forall_forall. intros av Hav Hax.
  destruct (store_place av Hav) as [_ [(i & Hi & _ & Hr)|Hr]].
  - apply Hx. exists i. split; [done|]. unfold in_page, in_range in *. lia.
  - apply (sample_not_managed (machine_base b) x); [done|done|unfold in_range in *; lia|done].
Qed.

Lemma machine_inv : pmm_inv sample_hhdm (machine b ws) owned /\
  same_dom base (ram (machine b ws)) /\ pmm_room (machine b ws) = pmm_room (machine_base b).
Proof. destruct machine_written_ok as (Hi & Hd & Hr & _). split; [exact Hi|split; [exact Hd|exact Hr]]. Qed.

(** Free pages in a row, from the bitmap. *)
Lemma machine_run s n : 0 <= s -> s + n <= 16 -> forallb (fun j => negb (Z.testbit b j)) (seqZ s n) = true ->
  pmm_run (machine b ws) n.
Proof.
  intros Hs Hn Hf. rewrite forallb_forall in Hf. destruct machine_written_ok as (_ & _ & _ & Hrun). apply Hrun.
  exists s. split; [exact Hs|]. split; [exact Hn|]. intros j Hj. unfold machine_base, sample_phys. cbn [ram bitmap].
  rewrite sample_bit by lia. apply negb_true_iff, Hf, list_elem_of_In, elem_of_seqZ. lia.
Qed.

Lemma machine_table_ok st : st = machine b ws \/ st = machine_base b ->
  @table_ok phys (phys_frames sample_hhdm) sample_laws sample_alloc st.
Proof.
  intros Hst. split_and!; [reflexivity| |].
  - destruct Hst as [-> | ->].
    + apply (valid_same_dom base); [apply machine_inv|exact sample_table_valid].
    + exact sample_table_valid.
  - intros x Hx. apply (sample_not_managed st x); [by destruct Hst as [-> | ->]..|done].
Qed.

(** The bytes beside the bitmap and the stores are zero. *)
Lemma base_zero a : in_range (sample_hhdm + 2) 65534 a \/ in_range sample_alloc 169 a -> base !! a = Some 0.
Proof.
  intros Ha. unfold sample_ram.
  rewrite lookup_write_bytes_out by (simpl length; unfold in_range, sample_alloc, sample_hhdm in *; lia).
  destruct Ha as [Ha|Ha].
  - rewrite lookup_write_bytes_in by (rewrite length_replicate; unfold in_range in *; lia).
    apply lookup_replicate_2. unfold in_range in *. lia.
  - rewrite lookup_write_bytes_out by (rewrite length_replicate; unfold in_range, sample_alloc, sample_hhdm in *; lia).
    unfold sample_base. rewrite lookup_write_bytes_in by (rewrite length_replicate; unfold in_range in *; lia).
    apply lookup_replicate_2. unfold in_range in *. lia.
Qed.

Lemma machine_written a v : a mod 8 = 0 -> assoc ws a = Some v -> u64 v = v ->
  load64 (ram (machine b ws)) a = Ok v.
Proof.
  intros Ha Hv Hu. unfold machine. cbn [with_ram ram]. rewrite load_write_all, Hv, Hu; [done..|].
  apply Forall_forall. intros av Hav. by apply store_place.
Qed.

Lemma machine_unwritten a : a mod 8 = 0 -> assoc ws a = None ->
  sample_hhdm + 2 <= a /\ a + 8 <= sample_hhdm + 65536 \/ sample_alloc <= a /\ a + 8 <= sample_alloc + 169 ->
  load64 (ram (machine b ws)) a = Ok 0.
Proof.
  intros Ha Hv Hr. unfold machine. cbn [with_ram ram]. rewrite load_write_all, Hv; [|done|].
  - apply load64_zero. intros i Hi. rewrite length_replicate in Hi.
    trans (Some 0); [apply base_zero; unfold in_range; lia|]. symmetry. apply lookup_replicate_2. lia.
  - apply Forall_forall. intros av Hav. by apply store_place.
Qed.

Lemma machine_bytes p n : 0 <= n ->
  sample_hhdm + 2 <= p /\ p + n <= sample_hhdm + 65536 ->
  forallb (fun av => (av.1 + 8 <=? p) || (p + n <=? av.1)) ws = true ->
  bytes_at (ram (machine b ws)) p (replicate (Z.to_nat n) 0).
Proof.
  intros Hn Hp Hb i Hi. rewrite forallb_forall in Hb. rewrite length_replicate in Hi.
  destruct (write_all_ok ws base) as (_ & _ & Ho); [apply sample_ram_wf, sample_base_wf|exact stores_valid|].
  unfold machine. cbn [with_ram ram]. rewrite Ho.
  - trans (Some 0); [apply base_zero; unfold in_range; lia|]. symmetry. apply lookup_replicate_2. lia.
  - apply Forall_forall. intros av Hav Hx. apply list_elem_of_In, Hb in Hav.
    rewrite orb_true_iff, !Z.leb_le in Hav. unfold in_range in Hx. lia.
Qed.
End Machine.

(** The stores that set up the table of sizes. *)
Definition size_stores : list (Z * Z) := map (fun i => (slab_at sample_alloc i + 8, size_of i)) (seqZ 0 10).
