(* ===== verification/HeapClaims.v ===== *)
(** * What the heap guarantees

    The theorems on memory/memory.cpp, proved against the contract of the page
    manager, with a small concrete machine that meets their hypotheses. *)

From S2P Require Import Prelude Memory LibcString StringProofs Frames Math Bitmap Physical PhysicalProofs.
From S2P Require Import Heap HeapInv HeapProofs HeapTheorems Machine.

(** ** A small machine with a heap *)

(** Page 1 holds a slab of 16-byte cells with one free and one live cell, pages 3
    and 4 a big block of 2000 bytes. *)
Definition sample_page : Z := sample_hhdm + 4096.
Definition free_cell : Z := sample_page + 16.
Definition live_cell : Z := sample_page + 32.
Definition big_ptr : Z := sample_hhdm + 4 * 4096.
Definition sample_pages : list Z := [1; 3; 4].
Definition sample_writes : list (Z * Z) :=
  [(sample_page, slab_at sample_alloc 0); (slab_at sample_alloc 0, free_cell);
   (sample_hhdm + 3 * 4096, 1); (sample_hhdm + 3 * 4096 + 8, 2000)] ++ size_stores.
Definition sample_state : phys := machine 27 sample_writes.
Definition sample_heap : heap :=
  MkHeap (list_to_set sample_pages) {[1 := 0]} (fun i => if decide (i = 0) then [free_cell] else [])
         {[live_cell]} {[3 := (1, 2000)]}.

Section SampleHeap.
#[local] Existing Instance phys_frames.
Local Abbreviation heap_inv := (@heap_inv phys (phys_frames sample_hhdm) sample_laws sample_alloc).
Local Abbreviation is_cell := (@is_cell phys (phys_frames sample_hhdm)).

Lemma sample_pages_ok : pages_ok 27 sample_pages = true.
Proof. reflexivity. Qed.

Lemma sample_stores_ok : stores_ok sample_pages sample_writes = true.
Proof. reflexivity. Qed.

Lemma sample_size : 4096 * Z.of_nat (size (list_to_set sample_pages : gset Z)) <= 65536.
Proof. assert (size (list_to_set sample_pages : gset Z) = 3%nat) as -> by reflexivity. lia. Qed.

Lemma sample_frames : pmm_inv sample_hhdm sample_state (list_to_set sample_pages) /\
  same_dom (sample_ram sample_base 27) (ram sample_state) /\
  pmm_room sample_state = pmm_room (machine_base 27).
Proof. apply machine_inv; [exact sample_pages_ok|exact sample_stores_ok|exact sample_size]. Qed.

Lemma sample_is_cell k : 0 <= k < cells_of 0 -> is_cell sample_heap 0 (sample_page + 16 + k * 16).
Proof.
  intros Hk. exists 1, k. cbn [sample_heap h_slab]. rewrite lookup_singleton_eq.
  split_and!; [done|lia|lia|]. unfold cell, page_addr, sample_page. cbn [hhdm_offset phys_frames].
  change (off_of 0) with 16. change (size_of 0) with 16. lia.
Qed.

Lemma sample_heap_shape : @heap_shape phys (phys_frames sample_hhdm) sample_heap.
Proof.
  assert (cells_of 0 = 255) as Ec by done.
  assert (is_cell sample_heap 0 free_cell) as Hfc by (apply (sample_is_cell 0); lia).
  assert (is_cell sample_heap 0 live_cell) as Hlc by (apply (sample_is_cell 1); lia).
  constructor; cbn [sample_heap h_slab h_owned h_free h_live h_big].
  - intros pg i [<- <-]%lookup_singleton_Some. split; [set_solver|lia].
  - intros i a Hi Ha. case_decide as Hi0; [subst i|by apply elem_of_nil in Ha].
    apply list_elem_of_singleton in Ha as ->. split; [done|]. rewrite elem_of_singleton. done.
  - intros i Hi. case_decide; [apply NoDup_singleton|apply NoDup_nil_2].
  - intros a ->%elem_of_singleton. by exists 0.
  - intros pg n sz [<- E]%lookup_singleton_Some. injection E as <- <-. split_and!; [lia|lia|lia| |].
    + intros i Hi%elem_of_pages. apply elem_of_list_to_set. unfold sample_pages. rewrite !elem_of_cons. lia.
    + intros i Hi%elem_of_pages. rewrite dom_singleton, elem_of_singleton. lia.
  - intros pg n sz pg' n' sz' [<- _]%lookup_singleton_Some [<- _]%lookup_singleton_Some Hne. done.
Qed.

Lemma sample_written a v : a mod 8 = 0 -> assoc sample_writes a = Some v -> u64 v = v ->
  load64 (ram sample_state) a = Ok v.
Proof. apply (machine_written 27 sample_pages); [exact sample_pages_ok|exact sample_stores_ok]. Qed.

Lemma sample_unwritten a : a mod 8 = 0 -> assoc sample_writes a = None ->
  sample_hhdm + 2 <= a /\ a + 8 <= sample_hhdm + 65536 \/ sample_alloc <= a /\ a + 8 <= sample_alloc + 169 ->
  load64 (ram sample_state) a = Ok 0.
Proof. apply (machine_unwritten 27 sample_pages); [exact sample_pages_ok|exact sample_stores_ok]. Qed.

Lemma sample_no_head i : 0 <= i < 10 -> i <> 0 -> assoc sample_writes (slab_at sample_alloc i) = None.
Proof.
  intros Hi Hi0. destruct (class_cases i Hi) as [->|[->|[->|[->|[->|[->|[->|[->|[->| ->]]]]]]]]];
    [done|reflexivity..].
Qed.

Lemma sample_heap_inv : heap_inv sample_state sample_heap.
Proof.
  destruct sample_frames as (Hf & Hd & _). constructor; [exact Hf| |exact sample_heap_shape|].
  - apply (machine_table_ok 27 sample_pages sample_writes); [exact sample_pages_ok|exact sample_stores_ok|exact sample_size|by left].
  - constructor; cbn [sample_heap h_slab h_free h_big wmem phys_frames].
    + intros pg i [<- <-]%lookup_singleton_Some. by apply sample_written.
    + intros i Hi. destruct (class_cases i Hi) as [->|[->|[->|[->|[->|[->|[->|[->|[->| ->]]]]]]]]];
        by apply sample_written.
    + intros i Hi. case_decide as Hi0.
      * subst i. exists free_cell. split; [by apply sample_written|]. split; [done|]. exists 0.
        split; [|done]. apply sample_unwritten; [done|done|]. left.
        unfold in_range, free_cell, sample_page, sample_hhdm. lia.
      * exists 0. split; [|reflexivity]. apply sample_unwritten; [|by apply sample_no_head|].
        { unfold slab_at, sample_alloc. Z.to_euclidean_division_equations. lia. }
        right. unfold in_range, slab_at, sample_alloc. lia.
    + intros pg n sz [<- E]%lookup_singleton_Some. injection E as <- <-. by split; apply sample_written.
Qed.
End SampleHeap.

(** ** Theorems *)

Section Claims.
Context {W : Type} `{FrameLaws W} (allocator : Z).

(** C17: in any state of the heap's invariant, [malloc] returns a block of at least
    [size] bytes, zero, null-free, disjoint from every block held, and leaves the
    contents of all of them as they were; [alloc_size] tells its size.  It panics
    only when the page manager does: never for a class with a free cell, never for a
    small size while a page is left, and for a big size only when the page manager has
    no run of free pages for it. *)
Theorem malloc_correct w h size :
  heap_inv allocator w h -> 0 <= size -> size + 2 * page_size <= W64 ->
  (exists p n w' h', malloc allocator size w = Ok (p, w') /\ size <= n /\
     new_block allocator w h p n w' h' /\ alloc_size p w' = Ok n) \/
  (malloc allocator size w = Panic /\ (forall i, fits size i -> h_free h i = [] /\ room w = O) /\
     (1024 < size -> ~ frames_run w (big_pages size))).
Proof.
  intros Hinv Hs Hb. destruct (malloc_spec allocator w h size Hinv Hs Hb) as [(p & n & w' & h' & E & Hn & Hnb & _)|Hp];
    [left|by right].
  exists p, n, w', h'. split_and!; try done.
  apply (alloc_size_spec allocator w' h'); [apply (nb_step _ _ _ _ _ _ _ Hnb)|].
  apply (nb_blocks _ _ _ _ _ _ _ Hnb). by right.
Qed.

(** C18: a block that is held can be freed: exactly that block goes, all others keep
    their contents, the invariant stays; [alloc_size] knows the block's size, and
    freeing null does nothing.  What the block took can be had again: a small cell is
    put in front of the free list of its class in memory, with the cells that were there
    behind it, and the next [malloc] of the class returns it; the pages of a big block
    go back to the page manager, and a block of at most its size can be had again. *)
Theorem free_correct w h p n :
  heap_inv allocator w h -> block h p n ->
  alloc_size p w = Ok n /\ free 0 w = Ok w /\
  exists w' h', free p w = Ok w' /\ heap_step allocator w h w' h' /\
    (forall q k, block h' q k <-> block h q k /\ q <> p) /\ released allocator w p n w' /\
    (is_big p = false -> forall size i, 0 <= size -> fits size i -> n = size_of i -> exists w2, malloc allocator size w' = Ok (p, w2)) /\
    (is_big p = true -> forall size, 1024 < size <= n -> exists q w2, malloc allocator size w' = Ok (q, w2)).
Proof.
  intros Hinv Hb. split_and!; [by apply (alloc_size_spec allocator w h)|done|].
  destruct (free_spec allocator w h p n Hinv Hb) as (w' & h' & E & Hst & Hbl & Hr & Hc).
  exists w', h'. split_and!; [done..|]. intros Eb size Hs. unfold released in Hr. rewrite Eb in Hr.
  pose proof (big_room allocator w h p n Hinv Hb Eb).
  destruct (malloc_spec allocator w' h' size) as [(q & k & w2 & h2 & E2 & _)|(_ & _ & Hno)]; [apply Hst|lia|lia|by exists q, w2|].
  destruct (Hno (proj1 Hs)). apply (frames_run_le _ _ _ (proj1 Hr)). unfold big_pages. Z.to_euclidean_division_equations. lia.
Qed.

(** C2: the heap implements the map from pointers to byte sequences: every legal
    request succeeds with the abstract effect or panics; it panics only if it
    allocates and the page manager has no page, or for a big block no run of pages,
    for it. *)
Theorem heap_refines w s r :
  client_view allocator w s -> legal w s r ->
  (exists q w' s', run_request allocator r w = Ok (q, w') /\ request_spec r q s s' /\
     client_view allocator w' s') \/
  (run_request allocator r w = Panic /\ match r with
     | Rmalloc size | Rrealloc _ size => no_memory size w
     | Rcalloc num size => no_memory (num * size) w
     | Rfree _ | Rwrite _ _ _ => False
     end).
Proof.
  intros (h & Hinv & Hview) Hl. destruct r as [size|num size|p|p size|p i b].
  - destruct Hl as [Hs Hb].
    destruct (malloc_spec allocator w h size Hinv Hs Hb) as [(q & n & w' & h' & E & Hn & Hnb & _)|[Hp _]];
      [left|right; split; [exact Hp|by apply (malloc_panic allocator w h)]].
    destruct (sim_alloc allocator w h s Hinv Hview q n w' h' size Hnb) as [Hq Hv]; [lia|].
    exists q, w'. eexists. split_and!; [done|done|]. exists h'. split; [|done].
    apply (nb_step _ _ _ _ _ _ _ Hnb).
  - destruct Hl as [Hs Hb].
    destruct (sim_calloc allocator w h s Hinv Hview num size Hs Hb) as [?|?]; [by left|by right].
  - left. destruct (sim_free allocator w h s Hinv Hview p Hl) as (w' & E & Hv).
    exists 0, w', (delete p s). simpl. rewrite E. done.
  - destruct (sim_realloc allocator w h s Hinv Hview p size Hl) as [?|?]; [by left|by right].
  - left. destruct Hl as [(l & Hl & Hi) Hb].
    destruct (sim_write allocator w h s Hinv Hview p l i b Hl Hi Hb) as (w' & E & Hv).
    exists 0, w'. eexists. split_and!; [exact E|by exists l|exact Hv].
Qed.

(** Two different pointers a client holds never overlap, each is mapped,
    and [alloc_size] covers the bytes the client has there. *)
Theorem heap_no_overlap w s p q l l' :
  client_view allocator w s -> s !! p = Some l -> s !! q = Some l' -> p <> q ->
  disjoint_ranges p (Z.of_nat (length l)) q (Z.of_nat (length l')) /\
  valid (wmem w) p (Z.of_nat (length l)) /\
  exists n, alloc_size p w = Ok n /\ Z.of_nat (length l) <= n.
Proof.
  intros (h & Hinv & Hview) Hp Hq Hne.
  destruct (Hview p l Hp) as (n & Hb & Hn & _). destruct (Hview q l' Hq) as (k & Hb' & Hk & _).
  pose proof (blocks_disjoint allocator w h p n q k Hinv Hb Hb' Hne) as Hd.
  destruct (block_in allocator w h p n Hinv Hb) as (_ & _ & Hv). split_and!.
  - unfold disjoint_ranges in *. lia.
  - eapply valid_sub; [apply Hv|lia..].
  - exists n. split; [|done]. by apply (alloc_size_spec allocator w h).
Qed.

(** What [allocator_initialize] does on any page manager that keeps its laws. *)
Lemma allocator_initialize_spec w o :
  frames_inv w o -> table_ok allocator w ->
  (exists w' h, allocator_initialize allocator w = Ok w' /\ heap_inv allocator w' h /\
     (forall p n, ~ block h p n) /\ o ⊆ h_owned h /\
     (forall x, in_pages hhdm_offset o x -> wmem w' !! x = wmem w !! x) /\ spent 10 w w') \/
  (allocator_initialize allocator w = Panic /\ (room w < 10)%nat /\ ~ frames_run w 10).
Proof.
  intros Hf Ht. set (h0 := MkHeap o ∅ (fun _ => []) ∅ ∅).
  assert (heap_inv_upto allocator 0 w h0) as Hinv0.
  { constructor; [exact Hf|exact Ht| |]; constructor; cbn; try (intros; lia); intros *; rewrite ?lookup_empty;
      try done; try (by intros ? ?%elem_of_nil); try (intros; apply NoDup_nil_2); by rewrite elem_of_empty. }
  assert (forall a x, a = allocator \/ a = allocator + 168 -> in_pages hhdm_offset o x -> x <> a) as Hne.
  { intros a x Ha (q & Hq & Hqx) ->. apply (table_page allocator w w o q a Ht eq_refl Hf Hq); [|done].
    unfold in_range. lia. }
  unfold allocator_initialize, slab_allocator_init.
  destruct (flag_write allocator 0 w h0 allocator 0 Hinv0) as (m & -> & Hinv1 & Em1 & Er1 & Hd1 & Ho1 & Hrun1);
    [lia|by left|lia|].
  bind_simpl. change class_sizes with (drop (Z.to_nat 0) class_sizes).
  destruct (init_slabs_spec allocator 10 0 (with_mem w m) h0) as
    [(w2 & h2 & -> & Hinv2 & Hbl & Hsub & Em2 & Hd2 & Hk2 & Hrun2)|(-> & Hr & Hno)]; [lia|done|done|done| |].
  2:{ right. rewrite Er1 in Hr. split_and!; [done|done|]. by apply (spent_short 0 _ w (with_mem w m)). }
  bind_simpl.
  destruct (flag_write allocator 10 w2 h2 (allocator + 168) 1 Hinv2) as (m3 & -> & Hinv3 & _ & _ & _ & Ho3 & Hrun3);
    [lia|by right|lia|].
  left. exists (with_mem w2 m3), h2. split_and!; [done|done| |done| |].
  - intros p n Hb%Hbl. destruct Hb as [a i Ha _|pg k sz Hb]; cbn in *; set_solver.
  - intros x Hx. rewrite wmem_with_mem, Ho3 by (apply Hne; [by right|done]).
    rewrite Hk2 by done. rewrite wmem_with_mem. apply Ho1. apply Hne; [by left|done].
  - by apply (spent_trans 0 10 w (with_mem w m)), (spent_trans 10 0 _ w2).
Qed.

(** Constructing the allocator on a page manager that owns the pages [o] for
    its clients sets up an empty heap, with the clients' pages unchanged; ten free
    pages are enough. *)
Theorem heap_init_correct w o :
  frames_inv w o -> table_ok allocator w ->
  (exists w' h, allocator_initialize allocator w = Ok w' /\ heap_inv allocator w' h /\
     (forall p n, ~ block h p n) /\ o ⊆ h_owned h /\
     forall x, in_pages hhdm_offset o x -> wmem w' !! x = wmem w !! x) \/
  (allocator_initialize allocator w = Panic /\ (room w < 10)%nat).
Proof.
  intros Hf Ht. destruct (allocator_initialize_spec w o Hf Ht) as [(w' & h & ? & ? & ? & ? & ? & _)|(? & ? & _)];
    [left; by exists w', h|by right].
Qed.

(** [realloc] of a big block to a size with the same number of pages returns
    null although the block is still allocated, now with the new size on record. *)
Lemma realloc_same_pages w h pg n sz size :
  heap_inv allocator w h -> h_big h !! pg = Some (n, sz) -> 0 <= size < W64 ->
  div_roundup sz page_size = div_roundup size page_size ->
  exists w', realloc allocator (page_addr (pg + 1)) size w = Ok (0, w') /\
    alloc_size (page_addr (pg + 1)) w' = Ok size /\ frames_inv w' (h_owned h) /\
    forall x, ~ in_range (page_addr pg + 8) 8 x -> wmem w' !! x = wmem w !! x.
Proof.
  intros Hinv Hb Hs Hd. destruct (big_meta allocator w h pg n sz Hinv Hb) as (E1 & E2 & Em & _ & Eu & _ & El & _).
  destruct (hs_big _ (hi_shape _ _ _ _ Hinv) _ _ _ Hb) as (? & _ & Hsub & _).
  assert (pg ∈ h_owned h) as Hpg by (apply Hsub, elem_of_pages; lia).
  pose proof (hi_frames _ _ _ _ Hinv) as Hf. destruct (page_in_pages w _ pg Hf Hpg) as (? & ? & Hv & _).
  assert (valid (wmem w) (page_addr pg + 8) 8) as Hv8 by (eapply valid_sub; [apply Hv|lia..]).
  destruct (write64_ok (wmem w) (page_addr pg + 8) size (frames_wf _ _ Hf) Hv8) as [Hw1 Hd1].
  exists (with_mem w (write64 (wmem w) (page_addr pg + 8) size)). split_and!.
  - unfold realloc, big_realloc. rewrite E2, E1, Em, Eu, El. bind_simpl. rewrite Hd, Z.eqb_refl.
    rewrite store_valid by done. done.
  - unfold alloc_size, big_alloc_size. rewrite E2, E1, Em, Eu. apply load_Ok. by apply load64_write64_small.
  - apply frames_write; [done..|]. intros x _ Hx. apply write64_out. intros Hx'. apply Hx. exists pg.
    split; [done|]. apply in_page_addr. unfold in_range in Hx'. lia.
  - intros x Hx. rewrite wmem_with_mem. by apply write64_out.
Qed.

(** For a size within a page of 2^64 the page count wraps to 0: [malloc] takes
    one page, for the meta data, and returns the address behind it as a block of
    [size] bytes. *)
Theorem malloc_wraps w h size :
  heap_inv allocator w h -> W64 - page_size < size < W64 ->
  (exists pg w', malloc allocator size w = Ok (u64 (page_addr pg + page_size), w') /\
     (pg ∉ h_owned h) /\ frames_inv w' ({[pg]} ∪ h_owned h) /\
     load w' (page_addr pg) = Ok 0 /\ load w' (page_addr pg + 8) = Ok size) \/
  (malloc allocator size w = Panic /\ room w = O).
Proof.
  intros Hinv Hs.
  destruct (get_slab_from_spec allocator w h size 10 0 Hinv) as [(k & _ & Hk)|[Eg _]]; [lia..|by apply fits_small in Hk; lia|].
  unfold malloc, get_slab. rewrite Eg. bind_simpl. rewrite Z.eqb_refl. unfold big_malloc.
  assert (div_roundup size 4096 = 0) as ->.
  { unfold div_roundup. assert (u64 (u64 (size + 4096) - 1) = size + 4095 - W64) as ->.
    { assert (u64 (size + 4096) = size + 4096 - W64) as ->.
      { unfold wrap. symmetry. apply (Z.mod_unique _ _ 1); lia. }
      rewrite u64_small; lia. }
    change 4096 with (2 ^ 12) at 1 2. rewrite align_down_pow2 by lia. change (2 ^ 12) with 4096.
    rewrite Z.mod_small by lia. rewrite Z.sub_diag. done. }
  destruct (frames_alloc w (h_owned h) 1) as [(pg & w1 & E & Hdis & Hf1 & Em & Hd & _)|[E _]]; [apply Hinv|lia| |];
    change (u64 (0 + 1)) with 1; rewrite E.
  2:{ right. destruct (frames_room w (h_owned h)) as [(r & Er & _)|[_ Hr]]; [apply Hinv|congruence|done]. }
  left.
  assert (pages pg 1 = {[pg]}) as Ep by (apply set_eq; intros j; rewrite elem_of_pages, elem_of_singleton; lia).
  rewrite Ep in *. assert (pg ∈ {[pg]} ∪ h_owned h) as Hpg by (apply elem_of_union; left; by apply elem_of_singleton).
  destruct (page_in_pages w1 _ pg Hf1 Hpg) as (? & ? & Hv & Et & _).
  assert (valid (wmem w1) (page_addr pg) 8) as Hv1 by (eapply valid_sub; [apply Hv|lia..]).
  destruct (write64_ok (wmem w1) (page_addr pg) 0 (frames_wf _ _ Hf1) Hv1) as [Hwa Hda].
  assert (valid (write64 (wmem w1) (page_addr pg) 0) (page_addr pg + 8) 8) as Hv2.
  { eapply valid_same_dom; [done|]. eapply valid_sub; [apply Hv|lia..]. }
  destruct (write64_ok _ (page_addr pg + 8) size Hwa Hv2) as [Hwb Hdb].
  exists pg. eexists. split_and!.
  - bind_simpl. rewrite Et, store_valid by done. bind_simpl. rewrite (u64_small (page_addr pg + 8)) by lia.
    rewrite store_with_mem by done. bind_simpl. done.
  - intros Ho. apply (Hdis pg); [by apply elem_of_singleton|done].
  - apply frames_write; [done|done|by eapply same_dom_trans|]. intros x _ Hx.
    rewrite !write64_out; [done|..]; intros Hx'; apply Hx; exists pg; (split; [done|]); apply in_page_addr;
      unfold in_range in Hx'; lia.
  - apply load_Ok. rewrite load64_write64_ne by (unfold disjoint_ranges; lia). by apply load64_write64_small.
  - apply load_Ok. apply load64_write64_small. lia.
Qed.
End Claims.

(** ** Witnesses *)

Section Witnesses.
#[local] Existing Instance phys_frames.

Lemma live_is_cell : @is_cell phys (phys_frames sample_hhdm) sample_heap 0 live_cell.
Proof. apply (sample_is_cell 1). done. Qed.

Lemma live_block : @block phys (phys_frames sample_hhdm) sample_heap live_cell 16.
Proof.
  apply (@block_small phys (phys_frames sample_hhdm) sample_heap live_cell 0); [|exact live_is_cell].
  change (live_cell ∈ ({[live_cell]} : gset Z)). by apply elem_of_singleton.
Qed.

Lemma sample_big_block : @block phys (phys_frames sample_hhdm) sample_heap big_ptr 2000.
Proof.
  apply (@block_big phys (phys_frames sample_hhdm) sample_heap 3 1 2000). apply lookup_singleton_eq.
Qed.

Lemma sample_bytes p : sample_hhdm + 2 <= p /\ p + 16 <= sample_hhdm + 65536 ->
  forallb (fun av => (av.1 + 8 <=? p) || (p + 16 <=? av.1)) sample_writes = true ->
  bytes_at (ram sample_state) p (replicate (Z.to_nat 16) 0).
Proof.
  apply (machine_bytes 27 sample_pages); [exact sample_pages_ok|exact sample_stores_ok|done].
Qed.

Definition sample_view : gmap Z (list Z) :=
  {[live_cell := replicate (Z.to_nat 16) 0; big_ptr := replicate (Z.to_nat 16) 0]}.

Lemma sample_client_view :
  @client_view phys (phys_frames sample_hhdm) sample_laws sample_alloc sample_state sample_view.
Proof.
  exists sample_heap. split; [exact sample_heap_inv|]. intros p l Hp.
  unfold sample_view in Hp. apply lookup_insert_Some in Hp as [[<- <-]|[_ [<- <-]%lookup_singleton_Some]].
  - exists 16. split_and!; [exact live_block|by rewrite length_replicate|]. by apply sample_bytes.
  - exists 2000. split_and!; [exact sample_big_block|rewrite length_replicate; lia|]. by apply sample_bytes.
Qed.

Lemma malloc_correct_witness : exists p n w',
  @malloc phys (phys_frames sample_hhdm) sample_alloc 10 sample_state = Ok (p, w') /\ 10 <= n /\
  @alloc_size phys (phys_frames sample_hhdm) p w' = Ok n.
Proof.
  destruct (@malloc_correct phys (phys_frames sample_hhdm) sample_laws sample_alloc sample_state sample_heap 10
    sample_heap_inv) as [(p & n & w' & h' & E & Hle & _ & Ha)|(_ & Hf & _)];
    [lia|lia|exists p, n, w'; split; [exact E|split; [exact Hle|exact Ha]]|].
  exfalso. destruct (Hf 0) as [Hc _]; [|discriminate Hc]. split_and!; [lia|lia|by compute|lia].
Defined.

Lemma free_correct_witness : @alloc_size phys (phys_frames sample_hhdm) live_cell sample_state = Ok 16 /\
  exists w', @free phys (phys_frames sample_hhdm) live_cell sample_state = Ok w' /\
    exists w2, @malloc phys (phys_frames sample_hhdm) sample_alloc 10 w' = Ok (live_cell, w2).
Proof.
  destruct (@free_correct phys (phys_frames sample_hhdm) sample_laws sample_alloc sample_state sample_heap
    live_cell 16 sample_heap_inv live_block) as (Ha & _ & w' & h' & E & _ & _ & _ & Hc & _). split; [exact Ha|exists w'; split; [exact E|]].
  apply (Hc eq_refl 10 0); [lia| |reflexivity]. split_and!; [lia|lia|by compute|lia].
Defined.



Lemma heap_refines_witness : exists q w',
  @run_request phys (phys_frames sample_hhdm) sample_alloc (Rwrite live_cell 3 7) sample_state = Ok (q, w') /\
  @client_view phys (phys_frames sample_hhdm) sample_laws sample_alloc w'
    (<[live_cell := <[3%nat := 7]> (replicate (Z.to_nat 16) 0)]> sample_view).
Proof.
  destruct (@heap_refines phys (phys_frames sample_hhdm) sample_laws sample_alloc sample_state sample_view
    (Rwrite live_cell 3 7) sample_client_view) as [(q & w' & s' & E & (l & Hl & Hs) & Hv)|[_ Hf]].
  - split; [|lia]. exists (replicate (Z.to_nat 16) 0). split; [by vm_compute|]. rewrite length_replicate. lia.
  - exists q, w'. assert (sample_view !! live_cell = Some (replicate (Z.to_nat 16) 0)) as Hl' by (by vm_compute).
    rewrite Hl in Hl'. injection Hl' as ->. rewrite Hs in Hv. split; [exact E|exact Hv].
  - destruct Hf.
Defined.

Lemma heap_no_overlap_witness : disjoint_ranges live_cell 16 big_ptr 16.
Proof.
  destruct (@heap_no_overlap phys (phys_frames sample_hhdm) sample_laws sample_alloc sample_state sample_view
    live_cell big_ptr (replicate (Z.to_nat 16) 0) (replicate (Z.to_nat 16) 0) sample_client_view) as [H _];
    [by vm_compute|by vm_compute|by vm_compute|]. exact H.
Defined.

Lemma sample_room : pmm_room (machine_base 27) = 12%nat.
Proof.
  unfold pmm_room, free_pages.
  rewrite (filter_ext_in _ (fun i => Z.testbit 27 i = false)); [reflexivity|].
  intros i Hi%elem_of_seqZ. change (page_limit (machine_base 27)) with 16 in Hi. unfold machine_base, sample_phys. cbn [ram bitmap].
  rewrite sample_bit by lia. reflexivity.
Qed.

Lemma heap_init_correct_witness : exists w' h,
  @allocator_initialize phys (phys_frames sample_hhdm) sample_alloc (machine_base 27) = Ok w' /\
  @heap_inv phys (phys_frames sample_hhdm) sample_laws sample_alloc w' h.
Proof.
  destruct (@heap_init_correct phys (phys_frames sample_hhdm) sample_laws sample_alloc (machine_base 27)
    (list_to_set sample_pages)) as [(w' & h & E & Hi & _)|[_ Hr]].
  - exact (machine_base_inv 27 sample_pages sample_pages_ok sample_size).
  - apply (machine_table_ok 27 sample_pages sample_writes sample_pages_ok sample_stores_ok sample_size). by right.
  - exists w', h. split; [exact E|exact Hi].
  - exfalso. rewrite room_is_pmm_room, sample_room in Hr. lia.
Defined.

Lemma realloc_same_pages_witness : exists w',
  @realloc phys (phys_frames sample_hhdm) sample_alloc big_ptr 3000 sample_state = Ok (0, w') /\
  @alloc_size phys (phys_frames sample_hhdm) big_ptr w' = Ok 3000.
Proof.
  destruct (@realloc_same_pages phys (phys_frames sample_hhdm) sample_laws sample_alloc sample_state sample_heap
    3 1 2000 3000 sample_heap_inv) as (w' & E & Ha & _); [apply lookup_singleton_eq|lia|by vm_compute|].
  exists w'. split; [exact E|exact Ha].
Defined.

Lemma malloc_wraps_witness : exists p w',
  @malloc phys (phys_frames sample_hhdm) sample_alloc (W64 - 1) sample_state = Ok (p, w').
Proof.
  destruct (@malloc_wraps phys (phys_frames sample_hhdm) sample_laws sample_alloc sample_state sample_heap
    (W64 - 1) sample_heap_inv) as [(pg & w' & E & _)|[_ Hr]]; [lia|eexists _, w'; exact E|].
  exfalso. destruct sample_frames as (_ & _ & Er).
  rewrite room_is_pmm_room, Er, sample_room in Hr. discriminate Hr.
Defined.
End Witnesses.
