(* ===== verification/PhysicalInit.v ===== *)
(** * Correctness of [memory::physical::init]

    The three loops of [init] on the boot loader's memory map: what they leave in
    the bitmap and the counters, and that the page manager and the heap start in
    the invariants the other files assume. *)

From S2P Require Import Prelude Memory LibcString StringProofs Frames Math Bitmap Physical PhysicalProofs.
From S2P Require Import Heap HeapInv HeapProofs HeapTheorems Machine HeapClaims.

(** Page [i] lies in a usable entry. *)
Definition in_entry (e : memmap_entry) (i : Z) : bool :=
  (mm_base e <=? i * page_size) && (i * page_size <? mm_base e + mm_length e).
Definition usable_page (es : list memmap_entry) (i : Z) : bool :=
  existsb (fun e => is_usable e && in_entry e i) es.

(** Entries of whole pages below 2 GiB. *)
Definition entry_pages (e : memmap_entry) : Prop :=
  0 <= mm_base e /\ mm_base e mod page_size = 0 /\ 0 <= mm_length e /\
  mm_length e mod page_size = 0 /\ mm_base e + mm_length e <= 524288 * page_size.

Definition apart (e f : memmap_entry) : Prop :=
  is_usable e = true -> is_usable f = true ->
  disjoint_ranges (mm_base e) (mm_length e) (mm_base f) (mm_length f).

Lemma usable_page_spec es i : usable_page es i = true <->
  exists e, e ∈ es /\ is_usable e = true /\ in_entry e i = true.
Proof.
  unfold usable_page. rewrite existsb_exists.
  split; intros (e & He & Hu); exists e; rewrite andb_true_iff, list_elem_of_In in *; done.
Qed.

Lemma in_entry_spec e i : entry_pages e ->
  in_entry e i = true <-> mm_base e / page_size <= i < mm_base e / page_size + mm_length e / page_size.
Proof.
  intros (? & Hb & ? & Hl & _). unfold in_entry. rewrite andb_true_iff, Z.leb_le, Z.ltb_lt.
  pose proof (Z.div_mod (mm_base e) page_size). pose proof (Z.div_mod (mm_length e) page_size). lia.
Qed.

(** ** The first loop *)

Section Scan.

(** The sum of the lengths of the usable entries. *)
Definition usable_bytes (es : list memmap_entry) : Z :=
  foldr (fun e n => (if is_usable e then mm_length e else 0) + n) 0 es.

Lemma scan_memmap_spec es st :
  let st' := scan_memmap es st in
  bitmap st' = bitmap st /\ last_index st' = last_index st /\ ram st' = ram st /\
  used_memory st' = used_memory st /\
  (0 <= usable_memory st < W64 -> usable_memory st' = u64 (usable_memory st + usable_bytes es)) /\
  mem_usable_top st <= mem_usable_top st' /\
  (forall e, e ∈ es -> is_usable e = true -> u64 (mm_base e + mm_length e) <= mem_usable_top st') /\
  (mem_usable_top st' = mem_usable_top st \/
   exists e, e ∈ es /\ is_usable e = true /\ mem_usable_top st' = u64 (mm_base e + mm_length e)).
Proof.
  revert st. induction es as [|e es IH]; intros st; cbn [scan_memmap fold_left usable_bytes foldr].
  { rewrite Z.add_0_r. split_and!; try done; [|by intros e ?%elem_of_nil|by left]. intros. by rewrite u64_small. }
  destruct (IH (scan_entry st e)) as (Hb & Hl & Hr & Hu & Hs & Ht & Ha & He). fold (scan_memmap es (scan_entry st e)).
  unfold scan_entry in *. destruct (is_usable e) eqn:Eu; cbn in *.
  - split_and!; try done; try lia.
    + intros _. rewrite Hs by apply u64_range. rewrite u64_add_idemp. f_equal. unfold usable_bytes. lia.
    + intros f [->|Hf]%elem_of_cons Huf; [lia|by apply Ha].
    + destruct He as [He|(f & Hf & Huf & Ef)].
      * rewrite He. destruct (Z.max_spec (mem_usable_top st) (u64 (mm_base e + mm_length e))) as [[_ E]|[_ E]].
        -- right. exists e. split_and!; [left|done|exact E].
        -- by left.
      * right. exists f. split_and!; [by right|done|done].
  - split_and!; try done.
    + intros f [->|Hf]%elem_of_cons Huf; [congruence|by apply Ha].
    + destruct He as [He|(f & Hf & Huf & Ef)]; [by left|].
      right. exists f. split_and!; [by right|done|done].
Qed.
End Scan.

(** ** The second loop *)

Definition shrink (n : Z) (e : memmap_entry) : memmap_entry :=
  MemmapEntry (mm_base e + n) (mm_length e - n) (mm_type e).

Lemma place_bitmap_spec hhdm n es st :
  mem_wf (ram st) -> 0 < n <= 524288 * page_size -> 524288 * page_size < hhdm -> hhdm + 524288 * page_size <= W64 ->
  (forall e, e ∈ es -> is_usable e = true ->
     entry_pages e /\ valid (ram st) (hhdm + mm_base e) (mm_length e)) ->
  (exists e, e ∈ es /\ is_usable e = true /\ n <= mm_length e) ->
  exists pre e post, es = pre ++ e :: post /\ is_usable e = true /\ n <= mm_length e /\
    place_bitmap hhdm n es st = Ok (pre ++ shrink n e :: post,
      Phys (mem_usable_top st) (last_index st) (Bitmap (hhdm + mm_base e) n) (usable_memory st)
           (total_memory st) (u64 (used_memory st + n)) (mem_top st)
           (write_bytes (ram st) (hhdm + mm_base e) (replicate (Z.to_nat n) 255))).
Proof.
  intros Hwf Hn Hh0 Hh Hes Hex. induction es as [|e es IH].
  { by destruct Hex as (e & ?%elem_of_nil & _). }
  cbn [place_bitmap]. destruct (is_usable e && (n <=? mm_length e)) eqn:Ec.
  - apply andb_true_iff in Ec as [Hu Hl%Z.leb_le]. exists [], e, es.
    destruct (Hes e) as [(Hb & _ & Hlen & _ & Ht) Hv]; [left|done|].
    split_and!; try done. cbn [bitmap_reassign buffer bm_size].
    rewrite tohh_low by lia. replace (mm_base e + hhdm) with (hhdm + mm_base e) by lia.
    rewrite (memset_valid _ Hwf) by (lia || (eapply valid_sub; [exact Hv|lia..])).
    bind_simpl. unfold shrink. rewrite !u64_small by lia. done.
  - destruct IH as (pre & f & post & -> & Hu & Hl & E).
    + intros f Hf. apply Hes. by right.
    + destruct Hex as (f & [->|Hf]%elem_of_cons & Hu & Hl); [|by exists f].
      rewrite Hu, (proj2 (Z.leb_le _ _)) in Ec by done. done.
    + exists (e :: pre), f, post. split_and!; [done..|]. by rewrite E.
Qed.

(** ** The third loop *)

(** The pages of one entry are one range of bits. *)
Lemma free_entry_range bm e m : entry_pages e -> is_usable e = true ->
  free_entry bm e m =
  set_range bm (mm_base e / page_size) (mm_base e / page_size + mm_length e / page_size) false m.
Proof.
  intros (Hb & Hbm & Hl & Hlm & Ht) Hu. unfold free_entry, set_range, for_range. rewrite Hu.
  pose proof (Z.div_mod (mm_base e) page_size). pose proof (Z.div_mod (mm_length e) page_size).
  set (b := mm_base e / page_size) in *. set (l := mm_length e / page_size) in *.
  replace ((mm_length e + page_size - 1) / page_size) with l.
  2:{ replace (mm_length e + page_size - 1) with (page_size - 1 + l * page_size) by lia.
      rewrite Z.div_add by lia. by rewrite Z.div_small by lia. }
  replace (b + l - b) with l by lia. apply for_steps_shift. intros k s Hk.
  rewrite u64_small by lia. replace ((mm_base e + (0 + k * page_size)) / page_size) with (b + k * 1); [done|].
  replace (mm_base e + (0 + k * page_size)) with ((b + k) * page_size) by lia. rewrite Z.div_mul; lia.
Qed.

(** [m'] is [m] with the bits of the pages that satisfy [P] cleared. *)
Record bits_freed (m : mem) (bm : bitmap_t) (n : Z) (P : Z -> bool) (m' : mem) : Prop := {
  bf_wf : mem_wf m';
  bf_dom : same_dom m m';
  bf_bits : forall j, 0 <= j -> bit_of m' bm j = if P j then false else bit_of m bm j;
  bf_frame : forall a, ~ bit_region bm n a -> m' !! a = m !! a;
}.

Lemma free_entries_spec bm n es m :
  mem_wf m -> n <= 524288 -> bits_valid m bm n ->
  (forall e, e ∈ es -> is_usable e = true -> entry_pages e /\ mm_base e + mm_length e <= n * page_size) ->
  exists m', free_entries bm es m = Ok m' /\ bits_freed m bm n (usable_page es) m'.
Proof.
  intros Hwf Hn Hv Hes. revert m Hwf Hv. induction es as [|e es IH]; intros m Hwf Hv; cbn [free_entries].
  { exists m. split; [done|]. by constructor. }
  assert (forall f, f ∈ es -> is_usable f = true ->
    entry_pages f /\ mm_base f + mm_length f <= n * page_size) as Hes' by (intros f Hf; apply Hes; by right).
  destruct (is_usable e) eqn:Eu.
  - destruct (Hes e) as [He Ht]; [left|done|]. rewrite free_entry_range by done.
    pose proof He as (Hb & Hbm & Hl & Hlm & Hbl).
    pose proof (Z.div_mod (mm_base e) page_size). pose proof (Z.div_mod (mm_length e) page_size).
    destruct (set_range_spec m Hwf bm n Hn Hv (mm_base e / page_size)
      (mm_base e / page_size + mm_length e / page_size) false) as (m1 & -> & [Hw Hd Hbits Hf]); [lia|lia|].
    bind_simpl. destruct (IH Hes' m1 Hw) as (m2 & -> & [Hw2 Hd2 Hb2 Hf2]).
    { intros i Hi. by apply Hd, Hv. }
    exists m2. split; [done|]. constructor; [done|by eapply same_dom_trans| |].
    + intros j Hj. rewrite Hb2, Hbits by done. cbn [usable_page existsb]. rewrite Eu. cbn [andb].
      destruct (in_entry_spec e j He) as [Hin1 Hin2]. fold (usable_page es j).
      destruct (usable_page es j); [by rewrite orb_true_r|rewrite orb_false_r].
      case_decide as Hd'; [by rewrite Hin2|]. destruct (in_entry e j); [|done].
      destruct Hd'. by apply Hin1.
    + intros a Ha. by rewrite Hf2, Hf.
  - unfold free_entry at 1. rewrite Eu. bind_simpl. destruct (IH Hes' m Hwf Hv) as (m2 & -> & [Hw2 Hd2 Hb2 Hf2]).
    exists m2. split; [done|]. constructor; [done..| |done].
    intros j Hj. rewrite Hb2 by done. cbn [usable_page existsb]. by rewrite Eu.
Qed.

(** ** The whole of [init] *)

(** What the boot loader promises of the memory map [es], for a machine with less
    than 2 GiB of usable memory: whole, disjoint pages, mapped at [hhdm], and not
    the page at address 0. *)
Record memmap_ok (hhdm : Z) (m : mem) (es : list memmap_entry) : Prop := {
  mo_wf : mem_wf m;
  mo_hhdm : 524288 * page_size < hhdm /\ hhdm + 524288 * page_size <= W64;
  mo_entry : forall e, e ∈ es -> is_usable e = true ->
    entry_pages e /\ 0 < mm_base e /\ valid m (hhdm + mm_base e) (mm_length e);
  mo_apart : ForallOrdPairs apart es;
  mo_usable : exists e, e ∈ es /\ is_usable e = true /\ 0 < mm_length e;
}.

(** Pages below the top of the usable memory. *)
Definition map_limit (es : list memmap_entry) : Z :=
  mem_usable_top (scan_memmap es (phys_zero ∅)) / page_size.
Definition map_bitmap (es : list memmap_entry) : Z := align_up (map_limit es / 8) page_size.

Lemma scan_top es m : mem_usable_top (scan_memmap es (phys_zero m)) =
  mem_usable_top (scan_memmap es (phys_zero ∅)).
Proof.
  assert (forall st st', mem_usable_top st = mem_usable_top st' ->
    mem_usable_top (scan_memmap es st) = mem_usable_top (scan_memmap es st')) as H; [|by apply H].
  induction es as [|e es IH]; intros st st' E; [done|]. apply IH. unfold scan_entry.
  destruct (is_usable e); cbn; by rewrite E.
Qed.

(** The part of an entry that the bitmap takes. *)
Definition entry_head (n : Z) (e : memmap_entry) : memmap_entry := MemmapEntry (mm_base e) n (mm_type e).

Lemma apart_others pre e post f :
  ForallOrdPairs apart (pre ++ e :: post) -> f ∈ pre ++ post -> is_usable e = true -> is_usable f = true ->
  disjoint_ranges (mm_base e) (mm_length e) (mm_base f) (mm_length f).
Proof.
  intros Hp Hf He Hu. induction pre as [|g pre IH]; cbn [app] in *; inversion Hp as [|? ? H1 H2]; subst.
  - rewrite Forall_forall in H1. by apply H1.
  - apply elem_of_cons in Hf as [->|Hf]; [|by apply IH].
    rewrite Forall_forall in H1. assert (apart g e) as Ha.
    { apply H1. apply elem_of_app. right. left. }
    specialize (Ha Hu He). unfold disjoint_ranges in *. lia.
Qed.

(** The pages left after the bitmap took its place. *)
Lemma usable_page_shrink pre e post n i :
  ForallOrdPairs apart (pre ++ e :: post) -> is_usable e = true -> 0 <= n <= mm_length e ->
  usable_page (pre ++ shrink n e :: post) i =
  usable_page (pre ++ e :: post) i && negb (in_entry (entry_head n e) i).
Proof.
  intros Hp Hu Hn. unfold usable_page. rewrite !existsb_app. cbn [existsb].
  change (is_usable (shrink n e)) with (is_usable e). rewrite Hu. cbn [andb].
  destruct (in_entry (entry_head n e) i) eqn:Eh; cbn [negb].
  - assert (forall l, (forall f, f ∈ l -> f ∈ pre ++ post) ->
      existsb (fun e => is_usable e && in_entry e i) l = false) as Hno.
    { intros l Hl. apply not_true_iff_false. rewrite existsb_exists. intros (f & Hf%list_elem_of_In & Ef).
      apply andb_true_iff in Ef as [Huf Hi].
      pose proof (apart_others pre e post f Hp (Hl f Hf) Hu Huf) as Hd.
      unfold in_entry, entry_head, disjoint_ranges in *. cbn in *. lia. }
    rewrite !Hno by (intros f Hf; apply elem_of_app; auto). rewrite andb_false_r. cbn [orb].
    unfold in_entry, entry_head, shrink in *. cbn in *. lia.
  - rewrite andb_true_r. do 2 f_equal. unfold in_entry, entry_head, shrink in *. cbn in *. lia.
Qed.

Section Map.
Context (hhdm : Z) (m : mem) (es : list memmap_entry) (Hok : memmap_ok hhdm m es).

Lemma map_limit_spec : 0 < map_limit es <= 524288 /\
  forall e, e ∈ es -> is_usable e = true -> mm_base e + mm_length e <= map_limit es * page_size.
Proof.
  destruct (scan_memmap_spec es (phys_zero ∅)) as (_ & _ & _ & _ & _ & H0 & Ha & He).
  unfold map_limit. set (top := mem_usable_top (scan_memmap es (phys_zero ∅))) in *.
  assert (forall e, e ∈ es -> is_usable e = true -> mm_base e + mm_length e <= top) as Hle.
  { intros e Hin Hu. specialize (Ha e Hin Hu). destruct (mo_entry _ _ _ Hok e Hin Hu) as [(?&?&?&?&?) _].
    rewrite u64_small in Ha by lia. done. }
  destruct (mo_usable _ _ _ Hok) as (u & Hin & Hu & Hlen). pose proof (Hle u Hin Hu) as Hut.
  destruct (mo_entry _ _ _ Hok u Hin Hu) as [(?&?&?&?&?) [Hu0 _]].
  destruct He as [He|(e & Hine & Hue & He)]; [simpl in He; lia|].
  destruct (mo_entry _ _ _ Hok e Hine Hue) as [(?&?&?&?&?) _]. rewrite u64_small in He by lia.
  pose proof (Z.div_mod (mm_base e) page_size). pose proof (Z.div_mod (mm_length e) page_size).
  assert (top / page_size = mm_base e / page_size + mm_length e / page_size) as Et.
  { rewrite He. replace (mm_base e + mm_length e) with ((mm_base e / page_size + mm_length e / page_size) * page_size) by lia.
    by rewrite Z.div_mul. }
  rewrite Et. split; [lia|]. intros f Hf Huf. specialize (Hle f Hf Huf). lia.
Qed.

Context (Hfit : map_limit es <= 8 * map_bitmap es).
Context (Hroom : exists e, e ∈ es /\ is_usable e = true /\ map_bitmap es <= mm_length e).
Local Abbreviation n := (map_bitmap es).

Lemma map_bitmap_range : 0 < n <= 69632 /\ n mod page_size = 0.
Proof.
  destruct map_limit_spec as [Hl _]. unfold map_bitmap in *.
  assert (0 <= map_limit es / 8 <= 65536).
  { split; [apply Z.div_pos; lia|apply Z.div_le_upper_bound; lia]. }
  change page_size with (2 ^ 12) in *. rewrite align_up_pow2 in * by lia.
  set (q := (map_limit es / 8 + 2 ^ 12 - 1) / 2 ^ 12) in *.
  assert (q <= 17) by (apply Z.div_le_upper_bound; lia). split; [lia|]. by rewrite Z.mod_mul.
Qed.

(** The state [init] leaves; the bitmap is at the start of the entry [e]. *)
Record initialised (e : memmap_entry) (st : phys) : Prop := {
  in_usable : e ∈ es /\ is_usable e = true /\ n <= mm_length e;
  in_limit : page_limit st = map_limit es;
  in_bitmap : bitmap st = Bitmap (hhdm + mm_base e) n;
  in_counters : last_index st = 0 /\ usable_memory st = u64 (usable_bytes es) /\ used_memory st = n;
  in_wf : mem_wf (ram st);
  in_dom : same_dom m (ram st);
  in_frame : same_outside m (ram st) (hhdm + mm_base e) n;
  in_bits : forall i, 0 <= i < map_limit es -> bit_of (ram st) (bitmap st) i =
    negb (usable_page es i && negb (in_entry (entry_head n e) i));
}.

(** The bytes of ones the bitmap starts with. *)
Lemma bit_of_ones p k i : 0 <= i < 8 * k ->
  bit_of (write_bytes m p (replicate (Z.to_nat k) 255)) (Bitmap p k) i = true.
Proof.
  intros Hi. assert (0 <= i / 8 < k) by (split; [apply Z.div_pos; lia|apply Z.div_lt_upper_bound; lia]).
  pose proof (Z.mod_pos_bound i 8). unfold bit_of. simpl.
  rewrite lookup_write_bytes_in by (unfold in_range; rewrite length_replicate; lia).
  replace (p + i / 8 - p) with (i / 8) by lia.
  rewrite (lookup_replicate_2 (Z.to_nat k) 255) by lia. simpl.
  change 255 with (Z.ones 8). apply Z.ones_spec_low. lia.
Qed.

Lemma region_in_head e a : bit_region (Bitmap (hhdm + mm_base e) n) (map_limit es) a ->
  in_range (hhdm + mm_base e) n a.
Proof.
  intros (j & Hj & ->). simpl. unfold in_range.
  assert (0 <= j / 8 < n) by (split; [apply Z.div_pos; lia|apply Z.div_lt_upper_bound; lia]). lia.
Qed.

Lemma init_frames_spec : exists e es' st',
  init_frames hhdm es (phys_zero m) = Ok (es', st') /\ initialised e st'.
Proof.
  destruct map_limit_spec as [Hlim Htop]. destruct map_bitmap_range as [Hn Hnp].
  destruct Hok as [Hwf Hhh Hent Hap _]. unfold init_frames.
  destruct (scan_memmap_spec es (phys_zero m)) as (Hb & Hli & Hr & Hu & Hs & _).
  assert (mem_usable_top (scan_memmap es (phys_zero m)) / page_size = map_limit es) as Et
    by (unfold map_limit; by rewrite scan_top).
  unfold bitmap_bytes. rewrite Et. fold n. set (st1 := scan_memmap es (phys_zero m)) in *. cbn [ram phys_zero] in Hr.
  destruct (place_bitmap_spec hhdm n es st1) as (pre & e & post & Ees & Hue & Hne & ->);
    [by rewrite Hr|lia|lia|lia| |done|].
  { intros f Hf Huf. destruct (Hent f Hf Huf) as (? & _ & ?). by rewrite Hr. }
  assert (e ∈ es) as He by (rewrite Ees; apply elem_of_app; right; left).
  destruct (Hent e He Hue) as ((Hb0 & Hbm & Hl0 & Hlm & Htp) & Hpos & Hval).
  bind_simpl. cbn [bitmap ram]. rewrite Hr. set (l := replicate (Z.to_nat n) 255).
  assert (Z.of_nat (length l) = n) as El by (unfold l; rewrite length_replicate; lia).
  assert (valid m (hhdm + mm_base e) n) as Hvn by (eapply valid_sub; [exact Hval|lia..]).
  set (m1 := write_bytes m (hhdm + mm_base e) l).
  assert (same_dom m m1) as Hd1 by (apply write_bytes_same_dom; by rewrite El).
  destruct (free_entries_spec (Bitmap (hhdm + mm_base e) n) (map_limit es) (pre ++ shrink n e :: post) m1)
    as (m2 & -> & [Hw2 Hd2 Hb2 Hf2]).
  - apply write_bytes_wf; [done|by rewrite El|]. apply Forall_replicate. lia.
  - lia.
  - intros j Hj. apply Hd1. destruct (region_in_head e (hhdm + mm_base e + j / 8)) as [Ha1 Ha2]; [by exists j|].
    replace (hhdm + mm_base e + j / 8) with (hhdm + mm_base e + (j / 8)) by lia. apply Hvn. lia.
  - intros f Hf Huf. assert (f ∈ es \/ f = shrink n e) as [Hf'| ->].
    { rewrite Ees at 1. rewrite elem_of_app, elem_of_cons. rewrite elem_of_app, elem_of_cons in Hf. tauto. }
    + split; [by apply Hent|by apply Htop].
    + specialize (Htop e He Hue). unfold entry_pages, shrink. cbn. split_and!; try lia.
      * by rewrite <- Zplus_mod_idemp_l, Hbm, Z.add_0_l.
      * by rewrite Zminus_mod, Hlm, Hnp.
  - bind_simpl. eexists e, _, _. split; [done|].
    constructor; cbn; try done.
    + rewrite Hli, Hu, Hs by (simpl; lia). split_and!; [done..|]. by rewrite u64_small by (simpl; lia).
    + by eapply same_dom_trans.
    + intros a Ha. rewrite Hf2 by (intros Hreg; by apply Ha, region_in_head).
      apply lookup_write_bytes_out. by rewrite El.
    + intros i Hi. rewrite Hb2 by lia. unfold m1, l. rewrite bit_of_ones by lia.
      rewrite usable_page_shrink by (first [by rewrite <- Ees | done | lia]). rewrite <- Ees.
      by destruct (usable_page es i && _).
Qed.

Lemma free_usable e st i : initialised e st -> 0 <= i < map_limit es ->
  bit_of (ram st) (bitmap st) i = false <-> usable_page es i = true /\ in_entry (entry_head n e) i = false.
Proof.
  intros [_ _ _ _ _ _ _ Hb] Hi. rewrite Hb by done.
  destruct (usable_page es i), (in_entry _ i); cbn; split; try done; by intros [? ?].
Qed.

Lemma usable_page_mapped i : usable_page es i = true -> 0 < i /\ valid m (hhdm + i * page_size) page_size.
Proof.
  intros (f & Hf & Hu & Hi)%usable_page_spec. destruct (mo_entry _ _ _ Hok f Hf Hu) as ((?&?&?&?&?) & Hp & Hv).
  unfold in_entry in Hi. rewrite andb_true_iff, Z.leb_le, Z.ltb_lt in Hi.
  pose proof (Z.div_mod (mm_base f) page_size). pose proof (Z.div_mod (mm_length f) page_size).
  split; [lia|]. eapply valid_sub; [exact Hv|lia..].
Qed.

Lemma initialised_inv e st : initialised e st -> map_limit es <= 2048 -> pmm_inv hhdm st ∅.
Proof.
  intros Hin H2048. pose proof (free_usable e st) as Hfree.
  destruct map_limit_spec as [Hlim _]. destruct map_bitmap_range as [Hn Hnp].
  pose proof Hin as [(He & Hue & Hne) Hl Hb (Hli & _ & Hus) Hwf Hdom _ _].
  assert (forall i, 0 <= i < map_limit es -> bit_of (ram st) (bitmap st) i = false ->
    usable_page es i = true /\ in_entry (entry_head n e) i = false) as Hfr by (intros i Hi Hbit; by apply Hfree).
  destruct (mo_hhdm _ _ _ Hok). destruct (mo_entry _ _ _ Hok e He Hue) as ((?&Hbm&?&?&?) & Hp & Hv).
  constructor; rewrite ?Hl, ?Hli, ?Hus, ?size_empty; try done; try lia.
  - intros i Hi. rewrite Hb. simpl. apply Hdom.
    destruct (region_in_head e (hhdm + mm_base e + i / 8)) as [? ?]; [by exists i|].
    apply Hv. lia.
  - split; [|done]. apply not_false_iff_true. intros Hz. destruct (Hfr 0) as [Hu _]; [lia|done|].
    apply usable_page_mapped in Hu. lia.
  - intros i Hi [Hbit|?%elem_of_empty]; [|done]. destruct (Hfr i Hi Hbit) as [Hu Hh].
    destruct (usable_page_mapped i Hu) as [_ Hval]. split; [by eapply valid_same_dom|].
    intros a Ha Hr. rewrite Hb in Hr. apply region_in_head in Hr.
    unfold in_entry, entry_head, in_range in *. cbn in Hh.
    pose proof (Z.div_mod (mm_base e) page_size). pose proof (Z.div_mod n page_size). lia.
Qed.

(** A usable entry has [k] pages behind room for the bitmap. *)
Definition memory_run (k : Z) : bool :=
  existsb (fun e => is_usable e && (map_bitmap es + k * page_size <=? mm_length e)) es.

Lemma initialised_run e st k : initialised e st -> memory_run k = true -> pmm_run st k.
Proof.
  intros Hin (f & Hf%list_elem_of_In & Hr)%existsb_exists. apply andb_true_iff in Hr as [Hu Hk%Z.leb_le].
  pose proof Hin as [(He & Hue & Hne) Hl _ (Hli & _ & _) _ _ _ _].
  destruct (mo_entry _ _ _ Hok e He Hue) as (Hep & _ & _). destruct (mo_entry _ _ _ Hok f Hf Hu) as (Hfp & _ & _).
  pose proof Hep as (?&?&?&?&?). pose proof Hfp as (?&?&?&?&?).
  destruct map_limit_spec as [Hlim Htop]. specialize (Htop f Hf Hu). destruct map_bitmap_range as [Hn Hnp].
  pose proof (Z.div_mod (mm_base f) page_size). pose proof (Z.div_mod (mm_length f) page_size).
  pose proof (Z.div_mod n page_size). exists (mm_base f / page_size + n / page_size).
  rewrite Hli, Hl. split_and!; [lia|lia|]. intros i Hi. apply (free_usable e st i Hin); [lia|].
  assert (in_entry f i = true) as Hif by (apply (in_entry_spec f i Hfp); lia). split; [apply usable_page_spec; by exists f|].
  apply not_true_iff_false. intros Hie. unfold in_entry, entry_head in *. cbn in Hie.
  rewrite andb_true_iff, Z.leb_le, Z.ltb_lt in Hie, Hif.
  destruct (ForallOrdPairs_In (mo_apart _ _ _ Hok) e f) as [<-|[Ha|Ha]]; [by apply list_elem_of_In..| | |].
  - lia.
  - specialize (Ha Hue Hu). unfold disjoint_ranges in Ha. lia.
  - specialize (Ha Hu Hue). unfold disjoint_ranges in Ha. lia.
Qed.

Lemma memory_run_le k k' : memory_run k = true -> k' <= k -> memory_run k' = true.
Proof.
  intros (f & Hf & Hr)%existsb_exists Hk. apply existsb_exists. exists f. split; [done|].
  apply andb_true_iff in Hr as [-> Hr%Z.leb_le]. apply Z.leb_le. lia.
Qed.

(** The pages left for the heap. *)
Definition usable_pages : list Z := filter (fun i => usable_page es i = true) (seqZ 0 (map_limit es)).

Lemma initialised_room e st : initialised e st -> map_limit es <= 2048 ->
  (length usable_pages <= S (pmm_room st))%nat.
Proof.
  intros Hin H2048. pose proof Hin as [(He & Hue & _) Hl _ _ _ _ _ _].
  destruct (mo_entry _ _ _ Hok e He Hue) as ((?&?&_&_&_) & _ & _).
  destruct map_limit_spec as [Hlim _]. destruct map_bitmap_range as [Hn _].
  assert (n <= page_size) as Hpg.
  { unfold map_bitmap. assert (0 <= map_limit es / 8 <= 256).
    { split; [apply Z.div_pos; lia|apply Z.div_le_upper_bound; lia]. }
    change page_size with (2 ^ 12) at 1. rewrite align_up_pow2 by lia.
    assert ((map_limit es / 8 + 2 ^ 12 - 1) / 2 ^ 12 < 2); [|lia]. apply Z.div_lt_upper_bound; lia. }
  change (S (pmm_room st)) with (length ((mm_base e / page_size) :: free_pages st)).
  apply submseteq_length, NoDup_submseteq; [apply NoDup_filter, NoDup_seqZ|].
  intros i [Hu Hi%elem_of_seqZ]%list_elem_of_filter. apply elem_of_cons.
  destruct (in_entry (entry_head n e) i) eqn:Eh.
  - left. unfold in_entry, entry_head in Eh. cbn in Eh. pose proof (Z.div_mod (mm_base e) page_size). lia.
  - right. apply list_elem_of_filter. split; [apply (free_usable e st i Hin); [lia|done]|].
    apply elem_of_seqZ. rewrite Hl. lia.
Qed.
End Map.

(** ** Properties *)

(** [init] as one step. *)
Lemma physical_init_spec hhdm m es allocator (Hal : hhdm mod page_size = 0) :
  memmap_ok hhdm m es -> map_limit es <= 2048 -> map_limit es <= 8 * map_bitmap es ->
  (exists e, e ∈ es /\ is_usable e = true /\ map_bitmap es <= mm_length e) ->
  0 < allocator -> valid m allocator 169 ->
  disjoint_ranges allocator 169 hhdm (524288 * page_size) ->
  exists e es' st, init_frames hhdm es (phys_zero m) = Ok (es', st) /\
    initialised hhdm m es e st /\ pmm_inv hhdm st ∅ /\
    ((exists st' h, physical_init hhdm allocator es (phys_zero m) = Ok (es', st') /\
        @heap_inv phys (phys_frames hhdm) (phys_frame_laws hhdm Hal) allocator st' h /\
        (forall p k, ~ @block phys (phys_frames hhdm) h p k) /\
        (forall k, memory_run es (10 + k) = true -> pmm_run st' k)) \/
     (physical_init hhdm allocator es (phys_zero m) = Panic /\ (length (usable_pages es) < 11)%nat /\
        memory_run es 10 = false)).
Proof.
  intros Hok H2048 Hfit Hroom Ha Hva Hda.
  destruct (init_frames_spec hhdm m es Hok Hfit Hroom) as (e & es' & st & E & Hin).
  pose proof (initialised_inv hhdm m es Hok Hfit Hroom e st Hin H2048) as Hinv.
  exists e, es', st. split_and!; [done..|]. unfold physical_init. rewrite E. bind_simpl.
  destruct (@allocator_initialize_spec phys (phys_frames hhdm) (phys_frame_laws hhdm Hal) allocator st ∅ Hinv)
    as [(st' & h & -> & Hh & Hno & _ & _ & Hrun)|(-> & Hr & Hno)].
  - split_and!; [done|by eapply valid_same_dom; [apply (in_dom _ _ _ _ _ Hin)|]|].
    intros a Hax Hm. destruct Hin as [(He & Hue & Hne) Hl Hb _ _ _ _ _].
    destruct (mo_hhdm _ _ _ Hok). destruct (mo_entry _ _ _ Hok e He Hue) as ((?&?&?&?&?) & _ & _).
    unfold disjoint_ranges, in_range in *. destruct Hm as [Hm|Hm].
    + rewrite Hl, Hb in Hm. apply region_in_head in Hm; [|done]. unfold in_range in Hm. lia.
    + unfold in_range in Hm. rewrite Hl in Hm. lia.
  - left. exists st', h. split_and!; [done|done|done|]. intros k Hk. apply (initialised_run hhdm m es Hok Hfit Hroom e st) in Hk; [|done].
    apply Hrun in Hk. by replace (10 + k - 10) with k in Hk by lia.
  - right. split_and!; [done| |].
    2:{ apply not_true_iff_false. intros Hk. by apply Hno, (initialised_run hhdm m es Hok Hfit Hroom e st). }
    pose proof (initialised_room hhdm m es Hok Hfit Hroom e st Hin H2048).
    change (@room phys (phys_frames hhdm) (phys_frame_laws hhdm Hal) st) with (pmm_room st) in Hr. lia.
Qed.

(** The memory map afterwards: one usable entry may have lost pages at its start. *)
Definition shrunk (e e' : memmap_entry) : Prop :=
  e' = e \/ is_usable e = true /\ exists n, e' = MemmapEntry (u64 (mm_base e + n)) (u64 (mm_length e - n)) (mm_type e) /\
    0 <= n <= mm_length e.

Lemma place_bitmap_shrinks hhdm n es : 0 <= n -> forall st es' st', place_bitmap hhdm n es st = Ok (es', st') -> Forall2 shrunk es es'.
Proof.
  intros Hn0. induction es as [|e es IH]; intros st es' st' E; cbn [place_bitmap] in E; [by injection E as <- _|].
  destruct (is_usable e && (n <=? mm_length e)) eqn:Ec.
  - apply andb_true_iff in Ec as [Hu Hn%Z.leb_le]. apply bind_inv in E as ([? ?] & _ & [= <- _]). constructor.
    + right. split; [done|]. by exists n.
    + apply Forall_Forall2_diag, Forall_forall. by left.
  - apply bind_inv in E as ([es1 st1] & E1 & [= <- <-]). constructor; [by left|]. by apply (IH st es1 st1).
Qed.

Lemma physical_init_shrinks hhdm allocator es st es' st' :
  physical_init hhdm allocator es st = Ok (es', st') -> Forall2 shrunk es es'.
Proof.
  intros E. apply bind_inv in E as ([es1 st1] & E & E2). apply bind_inv in E2 as (? & _ & [= <- _]).
  apply bind_inv in E as ([es2 st2] & E & E2). apply bind_inv in E2 as (? & _ & [= <- _]).
  apply place_bitmap_shrinks in E; [done|]. apply Z.land_nonneg. left. apply u64_range.
Qed.

(** C11: on a memory map of whole, disjoint and mapped pages below 8 MiB whose
    bitmap fits, [init] ends in the invariant of the page manager with nothing
    handed out: the bitmap occupies the start of a usable entry, exactly the other
    usable pages are free, nothing else in memory changed, and the counters hold
    the usable bytes and the bitmap's. The heap constructed last is empty and in
    its invariant, and but for ten pages the runs of the map are left for allocations;
    with eleven usable pages its construction cannot panic. *)
Theorem physical_init_correct hhdm m es allocator (Hal : hhdm mod page_size = 0) :
  memmap_ok hhdm m es -> map_limit es <= 2048 -> map_limit es <= 8 * map_bitmap es ->
  (exists e, e ∈ es /\ is_usable e = true /\ map_bitmap es <= mm_length e) ->
  0 < allocator -> valid m allocator 169 ->
  disjoint_ranges allocator 169 hhdm (524288 * page_size) ->
  exists e es' st, init_frames hhdm es (phys_zero m) = Ok (es', st) /\
    initialised hhdm m es e st /\ pmm_inv hhdm st ∅ /\
    ((exists st' h, physical_init hhdm allocator es (phys_zero m) = Ok (es', st') /\
        @heap_inv phys (phys_frames hhdm) (phys_frame_laws hhdm Hal) allocator st' h /\
        (forall p k, ~ @block phys (phys_frames hhdm) h p k) /\
        (forall k, memory_run es (10 + k) = true -> pmm_run st' k)) \/
     (physical_init hhdm allocator es (phys_zero m) = Panic /\ (length (usable_pages es) < 11)%nat /\
        memory_run es 10 = false)).
Proof. apply physical_init_spec. Qed.

(** A reserved page at address 0 and 4 MiB of usable memory behind it. *)
Definition boot_hhdm_base : Z := 4294967296.
Definition boot_map : list memmap_entry :=
  [MemmapEntry 0 4096 (LIMINE_MEMMAP_OTHER 1); MemmapEntry 4096 4194304 LIMINE_MEMMAP_USABLE].

Section Sample.
Context (hh : Z) (Hh : 524288 * page_size < hh /\ hh + 524288 * page_size <= W64).

Definition boot_ram : mem := write_bytes sample_base (hh + 4096) (replicate (Z.to_nat 4194304) 0).

Lemma boot_ram_valid : valid boot_ram (hh + 4096) 4194304 /\ valid boot_ram sample_alloc 169.
Proof.
  split; intros i Hi; unfold boot_ram.
  - rewrite lookup_write_bytes_in by (rewrite length_replicate; unfold in_range; lia).
    apply lookup_Z_is_Some. rewrite length_replicate. lia.
  - rewrite lookup_write_bytes_out by (rewrite length_replicate; unfold in_range, sample_alloc; lia).
    unfold sample_base. rewrite lookup_write_bytes_in by (rewrite length_replicate; unfold in_range; lia).
    apply lookup_Z_is_Some. rewrite length_replicate. lia.
Qed.

Lemma boot_map_ok : memmap_ok hh boot_ram boot_map.
Proof.
  constructor.
  - intros a v. unfold boot_ram. rewrite lookup_write_bytes, length_replicate. unfold in_range.
    case_decide; [|by apply (sample_base_wf [])]. intros [-> _]%lookup_replicate. lia.
  - done.
  - unfold boot_map. intros e [->|[->|?%elem_of_nil]%elem_of_cons]%elem_of_cons Hu; [done| |done].
    cbn [mm_base mm_length]. split_and!; [by split_and!|done|apply boot_ram_valid].
  - unfold boot_map. repeat constructor. done.
  - exists (MemmapEntry 4096 4194304 LIMINE_MEMMAP_USABLE). split; [right; left|done].
Qed.
End Sample.

Lemma physical_init_correct_witness : exists es' st st' h,
  init_frames boot_hhdm_base boot_map (phys_zero (boot_ram boot_hhdm_base)) = Ok (es', st) /\ pmm_inv boot_hhdm_base st ∅ /\
  physical_init boot_hhdm_base sample_alloc boot_map (phys_zero (boot_ram boot_hhdm_base)) = Ok (es', st') /\
  @heap_inv phys (phys_frames boot_hhdm_base) (phys_frame_laws boot_hhdm_base eq_refl) sample_alloc st' h.
Proof.
  destruct (physical_init_correct boot_hhdm_base (boot_ram boot_hhdm_base) boot_map sample_alloc eq_refl)
    as (e & es' & st & E & _ & Hi & [(st' & h & E' & Hh & _)|(_ & Hr & _)]).
  - apply boot_map_ok. split; [reflexivity|discriminate].
  - vm_compute. discriminate.
  - vm_compute. discriminate.
  - exists (MemmapEntry 4096 4194304 LIMINE_MEMMAP_USABLE).
    split; [right; left|split; [reflexivity|vm_compute; discriminate]].
  - reflexivity.
  - apply boot_ram_valid. split; [reflexivity|discriminate].
  - left. vm_compute. discriminate.
  - exists es', st, st', h. split; [exact E|]. split; [exact Hi|]. split; [exact E'|exact Hh].
  - exfalso. vm_compute in Hr. lia.
Defined.
