(* ===== verification/SharedPtr.v ===== *)
(** * include/libs/libc++/memory: shared_ptr and weak_ptr

    The protocol of the control block: two counters changed by atomic instructions,
    and operations of several such instructions that threads run interleaved.  A step
    is one access to the control block or to the object.  Handles are counted, not
    named: an operation in flight holds the handle it works on.  The counters have 64
    bits and are not checked for overflow.  [Handles] names the handles and runs the
    operations of one thread. *)

From S2P Require Import Prelude.

(** ** The control block *)

Record ctrl_block : Type := Ctrl {
  ref_count : Z;
  weak_count : Z;
  object_alive : bool;
  block_alive : bool;
}.

(** [make_shared], or the constructor from a pointer: one handle. *)
Definition new_ctrl : ctrl_block := Ctrl 1 1 true true.

Definition set_ref (c : ctrl_block) (v : Z) : ctrl_block := Ctrl v (weak_count c) (object_alive c) (block_alive c).
Definition set_weak (c : ctrl_block) (v : Z) : ctrl_block := Ctrl (ref_count c) v (object_alive c) (block_alive c).

(** [atomic_fetch_add] and [atomic_fetch_sub] by one: the old value is the result. *)
Definition fetch_add_ref (c : ctrl_block) : Z * ctrl_block := (ref_count c, set_ref c (u64 (ref_count c + 1))).
Definition fetch_sub_ref (c : ctrl_block) : Z * ctrl_block := (ref_count c, set_ref c (u64 (ref_count c - 1))).
Definition fetch_add_weak (c : ctrl_block) : Z * ctrl_block := (weak_count c, set_weak c (u64 (weak_count c + 1))).
Definition fetch_sub_weak (c : ctrl_block) : Z * ctrl_block := (weak_count c, set_weak c (u64 (weak_count c - 1))).

(** ** Operations, as what is left to do *)

Inductive pc : Type :=
| Add_shared_ref      (* __add_shared: the reference count *)
| Add_shared_weak     (* __add_shared: the weak count *)
| Weak_from_shared    (* weak_ptr(const shared_ptr&): __add_weak *)
| Weak_copy           (* weak_ptr(const weak_ptr&): __add_weak *)
| Release_shared      (* __release_shared: the reference count *)
| Delete_object       (* __release_shared: the deleter *)
| Release_weak        (* __release_weak: the weak count *)
| Delete_block        (* __release_weak: delete this *)
| Lock_load           (* lock: __use_count() *)
| Lock_cas (seen : Z) (* lock: the compare and exchange *)
| Lock_weak           (* lock: __add_weak *)
| Use_object          (* operator*, operator-> *)
| Weak_assign.        (* weak_ptr::operator=(const weak_ptr<_U>&): no count *)

#[export] Instance pc_eq_dec : EqDecision pc.
Proof. solve_decision. Defined.

(** What a step leads to: more to do, or the end with the handles the thread then has
    (shared and weak). *)
Inductive next : Type :=
| Goto (p : pc)
| Done (shared weak : nat).

(** One step; [None] is an access to a freed block or to a destroyed object.  The
    exchange of [lock] may fail although the counter has the value seen. *)
Definition exec (p : pc) (spurious : bool) (c : ctrl_block) : option (ctrl_block * next) :=
  match p with
  | Use_object => if object_alive c && block_alive c then Some (c, Done 1 0) else None
  | Weak_assign => Some (c, Done 0 2)
  | _ =>
    if negb (block_alive c) then None else
    match p with
    | Add_shared_ref => let '(_, c) := fetch_add_ref c in Some (c, Goto Add_shared_weak)
    | Add_shared_weak => let '(_, c) := fetch_add_weak c in Some (c, Done 2 0)
    | Weak_from_shared => let '(_, c) := fetch_add_weak c in Some (c, Done 1 1)
    | Weak_copy => let '(_, c) := fetch_add_weak c in Some (c, Done 0 2)
    | Release_shared =>
        let '(count, c) := fetch_sub_ref c in
        Some (c, Goto (if count =? 1 then Delete_object else Release_weak))
    | Delete_object =>
        if object_alive c then Some (Ctrl (ref_count c) (weak_count c) false (block_alive c), Goto Release_weak) else None
    | Release_weak =>
        let '(count, c) := fetch_sub_weak c in
        Some (c, if count =? 1 then Goto Delete_block else Done 0 0)
    | Delete_block => Some (Ctrl (ref_count c) (weak_count c) (object_alive c) false, Done 0 0)
    | Lock_load => Some (c, if ref_count c =? 0 then Done 0 1 else Goto (Lock_cas (ref_count c)))
    | Lock_cas seen =>
        if (ref_count c =? seen) && negb spurious then Some (set_ref c (u64 (seen + 1)), Goto Lock_weak)
        else Some (c, Goto Lock_load)
    | Lock_weak => let '(_, c) := fetch_add_weak c in Some (c, Done 1 1)
    | Use_object | Weak_assign => None
    end
  end.

(** The operations, with the handles they take and where they start.  An assignment
    is the release of the old pointer and the copy of the new one. *)
Inductive operation : Type :=
| Copy_shared | Make_weak | Copy_weak | Drop_shared | Drop_weak | Lock | Use | Assign_weak_converted.

Definition starts (o : operation) : nat * nat * pc :=
  match o with
  | Copy_shared => (1, 0, Add_shared_ref)
  | Make_weak => (1, 0, Weak_from_shared)
  | Copy_weak => (0, 1, Weak_copy)
  | Drop_shared => (1, 0, Release_shared)
  | Drop_weak => (0, 1, Release_weak)
  | Lock => (0, 1, Lock_load)
  | Use => (1, 0, Use_object)
  | Assign_weak_converted => (0, 1, Weak_assign)
  end%nat.

(** ** Interleavings *)

(** The handles at rest, the operations in flight, the control block. *)
Record system : Type := System {
  shared : nat;
  weak : nat;
  running : list pc;
  ctrl : ctrl_block;
}.

Definition initial : system := System 1 0 [] new_ctrl.

(** Handles and operations take room in memory: fewer than 2^63 of them. *)
Definition load_of (s : system) : Z := Z.of_nat (shared s) + Z.of_nat (weak s) + 2 * Z.of_nat (List.length (running s)).
Definition room_left (s : system) : Prop := load_of s < 2 ^ 63.

Inductive step (allowed : operation -> Prop) : system -> system -> Prop :=
| Step_start o s sh wk p : allowed o -> starts o = (sh, wk, p) -> (sh <= shared s)%nat -> (wk <= weak s)%nat -> room_left s ->
    step allowed s (System (shared s - sh) (weak s - wk) (p :: running s) (ctrl s))
| Step_goto s pre p post spurious c p' : running s = pre ++ p :: post -> exec p spurious (ctrl s) = Some (c, Goto p') ->
    step allowed s (System (shared s) (weak s) (pre ++ p' :: post) c)
| Step_done s pre p post spurious c sh wk : running s = pre ++ p :: post -> exec p spurious (ctrl s) = Some (c, Done sh wk) ->
    step allowed s (System (shared s + sh) (weak s + wk) (pre ++ post) c).

(** A thread is about to touch memory that is gone. *)
Definition dangling (s : system) : Prop :=
  exists p spurious, p ∈ running s /\ exec p spurious (ctrl s) = None.

Definition sound (o : operation) : Prop := o <> Assign_weak_converted.

Definition reachable (allowed : operation -> Prop) (s : system) : Prop := rtc (step allowed) initial s.

(** ** The invariant

    What each operation in flight stands for in the two counters. *)

Definition ref_tokens (p : pc) : nat :=
  match p with
  | Add_shared_weak => 2
  | Add_shared_ref | Weak_from_shared | Release_shared | Lock_weak | Use_object => 1
  | _ => 0
  end.
Definition weak_tokens (p : pc) : nat := match p with Delete_block => 0 | _ => 1 end.
Definition deletes_object (p : pc) : nat := match p with Delete_object => 1 | _ => 0 end.
Definition deletes_block (p : pc) : nat := match p with Delete_block => 1 | _ => 0 end.

Definition sum (f : pc -> nat) (l : list pc) : nat := foldr (fun p n => f p + n)%nat 0%nat l.

Lemma sum_app f l l' : sum f (l ++ l') = (sum f l + sum f l')%nat.
Proof. unfold sum. induction l as [|p l IH]; [done|]. simpl. lia. Qed.

Lemma sum_cons f p l : sum f (p :: l) = (f p + sum f l)%nat.
Proof. done. Qed.

Lemma sum_le f k l : (forall p, f p <= k)%nat -> (sum f l <= k * List.length l)%nat.
Proof. intros Hf. induction l as [|p l IH]; [simpl; lia|]. rewrite sum_cons. simpl. specialize (Hf p). lia. Qed.

Definition refs (s : system) : nat := (shared s + sum ref_tokens (running s))%nat.
Definition weaks (s : system) : nat := (shared s + weak s + sum weak_tokens (running s))%nat.

(** [b] holds as long as there are tokens, and then until the one operation that ends
    it has run. *)
Definition until (b : bool) (tokens ending : nat) : Prop :=
  (0 < tokens /\ b = true /\ ending = 0)%nat \/ (tokens = 0 /\ b = true /\ ending = 1)%nat \/
  (tokens = 0 /\ b = false /\ ending = 0)%nat.

(** No operation that copies without counting, no exchange on zero. *)
Definition pc_ok (p : pc) : Prop := match p with Weak_assign => False | Lock_cas seen => 0 < seen | _ => True end.

Record inv (s : system) : Prop := {
  iv_ref : ref_count (ctrl s) = Z.of_nat (refs s);
  iv_weak : weak_count (ctrl s) = Z.of_nat (weaks s);
  iv_object : until (object_alive (ctrl s)) (refs s) (sum deletes_object (running s));
  iv_block : until (block_alive (ctrl s)) (weaks s) (sum deletes_block (running s));
  iv_pcs : Forall pc_ok (running s);
  iv_load : load_of s <= 2 ^ 63;
}.

Lemma tokens_load s : Z.of_nat (refs s) <= load_of s /\ Z.of_nat (weaks s) <= load_of s.
Proof.
  unfold refs, weaks, load_of.
  assert (sum ref_tokens (running s) <= 2 * List.length (running s))%nat by (apply sum_le; intros []; simpl; lia).
  assert (sum weak_tokens (running s) <= 1 * List.length (running s))%nat by (apply sum_le; intros []; simpl; lia).
  lia.
Qed.

Lemma inv_initial : inv initial.
Proof. constructor; [done|done|left; vm_compute; repeat split; lia|left; vm_compute; repeat split; lia|constructor|done]. Qed.

(** The sums over the operations in flight, with the one that runs split off. *)
Ltac sums :=
  unfold refs, weaks, load_of in *; cbn [shared weak running ctrl ref_count weak_count object_alive block_alive set_ref set_weak] in *;
  rewrite ?sum_app, ?sum_cons, ?length_app in *; cbn [List.length ref_tokens weak_tokens deletes_object deletes_block] in *.

Lemma until_eq b t e t' e' : until b t e -> t' = t -> e' = e -> until b t' e'.
Proof. by intros Hu -> ->. Qed.

Lemma inv_start allowed s o sh wk p : (forall o, allowed o -> sound o) -> allowed o -> starts o = (sh, wk, p) ->
  (sh <= shared s)%nat -> (wk <= weak s)%nat -> room_left s -> inv s ->
  inv (System (shared s - sh) (weak s - wk) (p :: running s) (ctrl s)).
Proof.
  intros Hsound Ho Es Hsh Hwk Hroom [Hr Hw Hob Hbl Hpc Hld]. specialize (Hsound o Ho). unfold room_left in Hroom.
  assert (p <> Weak_assign /\ (forall seen, p <> Lock_cas seen) /\ deletes_object p = 0 /\ deletes_block p = 0 /\
    ref_tokens p = sh /\ weak_tokens p = sh + wk)%nat as (Hp1 & Hp2 & Hd & Hb & Ht & Hk)
    by (destruct o; injection Es as <- <- <-; done).
  constructor; sums; [lia|lia| | | |].
  - eapply until_eq; [exact Hob|lia|lia].
  - eapply until_eq; [exact Hbl|lia|lia].
  - constructor; [|done]. destruct p; try done. by destruct (Hp2 seen).
  - assert (1 <= sh + wk)%nat by (destruct o; injection Es as <- <- <-; lia). lia.
Qed.

Lemma until_alive b tokens ending : until b tokens ending -> (0 < tokens + ending)%nat -> b = true.
Proof. intros [(_ & -> & _)|[(_ & -> & _)|(Ht & _ & He)]] Hlt; [done|done|lia]. Qed.

(** An operation in flight finds what it needs. *)
Lemma inv_exec s pre p post spurious : inv s -> running s = pre ++ p :: post -> exec p spurious (ctrl s) <> None.
Proof.
  intros [Hr Hw Hob Hbl Hpc Hld] El. assert (pc_ok p) as Hp.
  { rewrite El, Forall_app, Forall_cons in Hpc. tauto. }
  unfold refs, weaks in *. rewrite El in *. sums.
  assert (block_alive (ctrl s) = true) as Eb by (apply (until_alive _ _ _ Hbl); destruct p; simpl; lia).
  assert ((0 < ref_tokens p + deletes_object p)%nat -> object_alive (ctrl s) = true) as Eo
    by (intros; apply (until_alive _ _ _ Hob); lia).
  destruct p; cbn in *; rewrite ?Eb; cbn; try done; rewrite ?Eo by lia; try done. by destruct (_ && _).
Qed.

(** How the tokens of a flag change. *)
Lemma until_keep b t e t' e' : until b t e -> (0 < t)%nat -> (0 < t')%nat -> e' = e -> until b t' e'.
Proof. intros [(_ & -> & ->)|[(? & _)|(? & _)]] ? ? ->; [left; done|lia|lia]. Qed.

Lemma until_last b t e t' e' : until b t e -> t = S t' -> (t' = 0 -> e' = S e)%nat -> (t' <> 0 -> e' = e)%nat -> until b t' e'.
Proof.
  intros [(_ & -> & ->)|[(? & _)|(? & _)]] Et Hz Hnz; [|lia|lia]. destruct t' as [|t'].
  - right; left. by rewrite Hz.
  - left. rewrite Hnz by done. split_and!; [lia|done|done].
Qed.

Lemma until_end b t e t' e' : until b t e -> e = S e' -> t' = t -> until false t' e'.
Proof. intros [(_ & _ & ->)|[(-> & _ & ->)|(_ & _ & ->)]] Ee ->; [done| |done]. right; right. by injection Ee as <-. Qed.

Ltac tokens Hu :=
  first [ eapply until_eq; [exact Hu|lia|lia] | eapply until_keep; [exact Hu|lia|lia|lia]
        | eapply until_last; [exact Hu|lia|lia|lia] | eapply until_end; [exact Hu|lia|lia] ].

(** A step keeps the invariant. *)
Lemma inv_run s pre p post spurious c n : inv s -> running s = pre ++ p :: post -> exec p spurious (ctrl s) = Some (c, n) ->
  inv match n with
      | Goto p' => System (shared s) (weak s) (pre ++ p' :: post) c
      | Done sh wk => System (shared s + sh) (weak s + wk) (pre ++ post) c
      end.
Proof.
  intros [Hr Hw Hob Hbl Hpc Hld] El E. destruct (tokens_load s) as [Hrl Hwl].
  rewrite El, Forall_app, Forall_cons in Hpc. destruct Hpc as (Hpre & Hp & Hpost).
  unfold refs, weaks, load_of in *. rewrite El in *. sums.
  assert (block_alive (ctrl s) = true) as Eb by (apply (until_alive _ _ _ Hbl); destruct p; simpl; lia).
  assert (forall p', pc_ok p' -> Forall pc_ok (pre ++ p' :: post)) as Hgo by (intros; by rewrite Forall_app, Forall_cons).
  assert (Forall pc_ok (pre ++ post)) as Hdone by (by rewrite Forall_app).
  destruct p; cbn in E, Hp; rewrite ?Eb in E; cbn in E; sums.
  - (* Add_shared_ref *) injection E as <- <-. constructor; sums; [rewrite u64_small by lia; lia|lia|tokens Hob|tokens Hbl|by apply Hgo|lia].
  - (* Add_shared_weak *) injection E as <- <-. constructor; sums; [lia|rewrite u64_small by lia; lia|tokens Hob|tokens Hbl|done|lia].
  - (* Weak_from_shared *) injection E as <- <-. constructor; sums; [lia|rewrite u64_small by lia; lia|tokens Hob|tokens Hbl|done|lia].
  - (* Weak_copy *) injection E as <- <-. constructor; sums; [lia|rewrite u64_small by lia; lia|tokens Hob|tokens Hbl|done|lia].
  - (* Release_shared *) injection E as <- <-. destruct (Z.eqb_spec (ref_count (ctrl s)) 1) as [E1|E1];
      (constructor; sums; [rewrite u64_small by lia; lia|lia|tokens Hob|tokens Hbl|by apply Hgo|lia]).
  - (* Delete_object *) destruct (object_alive (ctrl s)) eqn:Eo; [|done]. injection E as <- <-.
    constructor; sums; [lia|lia|tokens Hob|rewrite Eb in Hbl; tokens Hbl|by apply Hgo|lia].
  - (* Release_weak *) destruct (Z.eqb_spec (weak_count (ctrl s)) 1) as [E1|E1]; injection E as <- <-;
      (constructor; sums; [lia|rewrite u64_small by lia; lia|tokens Hob|tokens Hbl|first [by apply Hgo|done]|lia]).
  - (* Delete_block *) injection E as <- <-. constructor; sums; [lia|lia|tokens Hob|tokens Hbl|done|lia].
  - (* Lock_load *) destruct (Z.eqb_spec (ref_count (ctrl s)) 0) as [E0|E0]; injection E as <- <-;
      (constructor; sums; [lia|lia|tokens Hob|tokens Hbl|first [apply Hgo; simpl; lia|done]|lia]).
  - (* Lock_cas *) destruct (Z.eqb_spec (ref_count (ctrl s)) seen) as [<-|Hne], spurious; cbn in E; injection E as <- <-;
      (constructor; sums; [rewrite ?u64_small by lia; lia|lia|tokens Hob|tokens Hbl|by apply Hgo|lia]).
  - (* Lock_weak *) injection E as <- <-. constructor; sums; [lia|rewrite u64_small by lia; lia|tokens Hob|tokens Hbl|done|lia].
  - (* Use_object *) destruct (object_alive (ctrl s)) eqn:Eo; [|done]. injection E as <- <-.
    constructor; sums; [lia|lia|rewrite Eo; tokens Hob|tokens Hbl|done|lia].
  - done.
Qed.

Lemma inv_reachable allowed s : (forall o, allowed o -> sound o) -> reachable allowed s -> inv s.
Proof.
  intros Ha Hr. unfold reachable in Hr. remember initial as s0 eqn:E0. assert (inv s0) as H0 by (subst; apply inv_initial). clear E0.
  induction Hr as [s|s s1 s2 Hs Hr IH]; [done|]. apply IH. destruct Hs as [o s sh wk p Ho Es Hsh Hwk Hroom|s pre p post sp c p' El E|s pre p post sp c sh wk El E].
  - by eapply inv_start.
  - by apply (inv_run s pre p post sp c (Goto p')).
  - by apply (inv_run s pre p post sp c (Done sh wk)).
Qed.

(** ** An operation that runs alone ends *)

Definition rank (p : pc) (c : ctrl_block) : nat :=
  match p with
  | Release_shared => 4
  | Delete_object | Lock_load => 3
  | Lock_cas seen => if ref_count c =? seen then 2 else 4
  | Add_shared_ref | Release_weak => 2
  | _ => 1
  end.

Lemma exec_rank p c c' p' : exec p false c = Some (c', Goto p') -> (rank p' c' < rank p c)%nat.
Proof.
  destruct p; cbn; repeat case_match; intros E; try discriminate E; injection E as <- <-; simpl; rewrite ?Z.eqb_refl;
    repeat case_match; simpl in *; try lia; congruence.
Qed.

Lemma finish_first allowed s p rest : inv s -> running s = p :: rest ->
  exists s', rtc (step allowed) s s' /\ running s' = rest /\ inv s'.
Proof.
  remember (rank p (ctrl s)) as n eqn:En. revert s p En. induction (lt_wf n) as [n _ IH]. intros s p En Hi El.
  destruct (exec p false (ctrl s)) as [[c [p'|sh wk]]|] eqn:E; [| |by destruct (inv_exec s [] p rest false Hi El)].
  - pose proof (inv_run s [] p rest false c _ Hi El E) as Hi1. pose proof (exec_rank _ _ _ _ E) as Hlt. simpl in Hi1.
    destruct (IH _ ltac:(by rewrite En) (System (shared s) (weak s) (p' :: rest) c) p' eq_refl Hi1 eq_refl) as (s' & Hs & Hr & Hi').
    exists s'. split; [|done]. eapply rtc_l; [|exact Hs]. by apply (Step_goto allowed s [] p rest false).
  - pose proof (inv_run s [] p rest false c _ Hi El E) as Hi1. simpl in Hi1. eexists. split; [|split; [|exact Hi1]]; [|done].
    apply rtc_once. by apply (Step_done allowed s [] p rest false).
Qed.

Lemma finish_all allowed s : inv s -> exists s', rtc (step allowed) s s' /\ running s' = [] /\ inv s'.
Proof.
  remember (running s) as l eqn:El. revert s El. induction l as [|p l IH]; intros s El Hi; [by exists s|].
  destruct (finish_first allowed s p l Hi (eq_sym El)) as (s1 & H1 & E1 & Hi1).
  destruct (IH s1 (eq_sym E1) Hi1) as (s2 & H2 & E2 & Hi2). exists s2. split; [by etrans|done].
Qed.

(** ** One operation at a time *)

Definition begin (o : operation) (s : system) : option system :=
  let '(sh, wk, p) := starts o in
  if (sh <=? shared s)%nat && (wk <=? weak s)%nat && (load_of s <? 2 ^ 63) then
    Some (System (shared s - sh) (weak s - wk) (p :: running s) (ctrl s))
  else None.

(** The first operation in flight, to its end; no operation has more than five steps. *)
Fixpoint finish (n : nat) (s : system) : option system :=
  match n, running s with
  | S n', p :: rest =>
      match exec p false (ctrl s) with
      | Some (c, Goto p') => finish n' (System (shared s) (weak s) (p' :: rest) c)
      | Some (c, Done sh wk) => Some (System (shared s + sh) (weak s + wk) rest c)
      | None => None
      end
  | _, _ => None
  end.

Definition perform (o : operation) (s : system) : option system := begin o s ≫= finish 5.
Fixpoint perform_all (os : list operation) (s : system) : option system :=
  match os with [] => Some s | o :: os' => perform o s ≫= perform_all os' end.

Section Perform.
Context (allowed : operation -> Prop).

Lemma begin_reachable o s s' : allowed o -> begin o s = Some s' -> reachable allowed s -> reachable allowed s'.
Proof.
  unfold begin. destruct (starts o) as [[sh wk] p] eqn:Es. intros Ho E Hr.
  destruct (_ && _) eqn:Ec; [|done]. injection E as <-. rewrite !andb_true_iff, !Nat.leb_le, Z.ltb_lt in Ec.
  eapply rtc_r; [exact Hr|]. by apply (Step_start allowed o s); tauto.
Qed.

Lemma finish_reachable n s s' : finish n s = Some s' -> reachable allowed s -> reachable allowed s'.
Proof.
  revert s. induction n as [|n IH]; intros s E Hr; [done|]. cbn [finish] in E.
  destruct (running s) as [|p rest] eqn:El; [done|]. destruct (exec p false (ctrl s)) as [[c [p'|sh wk]]|] eqn:Ep; [| |done].
  - apply (IH _ E). eapply rtc_r; [exact Hr|]. by apply (Step_goto allowed s [] p rest false).
  - injection E as <-. eapply rtc_r; [exact Hr|]. by apply (Step_done allowed s [] p rest false).
Qed.

Lemma perform_reachable os s s' : (forall o, o ∈ os -> allowed o) -> perform_all os s = Some s' -> reachable allowed s -> reachable allowed s'.
Proof.
  revert s. induction os as [|o os IH]; intros s Ho E Hr; [by injection E as <-|].
  apply bind_Some in E as (s1 & E1 & E). apply bind_Some in E1 as (s2 & E2 & E1).
  apply (IH s1); [|done|]; [intros o' Ho'; apply Ho; by right|].
  apply (finish_reachable 5 s2); [done|]. apply (begin_reachable o s); [|done|done]. apply Ho. by left.
Qed.
End Perform.

(** ** Theorems *)

Lemma inv_flags s : inv s ->
  ((0 < shared s)%nat -> object_alive (ctrl s) = true) /\
  ((0 < shared s + weak s)%nat -> block_alive (ctrl s) = true) /\
  (running s = [] ->
     ref_count (ctrl s) = Z.of_nat (shared s) /\ weak_count (ctrl s) = Z.of_nat (shared s + weak s) /\
     object_alive (ctrl s) = bool_decide (0 < shared s)%nat /\ block_alive (ctrl s) = bool_decide (0 < shared s + weak s)%nat).
Proof.
  intros [Hr Hw Hob Hbl _ _]. unfold refs, weaks in *. split_and!.
  - intros Hs. apply (until_alive _ _ _ Hob). lia.
  - intros Hs. apply (until_alive _ _ _ Hbl). lia.
  - intros El. rewrite El in *. cbn in *. rewrite !Nat.add_0_r in *. split_and!; [done|done|..].
    + destruct Hob as [(? & -> & _)|[(_ & _ & ?)|(E & -> & _)]]; [by rewrite bool_decide_true|done|by rewrite E].
    + destruct Hbl as [(? & -> & _)|[(_ & _ & ?)|(E & -> & _)]]; [by rewrite bool_decide_true|done|by rewrite E].
Qed.

(** C26: in every interleaving of copies, conversions, locks, accesses and releases, no
    step touches a freed control block or a destroyed object, so nothing is destroyed
    or freed twice; as long as a shared handle exists the object is alive, as long as
    any handle exists the block is; and at rest the counters are the numbers of
    handles, and the object and the block are gone exactly when their handles are. *)
Theorem shared_ptr_safe s : reachable sound s ->
  ~ dangling s /\
  ((0 < shared s)%nat -> object_alive (ctrl s) = true) /\
  ((0 < shared s + weak s)%nat -> block_alive (ctrl s) = true) /\
  (running s = [] ->
     ref_count (ctrl s) = Z.of_nat (shared s) /\ weak_count (ctrl s) = Z.of_nat (shared s + weak s) /\
     object_alive (ctrl s) = bool_decide (0 < shared s)%nat /\ block_alive (ctrl s) = bool_decide (0 < shared s + weak s)%nat).
Proof.
  intros Hr. assert (inv s) as Hi by (by apply (inv_reachable sound)). split; [|by apply inv_flags].
  intros (p & sp & Hp & E). apply list_elem_of_split in Hp as (pre & post & El). by apply (inv_exec s pre p post sp Hi El).
Qed.

(** C27: the operations in flight of any reachable system can all be run to their end, one
    after the other, [lock] included; if no handle is left then, the object has been
    destroyed and the block freed: nothing leaks. *)
Theorem shared_ptr_ends s : reachable sound s ->
  exists s', reachable sound s' /\ rtc (step sound) s s' /\ running s' = [] /\
    (shared s' = 0%nat -> object_alive (ctrl s') = false) /\
    (shared s' = 0%nat -> weak s' = 0%nat -> block_alive (ctrl s') = false).
Proof.
  intros Hr. destruct (finish_all sound s) as (s' & Hs & El & Hi); [by apply (inv_reachable sound)|].
  destruct (inv_flags s' Hi) as (_ & _ & Hf). destruct (Hf El) as (_ & _ & Ho & Hb).
  exists s'. rewrite Ho, Hb. split_and!; [unfold reachable; by etrans|done|done|by intros ->|by intros -> ->].
Qed.

(** C30: the assignment of a weak pointer of another type does not count the copy: after
    it, with the shared pointer and one of the two weak pointers released, the other
    points to a freed block, and its release touches it. *)
Theorem weak_convert_dangles : exists s, reachable (fun _ => True) s /\ weak s = 0%nat /\ running s = [Release_weak] /\
  block_alive (ctrl s) = false /\ dangling s.
Proof.
  destruct (perform_all [Make_weak; Assign_weak_converted; Drop_shared; Drop_weak] initial ≫= begin Drop_weak) as [s|] eqn:E;
    [|vm_compute in E; discriminate E].
  apply bind_Some in E as (s1 & E1 & E). exists s.
  assert (reachable (fun _ => True) s) as Hr by (eapply begin_reachable; [exact I|exact E|]; eapply perform_reachable; [|exact E1|apply rtc_refl]; done).
  vm_compute in E1. injection E1 as <-. vm_compute in E. injection E as <-. split_and!; try done.
  exists Release_weak, false. split; [by left|done].
Qed.

(** A weak handle locked while the last shared one is about to be released. *)
Definition sample_run : option system := perform_all [Make_weak; Copy_shared; Lock; Drop_shared; Drop_shared] initial ≫= begin Drop_shared.

Lemma sample_run_reachable s : sample_run = Some s -> reachable sound s.
Proof.
  intros E. apply bind_Some in E as (s1 & E1 & E). eapply begin_reachable; [|exact E|]; [discriminate|].
  eapply perform_reachable; [|exact E1|apply rtc_refl].
  intros o Ho ->. rewrite !elem_of_cons, elem_of_nil in Ho. intuition discriminate.
Qed.

Lemma shared_ptr_safe_witness : exists s, sample_run = Some s /\ ~ dangling s /\ block_alive (ctrl s) = true.
Proof.
  destruct sample_run as [s|] eqn:E; [|vm_compute in E; discriminate E].
  exists s. split; [reflexivity|]. destruct (shared_ptr_safe s (sample_run_reachable s E)) as (H1 & _ & H3 & _).
  split; [exact H1|]. apply H3. vm_compute in E. injection E as <-. cbn. lia.
Defined.

Lemma shared_ptr_ends_witness : exists s s', sample_run = Some s /\ rtc (step sound) s s' /\ running s' = [].
Proof.
  destruct sample_run as [s|] eqn:E; [|vm_compute in E; discriminate E].
  destruct (shared_ptr_ends s (sample_run_reachable s E)) as (s' & _ & Hs & El & _). exists s, s'. split; [reflexivity|split; assumption].
Defined.
