(* ===== verification/Handles.v ===== *)
(** * include/libs/libc++/memory: shared and weak pointers as objects

    The classes [shared_ptr] and [weak_ptr], run by one thread over a store of
    pointer objects, control blocks and the objects they manage.  A pointer object
    lies at a location, may be a member of a managed object, and is destroyed with
    it; [Undef] is a use of a pointer object, of a control block or of a managed object
    behind the end of its life.  [SharedPtr] has the interleavings of several threads
    on one control block. *)

From S2P Require Import Prelude.

(** ** The store *)

Inductive kind : Type := Shared | Weak.

#[export] Instance kind_eq_dec : EqDecision kind.
Proof. solve_decision. Defined.

(** The fields of [shared_ptr] and [weak_ptr]; zero is the null pointer. *)
Record handle : Type := Handle { h_kind : kind; h_ptr : Z; h_ctrl : Z }.

#[export] Instance handle_eq_dec : EqDecision handle.
Proof. solve_decision. Defined.

Record block : Type := Block { b_ref : Z; b_weak : Z; b_obj : Z }.

(** The pointer objects that live, by location; the control blocks; the managed
    objects that live, each with the locations of its members. *)
Record store : Type := Store {
  handles : gmap Z handle;
  blocks : gmap Z block;
  objects : gmap Z (list Z);
}.

Definition with_handles (s : store) (hs : gmap Z handle) : store := Store hs (blocks s) (objects s).
Definition with_blocks (s : store) (bs : gmap Z block) : store := Store (handles s) bs (objects s).
Definition with_objects (s : store) (os : gmap Z (list Z)) : store := Store (handles s) (blocks s) os.

Definition get_handle (l : Z) (s : store) : outcome handle := match handles s !! l with Some h => Ok h | None => Undef end.
Definition get_block (c : Z) (s : store) : outcome block := match blocks s !! c with Some b => Ok b | None => Undef end.

Definition new_handle (l : Z) (h : handle) (s : store) : store := with_handles s (<[l := h]> (handles s)).
(** An assignment to the fields of a pointer object, which must live. *)
Definition put_handle (l : Z) (h : handle) (s : store) : outcome store := _ ← get_handle l s; Ok (new_handle l h s).

Definition set_block (c : Z) (b : block) (s : store) : store := with_blocks s (<[c := b]> (blocks s)).

(** ** The control block *)

Definition add_weak (c : Z) (s : store) : outcome store :=
  b ← get_block c s; Ok (set_block c (Block (b_ref b) (u64 (b_weak b + 1)) (b_obj b)) s).

Definition add_shared (c : Z) (s : store) : outcome store :=
  b ← get_block c s; add_weak c (set_block c (Block (u64 (b_ref b + 1)) (b_weak b) (b_obj b)) s).

Definition release_weak (c : Z) (s : store) : outcome store :=
  b ← get_block c s;
  if b_weak b =? 1 then Ok (with_blocks s (delete c (blocks s)))
  else Ok (set_block c (Block (b_ref b) (u64 (b_weak b - 1)) (b_obj b)) s).

(** The destructors of the members, last to first; the life of a pointer object ends
    where its destructor starts. *)
Fixpoint destroy_members (release : kind -> Z -> store -> outcome store) (ls : list Z) (s : store) : outcome store :=
  match ls with
  | [] => Ok s
  | l :: ls =>
      h ← get_handle l s;
      let s := with_handles s (delete l (handles s)) in
      s ← (if h_ctrl h =? 0 then Ok s else release (h_kind h) (h_ctrl h) s);
      destroy_members release ls s
  end.

(** The deleter: the object's life ends, then that of its members. *)
Definition destroy_object (release : kind -> Z -> store -> outcome store) (o : Z) (s : store) : outcome store :=
  match objects s !! o with
  | Some ms => destroy_members release (reverse ms) (with_objects s (delete o (objects s)))
  | None => Undef
  end.

(** [__release_shared], and [__release_weak] for a weak pointer; the fuel bounds the
    depth to which objects destroy each other. *)
Fixpoint release (fuel : nat) (k : kind) (c : Z) (s : store) : outcome store :=
  match fuel with
  | O => NoFuel
  | S fuel =>
      match k with
      | Weak => release_weak c s
      | Shared =>
          b ← get_block c s;
          let s := set_block c (Block (u64 (b_ref b - 1)) (b_weak b) (b_obj b)) s in
          s ← (if b_ref b =? 1 then destroy_object (release fuel) (b_obj b) s else Ok s);
          release_weak c s
      end
  end.

(** ** The classes

    [k] tells the two classes apart: their code differs in the count only. *)

Definition fuel_of (s : store) : nat := S (S (size (objects s))).

Definition add (k : kind) (c : Z) (s : store) : outcome store :=
  if c =? 0 then Ok s else match k with Shared => add_shared c s | Weak => add_weak c s end.

(** [__delete] *)
Definition delete_ (l : Z) (s : store) : outcome store :=
  h ← get_handle l s; if h_ctrl h =? 0 then Ok s else release (fuel_of s) (h_kind h) (h_ctrl h) s.

Definition null (k : kind) : handle := Handle k 0 0.

(** [make_shared]: the object with its members, all null, and its control block at
    fresh addresses. *)
Definition make_shared (this c o : Z) (members : list (Z * kind)) (s : store) : store :=
  let hs := foldr (fun '(l, k) hs => <[l := null k]> hs) (handles s) members in
  Store (<[this := Handle Shared o c]> hs) (<[c := Block 1 1 o]> (blocks s)) (<[o := List.map fst members]> (objects s)).

(** The copy constructors, and [weak_ptr(const shared_ptr&)]. *)
Definition construct (k : kind) (this other : Z) (s : store) : outcome store :=
  h ← get_handle other s; add k (h_ctrl h) (new_handle this (Handle k (h_ptr h) (h_ctrl h)) s).

(** The move constructors. *)
Definition construct_move (this other : Z) (s : store) : outcome store :=
  h ← get_handle other s; put_handle other (null (h_kind h)) (new_handle this h s).

(** The aliasing constructors of [shared_ptr]. *)
Definition construct_alias (this other p : Z) (s : store) : outcome store :=
  h ← get_handle other s; add Shared (h_ctrl h) (new_handle this (Handle Shared p (h_ctrl h)) s).
Definition construct_alias_move (this other p : Z) (s : store) : outcome store :=
  h ← get_handle other s; put_handle other (null Shared) (new_handle this (Handle Shared p (h_ctrl h)) s).

(** The pointer casts; [cast] is the conversion, which answers null when a
    [dynamic_cast] fails. *)
Definition pointer_cast (cast : Z -> Z) (this other : Z) (s : store) : outcome store :=
  h ← get_handle other s; construct_alias this other (cast (h_ptr h)) s.
Definition pointer_cast_move (cast : Z -> Z) (this other : Z) (s : store) : outcome store :=
  h ← get_handle other s; construct_alias_move this other (cast (h_ptr h)) s.

(** The copy assignments, and that of a shared to a weak pointer. *)
Definition assign (k : kind) (this other : Z) (s : store) : outcome store :=
  if this =? other then Ok s
  else
    s ← delete_ this s;
    h ← get_handle other s;
    s ← put_handle this (Handle k (h_ptr h) (h_ctrl h)) s;
    add k (h_ctrl h) s.

(** The move assignments. *)
Definition assign_move (this other : Z) (s : store) : outcome store :=
  if this =? other then Ok s
  else
    s ← delete_ this s;
    h ← get_handle other s;
    s ← put_handle this h s;
    put_handle other (null (h_kind h)) s.

(** [operator=(nullptr_t)] of shared_ptr, [reset] of weak_ptr. *)
Definition assign_null (this : Z) (s : store) : outcome store :=
  h ← get_handle this s; s ← delete_ this s; put_handle this (null (h_kind h)) s.

(** The destructors. *)
Definition destroy (this : Z) (s : store) : outcome store :=
  h ← get_handle this s;
  let s := with_handles s (delete this (handles s)) in
  if h_ctrl h =? 0 then Ok s else release (fuel_of s) (h_kind h) (h_ctrl h) s.

Definition use_count (l : Z) (s : store) : outcome Z :=
  h ← get_handle l s; if h_ctrl h =? 0 then Ok 0 else b ← get_block (h_ctrl h) s; Ok (b_ref b).
Definition expired (l : Z) (s : store) : outcome bool := n ← use_count l s; Ok (n =? 0).

(** [lock], run alone: its loop has one round. *)
Definition lock (this other : Z) (s : store) : outcome store :=
  h ← get_handle other s;
  if h_ctrl h =? 0 then Ok (new_handle this (null Shared) s)
  else
    b ← get_block (h_ctrl h) s;
    if b_ref b =? 0 then Ok (new_handle this (null Shared) s)
    else add_weak (h_ctrl h) (set_block (h_ctrl h) (Block (u64 (b_ref b + 1)) (b_weak b) (b_obj b))
           (new_handle this (Handle Shared (h_ptr h) (h_ctrl h)) s)).

(** ** Operations *)

Inductive operation : Type :=
| Make (this c o : Z) (members : list (Z * kind))
| Construct (k : kind) (this other : Z)
| Construct_move (this other : Z)
| Construct_alias (this other p : Z)
| Construct_alias_move (this other p : Z)
| Cast (cast : Z -> Z) (this other : Z)
| Lock (this other : Z)
| Assign (k : kind) (this other : Z)
| Assign_move (this other : Z)
| Assign_null (this : Z)
| Destroy (this : Z).

Definition perform (op : operation) (s : store) : outcome store :=
  match op with
  | Make this c o members => Ok (make_shared this c o members s)
  | Construct k this other => construct k this other s
  | Construct_move this other => construct_move this other s
  | Construct_alias this other p => construct_alias this other p s
  | Construct_alias_move this other p => construct_alias_move this other p s
  | Cast cast this other => pointer_cast cast this other s
  | Lock this other => lock this other s
  | Assign k this other => assign k this other s
  | Assign_move this other => assign_move this other s
  | Assign_null this => assign_null this s
  | Destroy this => destroy this s
  end.

Fixpoint perform_all (ops : list operation) (s : store) : outcome store :=
  match ops with [] => Ok s | op :: ops => s ← perform op s; perform_all ops s end.

Definition empty_store : store := Store ∅ ∅ ∅.
