(* ===== verification/HandlesInv.v ===== *)
(** * Shared and weak pointers: the invariant and the release

    Counters are numbers of pointers ([inv]); a release, with all the destructors it
    runs, ends and keeps that ([release_ok]); a pointer object that keeps its old value
    during the release of an assignment does no harm unless it is destroyed
    ([release_ignores]). *)

From S2P Require Import Prelude Handles.

(** ** Counting pointers *)

Definition refers (c : Z) (h : handle) : bool := h_ctrl h =? c.
Definition owns (c : Z) (h : handle) : bool := (h_ctrl h =? c) && bool_decide (h_kind h = Shared).

Fixpoint count (p : handle -> bool) (P : list handle) : nat :=
  match P with [] => 0 | h :: P => (if p h then 1 else 0) + count p P end.

Definition tally (p : handle -> bool) (hs : gmap Z handle) : nat := count p (map_to_list hs).*2.

(** The pointers [p] in the store, and those among [P]: pointers whose destruction is
    under way, and which still count. *)
Definition amount (p : handle -> bool) (P : list handle) (s : store) : Z := Z.of_nat (tally p (handles s) + count p P).

Section Count.
Lemma count_perm p (P Q : list handle) : P ≡ₚ Q -> count p P = count p Q.
Proof. induction 1; simpl; lia. Qed.

Lemma tally_insert p hs l h : hs !! l = None -> tally p (<[l := h]> hs) = ((if p h then 1 else 0) + tally p hs)%nat.
Proof. intros Hl. unfold tally. rewrite (count_perm p _ ((l, h) :: map_to_list hs).*2); [done|]. by rewrite map_to_list_insert. Qed.

Lemma tally_delete p hs l h : hs !! l = Some h -> tally p hs = ((if p h then 1 else 0) + tally p (delete l hs))%nat.
Proof. intros Hl. rewrite <- (insert_delete_id hs l h Hl) at 1. apply tally_insert, lookup_delete_eq. Qed.

Lemma tally_pos p hs l h : hs !! l = Some h -> p h = true -> (0 < tally p hs)%nat.
Proof. intros Hl Hp. rewrite (tally_delete p hs l h Hl), Hp. lia. Qed.

Lemma count_pos p P h : h ∈ P -> p h = true -> (0 < count p P)%nat.
Proof. intros Hh E. apply list_elem_of_split in Hh as (P1 & P2 & ->). rewrite (count_perm p _ (h :: P1 ++ P2)); [simpl; rewrite E; lia|]. by rewrite Permutation_middle. Qed.

Lemma tally_exists p hs : (0 < tally p hs)%nat -> exists l h, hs !! l = Some h /\ p h = true.
Proof.
  induction hs as [|l h hs Hl IH] using map_ind; [unfold tally; rewrite map_to_list_empty; simpl; lia|]. rewrite tally_insert by done.
  destruct (p h) eqn:E; [intros _; exists l, h; by rewrite lookup_insert_eq|]. intros H. apply IH in H as (l' & h' & Hl' & Hp).
  exists l', h'. split; [|done]. rewrite lookup_insert_ne; [done|]. congruence.
Qed.

Lemma owns_refers c h : owns c h = true -> refers c h = true.
Proof. unfold owns, refers. by intros [? _]%andb_true_iff. Qed.

Lemma count_mono (p q : handle -> bool) P : (forall h, p h = true -> q h = true) -> (count p P <= count q P)%nat.
Proof. intros H. induction P as [|h P IH]; [done|]. simpl. destruct (p h) eqn:E; [rewrite (H h E)|]; lia. Qed.

Lemma owns_le c P s : amount (owns c) P s <= amount (refers c) P s.
Proof.
  unfold amount, tally. pose proof (count_mono (owns c) (refers c) P (owns_refers c)).
  pose proof (count_mono (owns c) (refers c) (map_to_list (handles s)).*2 (owns_refers c)). lia.
Qed.

Lemma count_le p P : (count p P <= length P)%nat.
Proof. induction P as [|h P IH]; [done|]. simpl. destruct (p h); lia. Qed.

Lemma amount_le p P s : amount p P s <= Z.of_nat (size (handles s) + length P).
Proof.
  unfold amount, tally. pose proof (count_le p P). pose proof (count_le p (map_to_list (handles s)).*2).
  rewrite length_fmap, length_map_to_list in *. lia.
Qed.
End Count.

(** ** The invariant *)

Definition member_of (s : store) (l o : Z) : Prop := exists ms, objects s !! o = Some ms /\ l ∈ ms.

(** Counters count, blocks live as long as a pointer refers to them, objects as long as
    a shared pointer does; members are pointer objects of their own. *)
Record inv (P : list handle) (s : store) : Prop := {
  iv_ref : forall c b, blocks s !! c = Some b -> b_ref b = amount (owns c) P s;
  iv_weak : forall c b, blocks s !! c = Some b -> b_weak b = amount (refers c) P s /\ 0 < b_weak b;
  iv_block : forall c, 0 < amount (refers c) P s -> c = 0 \/ is_Some (blocks s !! c);
  iv_null : blocks s !! 0 = None;
  iv_object : forall c b, blocks s !! c = Some b -> 0 < b_ref b -> is_Some (objects s !! b_obj b);
  iv_owner : forall c c' b b', blocks s !! c = Some b -> blocks s !! c' = Some b' -> 0 < b_ref b -> 0 < b_ref b' -> b_obj b = b_obj b' -> c = c';
  iv_owned : forall o, is_Some (objects s !! o) -> exists c b, blocks s !! c = Some b /\ b_obj b = o /\ 0 < b_ref b;
  iv_members : forall l o, member_of s l o -> is_Some (handles s !! l);
  iv_nodup : forall o ms, objects s !! o = Some ms -> NoDup ms;
  iv_apart : forall l o o', member_of s l o -> member_of s l o' -> o = o';
  iv_room : Z.of_nat (size (handles s) + length P) < 2 ^ 63;
}.

(** Blocks may go; the others keep their object. *)
Definition same_objects (s s' : store) : Prop :=
  forall c b', blocks s' !! c = Some b' -> exists b, blocks s !! c = Some b /\ b_obj b' = b_obj b.

(** What a release changes: some objects are gone, and with them exactly their
    members, and the pointer objects [ls]. *)
Record released (ls : list Z) (s s' : store) : Prop := {
  rl_objects : objects s' ⊆ objects s;
  rl_gone : forall l, l ∈ ls \/ (exists o, member_of s l o /\ objects s' !! o = None) -> handles s' !! l = None;
  rl_kept : forall l, l ∉ ls -> (forall o, member_of s l o -> is_Some (objects s' !! o)) -> handles s' !! l = handles s !! l;
  rl_blocks : same_objects s s';
}.

Section Invariant.
Lemma amount_token p h P s : amount p (h :: P) s = (if p h then 1 else 0) + amount p P s.
Proof. unfold amount. simpl. destruct (p h); lia. Qed.

Lemma amount_insert p P s l h : handles s !! l = None -> amount p P (new_handle l h s) = (if p h then 1 else 0) + amount p P s.
Proof. intros Hl. unfold amount, new_handle. cbn [handles with_handles]. rewrite tally_insert by done. destruct (p h); lia. Qed.

Lemma amount_take p P s l h : handles s !! l = Some h -> amount p (h :: P) (with_handles s (delete l (handles s))) = amount p P s.
Proof. intros Hl. rewrite amount_token. unfold amount. cbn [handles with_handles]. rewrite (tally_delete p (handles s) l h Hl). destruct (p h); lia. Qed.

Lemma amount_nonneg p P s : 0 <= amount p P s.
Proof. unfold amount. lia. Qed.

(** A pointer object that is no member is about to be destroyed. *)
Lemma inv_take P s l h : inv P s -> handles s !! l = Some h -> (forall o, ~ member_of s l o) ->
  inv (h :: P) (with_handles s (delete l (handles s))).
Proof.
  intros [Hr Hw Hb Hn Ho Hi Hd Hm Hnd Ha Hro] Hl Hno. constructor; try done.
  - intros c b Hc. rewrite (amount_take _ _ _ _ _ Hl). by apply Hr.
  - intros c b Hc. rewrite (amount_take _ _ _ _ _ Hl). by apply Hw.
  - intros c. rewrite (amount_take _ _ _ _ _ Hl). apply Hb.
  - intros l' o Hl'. cbn [handles with_handles]. rewrite lookup_delete_ne; [by apply (Hm l' o)|]. intros ->. by destruct (Hno o).
  - cbn [handles with_handles length]. rewrite <- (insert_delete_id _ _ _ Hl), map_size_insert_None in Hro by apply lookup_delete_eq. lia.
Qed.

(** A null pointer counts nowhere. *)
Lemma inv_drop_null h P s : inv (h :: P) s -> h_ctrl h = 0 -> inv P s.
Proof.
  intros [Hr Hw Hb Hn Ho Hi Hd Hm Hnd Ha Hro] Hz.
  assert (forall c b, blocks s !! c = Some b -> c <> 0) as Hc0 by congruence.
  assert (forall c, c <> 0 -> amount (refers c) (h :: P) s = amount (refers c) P s /\ amount (owns c) (h :: P) s = amount (owns c) P s) as He.
  { intros c Hc. rewrite !amount_token. unfold refers, owns. by rewrite Hz, (proj2 (Z.eqb_neq 0 c)). }
  constructor; try done.
  - intros c b Hc. destruct (He c) as [_ <-]; eauto.
  - intros c b Hc. destruct (He c) as [<- _]; eauto.
  - intros c Hc. destruct (decide (c = 0)) as [|Hne]; [by left|]. apply Hb. by destruct (He c) as [-> _].
  - simpl in Hro. lia.
Qed.

(** The pointers outside the block [c] are the same in [P] and in [Q]. *)
Definition same_but (c : Z) (P Q : list handle) (s : store) : Prop :=
  forall c', c' <> c -> amount (refers c') Q s = amount (refers c') P s /\ amount (owns c') Q s = amount (owns c') P s.

(** New counters for one block, which neither gains its first owner nor loses its
    last. *)
Lemma inv_set P Q s c b b' : inv P s -> blocks s !! c = Some b -> b_obj b' = b_obj b -> same_but c P Q s ->
  b_ref b' = amount (owns c) Q s -> b_weak b' = amount (refers c) Q s -> 0 < b_weak b' ->
  (0 < b_ref b' <-> 0 < b_ref b) -> Z.of_nat (size (handles s) + length Q) < 2 ^ 63 -> inv Q (set_block c b' s).
Proof.
  intros [Hr Hw Hb Hn Ho Hi Hd Hm Hnd Ha _] Eb Eo He Er Ew Hpos Hiff Hro.
  assert (forall c1 b1, <[c:=b']> (blocks s) !! c1 = Some b1 ->
    exists b0, blocks s !! c1 = Some b0 /\ b_obj b1 = b_obj b0 /\ (0 < b_ref b1 <-> 0 < b_ref b0) /\ (c1 = c /\ b1 = b' \/ c1 <> c /\ b1 = b0)) as Hin.
  { intros c1 b1 [[<- <-]|[Hne H]]%lookup_insert_Some; [exists b; by split_and!; auto|]. exists b1. by split_and!; auto. }
  constructor; cbn [blocks objects handles with_blocks set_block]; try done.
  - intros c1 b1 H. change (b_ref b1 = amount (owns c1) Q s). destruct (Hin _ _ H) as (b0 & H0 & _ & _ & [[-> ->]|[Hne ->]]); [done|].
    destruct (He c1 Hne) as [_ ->]. by apply Hr.
  - intros c1 b1 H. change (b_weak b1 = amount (refers c1) Q s /\ 0 < b_weak b1).
    destruct (Hin _ _ H) as (b0 & H0 & _ & _ & [[-> ->]|[Hne ->]]); [done|]. destruct (He c1 Hne) as [-> _]. by apply Hw.
  - intros c1 H. change (0 < amount (refers c1) Q s) in H. destruct (decide (c1 = c)) as [->|Hne]; [right; by rewrite lookup_insert_eq|].
    rewrite lookup_insert_ne by done. apply Hb. by destruct (He c1 Hne) as [<- _].
  - rewrite lookup_insert_ne by congruence. done.
  - intros c1 b1 (b0 & H0 & -> & Hp & _)%Hin. rewrite Hp. by apply (Ho c1).
  - intros c1 c2 b1 b2 (b01 & H1 & -> & -> & _)%Hin (b02 & H2 & -> & -> & _)%Hin. by apply (Hi c1 c2).
  - intros o Hoo. destruct (Hd o Hoo) as (c1 & b1 & H & E & Hp). destruct (decide (c1 = c)) as [->|Hne].
    + exists c, b'. rewrite lookup_insert_eq. rewrite Eb in H. injection H as <-. rewrite Eo, Hiff. done.
    + exists c1, b1. by rewrite lookup_insert_ne.
Qed.

(** The block of the last pointer goes. *)
Lemma inv_delete_block P Q s c b : inv P s -> blocks s !! c = Some b -> same_but c P Q s -> b_ref b = 0 ->
  amount (refers c) Q s = 0 -> (length Q <= length P)%nat -> inv Q (with_blocks s (delete c (blocks s))).
Proof.
  intros [Hr Hw Hb Hn Ho Hi Hd Hm Hnd Ha Hro] Eb He Ez E0 Hl.
  constructor; cbn [blocks objects handles with_blocks]; try done.
  - intros c1 b1 [Hne H]%lookup_delete_Some. change (b_ref b1 = amount (owns c1) Q s). destruct (He c1) as [_ ->]; [done|]. by apply Hr.
  - intros c1 b1 [Hne H]%lookup_delete_Some. change (b_weak b1 = amount (refers c1) Q s /\ 0 < b_weak b1). destruct (He c1) as [-> _]; [done|]. by apply Hw.
  - intros c1 H. change (0 < amount (refers c1) Q s) in H. destruct (decide (c1 = c)) as [->|Hne]; [lia|].
    rewrite lookup_delete_ne by done. apply Hb. by destruct (He c1 Hne) as [<- _].
  - rewrite lookup_delete_ne by congruence. done.
  - intros c1 b1 [_ H]%lookup_delete_Some. by apply (Ho c1).
  - intros c1 c2 b1 b2 [_ H1]%lookup_delete_Some [_ H2]%lookup_delete_Some. by apply (Hi c1 c2).
  - intros o Hoo. destruct (Hd o Hoo) as (c1 & b1 & H & E & Hp). exists c1, b1. rewrite lookup_delete_ne; [done|].
    intros ->. rewrite Eb in H. injection H as <-. lia.
  - lia.
Qed.

Lemma same_objects_refl s s' : blocks s' = blocks s -> same_objects s s'.
Proof. intros E c b'. rewrite E. eauto. Qed.

Lemma same_objects_trans s1 s2 s3 : same_objects s1 s2 -> same_objects s2 s3 -> same_objects s1 s3.
Proof. intros H1 H2 c b3 (b2 & (b1 & H & E1)%H1 & E2)%H2. exists b1. split; [done|congruence]. Qed.

Lemma same_objects_set c b b' s : blocks s !! c = Some b -> b_obj b' = b_obj b -> same_objects s (set_block c b' s).
Proof. intros Hb E c' b0 H. cbn [blocks set_block with_blocks] in H. apply lookup_insert_Some in H as [[<- <-]|[_ H]]; eauto. Qed.

Lemma same_objects_delete c s : same_objects s (with_blocks s (delete c (blocks s))).
Proof. intros c' b0 H. cbn [blocks with_blocks] in H. apply lookup_delete_Some in H as [_ H]. eauto. Qed.

(** A token of [c]: what it adds to the amounts. *)
Lemma same_but_token k p c P s : same_but c (Handle k p c :: P) P s.
Proof. intros c' Hne. rewrite !amount_token. unfold refers, owns. cbn [h_ctrl]. by rewrite (proj2 (Z.eqb_neq c c')). Qed.

Lemma refers_token k p c P s : amount (refers c) (Handle k p c :: P) s = 1 + amount (refers c) P s.
Proof. rewrite amount_token. unfold refers. cbn [h_ctrl]. by rewrite Z.eqb_refl. Qed.

Lemma owns_token k p c P s : amount (owns c) (Handle k p c :: P) s = (if decide (k = Shared) then 1 else 0) + amount (owns c) P s.
Proof. rewrite amount_token. unfold owns. cbn [h_ctrl h_kind]. rewrite Z.eqb_refl. by destruct k. Qed.

Lemma token_block k p c P s : inv (Handle k p c :: P) s -> c <> 0 -> exists b, blocks s !! c = Some b /\
  b_weak b = 1 + amount (refers c) P s /\ b_ref b = (if decide (k = Shared) then 1 else 0) + amount (owns c) P s /\ b_weak b < 2 ^ 63.
Proof.
  intros Hi Hc. pose proof (iv_block _ _ Hi c) as Hb. rewrite refers_token in Hb. pose proof (amount_nonneg (refers c) P s).
  destruct Hb as [|[b Eb]]; [lia|done|]. exists b. split; [done|]. destruct (iv_weak _ _ Hi c b Eb) as [-> _]. rewrite (iv_ref _ _ Hi c b Eb).
  pose proof (amount_le (refers c) (Handle k p c :: P) s). pose proof (iv_room _ _ Hi). rewrite refers_token, owns_token in *. lia.
Qed.

(** The last step of a release. *)
Lemma release_weak_ok p c P s : inv (Handle Weak p c :: P) s -> c <> 0 ->
  exists s', release_weak c s = Ok s' /\ inv P s' /\ handles s' = handles s /\ objects s' = objects s /\ same_objects s s'.
Proof.
  intros Hi Hc. destruct (token_block _ _ _ _ _ Hi Hc) as (b & Eb & Ew & Er & Hlt). rewrite decide_False in Er by done.
  pose proof (owns_le c P s). pose proof (amount_nonneg (owns c) P s). pose proof (iv_room _ _ Hi) as Hro. simpl in Hro.
  unfold release_weak, get_block. rewrite Eb. bind_simpl. destruct (Z.eqb_spec (b_weak b) 1) as [E1|E1]; eexists; (split; [done|]).
  - split; [|split; [done|split; [done|apply same_objects_delete]]].
    apply (inv_delete_block _ P _ _ b Hi Eb); [apply same_but_token|lia|lia|simpl; lia].
  - split; [|split; [done|split; [done|by apply (same_objects_set c b)]]].
    rewrite u64_small by lia. apply (inv_set _ P _ _ b _ Hi Eb); cbn [b_obj b_ref b_weak]; [done|apply same_but_token|lia..].
Qed.

(** The first step of a release that is not the last of the shared pointers. *)
Lemma unshare_ok p c P s b : inv (Handle Shared p c :: P) s -> c <> 0 -> blocks s !! c = Some b -> b_ref b <> 1 ->
  inv (Handle Weak p c :: P) (set_block c (Block (u64 (b_ref b - 1)) (b_weak b) (b_obj b)) s).
Proof.
  intros Hi Hc Eb Hne. destruct (token_block _ _ _ _ _ Hi Hc) as (b' & Eb' & Ew & Er & Hlt). rewrite Eb in Eb'. injection Eb' as <-.
  rewrite decide_True in Er by done. pose proof (amount_nonneg (owns c) P s). pose proof (owns_le c P s). pose proof (iv_room _ _ Hi) as Hro.
  rewrite u64_small by lia. apply (inv_set _ _ _ _ b _ Hi Eb); cbn [b_obj b_ref b_weak].
  - done.
  - intros c' Hn. destruct (same_but_token Shared p c P s c' Hn) as [<- <-]. destruct (same_but_token Weak p c P s c' Hn) as [-> ->]. done.
  - rewrite owns_token, decide_False by done. lia.
  - rewrite refers_token. lia.
  - lia.
  - lia.
  - simpl in *. lia.
Qed.

(** The first steps of the last one: the object is gone, its members are orphans. *)
Lemma unshare_last p c P s b ms : inv (Handle Shared p c :: P) s -> c <> 0 -> blocks s !! c = Some b -> b_ref b = 1 ->
  objects s !! b_obj b = Some ms ->
  inv (Handle Weak p c :: P) (with_objects (set_block c (Block 0 (b_weak b) (b_obj b)) s) (delete (b_obj b) (objects s))).
Proof.
  intros Hi Hc Eb E1 Em. destruct (token_block _ _ _ _ _ Hi Hc) as (b' & Eb' & Ew & Er & Hlt). rewrite Eb in Eb'. injection Eb' as <-.
  rewrite decide_True in Er by done.
  assert (forall c', amount (refers c') (Handle Weak p c :: P) s = amount (refers c') (Handle Shared p c :: P) s) as Hrf by (intros; by rewrite !amount_token).
  assert (forall c' b0, <[c:=Block 0 (b_weak b) (b_obj b)]> (blocks s) !! c' = Some b0 -> (c' = c /\ b0 = Block 0 (b_weak b) (b_obj b)) \/ (c' <> c /\ blocks s !! c' = Some b0)) as Hin.
  { intros c' b0 [[<- <-]|[Hne H]]%lookup_insert_Some; auto. }
  assert (forall l o, member_of (with_objects (set_block c (Block 0 (b_weak b) (b_obj b)) s) (delete (b_obj b) (objects s))) l o -> member_of s l o) as Hmem.
  { intros l o (ms' & H & Hl). cbn [objects with_objects] in H. apply lookup_delete_Some in H as [_ H]. by exists ms'. }
  destruct (iv_weak _ _ Hi c b Eb) as [Hwt Hwp]. destruct Hi as [Hr Hw Hb Hn Ho Hio Hd Hm Hnd Ha Hro].
  constructor; cbn [blocks objects handles with_blocks with_objects set_block]; [| | | | | | |by eauto| |by eauto|done].
  - intros c' b0 [[-> ->]|[Hne H]]%Hin; cbn [b_ref].
    + change (0 = amount (owns c) (Handle Weak p c :: P) s). rewrite owns_token, decide_False by done. lia.
    + change (b_ref b0 = amount (owns c') (Handle Weak p c :: P) s). destruct (same_but_token Weak p c P s c' Hne) as [_ <-].
      destruct (same_but_token Shared p c P s c' Hne) as [_ ->]. by apply Hr.
  - intros c' b0 [[-> ->]|[Hne H]]%Hin; cbn [b_weak].
    + change (b_weak b = amount (refers c) (Handle Weak p c :: P) s /\ 0 < b_weak b). by rewrite Hrf.
    + change (b_weak b0 = amount (refers c') (Handle Weak p c :: P) s /\ 0 < b_weak b0). rewrite Hrf. by apply Hw.
  - intros c' H. change (0 < amount (refers c') (Handle Weak p c :: P) s) in H. rewrite Hrf in H.
    destruct (decide (c' = c)) as [->|Hne]; [right; by rewrite lookup_insert_eq|]. rewrite lookup_insert_ne by done. by apply Hb.
  - by rewrite lookup_insert_ne.
  - intros c' b0 [[-> ->]|[Hne H]]%Hin Hp; cbn [b_ref b_obj] in *; [lia|]. rewrite lookup_delete_ne; [by apply (Ho c')|].
    intros E. apply Hne. symmetry. apply (Hio c c' b b0); [done|done|lia|done|done].
  - intros c1 c2 b1 b2 [[-> ->]|[_ H1]]%Hin [[-> ->]|[_ H2]]%Hin; cbn [b_ref]; [done|lia|lia|by apply (Hio c1 c2)].
  - intros o [ms' H]. apply lookup_delete_Some in H as [Hne H]. destruct (Hd o) as (c' & b0 & H0 & Eo & Hp); [by eexists|].
    exists c', b0. rewrite lookup_insert_ne; [done|]. intros <-. rewrite Eb in H0. by injection H0 as <-.
  - intros o ms' [_ H]%lookup_delete_Some. by apply (Hnd o).
Qed.

(** Fewer objects have fewer members. *)
Lemma member_mono s s' l o : objects s' ⊆ objects s -> member_of s' l o -> member_of s l o.
Proof. intros Hs (ms & H & Hl). exists ms. split; [by apply (lookup_weaken _ _ _ _ H)|done]. Qed.

Lemma member_alive s s' l o : objects s' ⊆ objects s -> member_of s l o -> is_Some (objects s' !! o) -> member_of s' l o.
Proof. intros Hs (ms & H & Hl) [ms' H']. exists ms'. split; [done|]. pose proof (lookup_weaken _ _ _ _ H' Hs) as E. by simplify_eq. Qed.

Lemma released_refl s s' : handles s' = handles s -> objects s' = objects s -> same_objects s s' -> released [] s s'.
Proof.
  intros Eh Eo Hb. constructor; [by rewrite Eo| |by rewrite Eh|done].
  intros l [[]%elem_of_nil|(o & (ms & H & _) & Hn)]. rewrite Eo in Hn. congruence.
Qed.

(** A release and then the end of the pointer objects [ls]; [l] was taken out first. *)
Lemma released_step P l ls s s1 s2 : l ∉ ls -> handles s !! l <> None -> (forall o, ~ member_of s l o) ->
  released [] (with_handles s (delete l (handles s))) s1 -> inv P s1 -> released ls s1 s2 -> released (l :: ls) s s2.
Proof.
  intros Hl Hs Hno [Ho1 Hg1 Hk1 Hb1] Hi1 [Ho2 Hg2 Hk2 Hb2]. cbn [objects handles with_handles] in *.
  assert (forall x o, handles s1 !! x = None -> ~ member_of s1 x o) as Hnm by (intros x o Hx Hm; destruct (iv_members _ _ Hi1 x o Hm); congruence).
  assert (forall x, handles s1 !! x = None -> handles s2 !! x = None) as Hstay.
  { intros x Hx. destruct (decide (x ∈ ls)) as [Hin|Hni]; [apply Hg2; by left|]. rewrite Hk2; [done|done|]. intros o Hm. by destruct (Hnm x o). }
  constructor.
  - by etransitivity.
  - intros x [[->|Hin]%elem_of_cons|(o & Hm & Hn)].
    + apply Hstay. rewrite Hk1; [by rewrite lookup_delete_eq|by apply not_elem_of_nil|]. intros o Hm. by destruct (Hno o).
    + apply Hg2. by left.
    + destruct (objects s1 !! o) as [ms|] eqn:E; [|apply Hstay, Hg1; right; by exists o].
      apply Hg2. right. exists o. split; [|done]. by apply (member_alive (with_handles s (delete l (handles s)))); [|exact Hm|eexists].
  - intros x [Hne Hni]%not_elem_of_cons Ha. rewrite Hk2; [|done|].
    + rewrite Hk1; [by rewrite lookup_delete_ne|by apply not_elem_of_nil|]. intros o Hm. destruct (Ha o Hm) as [ms H]. exists ms. by apply (lookup_weaken _ _ _ _ H).
    + intros o Hm. apply Ha. by apply (member_mono s s1).
  - exact (same_objects_trans _ _ _ Hb1 Hb2).
Qed.

Definition release_spec (n : nat) (rel : kind -> Z -> store -> outcome store) : Prop :=
  forall k p c P s, inv (Handle k p c :: P) s -> c <> 0 -> (size (objects s) < n)%nat ->
    exists s', rel k c s = Ok s' /\ inv P s' /\ released [] s s'.

Lemma destroy_members_ok n rel ls P s : release_spec n rel -> inv P s -> NoDup ls ->
  (forall l, l ∈ ls -> is_Some (handles s !! l) /\ forall o, ~ member_of s l o) -> (size (objects s) < n)%nat ->
  exists s', destroy_members rel ls s = Ok s' /\ inv P s' /\ released ls s s'.
Proof.
  intros Hrel. revert s. induction ls as [|l ls IH]; intros s Hi Hnd Hls Hn; [exists s; split; [done|]; split; [done|by apply released_refl, same_objects_refl]|].
  apply NoDup_cons in Hnd as [Hl Hnd]. destruct (Hls l) as [[h Eh] Hno]; [by left|]. cbn [destroy_members]. unfold get_handle at 1. rewrite Eh. bind_simpl.
  pose proof (inv_take P s l h Hi Eh Hno) as Hi1. set (s0 := with_handles s (delete l (handles s))) in *.
  assert (exists s1, (if h_ctrl h =? 0 then Ok s0 else rel (h_kind h) (h_ctrl h) s0) = Ok s1 /\ inv P s1 /\ released [] s0 s1) as (s1 & -> & Hi2 & Hr1).
  { destruct (Z.eqb_spec (h_ctrl h) 0) as [Ez|Ez].
    - exists s0. split; [done|]. split; [by apply (inv_drop_null h)|by apply released_refl, same_objects_refl].
    - apply (Hrel _ (h_ptr h)); [by destruct h|done|done]. }
  bind_simpl. assert (objects s1 ⊆ objects s) as Hsub by (apply (rl_objects _ _ _ Hr1)).
  destruct (IH s1) as (s2 & -> & Hi3 & Hr2); [done|done| | |].
  - intros x Hx. destruct (Hls x) as [Hsx Hnx]; [by right|]. split.
    + rewrite (rl_kept _ _ _ Hr1); [|by apply not_elem_of_nil|intros o Hm; by destruct (Hnx o)].
      unfold s0. cbn [handles with_handles]. rewrite lookup_delete_ne; [done|]. by intros ->.
    + intros o Hm. by apply (Hnx o), (member_mono s s1).
  - pose proof (map_subseteq_size _ _ Hsub). lia.
  - exists s2. split; [done|]. split; [done|]. apply (released_step P _ _ _ s1); [done|congruence|done|done|done|done].
Qed.

(** The deleter and what follows it, seen from the state before the release. *)
Lemma released_object s s1 s2 s3 o ms : objects s !! o = Some ms -> handles s1 = handles s -> objects s1 = delete o (objects s) ->
  released (reverse ms) s1 s2 -> handles s3 = handles s2 -> objects s3 = objects s2 -> same_objects s s1 -> same_objects s2 s3 ->
  released [] s s3.
Proof.
  intros Em Eh Eo [Ho Hg Hk Hb] Eh3 Eo3 Hb1 Hb3. rewrite Eo in Ho. constructor; rewrite ?Eo3, ?Eh3;
    [| | |by eapply same_objects_trans; [|eapply same_objects_trans]].
  - etransitivity; [exact Ho|apply delete_subseteq].
  - intros l [[]%elem_of_nil|(o' & (ms' & Hm & Hl) & Hn)]. apply Hg. destruct (decide (o' = o)) as [->|Hne].
    + left. rewrite Em in Hm. injection Hm as <-. by apply elem_of_reverse.
    + right. exists o'. split; [|done]. exists ms'. by rewrite Eo, lookup_delete_ne.
  - intros l _ Ha. rewrite Hk, Eh; [done| |].
    + rewrite elem_of_reverse. intros Hl. destruct (Ha o) as [ms' H]; [by exists ms|].
      pose proof (lookup_weaken _ _ _ _ H Ho) as H'. by rewrite lookup_delete_eq in H'.
    + intros o' (ms' & Hm & Hl). rewrite Eo in Hm. apply lookup_delete_Some in Hm as [_ Hm]. apply Ha. by exists ms'.
Qed.

(** A release ends, whatever objects it destroys on its way. *)
Lemma release_ok n : release_spec n (release n).
Proof.
  induction n as [|n IH]; intros k p c P s Hi Hc Hn; [lia|]. cbn [release]. destruct k.
  2:{ destruct (release_weak_ok p c P s Hi Hc) as (s' & E & Hi' & Eh & Eo & Hb). exists s'. split; [done|]. split; [done|by apply released_refl]. }
  destruct (token_block _ _ _ _ _ Hi Hc) as (b & Eb & _ & _ & _). unfold get_block at 1. rewrite Eb. bind_simpl.
  destruct (Z.eqb_spec (b_ref b) 1) as [E1|E1].
  - destruct (iv_object _ _ Hi c b Eb) as [ms Em]; [lia|]. pose proof (unshare_last p c P s b ms Hi Hc Eb E1 Em) as Hi1.
    rewrite E1. change (u64 (1 - 1)) with 0. unfold destroy_object. cbn [objects set_block with_blocks]. rewrite Em.
    destruct (destroy_members_ok n (release n) (reverse ms) _ _ IH Hi1) as (s2 & E2 & Hi2 & Hr2).
    + rewrite reverse_Permutation; apply (iv_nodup _ _ Hi (b_obj b) ms Em).
    + intros l Hl. rewrite elem_of_reverse in Hl. split; [apply (iv_members _ _ Hi l (b_obj b)); by exists ms|].
      intros o (ms' & Hm & Hl'). cbn [objects with_objects] in Hm. apply lookup_delete_Some in Hm as [Hne Hm].
      apply Hne. apply (iv_apart _ _ Hi l); [by exists ms|by exists ms'].
    + cbn [objects with_objects]. rewrite map_size_delete_Some by by eexists. assert (size (objects s) <> 0)%nat; [|lia].
      rewrite map_size_ne_0_lookup. by exists (b_obj b), ms.
    + rewrite E2. bind_simpl. destruct (release_weak_ok p c P s2 Hi2 Hc) as (s3 & E3 & Hi3 & Eh3 & Eo3 & Hb3). exists s3.
      split; [done|]. split; [done|]. eapply released_object; [exact Em| | |exact Hr2|exact Eh3|exact Eo3| |exact Hb3]; [done|done|].
      by apply (same_objects_set c b).
  - bind_simpl. destruct (release_weak_ok p c P _ (unshare_ok p c P s b Hi Hc Eb E1) Hc) as (s' & -> & Hi' & Eh & Eo & Hb).
    exists s'. split; [done|]. split; [done|]. apply released_refl; [done|done|].
    eapply same_objects_trans; [|exact Hb]. by apply (same_objects_set c b).
Qed.

(** *** Tokens and pointer objects *)

(** A pointer object and a token change places. *)
Lemma inv_swap P s this g h : inv (g :: P) s -> handles s !! this = Some h -> inv (h :: P) (new_handle this g s).
Proof.
  intros Hi Hh. assert (forall p, amount p (h :: P) (new_handle this g s) = amount p (g :: P) s) as Ha.
  { intros p. rewrite !amount_token. unfold amount, new_handle. cbn [handles with_handles].
    rewrite (tally_delete p (handles s) this h Hh), <- insert_delete_eq, tally_insert by apply lookup_delete_eq.
    destruct (p g), (p h); lia. }
  destruct Hi as [Hr Hw Hb Hn Ho Hio Hd Hm Hnd Hap Hro]. constructor; try done.
  - intros c b. rewrite Ha. apply Hr.
  - intros c b. rewrite Ha. apply Hw.
  - intros c. rewrite Ha. apply Hb.
  - intros l o Hl. cbn. destruct (decide (l = this)) as [->|Hne]; [rewrite lookup_insert_eq; eauto|].
    rewrite lookup_insert_ne by done. by apply (Hm l o).
  - cbn. rewrite map_size_insert_Some by (by rewrite Hh). done.
Qed.

(** A token becomes a pointer object. *)
Lemma inv_new P s this g : inv (g :: P) s -> handles s !! this = None -> inv P (new_handle this g s).
Proof.
  intros Hi Hh. assert (forall p, amount p P (new_handle this g s) = amount p (g :: P) s) as Ha.
  { intros p. by rewrite amount_token, amount_insert. }
  destruct Hi as [Hr Hw Hb Hn Ho Hio Hd Hm Hnd Hap Hro]. constructor; try done.
  - intros c b. rewrite Ha. apply Hr.
  - intros c b. rewrite Ha. apply Hw.
  - intros c. rewrite Ha. apply Hb.
  - intros l o Hl. cbn. destruct (decide (l = this)) as [->|Hne]; [rewrite lookup_insert_eq; eauto|].
    rewrite lookup_insert_ne by done. by apply (Hm l o).
  - cbn. rewrite map_size_insert_None by done. simpl in Hro. lia.
Qed.

Lemma inv_add_null P s h : inv P s -> h_ctrl h = 0 -> Z.of_nat (size (handles s) + length P) < 2 ^ 62 -> inv (h :: P) s.
Proof.
  intros [Hr Hw Hb Hn Ho Hi Hd Hm Hnd Ha Hro] Hz Hro'.
  assert (forall c b, blocks s !! c = Some b -> c <> 0) as Hc0 by congruence.
  assert (forall c, c <> 0 -> amount (refers c) (h :: P) s = amount (refers c) P s /\ amount (owns c) (h :: P) s = amount (owns c) P s) as He.
  { intros c Hc. rewrite !amount_token. unfold refers, owns. by rewrite Hz, (proj2 (Z.eqb_neq 0 c)). }
  constructor; try done.
  - intros c b Hc. destruct (He c) as [_ ->]; eauto.
  - intros c b Hc. destruct (He c) as [-> _]; eauto.
  - intros c Hc. destruct (decide (c = 0)) as [|Hne]; [by left|]. apply Hb. by destruct (He c) as [<- _].
  - simpl. lia.
Qed.

(** A live pointer has its block, and a shared one its object. *)
Lemma handle_block P s l h : inv P s -> handles s !! l = Some h -> h_ctrl h <> 0 ->
  exists b, blocks s !! h_ctrl h = Some b /\ (h_kind h = Shared -> 0 < b_ref b).
Proof.
  intros Hi Hl Hc. assert (0 < amount (refers (h_ctrl h)) P s) as Hp.
  { unfold amount. pose proof (tally_pos (refers (h_ctrl h)) _ _ _ Hl (Z.eqb_refl _)). lia. }
  destruct (iv_block _ _ Hi _ Hp) as [|[b Eb]]; [done|]. exists b. split; [done|]. intros Hk. rewrite (iv_ref _ _ Hi _ _ Eb). unfold amount.
  assert (owns (h_ctrl h) h = true) as Ho by (unfold owns; by rewrite Z.eqb_refl, bool_decide_true).
  pose proof (tally_pos _ _ _ _ Hl Ho). lia.
Qed.

(** Counting one more pointer gives a token. *)
Lemma add_ok k p c P s b : inv P s -> c <> 0 -> blocks s !! c = Some b -> (k = Shared -> 0 < b_ref b) ->
  Z.of_nat (size (handles s) + length P) < 2 ^ 62 ->
  exists s', add k c s = Ok s' /\ inv (Handle k p c :: P) s' /\ handles s' = handles s /\ objects s' = objects s /\ same_objects s s'.
Proof.
  intros Hi Hc Eb Hk Hro. pose proof (iv_ref _ _ Hi c b Eb) as Er. destruct (iv_weak _ _ Hi c b Eb) as [Ew Hpos].
  pose proof (amount_le (refers c) P s). pose proof (owns_le c P s). pose proof (amount_nonneg (owns c) P s).
  set (b' := Block (b_ref b + if decide (k = Shared) then 1 else 0) (b_weak b + 1) (b_obj b)).
  assert (add k c s = Ok (set_block c b' s)) as E.
  { unfold add, add_shared, add_weak, get_block. rewrite (proj2 (Z.eqb_neq _ _)), Eb by done. bind_simpl. destruct k; bind_simpl.
    - cbn [blocks set_block with_blocks b_ref b_weak b_obj]. rewrite lookup_insert_eq. bind_simpl. cbn [b_ref b_weak b_obj]. rewrite !u64_small by lia.
      unfold b', set_block, with_blocks. cbn [handles blocks objects]. by rewrite insert_insert_eq, decide_True.
    - rewrite u64_small by lia. unfold b'. rewrite decide_False, Z.add_0_r by done. done. }
  exists (set_block c b' s). split; [done|]. split; [|split; [done|split; [done|by apply (same_objects_set c b)]]].
  apply (inv_set P _ _ c b _ Hi Eb); cbn [b_obj b_ref b_weak b'].
  - done.
  - intros c' Hne. destruct (same_but_token k p c P s c' Hne) as [<- <-]. done.
  - rewrite owns_token. lia.
  - rewrite refers_token. lia.
  - lia.
  - destruct (decide (k = Shared)) as [E1|]; [specialize (Hk E1)|]; lia.
  - simpl. lia.
Qed.

Lemma add_new_handle k c this h s : add k c (new_handle this h s) = (s' ← add k c s; Ok (new_handle this h s')).
Proof.
  unfold add, add_shared, add_weak, get_block. destruct (c =? 0); [done|]. change (blocks (new_handle this h s)) with (blocks s).
  destruct (blocks s !! c) as [b|]; bind_simpl; [|by destruct k]. destruct k; [|done]. cbn [blocks set_block with_blocks new_handle with_handles]. by rewrite !lookup_insert_eq.
Qed.
End Invariant.

(** ** A release while a pointer object still holds the old value

    An assignment releases first and overwrites afterwards.  As long as the release
    does not destroy the pointer object it acts as if that were null already. *)

Section Frame.
Context (this : Z) (h : handle).

Definition ignores (rel : kind -> Z -> store -> outcome store) : Prop := forall k c s s', rel k c s = Ok s' ->
  handles s' ⊆ handles s /\ (is_Some (handles s' !! this) -> rel k c (new_handle this h s) = Ok (new_handle this h s')).

Lemma release_weak_ignores c s s' : release_weak c s = Ok s' ->
  handles s' = handles s /\ release_weak c (new_handle this h s) = Ok (new_handle this h s').
Proof.
  unfold release_weak, get_block. cbn [blocks new_handle with_handles]. destruct (blocks s !! c) as [b|]; [|done]. bind_simpl.
  destruct (b_weak b =? 1); intros [= <-]; done.
Qed.

Lemma destroy_members_ignores rel ls s s' : ignores rel -> destroy_members rel ls s = Ok s' ->
  handles s' ⊆ handles s /\ (is_Some (handles s' !! this) -> destroy_members rel ls (new_handle this h s) = Ok (new_handle this h s')).
Proof.
  intros Hrel. revert s. induction ls as [|l ls IH]; intros s E; [by injection E as <-|]. cbn [destroy_members] in *.
  unfold get_handle in *. destruct (handles s !! l) as [g|] eqn:El; [|done]. bind_simpl. cbn [mbind outcome_bind] in E.
  apply bind_inv in E as (s1 & E1 & E). apply IH in E as [Hs1 E]. set (s0 := with_handles s (delete l (handles s))) in *.
  assert (handles s1 ⊆ handles s0 /\ (is_Some (handles s1 !! this) ->
    (if h_ctrl g =? 0 then Ok (new_handle this h s0) else rel (h_kind g) (h_ctrl g) (new_handle this h s0)) = Ok (new_handle this h s1))) as [Hs0 E0].
  { destruct (h_ctrl g =? 0); [by injection E1 as <-|by apply Hrel]. }
  split; [etransitivity; [exact Hs1|]; etransitivity; [exact Hs0|apply delete_subseteq]|]. intros [g' Hg'].
  assert (handles s1 !! this = Some g') as Hg1 by (by apply (lookup_weaken _ _ _ _ Hg')).
  assert (handles s0 !! this = Some g') as Hg0 by (by apply (lookup_weaken _ _ _ _ Hg1)).
  unfold s0 in Hg0. cbn [handles with_handles] in Hg0. apply lookup_delete_Some in Hg0 as [Hne _]. cbn [handles new_handle with_handles]. rewrite lookup_insert_ne, El by done. bind_simpl.
  replace (with_handles (new_handle this h s) (delete l (<[this:=h]> (handles s)))) with (new_handle this h s0)
    by (unfold new_handle, s0, with_handles; cbn [handles blocks objects]; by rewrite delete_insert_ne by done).
  rewrite E0 by eauto. bind_simpl. apply E. eauto.
Qed.

Lemma release_ignores n : ignores (release n).
Proof.
  induction n as [|n IH]; intros k c s s' E; [done|]. cbn [release] in *. destruct k.
  2:{ destruct (release_weak_ignores c s s' E) as [-> ?]. done. }
  unfold get_block in *. change (blocks (new_handle this h s)) with (blocks s). destruct (blocks s !! c) as [b|]; [|done].
  bind_simpl. cbn [mbind outcome_bind] in E. apply bind_inv in E as (s1 & E1 & E2). destruct (release_weak_ignores _ _ _ E2) as [-> E3].
  set (b' := Block _ _ _) in *. change (set_block c b' (new_handle this h s)) with (new_handle this h (set_block c b' s)).
  destruct (b_ref b =? 1); [|injection E1 as <-; done]. unfold destroy_object in *.
  change (objects (new_handle this h (set_block c b' s))) with (objects s). cbn [objects set_block with_blocks] in E1.
  destruct (objects s !! b_obj b) as [ms|]; [|done]. apply (destroy_members_ignores _ _ _ _ IH) in E1 as [Hs1 E1].
  split; [exact Hs1|]. intros Ht. cbn [mbind outcome_bind]. change (with_objects (new_handle this h ?x) ?y) with (new_handle this h (with_objects x y)).
  rewrite E1 by done. exact E3.
Qed.
End Frame.
