(* ===== verification/HandlesClaims.v ===== *)
(** * Shared and weak pointers: what every operation does

    When an operation is legal, what it writes, and that it does so and keeps the
    counters ([handles_safe]); the assignment that reads what it has destroyed
    ([assign_reads_destroyed]). *)

From S2P Require Import Prelude Handles HandlesInv.

(** ** Legal operations and their effect *)

(** A variable of the program, not a member of an object. *)
Definition root (s : store) (l : Z) : Prop := forall o, ~ member_of s l o.

(** [l] is a variable, or a member of an object that a shared variable other than
    [this] points to: it survives whatever the old pointer of [this] takes along. *)
Definition anchored (this : Z) (s : store) (l : Z) : Prop :=
  root s l \/ exists o r h b, member_of s l o /\ r <> this /\ root s r /\ handles s !! r = Some h /\ h_kind h = Shared /\
    blocks s !! h_ctrl h = Some b /\ b_obj b = o.

Definition lives (s : store) (l : Z) (k : kind) : Prop := exists h, handles s !! l = Some h /\ h_kind h = k.
Definition unused (s : store) (l : Z) : Prop := handles s !! l = None.

(** A weak pointer is made from either kind, a shared one from a shared one. *)
Definition converts (s : store) (k : kind) (other : Z) : Prop := lives s other Shared \/ k = Weak /\ lives s other Weak.

(** When a program may perform an operation. *)
Definition legal (s : store) (op : operation) : Prop :=
  match op with
  | Make this c o members =>
      unused s this /\ c <> 0 /\ blocks s !! c = None /\ objects s !! o = None /\
      NoDup members.*1 /\ (this ∉ members.*1) /\ Forall (unused s) members.*1 /\ Z.of_nat (size (handles s) + length members) < 2 ^ 62
  | Construct k this other => unused s this /\ converts s k other
  | Construct_move this other => unused s this /\ exists k, lives s other k
  | Construct_alias this other _ | Construct_alias_move this other _ | Cast _ this other => unused s this /\ lives s other Shared
  | Lock this other => unused s this /\ lives s other Weak
  | Assign k this other => lives s this k /\ converts s k other /\ anchored this s this /\ anchored this s other
  | Assign_move this other => exists k, lives s this k /\ lives s other k /\ anchored this s this /\ anchored this s other
  | Assign_null this => exists k, lives s this k /\ anchored this s this
  | Destroy this => root s this /\ exists k, lives s this k
  end.

(** What the operation writes: pointer objects with their new values, [None] for the
    end of their life. *)
Definition copied (s : store) (k : kind) (other : Z) : option handle :=
  h ← handles s !! other; Some (Handle k (h_ptr h) (h_ctrl h)).
Definition nulled (s : store) (l : Z) : option handle := h ← handles s !! l; Some (null (h_kind h)).

Definition locked (s : store) (other : Z) : option handle :=
  h ← handles s !! other;
  match blocks s !! h_ctrl h with
  | Some b => if b_ref b =? 0 then Some (null Shared) else Some (Handle Shared (h_ptr h) (h_ctrl h))
  | None => Some (null Shared)
  end.

Definition with_ptr (f : Z -> Z) (h : option handle) : option handle := g ← h; Some (Handle (h_kind g) (f (h_ptr g)) (h_ctrl g)).

Definition written (s : store) (op : operation) : list (Z * option handle) :=
  match op with
  | Make this c o members => (this, Some (Handle Shared o c)) :: List.map (fun '(l, k) => (l, Some (null k))) members
  | Construct k this other => [(this, copied s k other)]
  | Construct_move this other => [(this, handles s !! other); (other, nulled s other)]
  | Construct_alias this other p => [(this, with_ptr (fun _ => p) (handles s !! other))]
  | Construct_alias_move this other p => [(this, with_ptr (fun _ => p) (handles s !! other)); (other, nulled s other)]
  | Cast cast this other => [(this, with_ptr cast (handles s !! other))]
  | Lock this other => [(this, locked s other)]
  | Assign k this other => [(this, copied s k other)]
  | Assign_move this other => if decide (this = other) then [] else [(this, handles s !! other); (other, nulled s other)]
  | Assign_null this => [(this, nulled s this)]
  | Destroy this => [(this, None)]
  end.

(** *** Each operation *)

(** What an operation on [s] that writes [ws] is to reach. *)
Definition reaches (s : store) (ws : list (Z * option handle)) (c : outcome store) : Prop :=
  exists s', c = Ok s' /\ inv [] s' /\ Forall (fun x => handles s' !! x.1 = x.2) ws /\
    (forall l, l ∉ ws.*1 -> (forall o, member_of s l o -> is_Some (objects s' !! o)) -> handles s' !! l = handles s !! l).

Section Operations.
Context (s : store) (Hi : inv [] s) (Hroom : Z.of_nat (size (handles s)) < 2 ^ 62).

(** A new pointer object with the block of a live one. *)
Lemma construct_reaches k p this other h : handles s !! this = None -> handles s !! other = Some h ->
  (forall b, blocks s !! h_ctrl h = Some b -> k = Shared -> 0 < b_ref b) ->
  reaches s [(this, Some (Handle k p (h_ctrl h)))] (add k (h_ctrl h) (new_handle this (Handle k p (h_ctrl h)) s)).
Proof.
  intros Ht Ho Hk. rewrite add_new_handle. assert (Z.of_nat (size (handles s) + length (@nil handle)) < 2 ^ 62) as Hr by (simpl; lia).
  assert (exists s1, add k (h_ctrl h) s = Ok s1 /\ inv [Handle k p (h_ctrl h)] s1 /\ handles s1 = handles s) as (s1 & -> & Hi1 & Eh).
  { destruct (decide (h_ctrl h = 0)) as [E0|E0].
    - exists s. unfold add. rewrite E0. split; [done|]. split; [by apply inv_add_null|done].
    - destruct (handle_block _ _ _ _ Hi Ho E0) as (b & Eb & _).
      destruct (add_ok k p (h_ctrl h) [] s b Hi E0 Eb) as (s1 & ? & ? & ? & _); [by apply Hk|done|eauto]. }
  bind_simpl. eexists. split; [done|]. split; [by apply inv_new; rewrite ?Eh|]. cbn [handles new_handle with_handles]. rewrite Eh. split.
  - repeat constructor. apply lookup_insert_eq.
  - intros l Hl _. apply lookup_insert_ne. intros <-. apply Hl. by left.
Qed.

(** A new pointer object that takes the place of a live one. *)
Lemma move_reaches this other h g g0 : handles s !! this = None -> handles s !! other = Some h -> h_ctrl g0 = 0 ->
  h_kind g = h_kind h -> h_ctrl g = h_ctrl h ->
  reaches s [(this, Some g); (other, Some g0)] (put_handle other g0 (new_handle this g s)).
Proof.
  intros Ht Ho Hz Ek Ec. assert (other <> this) as Hne by congruence. unfold put_handle, get_handle. cbn [handles new_handle with_handles].
  rewrite lookup_insert_ne, Ho by done. bind_simpl. eexists. split; [done|].
  assert (inv [g] (new_handle other g0 s)) as H1.
  { assert (inv [h] (new_handle other g0 s)) as [H1 H2 H3 H4 H5 H6 H7 H8 H9 H10 H11] by (apply inv_swap; [apply inv_add_null; [done|done|simpl; lia]|done]).
    assert (forall c, refers c g = refers c h /\ owns c g = owns c h) as He by (intros c; unfold refers, owns; by rewrite Ek, Ec).
    constructor; try done.
    - intros c b Hc. rewrite (H1 c b Hc), !amount_token. by destruct (He c) as [_ ->].
    - intros c b Hc. rewrite amount_token. destruct (He c) as [-> _]. rewrite <- amount_token. by apply H2.
    - intros c. rewrite amount_token. destruct (He c) as [-> _]. rewrite <- amount_token. apply H3. }
  split.
  - replace (new_handle other g0 (new_handle this g s)) with (new_handle this g (new_handle other g0 s))
      by (unfold new_handle, with_handles; cbn [handles blocks objects]; by rewrite insert_insert_ne by done).
    apply inv_new; [done|]. cbn. by rewrite lookup_insert_ne.
  - cbn [handles new_handle with_handles]. split.
    + repeat constructor; cbn; [by rewrite lookup_insert_ne, lookup_insert_eq by done|by rewrite lookup_insert_eq].
    + cbn. intros l Hl _. apply not_elem_of_cons in Hl as [H2 [H3 _]%not_elem_of_cons]. by rewrite !lookup_insert_ne by done.
Qed.

(** The release at the start of an assignment: it acts on the store [s0] in which the
    pointer object is null already. *)
Lemma delete_ok this h : handles s !! this = Some h ->
  let s0 := new_handle this (null (h_kind h)) s in
  exists s1, inv [] s1 /\ released [] s0 s1 /\ handles s1 ⊆ handles s0 /\ Z.of_nat (size (handles s1) + 0) < 2 ^ 62 /\
    (is_Some (handles s1 !! this) -> delete_ this s = Ok (new_handle this h s1)).
Proof.
  intros Ht s0. assert (inv [h] s0) as Hi0 by (apply inv_swap; [apply inv_add_null; [done|done|simpl; lia]|done]).
  assert (new_handle this h s0 = s) as Es by (unfold s0, new_handle, with_handles; cbn; rewrite insert_insert_eq, insert_id by done; by destruct s).
  assert (size (handles s0) = size (handles s)) as Hsz by (cbn; by rewrite map_size_insert_Some by (by rewrite Ht)).
  unfold delete_, get_handle. rewrite Ht. bind_simpl. destruct (Z.eqb_spec (h_ctrl h) 0) as [Ez|Ez].
  - exists s0. split; [by apply (inv_drop_null h)|]. split; [by apply released_refl, same_objects_refl|].
    split; [done|]. split; [lia|]. intros _. by rewrite Es.
  - destruct (release_ok (fuel_of s) (h_kind h) (h_ptr h) (h_ctrl h) [] s0) as (s1 & E & Hi1 & Hr); [by destruct h|done|unfold fuel_of; cbn; lia|].
    exists s1. split; [done|]. split; [done|]. destruct (release_ignores this h _ _ _ _ _ E) as [Hsub E']. rewrite Es in E'.
    split; [done|]. split; [|done]. apply map_subseteq_size in Hsub. lia.
Qed.

Lemma anchored_survives this g s1 l : inv [] s1 -> released [] (new_handle this g s) s1 -> anchored this s l ->
  (forall o, member_of s l o -> is_Some (objects s1 !! o)) /\ handles s1 !! l = handles (new_handle this g s) !! l.
Proof.
  intros Hi1 [_ _ Hk Hb] Ha.
  assert (forall o, member_of s l o -> is_Some (objects s1 !! o)) as Hall.
  { intros o Hm. destruct Ha as [Hroot|(o' & r & h & b & Hm' & Hne & Hroot & Hr & Hsh & Eb & Eo)]; [by destruct (Hroot o)|].
    assert (o = o') as -> by (by apply (iv_apart _ _ Hi l)).
    assert (h_ctrl h <> 0) as Hc by (intros E; rewrite E, (iv_null _ _ Hi) in Eb; done).
    assert (handles s1 !! r = Some h) as Hr1.
    { rewrite (Hk r); [cbn; by rewrite lookup_insert_ne by congruence|by apply not_elem_of_nil|]. intros o Hmo. by destruct (Hroot o). }
    destruct (handle_block _ _ _ _ Hi1 Hr1 Hc) as (b1 & Eb1 & Hp). destruct (Hb _ _ Eb1) as (b0 & Eb0 & Eo1). cbn in Eb0.
    rewrite Eb in Eb0. injection Eb0 as <-. rewrite <- Eo, <- Eo1. apply (iv_object _ _ Hi1 _ _ Eb1). auto. }
  split; [done|]. apply Hk; [apply not_elem_of_nil|done].
Qed.

Lemma get_new_ne l l' h s1 : l <> l' -> get_handle l (new_handle l' h s1) = get_handle l s1.
Proof. intros Hne. unfold get_handle. cbn. by rewrite lookup_insert_ne. Qed.

Lemma put_new l g h s1 : put_handle l g (new_handle l h s1) = Ok (new_handle l g s1).
Proof. unfold put_handle, get_handle, new_handle, with_handles. cbn. by rewrite lookup_insert_eq, insert_insert_eq. Qed.

Lemma put_live l g h s1 : handles s1 !! l = Some h -> put_handle l g s1 = Ok (new_handle l g s1).
Proof. intros Hl. unfold put_handle, get_handle. by rewrite Hl. Qed.

Lemma get_live l h s1 : handles s1 !! l = Some h -> get_handle l s1 = Ok h.
Proof. intros Hl. unfold get_handle. by rewrite Hl. Qed.

(** What an assignment does with a store in which the target is null. *)
Lemma fill_ok s1 k this other n h' : inv [] s1 -> Z.of_nat (size (handles s1) + 0) < 2 ^ 62 ->
  handles s1 !! this = Some n -> h_ctrl n = 0 -> handles s1 !! other = Some h' -> (k = Shared -> h_kind h' = Shared) ->
  let g := Handle k (h_ptr h') (h_ctrl h') in
  exists s2, add k (h_ctrl h') (new_handle this g s1) = Ok s2 /\ inv [] s2 /\ handles s2 = <[this := g]> (handles s1) /\ objects s2 = objects s1.
Proof.
  intros Hi1 Hr Ht Hn Ho Hk g. rewrite add_new_handle.
  assert (exists s2, add k (h_ctrl h') s1 = Ok s2 /\ inv [g] s2 /\ handles s2 = handles s1 /\ objects s2 = objects s1) as (s2 & -> & Hi2 & Eh & Eo).
  { destruct (decide (h_ctrl h' = 0)) as [E0|E0].
    - exists s1. unfold add. rewrite E0. split; [done|]. split; [by apply inv_add_null|done].
    - destruct (handle_block _ _ _ _ Hi1 Ho E0) as (b & Eb & Hb).
      destruct (add_ok k (h_ptr h') (h_ctrl h') [] s1 b Hi1 E0 Eb) as (s2 & ? & ? & ? & ? & _); [auto|done|eauto]. }
  bind_simpl. eexists. split; [done|]. split; [|by cbn; rewrite Eh].
  apply (inv_drop_null n); [|done]. apply inv_swap; [done|by rewrite Eh].
Qed.

(** An assignment whose release leaves both sides alive. *)
Lemma assign_reaches k this other h h' : this <> other -> handles s !! this = Some h -> handles s !! other = Some h' ->
  (k = Shared -> h_kind h' = Shared) -> anchored this s this -> anchored this s other ->
  reaches s [(this, Some (Handle k (h_ptr h') (h_ctrl h')))] (assign k this other s).
Proof.
  intros Hne Ht Ho Hk Hat Hao. destruct (delete_ok this h Ht) as (s1 & Hi1 & Hr1 & _ & Hrm & Ed).
  destruct (anchored_survives _ _ _ _ Hi1 Hr1 Hat) as [Hlt Et1]. destruct (anchored_survives _ _ _ _ Hi1 Hr1 Hao) as [_ Eo1].
  cbn in Et1, Eo1. rewrite lookup_insert_eq in Et1. rewrite lookup_insert_ne, Ho in Eo1 by done.
  unfold assign. rewrite (proj2 (Z.eqb_neq _ _)), Ed by eauto. bind_simpl. rewrite get_new_ne, (get_live _ h') by done. bind_simpl.
  rewrite put_new. bind_simpl.
  destruct (fill_ok s1 k this other _ h' Hi1 Hrm Et1 eq_refl Eo1 Hk) as (s2 & -> & Hi2 & Eh & Eo). exists s2. split; [done|]. split; [done|].
  rewrite Eh, Eo. split; [repeat constructor; apply lookup_insert_eq|].
  intros l Hl Ha. cbn in Hl. apply not_elem_of_cons in Hl as [Hl _]. rewrite lookup_insert_ne by done.
  rewrite (rl_kept _ _ _ Hr1); [cbn; by rewrite lookup_insert_ne|apply not_elem_of_nil|exact Ha].
Qed.

Lemma assign_move_reaches this other h h' : this <> other -> handles s !! this = Some h -> handles s !! other = Some h' ->
  h_kind h = h_kind h' -> anchored this s this -> anchored this s other ->
  reaches s [(this, Some h'); (other, Some (null (h_kind h')))] (assign_move this other s).
Proof.
  intros Hne Ht Ho Hk Hat Hao. destruct (delete_ok this h Ht) as (s1 & Hi1 & Hr1 & _ & Hrm & Ed).
  destruct (anchored_survives _ _ _ _ Hi1 Hr1 Hat) as [Hlt Et1]. destruct (anchored_survives _ _ _ _ Hi1 Hr1 Hao) as [_ Eo1].
  cbn in Et1, Eo1. rewrite lookup_insert_eq in Et1. rewrite lookup_insert_ne, Ho in Eo1 by done.
  unfold assign_move. rewrite (proj2 (Z.eqb_neq _ _)), Ed by eauto. bind_simpl. rewrite get_new_ne, (get_live _ h') by done. bind_simpl.
  rewrite put_new. bind_simpl. rewrite (put_live _ _ h') by (cbn; by rewrite lookup_insert_ne). eexists. split; [done|].
  pose proof (inv_swap [] s1 other (null (h_kind h)) h' ltac:(by apply inv_add_null) Eo1) as H2.
  split; [|cbn [handles new_handle with_handles]; split].
  - pose proof (inv_swap [] _ this h' _ H2 ltac:(cbn; rewrite lookup_insert_ne by done; exact Et1)) as H3. apply inv_drop_null in H3; [|done].
    rewrite <- Hk. unfold new_handle, with_handles in *. cbn in *. by rewrite insert_insert_ne by done.
  - repeat constructor; cbn; [by rewrite lookup_insert_ne, lookup_insert_eq by done|by rewrite lookup_insert_eq].
  - cbn. intros l [H3 [H4 _]%not_elem_of_cons]%not_elem_of_cons Ha. rewrite !lookup_insert_ne by done.
    rewrite (rl_kept _ _ _ Hr1); [cbn; by rewrite lookup_insert_ne|apply not_elem_of_nil|exact Ha].
Qed.

Lemma assign_null_reaches this h : handles s !! this = Some h -> anchored this s this ->
  reaches s [(this, Some (null (h_kind h)))] (assign_null this s).
Proof.
  intros Ht Hat. destruct (delete_ok this h Ht) as (s1 & Hi1 & Hr1 & _ & Hrm & Ed).
  destruct (anchored_survives _ _ _ _ Hi1 Hr1 Hat) as [Hlt Et1]. cbn in Et1. rewrite lookup_insert_eq in Et1.
  unfold assign_null. rewrite (get_live _ h) by done. bind_simpl. rewrite Ed by eauto. bind_simpl. rewrite put_new. eexists. split; [done|].
  assert (new_handle this (null (h_kind h)) s1 = s1) as -> by (unfold new_handle, with_handles; rewrite insert_id by done; by destruct s1).
  split; [done|]. split; [by repeat constructor|]. intros l Hl Ha. cbn in Hl. apply not_elem_of_cons in Hl as [Hl _].
  rewrite (rl_kept _ _ _ Hr1); [cbn; by rewrite lookup_insert_ne|apply not_elem_of_nil|exact Ha].
Qed.

Lemma destroy_reaches this h : handles s !! this = Some h -> root s this -> reaches s [(this, None)] (destroy this s).
Proof.
  intros Ht Hroot. pose proof (inv_take [] s this h Hi Ht Hroot) as Hi0. set (s0 := with_handles s (delete this (handles s))) in *.
  assert (exists s1, destroy this s = Ok s1 /\ inv [] s1 /\ released [] s0 s1) as (s1 & E & Hi1 & [_ _ Hk _]).
  { unfold destroy, get_handle. rewrite Ht. bind_simpl. destruct (Z.eqb_spec (h_ctrl h) 0) as [Ez|Ez].
    - exists s0. split; [done|]. split; [by apply (inv_drop_null h)|by apply released_refl, same_objects_refl].
    - apply (release_ok _ _ (h_ptr h)); [by destruct h|done|unfold fuel_of; cbn; lia]. }
  exists s1. split; [done|]. split; [done|]. split.
  - repeat constructor. cbn. rewrite Hk; [apply lookup_delete_eq|apply not_elem_of_nil|]. intros o Hm. by destruct (Hroot o).
  - cbn. intros l [Hl _]%not_elem_of_cons Ha. rewrite Hk; [cbn; by rewrite lookup_delete_ne|apply not_elem_of_nil|exact Ha].
Qed.

(** Kinds that fit give a block with an owner. *)
Lemma convert_owner k other h : handles s !! other = Some h -> (k = Shared -> h_kind h = Shared) ->
  forall b, blocks s !! h_ctrl h = Some b -> k = Shared -> 0 < b_ref b.
Proof.
  intros Ho Hk b Eb Ek. assert (h_ctrl h <> 0) as Hc by (intros E; rewrite E, (iv_null _ _ Hi) in Eb; done).
  destruct (handle_block _ _ _ _ Hi Ho Hc) as (b' & Eb' & Hp). rewrite Eb in Eb'. injection Eb' as <-. auto.
Qed.

Lemma new_null_reaches this k : handles s !! this = None -> reaches s [(this, Some (null k))] (Ok (new_handle this (null k) s)).
Proof.
  intros Ht. eexists. split; [done|]. split; [by apply inv_new; [apply inv_add_null; [done|done|simpl; lia]|]|].
  split; [repeat constructor; apply lookup_insert_eq|]. cbn. intros l [Hl _]%not_elem_of_cons _. by rewrite lookup_insert_ne.
Qed.

Lemma lock_reaches this other h : handles s !! this = None -> handles s !! other = Some h -> reaches s [(this, locked s other)] (lock this other s).
Proof.
  intros Ht Ho. unfold lock, locked. rewrite (get_live _ h), Ho by done. bind_simpl. cbn [mbind option_bind].
  destruct (Z.eqb_spec (h_ctrl h) 0) as [Ez|Ez]; [rewrite Ez, (iv_null _ _ Hi); by apply new_null_reaches|].
  destruct (handle_block _ _ _ _ Hi Ho Ez) as (b & Eb & _). unfold get_block at 1. rewrite Eb. bind_simpl.
  destruct (Z.eqb_spec (b_ref b) 0) as [Er|Er]; [by apply new_null_reaches|].
  assert (0 < b_ref b) as Hp by (pose proof (iv_ref _ _ Hi _ _ Eb); pose proof (amount_nonneg (owns (h_ctrl h)) [] s); lia).
  pose proof (construct_reaches Shared (h_ptr h) this other h Ht Ho) as H. unfold add, add_shared, get_block in H.
  rewrite (proj2 (Z.eqb_neq _ _)) in H by done. cbn [blocks new_handle with_handles] in H. rewrite Eb in H. apply H. congruence.
Qed.

(** The null members of a new object. *)
Lemma inv_null_members (members : list (Z * kind)) : NoDup members.*1 -> Forall (unused s) members.*1 -> Z.of_nat (size (handles s) + length members) < 2 ^ 62 ->
  let hs := foldr (fun '(l, k) hs => <[l := null k]> hs) (handles s) members in
  inv [] (with_handles s hs) /\ size hs = (size (handles s) + length members)%nat /\
  (forall l, l ∉ members.*1 -> hs !! l = handles s !! l) /\ Forall (fun x => hs !! x.1 = Some (null x.2)) members.
Proof.
  induction members as [|[l k] members IH]; intros Hnd Hun Hr; cbn [foldr fmap list_fmap fst length] in *.
  { split; [by destruct s|]. split; [lia|]. split; [done|constructor]. }
  apply NoDup_cons in Hnd as [Hl Hnd]. apply Forall_cons in Hun as [Hul Hun]. destruct IH as (Hi1 & Hs & Ho & Hm); [done|done|lia|].
  set (hs := foldr _ (handles s) members) in *. assert (hs !! l = None) as Hln by (by rewrite Ho). split; [|split; [|split]].
  - apply (inv_new [] (with_handles s hs) l (null k)); [apply inv_add_null; [done|done|cbn; lia]|done].
  - rewrite map_size_insert_None by done. lia.
  - intros x [Hx Hxm]%not_elem_of_cons. rewrite lookup_insert_ne by done. by apply Ho.
  - constructor; [by rewrite lookup_insert_eq|]. apply Forall_forall. intros [x kx] Hx. cbn. rewrite lookup_insert_ne.
    + rewrite Forall_forall in Hm. exact (Hm _ Hx).
    + intros ->. apply Hl. apply list_elem_of_fmap. by exists (x, kx).
Qed.
End Operations.

(** A new object and its block, for a token. *)
Lemma inv_make P s c o ms : inv P s -> c <> 0 -> blocks s !! c = None -> objects s !! o = None -> NoDup ms ->
  (forall l, l ∈ ms -> is_Some (handles s !! l) /\ root s l) -> Z.of_nat (size (handles s) + length P) < 2 ^ 62 ->
  inv (Handle Shared o c :: P) (Store (handles s) (<[c := Block 1 1 o]> (blocks s)) (<[o := ms]> (objects s))).
Proof.
  intros [Hr Hw Hb Hn Ho Hi Hd Hm Hnd Ha _] Hc Ec Eo Hms Hl Hro.
  set (s' := Store _ _ _). assert (forall p, amount p (Handle Shared o c :: P) s' = amount p (Handle Shared o c :: P) s) as He by done.
  assert (amount (refers c) P s = 0) as E0.
  { pose proof (amount_nonneg (refers c) P s). destruct (decide (0 < amount (refers c) P s)) as [Hp|]; [|lia]. destruct (Hb c Hp) as [|[? ?]]; congruence. }
  assert (amount (owns c) P s = 0) as E1 by (pose proof (owns_le c P s); pose proof (amount_nonneg (owns c) P s); lia).
  assert (forall c1 b1, <[c:=Block 1 1 o]> (blocks s) !! c1 = Some b1 -> (c1 = c /\ b1 = Block 1 1 o) \/ (c1 <> c /\ blocks s !! c1 = Some b1)) as Hin
    by (intros c1 b1 [[<- <-]|[Hne H]]%lookup_insert_Some; auto).
  assert (forall l x, member_of s' l x -> (x = o /\ l ∈ ms) \/ (x <> o /\ member_of s l x)) as Hmem.
  { intros l x (ms' & H & Hx). cbn in H. apply lookup_insert_Some in H as [[<- <-]|[Hne H]]; [by left|right; split; [done|by exists ms']]. }
  assert (blocks s' = <[c := Block 1 1 o]> (blocks s) /\ objects s' = <[o := ms]> (objects s) /\ handles s' = handles s) as (Eb' & Eo' & Eh') by done.
  clearbody s'. constructor; rewrite ?Eb', ?Eo', ?Eh'.
  - intros c1 b1 [[-> ->]|[Hne H]]%Hin; rewrite He; [rewrite owns_token, decide_True by done; cbn; lia|].
    destruct (same_but_token Shared o c P s c1 Hne) as [_ <-]. by apply Hr.
  - intros c1 b1 [[-> ->]|[Hne H]]%Hin; rewrite He; [rewrite refers_token; cbn; lia|].
    destruct (same_but_token Shared o c P s c1 Hne) as [<- _]. by apply Hw.
  - intros c1 H1. rewrite He in H1. destruct (decide (c1 = c)) as [->|Hne]; [right; by rewrite lookup_insert_eq|].
    rewrite lookup_insert_ne by done. apply Hb. by destruct (same_but_token Shared o c P s c1 Hne) as [-> _].
  - by rewrite lookup_insert_ne.
  - intros c1 b1 [[-> ->]|[Hne H]]%Hin Hp; [exists ms; apply lookup_insert_eq|]. destruct (decide (b_obj b1 = o)) as [E|]; [exists ms; rewrite E; apply lookup_insert_eq|].
    rewrite lookup_insert_ne by done. by apply (Ho c1).
  - intros c1 c2 b1 b2 [[-> ->]|[Hn1 H1]]%Hin [[-> ->]|[Hn2 H2]]%Hin Hp1 Hp2; cbn [b_obj]; intros E; [done| | |by apply (Hi c1 c2 b1 b2)].
    + destruct (Ho c2 b2 H2 Hp2); congruence.
    + destruct (Ho c1 b1 H1 Hp1); congruence.
  - intros x Hx. destruct (decide (x = o)) as [->|Hne]; [exists c, (Block 1 1 o); by rewrite lookup_insert_eq|].
    rewrite lookup_insert_ne in Hx by done. destruct (Hd x Hx) as (c1 & b1 & H & E & Hp). exists c1, b1. rewrite lookup_insert_ne by congruence. done.
  - intros l x [[-> Hx]|[Hne Hx]]%Hmem; [by apply Hl|by apply (Hm l x)].
  - intros x ms' [[<- <-]|[Hne H]]%lookup_insert_Some; [done|by apply (Hnd x)].
  - intros l x y [[-> Hx]|[Hnx Hx]]%Hmem [[-> Hy]|[Hny Hy]]%Hmem; [done| | |by apply (Ha l)].
    + destruct (Hl l Hx) as [_ Hroot]. by destruct (Hroot y).
    + destruct (Hl l Hy) as [_ Hroot]. by destruct (Hroot x).
  - simpl. lia.
Qed.

Lemma make_reaches s this c o members : inv [] s -> legal s (Make this c o members) ->
  reaches s (written s (Make this c o members)) (perform (Make this c o members) s).
Proof.
  intros Hi (Ht & Hc & Ec & Eo & Hnd & Htm & Hun & Hr). cbn [perform written].
  destruct (inv_null_members s Hi ltac:(lia) members Hnd Hun Hr) as (Hi1 & Hs & Hother & Hm). eexists. split; [done|]. unfold make_shared.
  set (hs := foldr _ (handles s) members) in *. rewrite Forall_forall in Hm.
  assert (forall l, l ∈ members.*1 -> root s l) as Hroot.
  { intros l Hl x Hx. rewrite Forall_forall in Hun. specialize (Hun l Hl). unfold unused in Hun. destruct (iv_members _ _ Hi l x Hx). congruence. }
  split; [|cbn [handles]; split].
  - change (inv [] (new_handle this (Handle Shared o c) (Store hs (<[c:=Block 1 1 o]> (blocks s)) (<[o:=List.map fst members]> (objects s))))).
    apply inv_new; [|cbn; by rewrite Hother]. apply (inv_make [] (with_handles s hs)); [done|done|done|done|exact Hnd| |cbn; lia].
    intros l Hl. split; [|exact (Hroot l Hl)]. apply list_elem_of_fmap in Hl as (x & -> & Hx). cbn. rewrite (Hm x Hx). by eexists.
  - apply Forall_forall. intros y [->|Hy]%elem_of_cons; [apply lookup_insert_eq|]. apply list_elem_of_fmap in Hy as ([l k] & -> & Hx).
    cbn. rewrite lookup_insert_ne; [exact (Hm _ Hx)|]. intros <-. apply Htm. apply list_elem_of_fmap. by exists (this, k).
  - intros l Hl _. cbn in Hl. apply not_elem_of_cons in Hl as [Hl Hlm]. rewrite lookup_insert_ne by done. apply Hother.
    intros Hx. apply Hlm. apply list_elem_of_fmap in Hx as ([x k] & -> & Hx). apply list_elem_of_fmap. exists (x, Some (null k)). split; [done|].
    apply list_elem_of_fmap. by exists (x, k).
Qed.

(** The counters are the numbers of pointers, and the objects that live are those a
    shared pointer has the block of. *)
Definition counted (s : store) : Prop :=
  (forall c b, blocks s !! c = Some b ->
     b_ref b = Z.of_nat (tally (owns c) (handles s)) /\ b_weak b = Z.of_nat (tally (refers c) (handles s))) /\
  (forall o, is_Some (objects s !! o) <-> exists l h b, handles s !! l = Some h /\ h_kind h = Shared /\ blocks s !! h_ctrl h = Some b /\ b_obj b = o).

Lemma inv_counted s : inv [] s -> counted s.
Proof.
  intros Hi. split.
  - intros c b Hb. rewrite (iv_ref _ _ Hi c b Hb). destruct (iv_weak _ _ Hi c b Hb) as [-> _]. unfold amount. simpl. by rewrite !Nat.add_0_r.
  - intros o. split.
    + intros Ho. destruct (iv_owned _ _ Hi o Ho) as (c & b & Eb & Eo & Hp). rewrite (iv_ref _ _ Hi c b Eb) in Hp. unfold amount in Hp. simpl in Hp.
      destruct (tally_exists (owns c) (handles s)) as (l & h & Hl & Hh); [lia|]. apply andb_true_iff in Hh as [Hc%Z.eqb_eq Hk%bool_decide_eq_true].
      exists l, h, b. by rewrite Hc.
    + intros (l & h & b & Hl & Hk & Eb & <-). assert (h_ctrl h <> 0) as Hc by (intros E; rewrite E, (iv_null _ _ Hi) in Eb; done).
      destruct (handle_block _ _ _ _ Hi Hl Hc) as (b' & Eb' & Hp). rewrite Eb in Eb'. injection Eb' as <-. apply (iv_object _ _ Hi _ _ Eb). auto.
Qed.

Lemma inv_empty : inv [] empty_store.
Proof.
  constructor; cbn; try done.
  - intros o [? H]. done.
  - intros l o (ms & H & _). done.
  - intros l o o' (ms & H & _). done.
Qed.

Lemma converts_fits s k other : converts s k other -> exists h, handles s !! other = Some h /\ (k = Shared -> h_kind h = Shared).
Proof. intros [(h & Hh & Ek)|[-> (h & Hh & Ek)]]; exists h; done. Qed.

(** ** Theorems *)

(** C28: every legal operation on shared and weak pointers ends, and uses nothing
    behind the end of its life, however many objects destroy each other on the way.
    It writes the pointers the operation names and no other, apart from the members of
    objects that are destroyed.  Afterwards the counters are again the numbers of
    pointers, and the objects that live are those with a shared pointer. *)
Theorem handles_safe s op : inv [] s -> legal s op -> Z.of_nat (size (handles s)) < 2 ^ 62 ->
  exists s', perform op s = Ok s' /\ inv [] s' /\ counted s' /\
    Forall (fun x => handles s' !! x.1 = x.2) (written s op) /\
    (forall l, l ∉ (written s op).*1 -> (forall o, member_of s l o -> is_Some (objects s' !! o)) -> handles s' !! l = handles s !! l).
Proof.
  intros Hi Hl Hr. assert (reaches s (written s op) (perform op s)) as (s' & E & Hi' & Hw & Hk); [|exists s'; pose proof (inv_counted s' Hi'); done].
  destruct op as [this c o members|k this other|this other|this other p|this other p|cast this other|this other|k this other|this other|this|this]; [by apply make_reaches|..];
    cbn [perform written legal] in *.
  - destruct Hl as [Ht (h & Ho & Hc)%converts_fits]. unfold construct, copied. rewrite (get_live _ h), Ho by done. bind_simpl.
    apply (construct_reaches s Hi Hr k _ this other h Ht Ho), (convert_owner s Hi k other h Ho Hc).
  - destruct Hl as [Ht (k & h & Ho & _)]. unfold construct_move, nulled. rewrite (get_live _ h), Ho by done. by apply (move_reaches s Hi Hr this other h).
  - destruct Hl as [Ht (h & Ho & Hc)]. unfold construct_alias. rewrite (get_live _ h), Ho by done. destruct h as [k p0 c0]. cbn in Hc. subst k. bind_simpl.
    apply (construct_reaches s Hi Hr Shared p this other _ Ht Ho), (convert_owner s Hi Shared other _ Ho). done.
  - destruct Hl as [Ht (h & Ho & Hc)]. unfold construct_alias_move, nulled. rewrite (get_live _ h), Ho by done. destruct h as [k p0 c0]. cbn in Hc. subst k.
    by apply (move_reaches s Hi Hr this other _ _ _ Ht Ho).
  - destruct Hl as [Ht (h & Ho & Hc)]. unfold pointer_cast, construct_alias. rewrite (get_live _ h), Ho by done.
    destruct h as [k p0 c0]. cbn in Hc. subst k. bind_simpl.
    apply (construct_reaches s Hi Hr Shared _ this other _ Ht Ho), (convert_owner s Hi Shared other _ Ho). done.
  - destruct Hl as [Ht (h & Ho & _)]. by apply (lock_reaches s Hi Hr this other h).
  - destruct Hl as ((h & Ht & Hkh) & (h' & Ho & Hc)%converts_fits & Hat & Hao). unfold copied. rewrite Ho. cbn [mbind option_bind].
    destruct (decide (this = other)) as [<-|Hne]; [|by apply (assign_reaches s Hi Hr k this other h h')].
    rewrite Ht in Ho. injection Ho as <-. unfold assign. rewrite Z.eqb_refl. exists s. split; [done|]. split; [done|]. split; [|done].
    repeat constructor. cbn. rewrite Ht, <- Hkh. by destruct h.
  - destruct Hl as (k & (h & Ht & Hkh) & (h' & Ho & Hko) & Hat & Hao). destruct (decide (this = other)) as [<-|Hne].
    + unfold assign_move. rewrite Z.eqb_refl. exists s. split; [done|]. split; [done|]. split; [constructor|done].
    + unfold nulled. rewrite Ho. apply (assign_move_reaches s Hi Hr this other h h' Hne Ht Ho); [congruence|done|done].
  - destruct Hl as (k & (h & Ht & _) & Hat). unfold nulled. rewrite Ht. by apply (assign_null_reaches s Hi Hr this h).
  - destruct Hl as (Hroot & k & h & Ht & _). by apply (destroy_reaches s Hi this h).
Qed.

(** The release destroys an object whose only shared pointer it takes. *)
Lemma last_owner_gone s this h b s1 : inv [] s -> handles s !! this = Some h -> h_kind h = Shared ->
  blocks s !! h_ctrl h = Some b -> b_ref b = 1 -> inv [] s1 -> released [] (new_handle this (null (h_kind h)) s) s1 ->
  handles s1 ⊆ handles (new_handle this (null (h_kind h)) s) -> objects s1 !! b_obj b = None.
Proof.
  intros Hi Ht Hk Eb E1 Hi1 [_ _ _ Hso] Hsub. destruct (objects s1 !! b_obj b) as [ms|] eqn:E; [|done]. exfalso.
  destruct (iv_owned _ _ Hi1 (b_obj b)) as (c & b1 & Eb1 & Eo1 & Hp1); [by eexists|]. destruct (Hso c b1 Eb1) as (b0 & Eb0 & Eo0). cbn in Eb0.
  rewrite (iv_ref _ _ Hi1 c b1 Eb1) in Hp1. unfold amount in Hp1. simpl in Hp1.
  destruct (tally_exists (owns c) (handles s1)) as (l & g & Hl & Hg); [lia|]. pose proof (lookup_weaken _ _ _ _ Hl Hsub) as Hl0. cbn in Hl0.
  assert (c <> 0) as Hc0 by (intros ->; rewrite (iv_null _ _ Hi) in Eb0; done).
  apply lookup_insert_Some in Hl0 as [[<- <-]|[Hne Hl0]].
  { apply andb_true_iff in Hg as [Hg%Z.eqb_eq _]. cbn in Hg. congruence. }
  assert (0 < b_ref b0) as Hp0 by (rewrite (iv_ref _ _ Hi c b0 Eb0); unfold amount; pose proof (tally_pos _ _ _ _ Hl0 Hg); lia).
  assert (h_ctrl h = c) as Ec by (apply (iv_owner _ _ Hi _ _ b b0); [done|done|lia|done|congruence]). subst c.
  rewrite (iv_ref _ _ Hi _ _ Eb) in E1. unfold amount in E1. rewrite (tally_delete _ _ _ _ Ht) in E1.
  assert (owns (h_ctrl h) h = true) as Hoh by (unfold owns; by rewrite Z.eqb_refl, bool_decide_true). rewrite Hoh in E1.
  assert (delete this (handles s) !! l = Some g) as Hl' by (by rewrite lookup_delete_ne by done).
  pose proof (tally_pos _ _ _ _ Hl' Hg). simpl in E1. lia.
Qed.

(** C29: the assignments of [shared_ptr] release the old object before they read the
    other side.  So [p = p->next], where [p] is the only pointer to its object, reads
    the member [next] of an object that has just been destroyed; the move assignment
    does the same. *)
Theorem assign_reads_destroyed s this other h b : inv [] s -> Z.of_nat (size (handles s)) < 2 ^ 62 ->
  root s this -> handles s !! this = Some h -> h_kind h = Shared -> blocks s !! h_ctrl h = Some b -> b_ref b = 1 ->
  member_of s other (b_obj b) ->
  is_Some (handles s !! other) /\ assign Shared this other s = Undef /\ assign_move this other s = Undef.
Proof.
  intros Hi Hr Hroot Ht Hk Eb E1 Hm. split; [by apply (iv_members _ _ Hi other (b_obj b))|].
  assert (this <> other) as Hne by (intros ->; by destruct (Hroot (b_obj b))).
  destruct (delete_ok s Hi Hr this h Ht) as (s1 & Hi1 & Hr1 & Hsub & _ & Ed).
  pose proof (last_owner_gone s this h b s1 Hi Ht Hk Eb E1 Hi1 Hr1 Hsub) as Hgone.
  assert (handles s1 !! other = None) as Hnone by (apply (rl_gone _ _ _ Hr1); right; by exists (b_obj b)).
  assert (handles s1 !! this = Some (null (h_kind h))) as Hts.
  { rewrite (rl_kept _ _ _ Hr1); [apply lookup_insert_eq|apply not_elem_of_nil|]. intros o Ho. by destruct (Hroot o). }
  assert (get_handle other (new_handle this h s1) = Undef) as Hg by (rewrite get_new_ne by done; unfold get_handle; by rewrite Hnone).
  unfold assign, assign_move. rewrite (proj2 (Z.eqb_neq _ _)), Ed, !bind_Ok, Hg by eauto. done.
Qed.

(** ** Witnesses *)

(** A node at 100 with a pointer [next] at 101, and the variable [p] at 1. *)
Definition sample_store : store := make_shared 1 10 100 [(101, Shared)] empty_store.

Lemma sample_legal : legal empty_store (Make 1 10 100 [(101, Shared)]).
Proof.
  split; [reflexivity|]. split; [discriminate|]. split; [reflexivity|]. split; [reflexivity|].
  split; [by apply (bool_decide_unpack _); vm_compute|]. split; [by apply (bool_decide_unpack _); vm_compute|].
  split; [by repeat constructor|reflexivity].
Qed.

Lemma sample_inv : inv [] sample_store.
Proof. destruct (make_reaches empty_store 1 10 100 [(101, Shared)] inv_empty sample_legal) as (s' & [= <-] & Hi & _). exact Hi. Qed.

Lemma sample_root : root sample_store 1.
Proof.
  intros o (ms & H & Hl). cbn in H. apply lookup_insert_Some in H as [[<- <-]|[_ H]]; [by apply list_elem_of_singleton in Hl|done].
Qed.

Lemma sample_member : member_of sample_store 101 100.
Proof. exists [101]. split; [reflexivity|by apply list_elem_of_singleton]. Qed.

(** [p->next = p] *)
Lemma handles_safe_witness : exists s, perform (Assign Shared 101 1) sample_store = Ok s /\ counted s /\
  handles s !! 101 = Some (Handle Shared 100 10) /\ blocks s !! 10 = Some (Block 2 2 100).
Proof.
  assert (legal sample_store (Assign Shared 101 1)) as Hl.
  { split; [by eexists|]. split; [left; by eexists|]. split; [|left; exact sample_root]. right.
    exists 100, 1, (Handle Shared 100 10), (Block 1 1 100). split; [exact sample_member|]. split; [discriminate|]. split; [exact sample_root|done]. }
  destruct (handles_safe sample_store (Assign Shared 101 1) sample_inv Hl eq_refl) as (s & E & _ & Hc & Hw & _).
  exists s. split; [exact E|]. split; [exact Hc|]. split; [by apply Forall_cons in Hw as [Hw _]|].
  vm_compute in E. injection E as <-. reflexivity.
Defined.

(** [p = p->next] *)
Lemma assign_reads_destroyed_witness :
  is_Some (handles sample_store !! 101) /\ assign Shared 1 101 sample_store = Undef /\ assign_move 1 101 sample_store = Undef.
Proof.
  apply (assign_reads_destroyed sample_store 1 101 (Handle Shared 100 10) (Block 1 1 100)).
  - exact sample_inv.
  - reflexivity.
  - exact sample_root.
  - reflexivity.
  - reflexivity.
  - reflexivity.
  - reflexivity.
  - exact sample_member.
Defined.
