(* ===== verification/UniquePtr.v ===== *)
(** * include/libs/libc++/memory: unique_ptr

    Pointer objects by location, and the objects that live; [Undef] is a use of a
    pointer object or a deletion of an object that does not live.  What the destructor
    of an object does beside ending its life is not part of it. *)

From S2P Require Import Prelude.

Record owners : Type := Owners { pointers : gmap Z Z; alive : gset Z }.

Definition pointer_at (l : Z) (s : owners) : outcome Z := match pointers s !! l with Some p => Ok p | None => Undef end.
Definition set_pointer (l p : Z) (s : owners) : owners := Owners (<[l := p]> (pointers s)) (alive s).

(** [delete], which does nothing for null. *)
Definition delete_object (p : Z) (s : owners) : outcome owners :=
  if p =? 0 then Ok s
  else if decide (p ∈ alive s) then Ok (Owners (pointers s) (alive s ∖ {[p]})) else Undef.

(** [__assign] *)
Definition assign_pointer (this p : Z) (s : owners) : outcome owners :=
  q ← pointer_at this s;
  if q =? p then Ok s else s ← delete_object q s; Ok (set_pointer this p s).

(** [make_unique]: the object at the fresh address [p]. *)
Definition make_unique (this p : Z) (s : owners) : owners := Owners (<[this := p]> (pointers s)) ({[p]} ∪ alive s).

Definition unique_move (this other : Z) (s : owners) : outcome owners :=
  p ← pointer_at other s; Ok (set_pointer other 0 (set_pointer this p s)).

Definition unique_assign_move (this other : Z) (s : owners) : outcome owners :=
  p ← pointer_at other s; s ← assign_pointer this p s; Ok (set_pointer other 0 s).

Definition unique_assign_null (this : Z) (s : owners) : outcome owners := assign_pointer this 0 s.

Definition unique_destroy (this : Z) (s : owners) : outcome owners :=
  p ← pointer_at this s; delete_object p (Owners (delete this (pointers s)) (alive s)).

Definition unique_release (this : Z) (s : owners) : outcome (Z * owners) :=
  p ← pointer_at this s; Ok (p, set_pointer this 0 s).

(** ** The owner is unique *)

(** Every pointer that is not null points to an object that lives, and no two to the
    same one. *)
Record unique_inv (s : owners) : Prop := {
  un_alive : forall l p, pointers s !! l = Some p -> p <> 0 -> p ∈ alive s;
  un_unique : forall l l' p, pointers s !! l = Some p -> pointers s !! l' = Some p -> p <> 0 -> l = l';
}.

(** An object without a pointer to it. *)
Definition leaked (s : owners) (p : Z) : Prop := p ∈ alive s /\ p <> 0 /\ forall l, pointers s !! l <> Some p.

Section Unique.
Context (s : owners) (Hs : unique_inv s).

Lemma assign_pointer_ok this q p : pointers s !! this = Some q -> p <> q ->
  assign_pointer this p s = Ok (Owners (<[this := p]> (pointers s)) (if q =? 0 then alive s else alive s ∖ {[q]})).
Proof.
  intros Ht Hne. unfold assign_pointer, pointer_at, delete_object. rewrite Ht. bind_simpl. rewrite (proj2 (Z.eqb_neq q p)) by congruence.
  destruct (Z.eqb_spec q 0) as [->|Hq]; [done|]. by rewrite decide_True by (by apply (un_alive s Hs this)).
Qed.

(** The move assignment between two pointer objects: the object of the target is
    deleted, that of the source changes hands. *)
Lemma unique_assign_move_ok this other q p : this <> other -> pointers s !! this = Some q -> pointers s !! other = Some p ->
  exists s', unique_assign_move this other s = Ok s' /\ unique_inv s' /\
    pointers s' !! this = Some p /\ pointers s' !! other = Some 0 /\ (q <> 0 -> q ∉ alive s') /\
    (forall x, x <> q -> x ∈ alive s' <-> x ∈ alive s).
Proof.
  intros Hne Ht Ho. unfold unique_assign_move, pointer_at at 1. rewrite Ho. bind_simpl. destruct (decide (p = q)) as [->|Hpq].
  - assert (q = 0) as -> by (destruct (decide (q = 0)) as [|Hq]; [done|]; by destruct Hne; apply (un_unique s Hs _ _ q)).
    unfold assign_pointer, pointer_at. rewrite Ht. bind_simpl. exists (set_pointer other 0 s). split; [done|].
    assert (set_pointer other 0 s = s) as -> by (unfold set_pointer; rewrite insert_id by done; by destruct s). done.
  - rewrite (assign_pointer_ok this q p Ht Hpq). bind_simpl. eexists. split; [done|]. unfold set_pointer. cbn [pointers alive].
    assert (forall l x, <[other:=0]> (<[this:=p]> (pointers s)) !! l = Some x -> x <> 0 -> (l = this /\ x = p) \/ (l <> this /\ l <> other /\ pointers s !! l = Some x)) as Hin.
    { intros l x [[<- <-]|[Hn Hl]]%lookup_insert_Some Hx; [done|]. apply lookup_insert_Some in Hl as [[<- <-]|[Hn' Hl]]; [by left|by right]. }
    split; [constructor; cbn [pointers alive]|split_and!].
    + intros l x Hl Hx. assert (x <> q /\ x ∈ alive s) as [Hxq Hxa].
      { destruct (Hin l x Hl Hx) as [[-> ->]|(Hn & Hn' & Hl')]; [split; [done|by apply (un_alive s Hs other)]|].
        split; [|by apply (un_alive s Hs l)]. intros ->. by apply Hn, (un_unique s Hs _ _ q). }
      destruct (q =? 0); set_solver.
    + intros l l' x Hl Hl' Hx. destruct (Hin l x Hl Hx) as [[-> E1]|(? & Hno & H1)], (Hin l' x Hl' Hx) as [[-> E]|(? & Hno' & H2)]; [done| | |by apply (un_unique s Hs _ _ x)].
      * subst x. destruct Hno'. by apply (un_unique s Hs _ _ p).
      * subst x. destruct Hno. by apply (un_unique s Hs _ _ p).
    + rewrite lookup_insert_ne by done. apply lookup_insert_eq.
    + apply lookup_insert_eq.
    + intros Hq. rewrite (proj2 (Z.eqb_neq q 0)) by done. set_solver.
    + intros x Hx. destruct (q =? 0); set_solver.
Qed.

(** The destructor deletes the object of the pointer and nothing else. *)
Lemma unique_destroy_ok this p : pointers s !! this = Some p ->
  exists s', unique_destroy this s = Ok s' /\ unique_inv s' /\ pointers s' = delete this (pointers s) /\
    (p <> 0 -> p ∉ alive s') /\ (forall x, x <> p -> x ∈ alive s' <-> x ∈ alive s).
Proof.
  intros Ht. unfold unique_destroy, pointer_at, delete_object. rewrite Ht. bind_simpl. cbn [pointers alive].
  destruct (Z.eqb_spec p 0) as [->|Hp]; [|rewrite decide_True by (by apply (un_alive s Hs this))]; (eexists; split; [done|]; split; [constructor; cbn [pointers alive]|split; [done|split]]).
  - intros l x [_ Hl]%lookup_delete_Some. by apply (un_alive s Hs l).
  - intros l l' x [_ Hl]%lookup_delete_Some [_ Hl']%lookup_delete_Some. by apply (un_unique s Hs).
  - done.
  - done.
  - intros l x [Hn Hl]%lookup_delete_Some Hx. assert (x <> p) by (intros ->; by apply Hn, (un_unique s Hs _ _ p)).
    pose proof (un_alive s Hs l x Hl Hx). set_solver.
  - intros l l' x [_ Hl]%lookup_delete_Some [_ Hl']%lookup_delete_Some. by apply (un_unique s Hs).
  - cbn. set_solver.
  - cbn. set_solver.
Qed.

(** The assignment of a pointer object to itself loses its object. *)
Lemma unique_self_move_leaks this p : pointers s !! this = Some p -> p <> 0 ->
  exists s', unique_assign_move this this s = Ok s' /\ leaked s' p.
Proof.
  intros Ht Hp. unfold unique_assign_move, assign_pointer, pointer_at. rewrite Ht. bind_simpl. rewrite Z.eqb_refl. bind_simpl.
  eexists. split; [done|]. split; [by apply (un_alive s Hs this)|]. split; [done|]. cbn. intros l.
  destruct (decide (l = this)) as [->|Hne]; [rewrite lookup_insert_eq; congruence|]. rewrite lookup_insert_ne by done.
  intros Hl. by apply Hne, (un_unique s Hs _ _ p).
Qed.
End Unique.
