(* ===== verification/Vector.v ===== *)
(** * include/libs/libc++/vector

    [std::vector] for elements of eight bytes that are copied by assignment: the
    three fields as a record, the elements in a block of the heap.  An iterator is
    an address.  [new T[n]] asks for all ones when [8 * n] does not fit 64 bits. *)

From S2P Require Import Prelude Memory LibcString Frames Math Physical Heap.

Record vector : Type := Vector { v_ptr : Z; v_sz : Z; v_cap : Z }.

(** The difference of two iterators, a signed number of elements. *)
Definition iter_diff (p q : Z) : Z := Z.quot (s64 (p - q)) 8.

(** A reverse iterator is the iterator behind the element it denotes.  The
    post-decrement goes forward, as the post-increment does. *)
Definition rev_next (it : Z) : Z := elem it (-1).
Definition rev_prev (it : Z) : Z := elem it 1.
Definition rev_next_post (it : Z) : Z * Z := (it, rev_next it).
Definition rev_prev_post (it : Z) : Z * Z := (it, rev_next it).

Section Vector.
Context {W : Type} `{Frames W} (allocator : Z).

Definition new_array (n : Z) (w : W) : outcome (Z * W) :=
  malloc allocator (if n * 8 <? W64 then n * 8 else W64 - 1) w.

(** The loops [dst[i] = src[i]] and [p[i] = val]. *)
Definition copy_elems (src dst n : Z) (w : W) : outcome W :=
  for_range 0 n (fun i w => x ← load w (elem src i); store w (elem dst i) x) w.
Definition fill_elems (p lo hi val : Z) (w : W) : outcome W :=
  for_range lo hi (fun i w => store w (elem p i) val) w.

(** *** Construction, copying, destruction *)

Definition vector_empty : vector := Vector 0 0 0.

Definition vector_sized (n : Z) (w : W) : outcome (vector * W) :=
  '(p, w) ← new_array n w; Ok (Vector p n n, w).

Definition vector_filled (n val : Z) (w : W) : outcome (vector * W) :=
  '(p, w) ← new_array n w; w ← fill_elems p 0 n val w; Ok (Vector p n n, w).

(** The elements of a range of eight-byte elements, given by two pointers. *)
Definition vector_range (first last : Z) (w : W) : outcome (vector * W) :=
  let n := u64 (iter_diff last first) in
  '(p, w) ← new_array n w; w ← copy_elems first p n w; Ok (Vector p n n, w).

(** The copy keeps the capacity, but its array has [size] places. *)
Definition vector_copy (v : vector) (w : W) : outcome (vector * W) :=
  '(p, w) ← new_array (v_sz v) w;
  w ← copy_elems (v_ptr v) p (v_sz v) w;
  Ok (Vector p (v_sz v) (v_cap v), w).

(** The copy assignment; [same] says whether both sides are one object.  The old
    array is not released. *)
Definition vector_assign (same : bool) (v v' : vector) (w : W) : outcome (vector * W) :=
  if same then Ok (v, w) else vector_copy v' w.

(** The move constructor and assignment: the new value of the target and of the
    source. *)
Definition vector_move (v : vector) : vector * vector := (v, Vector 0 0 0).

Definition vector_destroy (v : vector) (w : W) : outcome W := free (v_ptr v) w.

(** *** Size and capacity *)

Definition vector_is_empty (v : vector) : bool := v_sz v =? 0.
Definition vector_end (v : vector) : Z := elem (v_ptr v) (v_sz v).

Definition reserve (n : Z) (v : vector) (w : W) : outcome (vector * W) :=
  if v_cap v <? n then
    '(p, w) ← new_array n w;
    w ← copy_elems (v_ptr v) p (v_sz v) w;
    w ← free (v_ptr v) w;
    Ok (Vector p (v_sz v) n, w)
  else Ok (v, w).

Definition with_size (v : vector) (n : Z) : vector := Vector (v_ptr v) n (v_cap v).

Definition resize (n : Z) (v : vector) (w : W) : outcome (vector * W) :=
  '(v, w) ← reserve n v w; Ok (with_size v n, w).

Definition resize_filled (n val : Z) (v : vector) (w : W) : outcome (vector * W) :=
  '(v, w) ← reserve n v w;
  w ← fill_elems (v_ptr v) (v_sz v) n val w;
  Ok (with_size v n, w).

Definition shrink_to_fit (v : vector) (w : W) : outcome (vector * W) :=
  if v_sz v <? v_cap v then
    '(p, w) ← new_array (v_sz v) w;
    w ← copy_elems (v_ptr v) p (v_sz v) w;
    w ← free (v_ptr v) w;
    Ok (Vector p (v_sz v) (v_sz v), w)
  else Ok (v, w).

(** *** Access *)

Definition at_ (v : vector) (i : Z) (w : W) : outcome Z := load w (elem (v_ptr v) i).
Definition set_at (v : vector) (i x : Z) (w : W) : outcome W := store w (elem (v_ptr v) i) x.
Definition front (v : vector) (w : W) : outcome Z := at_ v 0 w.
Definition back (v : vector) (w : W) : outcome Z := at_ v (u64 (v_sz v - 1)) w.

(** *** Changes at the end *)

(** [if (__sz == __cap) reserve(__cap == 0 ? 1 : __cap * 2)] *)
Definition grow (v : vector) (w : W) : outcome (vector * W) :=
  if v_sz v =? v_cap v then reserve (if v_cap v =? 0 then 1 else u64 (v_cap v * 2)) v w
  else Ok (v, w).

Definition push_back (x : Z) (v : vector) (w : W) : outcome (vector * W) :=
  '(v, w) ← grow v w;
  w ← store w (elem (v_ptr v) (v_sz v)) x;
  Ok (with_size v (u64 (v_sz v + 1)), w).

Definition pop_back (v : vector) : vector := with_size v (u64 (v_sz v - 1)).
Definition clear (v : vector) : vector := with_size v 0.

(** *** Insertion and removal *)

(** The answer is the iterator to the new element; [__idx] is compared and used as
    an unsigned number. *)
Definition insert_at (pos x : Z) (v : vector) (w : W) : outcome (Z * vector * W) :=
  let idx := u64 (iter_diff pos (v_ptr v)) in
  '(v, w) ← grow v w;
  w ← for_range 0 (v_sz v - idx) (fun k w =>
        let i := v_sz v - k in
        y ← load w (elem (v_ptr v) (u64 (i - 1))); store w (elem (v_ptr v) i) y) w;
  w ← store w (elem (v_ptr v) idx) x;
  Ok (elem (v_ptr v) idx, with_size v (u64 (v_sz v + 1)), w).

(** The range lies in another array.  The loop that makes room counts [i] down to
    [__idx + __n], which never ends when that is zero; [fuel] bounds its rounds. *)
Definition insert_range (fuel : nat) (pos first last : Z) (v : vector) (w : W) : outcome (Z * vector * W) :=
  let idx := u64 (iter_diff pos (v_ptr v)) in
  let n := u64 (iter_diff last first) in
  '(v, w) ← (if v_cap v <? u64 (v_sz v + n)
             then reserve (Z.max (u64 (v_sz v + n)) (if v_cap v =? 0 then 1 else u64 (v_cap v * 2))) v w
             else Ok (v, w));
  w ← loop (fun '(i, w) =>
        if u64 (idx + n) <=? i then
          w ← (y ← load w (elem (v_ptr v) (u64 (i - n))); store w (elem (v_ptr v) i) y);
          Ok (inl (u64 (i - 1), w))
        else Ok (inr w)) fuel (u64 (v_sz v + n - 1), w);
  w ← for_range 0 n (fun i w => y ← load w (elem first i); store w (elem (v_ptr v) (u64 (idx + i))) y) w;
  Ok (elem (v_ptr v) idx, with_size v (u64 (v_sz v + n)), w).

Definition erase_range (first last : Z) (v : vector) (w : W) : outcome (Z * vector * W) :=
  let idx := u64 (iter_diff first (v_ptr v)) in
  let n := u64 (iter_diff last first) in
  w ← for_range idx (u64 (v_sz v - n)) (fun i w =>
        y ← load w (elem (v_ptr v) (u64 (i + n))); store w (elem (v_ptr v) i) y) w;
  Ok (elem (v_ptr v) idx, with_size v (u64 (v_sz v - n)), w).

Definition erase_at (pos : Z) (v : vector) (w : W) : outcome (Z * vector * W) :=
  erase_range pos (elem pos 1) v w.

(** *** Reverse iteration *)

Definition vector_rbegin (v : vector) : Z := vector_end v.
Definition vector_rend (v : vector) : Z := v_ptr v.
Definition rev_deref (it : Z) (w : W) : outcome Z := load w (elem it (-1)).

(** [for (it = rbegin(); it != rend(); ++it)], collecting the elements. *)
Fixpoint rev_elems (fuel : nat) (it last : Z) (w : W) : outcome (list Z) :=
  match fuel with
  | O => NoFuel
  | S fuel => if it =? last then Ok [] else x ← rev_deref it w; xs ← rev_elems fuel (rev_next it) last w; Ok (x :: xs)
  end.
End Vector.
