(* ===== verification/VectorProofs.v ===== *)
(** * Correctness of the vectors

    Blocks of the heap as arrays of 64-bit words, and what the loops and operations
    of [Vector] do to them. *)

From S2P Require Import Prelude Memory LibcString StringProofs Frames Math Physical PhysicalProofs.
From S2P Require Import Heap HeapInv HeapProofs HeapTheorems Vector.

(** ** Arrays of words *)

Definition words_bytes (ws : list Z) : list Z := concat (map (le_bytes 8) ws).

Section Words.
Lemma words_bytes_app ws ws' : words_bytes (ws ++ ws') = words_bytes ws ++ words_bytes ws'.
Proof. unfold words_bytes. by rewrite map_app, concat_app. Qed.

Lemma length_words_bytes ws : length (words_bytes ws) = (8 * length ws)%nat.
Proof.
  unfold words_bytes. induction ws as [|x ws IH]; [done|]. cbn [map concat].
  rewrite length_app, length_le_bytes, IH. simpl. lia.
Qed.

Lemma words_bytes_lookup ws i x : ws !! i = Some x ->
  words_bytes ws = words_bytes (take i ws) ++ le_bytes 8 x ++ words_bytes (drop (S i) ws).
Proof.
  intros Hi. rewrite <- (take_drop_middle ws i x Hi) at 1.
  rewrite words_bytes_app. done.
Qed.

Lemma words_bytes_insert ws i x : (i < length ws)%nat ->
  words_bytes (<[i := x]> ws) = words_bytes (take i ws) ++ le_bytes 8 x ++ words_bytes (drop (S i) ws).
Proof. intros Hi. rewrite insert_take_drop by done. by rewrite words_bytes_app. Qed.

Lemma words_bytes_zero n : words_bytes (replicate n 0) = replicate (8 * n) 0.
Proof.
  induction n as [|n IH]; [done|]. cbn [replicate]. unfold words_bytes in *. cbn [map concat]. rewrite IH.
  by replace (8 * S n)%nat with (8 + 8 * n)%nat by lia.
Qed.

(** Reading a word of an array. *)
Lemma load_word m p ws i x : bytes_at m p (words_bytes ws) -> ws !! i = Some x -> 0 <= x < W64 ->
  load64 m (p + 8 * Z.of_nat i) = Ok x.
Proof.
  intros Hb Hi Hx. rewrite (words_bytes_lookup ws i x Hi) in Hb.
  apply bytes_at_app in Hb as [_ Hb]. apply bytes_at_app in Hb as [Hb _].
  rewrite length_words_bytes, length_take in Hb. pose proof (lookup_lt_Some _ _ _ Hi).
  replace (Z.of_nat (8 * (i `min` length ws))) with (8 * Z.of_nat i) in Hb by lia.
  unfold load64. rewrite (load_le_bytes 8 m _ (le_bytes 8 x)) by (done || apply length_le_bytes).
  rewrite of_le_bytes_le_bytes. by rewrite Z.mod_small.
Qed.
End Words.

Section Blocks.
Context {W : Type} `{FrameLaws W} (allocator : Z).
Local Abbreviation client_view := (client_view allocator).

(** The blocks [s] of a client, and the words of the array at [p]. *)
Definition words_at (s : gmap Z (list Z)) (p : Z) (ws : list Z) : Prop :=
  s !! p = Some (words_bytes ws) /\ Forall (fun x => 0 <= x < W64) ws.

Lemma words_at_range w s p ws : client_view w s -> words_at s p ws ->
  0 < p /\ p + 8 * Z.of_nat (length ws) <= W64 /\ valid (wmem w) p (8 * Z.of_nat (length ws)).
Proof.
  intros (h & Hinv & Hv) [Hp _]. destruct (Hv p _ Hp) as (n & Hb & Hl & _).
  rewrite length_words_bytes in Hl. destruct (block_in allocator w h p n Hinv Hb) as (? & ? & Hval).
  split_and!; [done|lia|]. eapply valid_sub; [exact Hval|lia..].
Qed.

Lemma elem_small p i : 0 <= p -> 0 <= i -> p + 8 * i < W64 -> elem p i = p + 8 * i.
Proof. intros. unfold elem. rewrite (u64_small (i * 8)), u64_small by lia. lia. Qed.

Lemma load_elem w s p ws i x : client_view w s -> words_at s p ws ->
  0 <= i -> ws !! Z.to_nat i = Some x -> load w (elem p i) = Ok x.
Proof.
  intros Hc Hw Hi Hx. pose proof (lookup_lt_Some _ _ _ Hx).
  destruct (words_at_range w s p ws Hc Hw) as (? & ? & _). destruct Hw as [Hp Hr].
  rewrite elem_small by lia. destruct Hc as (h & _ & Hv). destruct (Hv p _ Hp) as (n & _ & _ & Hb).
  unfold load. replace i with (Z.of_nat (Z.to_nat i)) at 1 by lia. apply (load_word _ p ws); [done|done|].
  rewrite Forall_forall in Hr. apply Hr. by eapply list_elem_of_lookup_2.
Qed.

(** Overwriting a part of a block. *)
Lemma view_write_part w s p l1 l2 l3 l : client_view w s -> s !! p = Some (l1 ++ l2 ++ l3) ->
  length l = length l2 -> Forall (fun b => 0 <= b < 256) l ->
  let a := p + Z.of_nat (length l1) in
  valid (wmem w) a (Z.of_nat (length l)) /\
  client_view (with_mem w (write_bytes (wmem w) a l)) (<[p := l1 ++ l ++ l3]> s).
Proof.
  intros (h & Hinv & Hv) Hp Hl Hr. cbn zeta. set (a := p + Z.of_nat (length l1)).
  destruct (Hv p _ Hp) as (n & Hb & Hn & Hbt). rewrite !length_app in Hn.
  destruct (block_in allocator w h p n Hinv Hb) as (Hp0 & Hpn & Hval).
  assert (valid (wmem w) a (Z.of_nat (length l))) as Hva by (eapply valid_sub; [exact Hval|lia..]).
  split; [done|]. pose proof (frames_wf _ _ (hi_frames _ _ _ _ Hinv)) as Hwf.
  set (m := write_bytes (wmem w) a l).
  assert (forall x, ~ in_range a (Z.of_nat (length l)) x -> m !! x = wmem w !! x) as Ho
    by (intros x Hx; by apply lookup_write_bytes_out).
  destruct (block_write allocator w h p n m Hinv Hb) as [Hinv' _].
  { by apply write_bytes_wf. }
  { by apply write_bytes_same_dom. }
  { intros x Hx. apply Ho. unfold in_range in *. lia. }
  exists h. split; [done|]. intros q l' Hq. rewrite wmem_with_mem.
  apply lookup_insert_Some in Hq as [[<- <-]|[Hne Hq]].
  - exists n. rewrite !length_app. split_and!; [done|lia|].
    apply bytes_at_app in Hbt as [H1 H23]. apply bytes_at_app in H23 as [_ H3].
    apply bytes_at_app. split; [|apply bytes_at_app; split].
    + eapply bytes_at_frame; [exact Ho| |exact H1]. unfold disjoint_ranges. lia.
    + apply write_bytes_bytes_at.
    + fold a in H3. rewrite Hl. eapply bytes_at_frame; [exact Ho| |exact H3]. unfold disjoint_ranges. lia.
  - destruct (Hv q l' Hq) as (k & Hbq & Hlq & Hbtq). exists k. split_and!; [done|done|].
    pose proof (blocks_disjoint allocator w h p n q k Hinv Hb Hbq Hne).
    intros j Hj. rewrite Ho; [by apply Hbtq|]. unfold disjoint_ranges, in_range in *. lia.
Qed.

(** The array at [p] gets the contents [ws]. *)
Definition set_words (s : gmap Z (list Z)) (p : Z) (ws : list Z) : gmap Z (list Z) :=
  <[p := words_bytes ws]> s.
Definition are_words (ws : list Z) : Prop := Forall (fun x => 0 <= x < W64) ws.

Lemma words_at_set s p ws : are_words ws -> words_at (set_words s p ws) p ws.
Proof. split; [apply lookup_insert_eq|done]. Qed.

Lemma words_at_set_ne s p ws q ws' : p <> q -> words_at s q ws' -> words_at (set_words s p ws) q ws'.
Proof. intros Hne [Hq Hw]. split; [unfold set_words; by rewrite lookup_insert_ne|done]. Qed.

Lemma set_set_words s p ws ws' : set_words (set_words s p ws) p ws' = set_words s p ws'.
Proof. apply insert_insert_eq. Qed.

Lemma words_at_set_id s p ws : words_at s p ws -> set_words s p ws = s.
Proof. intros [Hp _]. by apply insert_id. Qed.

Lemma store_elem w s p ws i x : client_view w s -> words_at s p ws ->
  0 <= i < Z.of_nat (length ws) -> 0 <= x < W64 ->
  exists w', store w (elem p i) x = Ok w' /\ client_view w' (set_words s p (<[Z.to_nat i := x]> ws)).
Proof.
  intros Hc Hw Hi Hx. destruct (words_at_range w s p ws Hc Hw) as (? & ? & _). destruct Hw as [Hp Hr].
  destruct (lookup_lt_is_Some_2 ws (Z.to_nat i)) as [y Hy]; [lia|].
  rewrite (words_bytes_lookup ws _ y Hy) in Hp.
  destruct (view_write_part w s p _ _ _ (le_bytes 8 x) Hc Hp) as [Hva Hc'];
    [by rewrite !length_le_bytes|apply le_bytes_range|].
  rewrite length_words_bytes, length_take in Hva, Hc'. rewrite length_le_bytes in Hva.
  replace (p + Z.of_nat (8 * (Z.to_nat i `min` length ws))) with (p + 8 * i) in * by lia.
  eexists. rewrite elem_small by lia. unfold store, store64. rewrite (store_le_write 8) by done.
  bind_simpl. split; [done|]. unfold set_words. by rewrite words_bytes_insert by lia.
Qed.

(** ** Allocation and release *)

Lemma new_array_spec w s n : client_view w s -> 0 <= n -> 8 * n + 2 * page_size <= W64 ->
  (exists p w', new_array allocator n w = Ok (p, w') /\ s !! p = None /\ p <> 0 /\
     client_view w' (set_words s p (replicate (Z.to_nat n) 0))) \/
  (new_array allocator n w = Panic /\ no_memory (8 * n) w).
Proof.
  intros (h & Hinv & Hv) Hn Hb. unfold new_array. rewrite (proj2 (Z.ltb_lt (n * 8) W64)) by lia.
  destruct (malloc_spec allocator w h (n * 8) Hinv) as [(p & k & w' & h' & E & Hk & Hnb & _)|[E _]];
    [lia|lia|left|right; split; [exact E|rewrite Z.mul_comm; apply (malloc_panic allocator w h); done || lia]].
  destruct (sim_alloc allocator w h s Hinv Hv p k w' h' (n * 8) Hnb) as [Hs Hv']; [lia|].
  exists p, w'. split_and!; [done|done| |].
  - pose proof (nb_null _ _ _ _ _ _ _ Hnb). lia.
  - exists h'. split; [apply (nb_step _ _ _ _ _ _ _ Hnb)|]. unfold set_words. rewrite words_bytes_zero.
    by replace (8 * Z.to_nat n)%nat with (Z.to_nat (n * 8)) by lia.
Qed.

Lemma view_null w s : client_view w s -> s !! 0 = None.
Proof.
  intros (h & Hinv & Hv). destruct (s !! 0) as [l|] eqn:E; [|done].
  destruct (Hv 0 l E) as (n & Hb & _). destruct (block_in allocator w h 0 n Hinv Hb). lia.
Qed.

(** ** Loops over arrays *)

(** A loop that rewrites the array at [p]: [f k] is the array after [k] rounds. *)
Lemma array_loop lo hi body (f : Z -> list Z) w s p : lo <= hi -> client_view w (set_words s p (f lo)) ->
  (forall k w, lo <= k < hi -> client_view w (set_words s p (f k)) ->
     exists w', body k w = Ok w' /\ client_view w' (set_words s p (f (k + 1)))) ->
  exists w', for_range lo hi body w = Ok w' /\ client_view w' (set_words s p (f hi)).
Proof.
  intros Hle Hf0 Hstep.
  apply (for_range_inv lo hi body (fun k w => client_view w (set_words s p (f k))) w Hle Hf0).
  intros k w1 Hk Hc. by apply Hstep.
Qed.

Lemma fill_elems_spec w s p ws lo hi val : client_view w s -> words_at s p ws ->
  0 <= lo <= hi -> hi <= Z.of_nat (length ws) -> 0 <= val < W64 ->
  exists w', fill_elems p lo hi val w = Ok w' /\
    client_view w' (set_words s p (take (Z.to_nat lo) ws ++ replicate (Z.to_nat (hi - lo)) val ++ drop (Z.to_nat hi) ws)).
Proof.
  intros Hc Hw Hlo Hhi Hval. pose proof (proj2 Hw) as Hr.
  set (f k := take (Z.to_nat lo) ws ++ replicate (Z.to_nat (k - lo)) val ++ drop (Z.to_nat k) ws).
  apply (array_loop lo hi _ f).
  - lia.
  - unfold f. replace (Z.to_nat (lo - lo)) with O by lia. cbn [replicate app]. rewrite take_drop.
    by rewrite words_at_set_id.
  - intros k w1 Hk Hc1. assert (Z.of_nat (length (f k)) = Z.of_nat (length ws)) as El.
    { unfold f. rewrite !length_app, length_take, length_replicate, length_drop. lia. }
    assert (are_words (f k)) as Hwk.
    { unfold f, are_words. rewrite !Forall_app. split_and!; [by apply Forall_take|by apply Forall_replicate|by apply Forall_drop]. }
    destruct (store_elem w1 _ p (f k) k val Hc1) as (w2 & -> & Hc2); [by apply words_at_set|lia|done|].
    exists w2. split; [done|]. rewrite set_set_words in Hc2.
    replace (f (k + 1)) with (<[Z.to_nat k := val]> (f k)); [done|]. unfold f.
    rewrite insert_app_r_alt by (rewrite length_take; lia). rewrite length_take. f_equal.
    rewrite insert_app_r_alt by (rewrite length_replicate; lia). rewrite length_replicate.
    replace (Z.to_nat (k + 1 - lo)) with (Z.to_nat (k - lo) + 1)%nat by lia. rewrite replicate_add, <- app_assoc.
    f_equal. destruct (lookup_lt_is_Some_2 ws (Z.to_nat k)) as [y Hy]; [lia|].
    rewrite (drop_S _ y) by done.
    replace (Z.to_nat k - Z.to_nat lo `min` length ws - Z.to_nat (k - lo))%nat with O by lia.
    simpl. f_equal. f_equal. lia.
Qed.

Lemma copy_elems_spec w s src dst ws ws' n : client_view w s -> words_at s src ws -> words_at s dst ws' ->
  src <> dst -> 0 <= n <= Z.of_nat (length ws) -> n <= Z.of_nat (length ws') ->
  exists w', copy_elems src dst n w = Ok w' /\
    client_view w' (set_words s dst (take (Z.to_nat n) ws ++ drop (Z.to_nat n) ws')).
Proof.
  intros Hc Hs Hd Hne Hn Hn'. pose proof (proj2 Hs) as Hrs. pose proof (proj2 Hd) as Hrd.
  set (f k := take (Z.to_nat k) ws ++ drop (Z.to_nat k) ws').
  apply (array_loop 0 n _ f); [lia| |].
  - unfold f. simpl. by rewrite words_at_set_id.
  - intros k w1 Hk Hc1. destruct (lookup_lt_is_Some_2 ws (Z.to_nat k)) as [x Hx]; [lia|].
    rewrite (load_elem w1 _ src ws k x Hc1) by (done || lia || (apply words_at_set_ne; [congruence|done])). bind_simpl.
    assert (Z.of_nat (length (f k)) = Z.of_nat (length ws')) as El.
    { unfold f. rewrite length_app, length_take, length_drop. lia. }
    assert (are_words (f k)) by (apply Forall_app; split; [by apply Forall_take|by apply Forall_drop]).
    destruct (store_elem w1 _ dst (f k) k x Hc1) as (w2 & -> & Hc2); [by apply words_at_set|lia| |].
    { rewrite Forall_forall in Hrs. apply Hrs. by eapply list_elem_of_lookup_2. }
    exists w2. split; [done|]. rewrite set_set_words in Hc2.
    replace (f (k + 1)) with (<[Z.to_nat k := x]> (f k)); [done|]. unfold f.
    rewrite insert_app_r_alt by (rewrite length_take; lia). rewrite length_take.
    destruct (lookup_lt_is_Some_2 ws' (Z.to_nat k)) as [y Hy]; [lia|]. rewrite (drop_S _ y) by done.
    replace (Z.to_nat k - Z.to_nat k `min` length ws)%nat with O by lia.
    replace (Z.to_nat (k + 1)) with (S (Z.to_nat k)) by lia. rewrite (take_S_r _ _ x) by done.
    by rewrite <- app_assoc.
Qed.

(** [p[b + k] = p[a + k]] or [p[b - k] = p[a - k]] for the rounds [k]: the places
    written are [dst k], those read [src k], and no place is read after it was
    written. *)
Lemma move_elems_spec w s p ws src dst n g : client_view w s -> words_at s p ws -> 0 <= n ->
  (forall k, 0 <= k < n -> 0 <= src k < Z.of_nat (length ws) /\ 0 <= dst k < Z.of_nat (length ws)) ->
  (forall j k, 0 <= j < k -> k < n -> dst j <> src k /\ dst j <> dst k) ->
  (forall k, 0 <= k < n -> g (dst k) = src k) ->
  exists w' ws', for_range 0 n (fun k w => x ← load w (elem p (src k)); store w (elem p (dst k)) x) w = Ok w' /\
    client_view w' (set_words s p ws') /\ are_words ws' /\ length ws' = length ws /\
    forall i, 0 <= i < Z.of_nat (length ws) ->
      ((exists k, 0 <= k < n /\ dst k = i) -> ws' !! Z.to_nat i = ws !! Z.to_nat (g i)) /\
      ((forall k, 0 <= k < n -> dst k <> i) -> ws' !! Z.to_nat i = ws !! Z.to_nat i).
Proof.
  intros Hc Hw Hn Hr Hd Hg.
  set (I m w := exists ws', client_view w (set_words s p ws') /\ are_words ws' /\ length ws' = length ws /\
    forall i, 0 <= i < Z.of_nat (length ws) ->
      ((exists k, 0 <= k < m /\ dst k = i) -> ws' !! Z.to_nat i = ws !! Z.to_nat (g i)) /\
      ((forall k, 0 <= k < m -> dst k <> i) -> ws' !! Z.to_nat i = ws !! Z.to_nat i)).
  destruct (for_range_inv 0 n (fun k w => x ← load w (elem p (src k)); store w (elem p (dst k)) x) I w)
    as (w' & E & ws' & HI); [done| | |by exists w', ws'].
  - exists ws. split_and!; [by rewrite words_at_set_id|apply Hw|done|].
    intros i Hi. split; [intros (k & ? & _); lia|done].
  - intros m w1 Hm (ws' & Hc1 & Hw1 & Hl & Hi). destruct (Hr m Hm) as [Hs Hds].
    destruct (lookup_lt_is_Some_2 ws' (Z.to_nat (src m))) as [x Hx]; [lia|].
    rewrite (load_elem w1 _ p ws' (src m) x Hc1) by (done || lia || by apply words_at_set). bind_simpl.
    destruct (store_elem w1 _ p ws' (dst m) x Hc1) as (w2 & -> & Hc2); [by apply words_at_set|lia| |].
    { unfold are_words in Hw1. rewrite Forall_forall in Hw1. apply Hw1. by eapply list_elem_of_lookup_2. }
    assert (0 <= x < W64) as Hxr.
    { unfold are_words in Hw1. rewrite Forall_forall in Hw1. apply Hw1. by eapply list_elem_of_lookup_2. }
    exists w2. split; [done|]. exists (<[Z.to_nat (dst m) := x]> ws'). rewrite set_set_words in Hc2.
    split_and!; [done|by apply Forall_insert|by rewrite length_insert|]. intros i Hi'.
    assert (ws' !! Z.to_nat (src m) = ws !! Z.to_nat (src m)) as Hsrc.
    { apply Hi; [done|]. intros k Hk. apply Hd; lia. }
    destruct (Hi i Hi') as [H1 H2]. split.
    + intros (k & Hk & <-). destruct (decide (k = m)) as [->|Hkm].
      * rewrite list_lookup_insert_eq by lia. rewrite Hg by lia. congruence.
      * rewrite list_lookup_insert_ne; [apply H1; exists k; split; [lia|done]|].
        destruct (Hd k m) as [_ ?]; [lia|lia|]. destruct (Hr k ltac:(lia)). lia.
    + intros Hk. rewrite list_lookup_insert_ne; [apply H2; intros k ?; apply Hk; lia|].
      specialize (Hk m ltac:(lia)). lia.
Qed.

(** The array at [dst] from place [i] on gets [xs], which lie at place [a] of the array
    at [src]. *)
Lemma copy_into_spec w s src dst ws wd i a xs : client_view w s -> words_at s src ws -> words_at s dst wd -> src <> dst ->
  0 <= i -> 0 <= a -> (forall k, (k < length xs)%nat -> ws !! (Z.to_nat a + k)%nat = xs !! k) ->
  (Z.to_nat i + length xs <= length wd)%nat ->
  exists w', for_range 0 (Z.of_nat (length xs)) (fun k w => y ← load w (elem src (a + k)); store w (elem dst (i + k)) y) w = Ok w' /\
    client_view w' (set_words s dst (take (Z.to_nat i) wd ++ xs ++ drop (Z.to_nat i + length xs) wd)).
Proof.
  intros Hc Hs Hd Hne Hi Ha Hxs Hl. pose proof (proj2 Hs) as Hrs. pose proof (proj2 Hd) as Hrd. rewrite Forall_forall in Hrs.
  set (f k := take (Z.to_nat i) wd ++ take (Z.to_nat k) xs ++ drop (Z.to_nat i + Z.to_nat k) wd).
  assert (forall k x, xs !! k = Some x -> ws !! (Z.to_nat a + k)%nat = Some x) as Hlk.
  { intros k x Hk. rewrite Hxs; [done|by eapply lookup_lt_Some]. }
  assert (are_words xs) as Hwx.
  { apply Forall_lookup_2. intros k x Hk. apply Hrs. eapply list_elem_of_lookup_2. by apply Hlk. }
  destruct (array_loop 0 (Z.of_nat (length xs)) (fun k w => y ← load w (elem src (a + k)); store w (elem dst (i + k)) y) f w s dst) as (w' & E & Hc').
  - lia.
  - unfold f. simpl. rewrite Nat.add_0_r, take_drop. by rewrite words_at_set_id.
  - intros k w1 Hk Hc1. destruct (lookup_lt_is_Some_2 xs (Z.to_nat k)) as [x Hx]; [lia|].
    rewrite (load_elem w1 _ src ws (a + k) x Hc1);
      [|by apply words_at_set_ne|lia|rewrite Z2Nat.inj_add by lia; by apply Hlk]. bind_simpl.
    assert (Z.of_nat (length (f k)) = Z.of_nat (length wd)) as El.
    { unfold f. rewrite !length_app, !length_take, length_drop. lia. }
    assert (are_words (f k)) as Hf by (repeat apply Forall_app_2; [by apply Forall_take|by apply Forall_take|by apply Forall_drop]).
    destruct (store_elem w1 _ dst (f k) (i + k) x Hc1) as (w2 & -> & Hc2); [by apply words_at_set|lia| |].
    { exact (Forall_lookup_1 _ _ _ _ Hwx Hx). }
    exists w2. split; [done|]. rewrite set_set_words in Hc2. replace (f (k + 1)) with (<[Z.to_nat (i + k) := x]> (f k)); [done|]. unfold f.
    rewrite insert_app_r_alt by (rewrite length_take; lia). rewrite length_take. f_equal.
    rewrite insert_app_r_alt by (rewrite length_take; lia). rewrite length_take.
    replace (Z.to_nat (k + 1)) with (S (Z.to_nat k)) by lia. rewrite (take_S_r _ _ x) by done. rewrite <- app_assoc. f_equal.
    destruct (lookup_lt_is_Some_2 wd (Z.to_nat i + Z.to_nat k)) as [y Hy]; [lia|]. rewrite (drop_S _ y) by done.
    replace (Z.to_nat (i + k) - Z.to_nat i `min` length wd - Z.to_nat k `min` length xs)%nat with O by lia.
    simpl. by rewrite Nat.add_succ_r.
  - exists w'. split; [done|]. unfold f in Hc'. by rewrite Nat2Z.id, firstn_all in Hc'.
Qed.

(** A loop that counts down to [lo], which is not zero. *)
Lemma loop_down {S} lo hi (body : Z -> S -> outcome S) fuel s : 0 < lo <= hi -> hi <= W64 -> (Z.to_nat (hi - lo) < fuel)%nat ->
  loop (fun '(i, s) => if lo <=? i then s ← body i s; Ok (inl (u64 (i - 1), s)) else Ok (inr s)) fuel (hi - 1, s) =
  for_range 0 (hi - lo) (fun k s => body (hi - 1 - k) s) s.
Proof.
  intros Hlo Hhi. revert hi s Hlo Hhi. induction fuel as [|fuel IH]; intros hi s Hlo Hhi Hf; [lia|]. rewrite loop_step.
  destruct (Z.leb_spec lo (hi - 1)) as [Hle|Hgt].
  - rewrite for_range_step by lia. rewrite Z.sub_0_r. destruct (body (hi - 1) s) as [s'| | | |]; [|done..]. bind_simpl. rewrite u64_small by lia.
    rewrite IH by lia. rewrite (for_range_shift (0 + 1) (hi - lo) _ (fun k s => body (hi - 1 - 1 - k) s)).
    + by replace (hi - lo - (0 + 1)) with (hi - 1 - lo) by lia.
    + intros k t Hk. f_equal. lia.
  - bind_simpl. by rewrite for_range_nil by lia.
Qed.

(** ** Vectors as lists *)

(** The vector [v] holds the list [l]; its array may have more places. *)
Inductive vec_at (s : gmap Z (list Z)) (v : vector) (l : list Z) : Prop :=
| vec_none : v = Vector 0 0 0 -> l = [] -> vec_at s v l
| vec_array extra : words_at s (v_ptr v) (l ++ extra) -> v_sz v = Z.of_nat (length l) ->
    v_cap v = Z.of_nat (length (l ++ extra)) -> vec_at s v l.

(** From [v] in [s] to [v'] in [s'] nothing but the vector's array changed. *)
Definition vec_moved (s : gmap Z (list Z)) (v : vector) (s' : gmap Z (list Z)) (v' : vector) : Prop :=
  delete (v_ptr v') s' = delete (v_ptr v) s /\ (v_ptr v' = v_ptr v \/ s !! v_ptr v' = None).

Lemma vec_moved_refl s v : vec_moved s v s v.
Proof. split; [done|by left]. Qed.

Lemma vec_moved_set s v s' v' ws v'' : vec_moved s v s' v' -> v_ptr v'' = v_ptr v' ->
  vec_moved s v (set_words s' (v_ptr v') ws) v''.
Proof.
  intros [Hd Hp] E. unfold vec_moved. rewrite E. split; [|done].
  unfold set_words. by rewrite delete_insert_eq.
Qed.

(** The other blocks of the client. *)
Lemma vec_moved_other s v s' v' q l : vec_moved s v s' v' -> q <> v_ptr v -> s !! q = Some l -> s' !! q = Some l.
Proof.
  intros [Hd Hp] Hq Hl. assert (q <> v_ptr v') as Hq' by (destruct Hp as [->|Hp]; [done|congruence]).
  rewrite <- Hl, <- (lookup_delete_ne s (v_ptr v) q) by done. rewrite <- Hd. by rewrite lookup_delete_ne.
Qed.

Lemma vec_at_size s v l : vec_at s v l -> v_sz v = Z.of_nat (length l) /\ v_sz v <= v_cap v.
Proof. intros [-> ->|extra _ Hs Hc]; [done|]. rewrite length_app in Hc. lia. Qed.

Lemma vec_at_words s v l : vec_at s v l -> are_words l.
Proof. intros [_ ->|extra [_ Hw] _ _]; [constructor|]. by apply Forall_app in Hw as [? _]. Qed.

Lemma free_view w s p : client_view w s -> is_Some (s !! p) ->
  exists w', free p w = Ok w' /\ client_view w' (delete p s).
Proof. intros (h & Hinv & Hv) Hs. by apply (sim_free allocator w h s Hinv Hv). Qed.

(** A new array of [n] places with the same elements. *)
Lemma relocate_spec w s v l n : client_view w s -> vec_at s v l ->
  Z.of_nat (length l) <= n -> 8 * n + 2 * page_size <= W64 ->
  let c := '(p, w) ← new_array allocator n w;
           w ← copy_elems (v_ptr v) p (v_sz v) w;
           w ← free (v_ptr v) w;
           Ok (Vector p (v_sz v) n, w) in
  (exists v' w' s', c = Ok (v', w') /\ client_view w' s' /\ vec_at s' v' l /\
     vec_moved s v s' v' /\ v_cap v' = n /\ v_ptr v' <> 0) \/
  (c = Panic /\ no_memory (8 * n) w).
Proof.
  intros Hc Hv Hl Hn. cbn zeta.
  destruct (new_array_spec w s n Hc) as [(p & w1 & -> & Hp & Hp0 & Hc1)|[-> Hno]]; [lia|lia|left|by right].
  bind_simpl. assert (are_words (replicate (Z.to_nat n) 0)) as Hz by (by apply Forall_replicate).
  destruct Hv as [-> ->|extra Hw Hsz Hcap].
  - cbn [v_ptr v_sz]. unfold copy_elems. rewrite for_range_nil by done. bind_simpl.
    change (free 0 w1) with (Ok w1). bind_simpl. eexists _, w1, _. split; [done|]. split; [exact Hc1|].
    split_and!; [|split; cbn [v_ptr]|done|done].
    + apply (vec_array _ _ _ (replicate (Z.to_nat n) 0)); [by apply words_at_set|done|].
      cbn [v_cap]. simpl. rewrite length_replicate. lia.
    + unfold set_words. rewrite delete_insert_eq, !delete_id; [done|by apply (view_null w)|done].
    + by right.
  - assert (p <> v_ptr v) as Hne by (intros ->; destruct Hw; congruence).
    destruct (copy_elems_spec w1 _ (v_ptr v) p (l ++ extra) (replicate (Z.to_nat n) 0) (v_sz v) Hc1)
      as (w2 & -> & Hc2); [by apply words_at_set_ne|by apply words_at_set|done|rewrite length_app; lia|
      rewrite length_replicate; lia|].
    bind_simpl. rewrite set_set_words in Hc2. rewrite Hsz, Nat2Z.id, take_app_length, drop_replicate in Hc2.
    assert (is_Some (set_words s p (l ++ replicate (Z.to_nat n - length l) 0) !! v_ptr v)) as Hsm.
    { unfold set_words. rewrite lookup_insert_ne by done. rewrite (proj1 Hw). by eexists. }
    destruct (free_view w2 _ (v_ptr v) Hc2 Hsm) as (w3 & -> & Hc3). bind_simpl.
    eexists _, w3, _. split; [done|]. split; [exact Hc3|].
    split_and!; [|split; cbn [v_ptr]|done|done].
    + apply (vec_array _ _ _ (replicate (Z.to_nat n - length l) 0)); cbn [v_ptr v_sz v_cap]; [|done|].
      * split; [unfold set_words; rewrite lookup_delete_ne by done; apply lookup_insert_eq|].
        apply Forall_app. split; [|by apply Forall_replicate]. destruct Hw as [_ Hw]. by apply Forall_app in Hw as [? _].
      * rewrite length_app, length_replicate. lia.
    + unfold set_words. rewrite delete_delete, delete_insert_eq. by rewrite (delete_id s p).
    + by right.
Qed.

Lemma reserve_spec w s v l n : client_view w s -> vec_at s v l -> 8 * n + 2 * page_size <= W64 ->
  (exists v' w' s', reserve allocator n v w = Ok (v', w') /\ client_view w' s' /\ vec_at s' v' l /\
     vec_moved s v s' v' /\ v_cap v' = Z.max (v_cap v) n) \/
  (reserve allocator n v w = Panic /\ v_cap v < n /\ no_memory (8 * n) w).
Proof.
  intros Hc Hv Hn. unfold reserve. destruct (Z.ltb_spec (v_cap v) n) as [Hlt|Hge].
  - destruct (vec_at_size s v l Hv) as [Hs Hle].
    destruct (relocate_spec w s v l n Hc Hv) as [(v' & w' & s' & -> & ? & ? & ? & ? & _)|[-> Hno]]; [lia|lia|left|by right].
    exists v', w', s'. split_and!; [done..|lia].
  - left. exists v, w, s. split_and!; [done..|apply vec_moved_refl|lia].
Qed.

Lemma grow_spec w s v l : client_view w s -> vec_at s v l -> 16 * v_cap v + 2 * page_size <= W64 ->
  (exists v' w' s', grow allocator v w = Ok (v', w') /\ client_view w' s' /\ vec_at s' v' l /\
     vec_moved s v s' v' /\ v_sz v' = v_sz v /\ v_sz v' < v_cap v') \/
  (grow allocator v w = Panic /\ v_sz v = v_cap v /\ no_memory (8 * Z.max 1 (v_cap v * 2)) w).
Proof.
  intros Hc Hv Hn. destruct (vec_at_size s v l Hv) as [Hs Hle]. unfold grow.
  destruct (Z.eqb_spec (v_sz v) (v_cap v)) as [E|E].
  - set (n := if v_cap v =? 0 then 1 else u64 (v_cap v * 2)).
    assert (n = Z.max 1 (v_cap v * 2)) as En.
    { unfold n. destruct (Z.eqb_spec (v_cap v) 0) as [->|]; [done|]. rewrite u64_small; lia. }
    destruct (reserve_spec w s v l n Hc Hv) as [(v' & w' & s' & -> & ? & Hv' & ? & ?)|(-> & _ & Hno)];
      [lia|left|right; rewrite <- En; by split_and!].
    destruct (vec_at_size s' v' l Hv') as [? _]. exists v', w', s'. split_and!; [done..|lia|lia].
  - left. exists v, w, s. split_and!; [done..|apply vec_moved_refl|done|lia].
Qed.
End Blocks.
