(* ===== verification/VectorOps.v ===== *)
(** * The operations of vectors as operations on lists

    What each operation denotes on lists ([vop_spec]) and when it is legal; one lemma
    per operation, proved against the heap's contract; reverse iteration. *)

From S2P Require Import Prelude Memory LibcString StringProofs Frames Math Physical PhysicalProofs.
From S2P Require Import Heap HeapInv HeapProofs HeapTheorems Machine HeapClaims Vector VectorProofs.

(** ** Iterators *)

Section Iterators.
Lemma elem_congr p i : exists k, elem p i = p + 8 * i + k * W64.
Proof.
  unfold elem. rewrite u64_add_idemp_r. unfold wrap. change (2 ^ 64) with W64.
  exists (- ((p + i * 8) / W64)). pose proof (Z.div_mod (p + i * 8) W64). lia.
Qed.

Lemma s64_congr z k : - 2 ^ 63 <= z < 2 ^ 63 -> s64 (z + k * W64) = z.
Proof.
  intros Hz. rewrite <- (swrap_small 64 z) at 2 by (simpl; lia). unfold swrap. f_equal.
  replace (z + k * W64 + 2 ^ (64 - 1)) with (z + 2 ^ (64 - 1) + k * W64) by lia.
  change (2 ^ 64) with W64. by rewrite Z.mod_add.
Qed.

Lemma iter_diff_elem p i j : 0 <= i <= j -> 16 * j <= W64 - 8192 -> iter_diff (elem p j) (elem p i) = j - i.
Proof.
  intros Hi Hj. destruct (elem_congr p i) as [a ->], (elem_congr p j) as [b ->]. unfold iter_diff.
  replace (p + 8 * j + b * W64 - (p + 8 * i + a * W64)) with ((j - i) * 8 + (b - a) * W64) by lia.
  rewrite s64_congr by lia. by rewrite Z.quot_mul.
Qed.

Lemma iter_diff_start p i : 0 <= i -> 16 * i <= W64 - 8192 -> iter_diff (elem p i) p = i.
Proof.
  intros Hi Hj. destruct (elem_congr p i) as [b ->]. unfold iter_diff.
  replace (p + 8 * i + b * W64 - p) with (i * 8 + b * W64) by lia.
  rewrite s64_congr by lia. by rewrite Z.quot_mul.
Qed.

Lemma elem_elem p i j : elem (elem p i) j = elem p (i + j).
Proof.
  unfold elem. rewrite u64_add_idemp, u64_add_idemp_r. replace (p + u64 (i * 8) + j * 8) with (p + j * 8 + u64 (i * 8)) by lia.
  rewrite !u64_add_idemp_r. f_equal. lia.
Qed.

Lemma prefix_eq {A} (l ws : list A) : (length l <= length ws)%nat ->
  (forall q, (q < length l)%nat -> ws !! q = l !! q) -> ws = l ++ drop (length l) ws.
Proof.
  intros Hl Hq. rewrite <- (take_drop (length l) ws) at 1. f_equal. apply list_eq. intros q.
  destruct (decide (q < length l)%nat); [by rewrite lookup_take_lt, Hq|].
  rewrite lookup_take_ge, lookup_ge_None_2; [done|lia|lia].
Qed.
End Iterators.

(** ** Operations on vectors and on lists *)

Inductive vop : Type :=
| Vpush (x : Z)
| Vpop
| Vclear
| Vreserve (n : Z)
| Vshrink
| Vresize (n x : Z)
| Vset (i x : Z)
| Vinsert (i x : Z)
| Vinsert_range (i src a : Z) (xs : list Z)
| Verase (i j : Z).

Definition vop_spec (op : vop) (l : list Z) : list Z :=
  match op with
  | Vpush x => l ++ [x]
  | Vpop => take (length l - 1) l
  | Vclear => []
  | Vreserve _ | Vshrink => l
  | Vresize n x => take (Z.to_nat n) l ++ replicate (Z.to_nat n - length l) x
  | Vset i x => <[Z.to_nat i := x]> l
  | Vinsert i x => take (Z.to_nat i) l ++ x :: drop (Z.to_nat i) l
  | Vinsert_range i _ _ xs => take (Z.to_nat i) l ++ xs ++ drop (Z.to_nat i) l
  | Verase i j => take (Z.to_nat i) l ++ drop (Z.to_nat j) l
  end.

Definition vop_legal (op : vop) (l : list Z) : Prop :=
  match op with
  | Vpush x => 0 <= x < W64
  | Vpop => l <> []
  | Vclear | Vshrink => True
  | Vreserve n => 8 * n + 2 * page_size <= W64
  | Vresize n x => 0 <= n /\ 8 * n + 2 * page_size <= W64 /\ 0 <= x < W64
  | Vset i x => 0 <= i < Z.of_nat (length l) /\ 0 <= x < W64
  | Vinsert i x => 0 <= i <= Z.of_nat (length l) /\ 0 <= x < W64
  | Vinsert_range i _ a xs => 0 <= i <= Z.of_nat (length l) /\ 0 < i + Z.of_nat (length xs) /\ 0 <= a /\
      16 * (a + Z.of_nat (length xs)) + 2 * page_size <= W64 /\ 8 * (Z.of_nat (length l) + Z.of_nat (length xs)) + 2 * page_size <= W64
  | Verase i j => 0 <= i <= j /\ j <= Z.of_nat (length l)
  end.

(** A range to be inserted is the part [xs], from place [a] on, of another array. *)
Definition vop_source (s : gmap Z (list Z)) (v : vector) (op : vop) : Prop :=
  match op with
  | Vinsert_range _ src a xs => src <> v_ptr v /\ exists ws, words_at s src ws /\
      forall k, (k < length xs)%nat -> ws !! (Z.to_nat a + k)%nat = xs !! k
  | _ => True
  end.

(** The places of the new array that the operation asks for, if any. *)
Definition asks_for (op : vop) (v : vector) : option Z :=
  match op with
  | Vpush _ | Vinsert _ _ => if v_sz v =? v_cap v then Some (Z.max 1 (v_cap v * 2)) else None
  | Vreserve n | Vresize n _ => if v_cap v <? n then Some n else None
  | Vshrink => if v_sz v <? v_cap v then Some (v_sz v) else None
  | Vinsert_range _ _ _ xs =>
      let n := v_sz v + Z.of_nat (length xs) in if v_cap v <? n then Some (Z.max n (Z.max 1 (v_cap v * 2))) else None
  | _ => None
  end.

Section Operations.
Context {W : Type} `{FrameLaws W} (allocator : Z).
Local Abbreviation client_view := (client_view allocator).

Definition run_vop (op : vop) (v : vector) (w : W) : outcome (vector * W) :=
  match op with
  | Vpush x => push_back allocator x v w
  | Vpop => Ok (pop_back v, w)
  | Vclear => Ok (clear v, w)
  | Vreserve n => reserve allocator n v w
  | Vshrink => shrink_to_fit allocator v w
  | Vresize n x => resize_filled allocator n x v w
  | Vset i x => w ← set_at v i x w; Ok (v, w)
  | Vinsert i x => '(_, v, w) ← insert_at allocator (elem (v_ptr v) i) x v w; Ok (v, w)
  | Vinsert_range i src a xs =>
      '(_, v, w) ← insert_range allocator (S (Z.to_nat (v_sz v))) (elem (v_ptr v) i) (elem src a) (elem src (a + Z.of_nat (length xs))) v w;
      Ok (v, w)
  | Verase i j => '(_, v, w) ← erase_range (elem (v_ptr v) i) (elem (v_ptr v) j) v w; Ok (v, w)
  end.

(** The heap has no memory for the new array. *)
Definition no_places (op : vop) (v : vector) (w : W) : Prop := exists n, asks_for op v = Some n /\ no_memory (8 * n) w.

(** The result of an operation that succeeds. *)
Definition vector_done (s : gmap Z (list Z)) (v : vector) (c : outcome (vector * W)) (l : list Z) : Prop :=
  exists v' w' s', c = Ok (v', w') /\ client_view w' s' /\ vec_at s' v' l /\ vec_moved s v s' v'.

Lemma vec_resize s v l n : vec_at s v l -> (n <= length l)%nat -> vec_at s (with_size v (Z.of_nat n)) (take n l).
Proof.
  intros [-> ->|extra Hw Hs Hc] Hn.
  - simpl in Hn. replace n with O by lia. by apply vec_none.
  - apply (vec_array _ _ _ (drop n l ++ extra)); cbn [with_size v_ptr v_sz v_cap].
    + by rewrite app_assoc, take_drop.
    + rewrite length_take. lia.
    + by rewrite app_assoc, take_drop.
Qed.

(** A vector with room behind its elements. *)
Lemma vec_room s v l : vec_at s v l -> v_sz v < v_cap v ->
  exists y extra, words_at s (v_ptr v) (l ++ y :: extra) /\ v_sz v = Z.of_nat (length l) /\
    v_cap v = Z.of_nat (length (l ++ y :: extra)).
Proof.
  intros [-> ->|extra Hw Hs Hc] Hlt; [simpl in Hlt; lia|].
  destruct extra as [|y extra]; [rewrite app_nil_r in Hc; lia|]. by exists y, extra.
Qed.

Lemma full_asks op v w : match op with Vpush _ | Vinsert _ _ => True | _ => False end -> v_sz v = v_cap v ->
  no_memory (8 * Z.max 1 (v_cap v * 2)) w -> no_places op v w.
Proof.
  intros Hop E Hno. exists (Z.max 1 (v_cap v * 2)). split; [|done].
  destruct op; try done; cbn [asks_for]; by rewrite E, Z.eqb_refl.
Qed.

Lemma push_back_spec w s v l x : client_view w s -> vec_at s v l -> 16 * v_cap v + 2 * page_size <= W64 ->
  0 <= x < W64 ->
  vector_done s v (push_back allocator x v w) (l ++ [x]) \/
  (push_back allocator x v w = Panic /\ no_places (Vpush x) v w).
Proof.
  intros Hc Hv Hb Hx. unfold push_back.
  destruct (grow_spec allocator w s v l Hc Hv Hb) as [(v1 & w1 & s1 & -> & Hc1 & Hv1 & Hm & Hsz & Hlt)|(-> & Hfull & Hno)];
    [left|right; split; [done|]; by apply full_asks].
  bind_simpl. destruct (vec_room s1 v1 l Hv1 Hlt) as (y & extra & Hw & Hs & Hcap).
  destruct (store_elem allocator w1 s1 (v_ptr v1) _ (v_sz v1) x Hc1 Hw) as (w2 & -> & Hc2);
    [rewrite length_app; simpl; lia|done|].
  bind_simpl. pose proof (vec_at_size s v l Hv) as [Hs0 Hcap0].
  replace (<[Z.to_nat (v_sz v1) := x]> (l ++ y :: extra)) with ((l ++ [x]) ++ extra) in Hc2.
  2:{ rewrite Hs, Nat2Z.id. rewrite <- (Nat.add_0_r (length l)), insert_app_r, <- app_assoc. done. }
  eexists _, w2, _. split; [done|]. split; [exact Hc2|]. split; [|by eapply vec_moved_set].
  apply (vec_array _ _ _ extra); cbn [with_size v_ptr v_sz v_cap].
  - apply words_at_set. destruct Hw as [_ Hw]. unfold are_words. rewrite <- app_assoc.
    rewrite !Forall_app in *. rewrite Forall_cons in Hw. split_and!; [apply Hw|by constructor|apply Hw].
  - rewrite length_app. simpl. rewrite u64_small; lia.
  - rewrite <- app_assoc. rewrite length_app in *. done.
Qed.

Lemma shrink_spec w s v l : client_view w s -> vec_at s v l -> 16 * v_cap v + 2 * page_size <= W64 ->
  vector_done s v (shrink_to_fit allocator v w) l \/
  (shrink_to_fit allocator v w = Panic /\ no_places Vshrink v w).
Proof.
  intros Hc Hv Hb. destruct (vec_at_size s v l Hv) as [Hs Hle]. unfold shrink_to_fit.
  destruct (Z.ltb_spec (v_sz v) (v_cap v)).
  - destruct (relocate_spec allocator w s v l (v_sz v) Hc Hv) as [(v' & w' & s' & -> & ? & ? & ? & _)|[-> Hno]];
      [lia|lia|left; by exists v', w', s'|right]. split; [done|]. exists (v_sz v). split; [|done].
    cbn [asks_for]. by rewrite (proj2 (Z.ltb_lt _ _)).
  - left. exists v, w, s. split_and!; [done..|apply vec_moved_refl].
Qed.

Lemma resize_spec w s v l n x : client_view w s -> vec_at s v l ->
  0 <= n -> 8 * n + 2 * page_size <= W64 -> 0 <= x < W64 ->
  vector_done s v (resize_filled allocator n x v w) (vop_spec (Vresize n x) l) \/
  (resize_filled allocator n x v w = Panic /\ no_places (Vresize n x) v w).
Proof.
  intros Hc Hv Hn Hb Hx. unfold resize_filled.
  destruct (reserve_spec allocator w s v l n Hc Hv Hb) as [(v1 & w1 & s1 & -> & Hc1 & Hv1 & Hm & Hcap)|(-> & Hlt & Hno)];
    [left|right; split; [done|exists n; split; [by cbn [asks_for]; rewrite (proj2 (Z.ltb_lt _ _))|done]]].
  bind_simpl. cbn [vop_spec]. pose proof (vec_at_size s1 v1 l Hv1) as [Hs1 _].
  destruct (Z.le_gt_cases n (v_sz v1)) as [Hle|Hgt].
  - unfold fill_elems. rewrite for_range_nil by done. bind_simpl. eexists _, w1, s1. split; [done|]. split; [done|].
    replace (Z.to_nat n - length l)%nat with O by lia. rewrite app_nil_r. split; [|done].
    replace n with (Z.of_nat (Z.to_nat n)) at 1 by lia. apply vec_resize; [done|lia].
  - assert (exists extra, words_at s1 (v_ptr v1) (l ++ extra) /\ v_cap v1 = Z.of_nat (length (l ++ extra))) as (extra & Hw & Hcp).
    { destruct Hv1 as [-> ->|extra ? ? ?]; [simpl in *; lia|by exists extra]. }
    destruct (fill_elems_spec allocator w1 s1 (v_ptr v1) _ (v_sz v1) n x Hc1 Hw) as (w2 & -> & Hc2);
      [lia|lia|done|].
    bind_simpl. rewrite Hs1, Nat2Z.id, take_app_length in Hc2.
    rewrite (take_ge l) by lia. replace (Z.to_nat n - length l)%nat with (Z.to_nat (n - Z.of_nat (length l))) by lia.
    eexists _, w2, _. split; [done|]. split; [exact Hc2|]. split; [|by eapply vec_moved_set].
    rewrite app_assoc. apply (vec_array _ _ _ (drop (Z.to_nat n) (l ++ extra))); cbn [with_size v_ptr v_sz v_cap].
    + apply words_at_set. destruct Hw as [_ Hw]. pose proof Hw as Hw'. apply Forall_app in Hw' as [Hwl _].
      apply Forall_app. split; [apply Forall_app; split; [done|by apply Forall_replicate]|by apply Forall_drop].
    + rewrite length_app, length_replicate. lia.
    + rewrite Hcp, !length_app, length_drop, length_replicate, length_app in *. lia.
Qed.

Lemma set_spec w s v l i x : client_view w s -> vec_at s v l -> 0 <= i < Z.of_nat (length l) -> 0 <= x < W64 ->
  exists w' s', set_at v i x w = Ok w' /\ client_view w' s' /\ vec_at s' v (<[Z.to_nat i := x]> l) /\
    vec_moved s v s' v.
Proof.
  intros Hc Hv Hi Hx. destruct Hv as [-> ->|extra Hw Hs Hcap]; [simpl in Hi; lia|].
  destruct (store_elem allocator w s (v_ptr v) _ i x Hc Hw) as (w2 & E & Hc2); [rewrite length_app; lia|done|].
  exists w2. eexists. split; [exact E|]. split; [exact Hc2|].
  split; [|by apply vec_moved_set; [apply vec_moved_refl|]].
  rewrite insert_app_l by lia. apply (vec_array _ _ _ extra).
  - apply words_at_set. destruct Hw as [_ Hw]. apply Forall_app in Hw as [Hwl Hwe].
    apply Forall_app. split; [by apply Forall_insert|done].
  - by rewrite length_insert.
  - rewrite Hcap, !length_app, length_insert. done.
Qed.

Lemma at_spec w s v l i x : client_view w s -> vec_at s v l -> l !! i = Some x -> at_ v (Z.of_nat i) w = Ok x.
Proof.
  intros Hc [-> ->|extra Hw _ _] Hi; [done|].
  apply (load_elem allocator w s _ (l ++ extra)); [done|done|lia|].
  rewrite Nat2Z.id, lookup_app_l; [done|by eapply lookup_lt_Some].
Qed.

(** The array after the loop of [insert_at] and the store. *)
Lemma shift_right_list (l extra ws' : list Z) y (i : nat) x : (i <= length l)%nat ->
  length ws' = length (l ++ y :: extra) ->
  (forall q, (i < q <= length l)%nat -> ws' !! q = (l ++ y :: extra) !! (q - 1)%nat) ->
  (forall q, (q < length (l ++ y :: extra))%nat -> (q <= i)%nat \/ (length l < q)%nat -> ws' !! q = (l ++ y :: extra) !! q) ->
  <[i := x]> ws' = (take i l ++ x :: drop i l) ++ extra.
Proof.
  intros Hi Hl Hs Hk. rewrite length_app in *. simpl in *. apply list_eq. intros q.
  destruct (decide (q < length ws')%nat) as [Hq|Hq].
  2:{ rewrite !lookup_ge_None_2; [done| |rewrite length_insert; lia].
      rewrite !length_app, length_take. simpl. rewrite length_drop. lia. }
  destruct (decide (q = i)) as [->|Hne].
  { rewrite list_lookup_insert_eq by done. rewrite <- app_assoc, lookup_app_r by (rewrite length_take; lia).
    rewrite length_take. by replace (i - i `min` length l)%nat with O by lia. }
  rewrite list_lookup_insert_ne by done. destruct (decide (q < i)%nat) as [Hlt|Hge].
  - rewrite Hk by lia. rewrite <- app_assoc, !lookup_app_l by (rewrite ?length_take; lia).
    by rewrite lookup_take_lt.
  - rewrite <- app_assoc, lookup_app_r by (rewrite length_take; lia). rewrite length_take.
    replace (q - i `min` length l)%nat with (S (q - i - 1)) by lia. simpl.
    destruct (decide (q <= length l)%nat) as [Hle|Hgt].
    + rewrite Hs by lia. rewrite !lookup_app_l by (rewrite ?length_drop; lia). rewrite lookup_drop. f_equal. lia.
    + rewrite Hk by lia. rewrite !lookup_app_r by (rewrite ?length_drop; lia). rewrite length_drop.
      replace (q - length l)%nat with (S (q - length l - 1)) by lia. simpl. f_equal. lia.
Qed.

Lemma insert_at_spec w s v l i x : client_view w s -> vec_at s v l -> 16 * v_cap v + 2 * page_size <= W64 ->
  0 <= i <= Z.of_nat (length l) -> 0 <= x < W64 ->
  (exists v' w' s', insert_at allocator (elem (v_ptr v) i) x v w = Ok (elem (v_ptr v') i, v', w') /\
     client_view w' s' /\ vec_at s' v' (vop_spec (Vinsert i x) l) /\ vec_moved s v s' v') \/
  (insert_at allocator (elem (v_ptr v) i) x v w = Panic /\ no_places (Vinsert i x) v w).
Proof.
  intros Hc Hv Hb Hi Hx. pose proof (vec_at_size s v l Hv) as [Hs0 Hcap0].
  unfold insert_at. rewrite iter_diff_start, (u64_small i) by lia.
  destruct (grow_spec allocator w s v l Hc Hv Hb) as [(v1 & w1 & s1 & -> & Hc1 & Hv1 & Hm & Hsz & Hlt)|(-> & Hfull & Hno)];
    [left|right; split; [done|]; by apply full_asks].
  bind_simpl. destruct (vec_room s1 v1 l Hv1 Hlt) as (y & extra & Hw & Hs & Hcap).
  set (ws := l ++ y :: extra) in *. assert (Z.of_nat (length ws) = v_cap v1) as El by done.
  destruct (move_elems_spec allocator w1 s1 (v_ptr v1) ws (fun k => v_sz v1 - k - 1) (fun k => v_sz v1 - k)
    (v_sz v1 - i) (fun q => q - 1)) as (w2 & ws' & E & Hc2 & Hw2 & Hl2 & Hp); [done|done|lia|intros; lia|intros; lia|intros; lia|].
  rewrite (for_range_ext _ _ _ (fun k w => z ← load w (elem (v_ptr v1) (v_sz v1 - k - 1));
    store w (elem (v_ptr v1) (v_sz v1 - k)) z)).
  2:{ intros k t Hk. by rewrite (u64_small (v_sz v1 - k - 1)) by lia. }
  rewrite E. bind_simpl.
  destruct (store_elem allocator w2 _ (v_ptr v1) ws' i x Hc2) as (w3 & -> & Hc3); [by apply words_at_set|lia|done|].
  bind_simpl. rewrite set_set_words in Hc3. cbn [vop_spec].
  rewrite (shift_right_list l extra ws' y (Z.to_nat i) x) in Hc3; [|lia|done| |].
  - exists (with_size v1 (u64 (v_sz v1 + 1))), w3. eexists. split; [done|]. split; [exact Hc3|]. split; [|by eapply vec_moved_set].
    apply (vec_array _ _ _ extra); cbn [with_size v_ptr v_sz v_cap].
    + apply words_at_set. destruct Hw as [_ Hw]. unfold ws in Hw. unfold are_words.
      rewrite !Forall_app, !Forall_cons in *. destruct Hw as (Hwl & _ & Hwe).
      split; [|done]. split; [by apply Forall_take|]. split; [done|by apply Forall_drop].
    + rewrite length_app, length_take. simpl. rewrite length_drop, u64_small; lia.
    + rewrite Hcap. unfold ws. rewrite !length_app, length_take. simpl. rewrite length_drop. lia.
  - intros q Hq. destruct (Hp (Z.of_nat q)) as [H1 _]; [unfold ws; rewrite length_app; simpl; lia|].
    rewrite Nat2Z.id in H1. rewrite H1; [f_equal; lia|]. exists (v_sz v1 - Z.of_nat q). lia.
  - intros q Hq Hqi. destruct (Hp (Z.of_nat q)) as [_ H2]; [unfold ws; lia|].
    rewrite Nat2Z.id in H2. apply H2. intros k Hk. lia.
Qed.

(** A vector with room for [n] more elements. *)
Lemma reserve_room w s v l n : client_view w s -> vec_at s v l -> 16 * v_cap v + 2 * page_size <= W64 ->
  0 <= n -> 8 * (v_sz v + n) + 2 * page_size <= W64 ->
  (exists v' w' s', (if v_cap v <? u64 (v_sz v + n)
      then reserve allocator (Z.max (u64 (v_sz v + n)) (if v_cap v =? 0 then 1 else u64 (v_cap v * 2))) v w
      else Ok (v, w)) = Ok (v', w') /\ client_view w' s' /\ vec_at s' v' l /\ vec_moved s v s' v' /\ v_sz v + n <= v_cap v') \/
  ((if v_cap v <? u64 (v_sz v + n)
      then reserve allocator (Z.max (u64 (v_sz v + n)) (if v_cap v =? 0 then 1 else u64 (v_cap v * 2))) v w
      else Ok (v, w)) = Panic /\ v_cap v < v_sz v + n /\ no_memory (8 * Z.max (v_sz v + n) (Z.max 1 (v_cap v * 2))) w).
Proof.
  intros Hc Hv Hb Hn Hs. destruct (vec_at_size s v l Hv) as [Hs0 Hle]. rewrite (u64_small (v_sz v + n)) by lia.
  replace (if v_cap v =? 0 then 1 else u64 (v_cap v * 2)) with (Z.max 1 (v_cap v * 2))
    by (destruct (Z.eqb_spec (v_cap v) 0) as [->|]; [done|rewrite u64_small; lia]).
  destruct (Z.ltb_spec (v_cap v) (v_sz v + n)) as [Hlt|Hge].
  - destruct (reserve_spec allocator w s v l (Z.max (v_sz v + n) (Z.max 1 (v_cap v * 2))) Hc Hv) as [(v' & w' & s' & -> & ? & ? & ? & ?)|(-> & _ & ?)];
      [lia|left; exists v', w', s'; split_and!; [done..|lia]|by right].
  - left. exists v, w, s. split_and!; [done..|apply vec_moved_refl|lia].
Qed.

(** The array after the two loops of [insert_range]. *)
Lemma insert_range_list (l ws ws' xs : list Z) (i : nat) : (i <= length l)%nat -> length ws' = length ws ->
  (length l + length xs <= length ws)%nat -> (forall q, (q < length l)%nat -> ws !! q = l !! q) ->
  (forall q, (i + length xs <= q < length l + length xs)%nat -> ws' !! q = ws !! (q - length xs)%nat) ->
  (forall q, (q < i + length xs)%nat -> ws' !! q = ws !! q) ->
  take i ws' ++ xs ++ drop (i + length xs) ws' = (take i l ++ xs ++ drop i l) ++ drop (length l + length xs) ws'.
Proof.
  intros Hi El Hn Hl Hs Hk. rewrite <- !app_assoc. f_equal.
  - apply list_eq. intros q. destruct (decide (q < i)%nat) as [Hq|Hq].
    + rewrite !lookup_take_lt by done. rewrite Hk by lia. apply Hl. lia.
    + rewrite !lookup_take_ge by lia. done.
  - f_equal. apply list_eq. intros q. rewrite lookup_drop. destruct (decide (q < length l - i)%nat) as [Hq|Hq].
    + rewrite lookup_app_l by (rewrite length_drop; lia). rewrite lookup_drop, Hs by lia.
      replace (i + length xs + q - length xs)%nat with (i + q)%nat by lia. apply Hl. lia.
    + rewrite lookup_app_r by (rewrite length_drop; lia). rewrite length_drop, lookup_drop. f_equal. lia.
Qed.

Lemma insert_range_spec w s v l i src a xs : client_view w s -> vec_at s v l -> 16 * v_cap v + 2 * page_size <= W64 ->
  vop_legal (Vinsert_range i src a xs) l -> vop_source s v (Vinsert_range i src a xs) ->
  vector_done s v (run_vop (Vinsert_range i src a xs) v w) (vop_spec (Vinsert_range i src a xs) l) \/
  (run_vop (Vinsert_range i src a xs) v w = Panic /\ no_places (Vinsert_range i src a xs) v w).
Proof.
  intros Hc Hv Hb (Hi & Hin & Ha & Hba & Hbs) (Hne & wx & Hwx & Hxs). destruct (vec_at_size s v l Hv) as [Hs0 Hle].
  cbn [run_vop vop_spec]. unfold insert_range. set (n := Z.of_nat (length xs)) in *.
  rewrite iter_diff_start, iter_diff_elem by lia. replace (a + n - a) with n by lia. rewrite !(u64_small i), !(u64_small n) by lia.
  destruct (reserve_room w s v l n Hc Hv Hb) as [(v1 & w1 & s1 & -> & Hc1 & Hv1 & Hm & Hcap)|(-> & Hlt & Hno)]; [lia|lia|left|right].
  2:{ split; [done|]. eexists. cbn [asks_for]. fold n. rewrite (proj2 (Z.ltb_lt _ _)) by done. split; [reflexivity|done]. }
  bind_simpl. destruct (vec_at_size s1 v1 l Hv1) as [Hs1 _].
  destruct Hv1 as [-> ->|extra Hw _ Hcap1]; [simpl in *; lia|]. set (ws := l ++ extra) in *.
  assert (Z.of_nat (length l) + n <= Z.of_nat (length ws)) as Hlen by lia.
  pose proof (words_at_range allocator w1 s1 _ ws Hc1 Hw) as (Hp0 & Hpw & _).
  assert (words_at s1 src wx) as Hwx1 by (destruct Hwx; split; [by apply (vec_moved_other s v s1 v1)|done]).
  assert (src <> v_ptr v1) as Hne1.
  { destruct Hm as [_ [->|Hm]]; [done|]. intros ->. destruct Hwx. congruence. }
  rewrite (u64_small (v_sz v1 + n - 1)), (u64_small (i + n)) by lia.
  rewrite (loop_down (i + n) (v_sz v1 + n)) by lia.
  rewrite (for_range_ext _ _ _ (fun k w => y ← load w (elem (v_ptr v1) (v_sz v1 - 1 - k)); store w (elem (v_ptr v1) (v_sz v1 + n - 1 - k)) y)).
  2:{ intros k t Hk. rewrite (u64_small (v_sz v1 + n - 1 - k - n)) by lia. by replace (v_sz v1 + n - 1 - k - n) with (v_sz v1 - 1 - k) by lia. }
  destruct (move_elems_spec allocator w1 s1 (v_ptr v1) ws (fun k => v_sz v1 - 1 - k) (fun k => v_sz v1 + n - 1 - k)
    (v_sz v1 + n - (i + n)) (fun q => q - n)) as (w2 & ws' & E & Hc2 & Hw2 & Hl2 & Hp); [done|done|lia|intros; lia|intros; lia|intros; lia|].
  rewrite E. bind_simpl.
  rewrite (for_range_ext _ _ _ (fun k w => y ← load w (elem src (a + k)); store w (elem (v_ptr v1) (i + k)) y)).
  2:{ intros k t Hk. by rewrite elem_elem, (u64_small (i + k)) by lia. }
  destruct (copy_into_spec allocator w2 _ src (v_ptr v1) wx ws' i a xs Hc2) as (w3 & E3 & Hc3);
    [by apply words_at_set_ne|by apply words_at_set|done|lia|done|exact Hxs|lia|].
  fold n in E3. rewrite E3. bind_simpl. rewrite set_set_words in Hc3. rewrite (insert_range_list l ws) in Hc3.
  - exists (with_size v1 (u64 (v_sz v1 + n))), w3. eexists. split; [done|]. split; [exact Hc3|]. split; [|by eapply vec_moved_set].
    apply (vec_array _ _ _ (drop (length l + length xs) ws')); cbn [with_size v_ptr v_sz v_cap].
    + apply words_at_set. destruct Hw as [_ Hw]. unfold ws in Hw. apply Forall_app in Hw as [Hwl _].
      assert (are_words xs) as Hwxs.
      { apply Forall_lookup_2. intros k x Hk. destruct Hwx as [_ Hwx]. apply (Forall_lookup_1 _ _ (Z.to_nat a + k) _ Hwx).
        rewrite Hxs; [done|by eapply lookup_lt_Some]. }
      repeat apply Forall_app_2; [by apply Forall_take|done|by apply Forall_drop|by apply Forall_drop].
    + rewrite !length_app, length_take, length_drop, u64_small; lia.
    + rewrite !length_app, length_take, !length_drop. lia.
  - lia.
  - lia.
  - lia.
  - intros q Hq. unfold ws. by rewrite lookup_app_l.
  - intros q Hq. destruct (Hp (Z.of_nat q)) as [H1 _]; [lia|]. rewrite Nat2Z.id in H1. rewrite H1; [f_equal; lia|].
    exists (v_sz v1 + n - 1 - Z.of_nat q). lia.
  - intros q Hq. destruct (Hp (Z.of_nat q)) as [_ H2]; [lia|]. rewrite Nat2Z.id in H2. apply H2. intros k Hk. lia.
Qed.

(** The insertion of an empty range at the front never returns: [i >= 0] holds for
    every [i]. *)
Lemma insert_range_front_hangs fuel last v w r : v_sz v <= v_cap v < W64 -> 0 <= v_sz v ->
  insert_range allocator fuel (v_ptr v) last last v w <> Ok r.
Proof.
  intros Hs Hz E. unfold insert_range, iter_diff in E. cbv zeta in E. rewrite !Z.sub_diag in E. change (u64 (Z.quot (s64 0) 8)) with 0 in E.
  rewrite !Z.add_0_r, !u64_small, (proj2 (Z.ltb_ge _ _)) in E by lia. apply bind_inv in E as ([v1 w1] & [= <- <-] & E). apply bind_inv in E as (w2 & E & _).
  revert E. apply (loop_keeps _ (fun x => 0 <= x.1) (fun _ => False)).
  - intros [i t] s' Hi Eb. cbn in Hi. rewrite (proj2 (Z.leb_le 0 i) Hi) in Eb. apply bind_inv in Eb as (t' & _ & [= <-]). apply u64_range.
  - intros [i t] r' Hi Eb. cbn in Hi. rewrite (proj2 (Z.leb_le 0 i) Hi) in Eb. by apply bind_inv in Eb as (t' & _ & [=]).
  - apply u64_range.
Qed.

Lemma erase_range_spec w s v l i j : client_view w s -> vec_at s v l -> 16 * v_cap v + 2 * page_size <= W64 ->
  0 <= i <= j -> j <= Z.of_nat (length l) ->
  exists v' w' s', erase_range (elem (v_ptr v) i) (elem (v_ptr v) j) v w = Ok (elem (v_ptr v) i, v', w') /\
     client_view w' s' /\ vec_at s' v' (vop_spec (Verase i j) l) /\ vec_moved s v s' v'.
Proof.
  intros Hc Hv Hb Hi Hj. pose proof (vec_at_size s v l Hv) as [Hs Hle]. unfold erase_range.
  rewrite iter_diff_start, iter_diff_elem, (u64_small i), (u64_small (j - i)), (u64_small (v_sz v - (j - i))) by lia.
  cbn [vop_spec]. destruct Hv as [-> ->|extra Hw _ Hcap].
  { simpl in *. assert (i = 0 /\ j = 0) as [-> ->] by lia. rewrite for_range_nil by lia. bind_simpl.
    eexists _, w, s. split; [done|]. split; [done|]. split; [by apply vec_none|apply vec_moved_refl]. }
  set (ws := l ++ extra) in *. set (n := j - i) in *.
  assert (length ws = length l + length extra)%nat as El by (unfold ws; apply length_app).
  destruct (move_elems_spec allocator w s (v_ptr v) ws (fun k => i + k + n) (fun k => i + k) (v_sz v - n - i)
    (fun q => q + n)) as (w2 & ws' & E & Hc2 & Hw2 & Hl2 & Hp); [done|done|lia|intros; lia|intros; lia|intros; lia|].
  rewrite (for_range_shift _ _ _ (fun k w => z ← load w (elem (v_ptr v) (i + k + n)); store w (elem (v_ptr v) (i + k)) z)).
  2:{ intros k t Hk. by rewrite (u64_small (i + k + n)) by lia. }
  rewrite E. bind_simpl. eexists _, w2, _. split; [done|]. split; [exact Hc2|].
  split; [|by apply vec_moved_set; [apply vec_moved_refl|]].
  set (l' := take (Z.to_nat i) l ++ drop (Z.to_nat j) l).
  assert (Z.of_nat (length l') = v_sz v - n) as El'.
  { unfold l'. rewrite length_app, length_take, length_drop. lia. }
  assert (ws' = l' ++ drop (length l') ws') as Epre.
  { apply prefix_eq; [lia|]. intros q Hq. destruct (Hp (Z.of_nat q)) as [H1 H2]; [lia|]. rewrite Nat2Z.id in *.
    unfold l'. destruct (decide (q < Z.to_nat i)%nat) as [Hqi|Hqi].
    - rewrite H2 by lia. unfold ws. rewrite !lookup_app_l by (rewrite ?length_take; lia). by rewrite lookup_take_lt.
    - rewrite H1 by (exists (Z.of_nat q - i); lia). unfold ws. rewrite lookup_app_l by lia.
      rewrite lookup_app_r by (rewrite length_take; lia). rewrite length_take, lookup_drop. f_equal. lia. }
  apply (vec_array _ _ _ (drop (length l') ws')); cbn [with_size v_ptr v_sz v_cap]; rewrite <- ?Epre; [|lia|lia].
  by apply words_at_set.
Qed.

(** The constructor from a range holds the elements of the range. *)
Lemma vector_range_spec w s src a ws xs : client_view w s -> words_at s src ws -> 0 <= a ->
  (forall k, (k < length xs)%nat -> ws !! (Z.to_nat a + k)%nat = xs !! k) ->
  16 * (a + Z.of_nat (length xs)) + 2 * page_size <= W64 ->
  (exists v w' s', vector_range allocator (elem src a) (elem src (a + Z.of_nat (length xs))) w = Ok (v, w') /\
     client_view w' s' /\ vec_at s' v xs /\ s !! v_ptr v = None /\ delete (v_ptr v) s' = s) \/
  (vector_range allocator (elem src a) (elem src (a + Z.of_nat (length xs))) w = Panic /\ no_memory (8 * Z.of_nat (length xs)) w).
Proof.
  intros Hc Hw Ha Hxs Hb. unfold vector_range. set (n := Z.of_nat (length xs)) in *. rewrite iter_diff_elem by lia.
  replace (a + n - a) with n by lia. rewrite u64_small by lia.
  destruct (new_array_spec allocator w s n Hc) as [(p & w1 & -> & Hp & Hp0 & Hc1)|[-> Hno]]; [lia|lia|left|by right]. bind_simpl.
  assert (src <> p) as Hne by (intros ->; destruct Hw; congruence).
  unfold copy_elems. rewrite (for_range_ext _ _ _ (fun k w => y ← load w (elem src (a + k)); store w (elem p (0 + k)) y)).
  2:{ intros k t Hk. by rewrite elem_elem. }
  destruct (copy_into_spec allocator w1 _ src p ws (replicate (Z.to_nat n) 0) 0 a xs Hc1) as (w2 & E & Hc2);
    [by apply words_at_set_ne|apply words_at_set; by apply Forall_replicate|done|done|done|exact Hxs|rewrite length_replicate; lia|].
  fold n in E. rewrite E. bind_simpl. rewrite set_set_words in Hc2. cbn [Z.to_nat take app] in Hc2.
  rewrite drop_ge, app_nil_r in Hc2 by (rewrite length_replicate; lia).
  eexists _, w2, _. split; [done|]. split; [exact Hc2|]. cbn [v_ptr]. split; [|split; [done|unfold set_words; rewrite delete_insert_eq; by apply delete_id]].
  apply (vec_array _ _ _ []); rewrite ?app_nil_r; cbn [v_ptr v_sz v_cap]; [|done|done]. apply words_at_set.
  apply Forall_lookup_2. intros k x Hk. destruct Hw as [_ Hw]. apply (Forall_lookup_1 _ _ (Z.to_nat a + k) _ Hw).
  rewrite Hxs; [done|by eapply lookup_lt_Some].
Qed.

(** The loop from [rbegin] to [rend] reads the list from its end. *)
Lemma reverse_iteration w s v l fuel : client_view w s -> vec_at s v l -> 0 <= v_ptr v < W64 -> (length l < fuel)%nat ->
  rev_elems fuel (vector_rbegin v) (vector_rend v) w = Ok (reverse l).
Proof.
  intros Hc Hv Hp Hf. destruct (vec_at_size s v l Hv) as [Hs _]. unfold vector_rbegin, vector_rend, vector_end. rewrite Hs.
  assert (l = [] \/ 0 < v_ptr v /\ v_ptr v + 8 * Z.of_nat (length l) <= W64) as Hpl.
  { destruct Hv as [-> ->|extra Hw _ _]; [by left|]. destruct (words_at_range allocator w s _ _ Hc Hw) as (? & Hr & _).
    rewrite length_app in Hr. right. lia. }
  assert (forall k fuel, (k <= length l)%nat -> (k < fuel)%nat -> rev_elems fuel (elem (v_ptr v) (Z.of_nat k)) (v_ptr v) w = Ok (reverse (take k l))) as Hk.
  { induction k as [|k IH]; intros fuel' Hkl Hkf; (destruct fuel' as [|fuel']; [lia|]); cbn [rev_elems].
    - by rewrite elem_small, Z.mul_0_r, Z.add_0_r, Z.eqb_refl by lia.
    - destruct (lookup_lt_is_Some_2 l k) as [x Hx]; [lia|].
      rewrite (proj2 (Z.eqb_neq (elem (v_ptr v) (Z.of_nat (S k))) (v_ptr v)));
        [|destruct (elem_congr (v_ptr v) (Z.of_nat (S k))) as [j ->]; destruct Hpl as [->|Hpl]; [simpl in Hkl|]; lia].
      unfold rev_deref, rev_next. rewrite elem_elem. replace (Z.of_nat (S k) + -1) with (Z.of_nat k) by lia.
      pose proof (at_spec w s v l k x Hc Hv Hx) as Ha. unfold at_ in Ha. rewrite Ha. bind_simpl. rewrite IH by lia. bind_simpl.
      by rewrite (take_S_r _ _ x), reverse_app by done. }
  rewrite Hk by lia. by rewrite firstn_all.
Qed.
End Operations.
