(* ===== verification/VectorClaims.v ===== *)
(** * What the vectors guarantee

    Every operation refines the one on lists ([vector_refines]); the copy that forgets
    its capacity ([vector_copy_overruns]). *)

From S2P Require Import Prelude Memory LibcString StringProofs Frames Math Physical PhysicalProofs.
From S2P Require Import Heap HeapInv HeapProofs HeapTheorems Machine HeapClaims Vector VectorProofs VectorOps.

Section Claims.
Context {W : Type} `{FrameLaws W} (allocator : Z).
Local Abbreviation client_view := (client_view allocator).
Local Abbreviation run_vop := (run_vop allocator).
Local Abbreviation vector_done := (vector_done allocator).

(** ** Properties *)

(** C31: a vector is a list.  Any sequence element of [push_back], [pop_back],
    [clear], [reserve], [shrink_to_fit], [resize] with a value, assignment to an
    element, [insert] of an element or of a range that is not empty, and [erase] turns a vector that holds [l] into one that holds
    the list the operation denotes, which every later access reads back; all other
    blocks of the client keep their contents, and the old array goes back to the
    heap.  An operation panics only if it asks for a new array and the heap has no
    memory for that many places. *)
Theorem vector_refines w s v l op :
  client_view w s -> vec_at s v l -> vop_legal op l -> vop_source s v op -> 16 * v_cap v + 2 * page_size <= W64 ->
  (exists v' w' s', run_vop op v w = Ok (v', w') /\ client_view w' s' /\
     vec_at s' v' (vop_spec op l) /\
     (forall i x, vop_spec op l !! i = Some x -> at_ v' (Z.of_nat i) w' = Ok x) /\
     (forall q b, q <> v_ptr v -> s !! q = Some b -> s' !! q = Some b) /\
     (v_ptr v' <> v_ptr v -> s' !! v_ptr v = None)) \/
  (run_vop op v w = Panic /\ no_places op v w).
Proof.
  intros Hc Hv Hl Hsrc Hb.
  assert (forall c l', vector_done s v c l' -> exists v' w' s', c = Ok (v', w') /\ client_view w' s' /\
     vec_at s' v' l' /\ (forall i x, l' !! i = Some x -> at_ v' (Z.of_nat i) w' = Ok x) /\
     (forall q b, q <> v_ptr v -> s !! q = Some b -> s' !! q = Some b) /\
     (v_ptr v' <> v_ptr v -> s' !! v_ptr v = None)) as Hdone.
  { intros c l' (v' & w' & s' & E & Hc' & Hv' & Hm). exists v', w', s'. split_and!; [done..| | |].
    - intros i x. by apply (at_spec allocator w' s' v' l').
    - intros q b. by apply (vec_moved_other s v s' v').
    - intros Hne. destruct Hm as [Hd _]. rewrite <- (lookup_delete_ne s' (v_ptr v')) by done.
      rewrite Hd. apply lookup_delete_eq. }
  destruct op as [x| | |n| |n x|i x|i x|i src a xs|i j];
    [..|destruct (insert_range_spec allocator w s v l i src a xs Hc Hv Hb Hl Hsrc) as [Hd|Hp]; [left; by apply Hdone|by right]|]; cbn [vop_legal run_vop] in *.
  - destruct (push_back_spec allocator w s v l x Hc Hv Hb Hl) as [Hd|E]; [left; by apply Hdone|by right].
  - left. apply Hdone. exists (pop_back v), w, s. split_and!; [done|done| |split; [done|by left]].
    unfold pop_back. pose proof (vec_at_size s v l Hv) as [Hs Hle]. destruct l as [|y l]; [done|].
    rewrite u64_small by (simpl in *; lia). cbn [vop_spec].
    replace (v_sz v - 1) with (Z.of_nat (length (y :: l) - 1)) by (simpl in *; lia). apply vec_resize; [done|simpl; lia].
  - left. apply Hdone. exists (clear v), w, s. split_and!; [done|done| |split; [done|by left]].
    apply (vec_resize s v l 0 Hv). lia.
  - destruct (reserve_spec allocator w s v l n Hc Hv Hl) as [(v' & w' & s' & E & ? & ? & ? & _)|(E & Hlt & Hno)];
      [left; apply Hdone; by exists v', w', s'|right]. split; [done|]. exists n. split; [|done].
    cbn [asks_for]. by rewrite (proj2 (Z.ltb_lt _ _)).
  - destruct (shrink_spec allocator w s v l Hc Hv Hb) as [Hd|E]; [left; by apply Hdone|by right].
  - destruct Hl as (? & ? & ?). destruct (resize_spec allocator w s v l n x Hc Hv) as [Hd|E]; [done..|left; by apply Hdone|by right].
  - destruct Hl as [Hi Hx]. left. apply Hdone. destruct (set_spec allocator w s v l i x Hc Hv Hi Hx) as (w' & s' & -> & ? & ? & ?).
    by exists v, w', s'.
  - destruct Hl as [Hi Hx]. destruct (insert_at_spec allocator w s v l i x Hc Hv Hb Hi Hx) as [(v' & w' & s' & -> & ? & ? & ?)|[-> Hno]];
      [left; apply Hdone; by exists v', w', s'|by right].
  - destruct Hl as [Hi Hj]. left. apply Hdone.
    destruct (erase_range_spec allocator w s v l i j Hc Hv Hb Hi Hj) as (v' & w' & s' & -> & ? & ? & ?). by exists v', w', s'.
Qed.

(** C32: a copy of a vector with room to spare claims room it does not have.  The
    copy's block holds just the elements, but its capacity is the original's, so
    [push_back] on the copy does not grow it and stores behind the block: when
    another array of the client lies there, its first element is overwritten. *)
Theorem vector_copy_overruns w s v l x :
  client_view w s -> vec_at s v l -> v_sz v < v_cap v -> 16 * v_cap v + 2 * page_size <= W64 ->
  0 <= x < W64 ->
  (exists c w1 s1, vector_copy allocator v w = Ok (c, w1) /\ client_view w1 s1 /\
     delete (v_ptr c) s1 = s /\ words_at s1 (v_ptr c) l /\
     v_sz c = Z.of_nat (length l) /\ v_cap c = v_cap v /\
     forall q y ws, words_at s q (y :: ws) -> q = v_ptr c + 8 * v_sz c ->
       exists w2, push_back allocator x c w1 = Ok (with_size c (v_sz c + 1), w2) /\
         client_view w2 (set_words s1 q (x :: ws))) \/
  (vector_copy allocator v w = Panic /\ no_memory (8 * v_sz v) w).
Proof.
  intros Hc Hv Hlt Hb Hx. destruct (vec_room s v l Hv Hlt) as (y & extra & Hw & Hs & _).
  pose proof (vec_at_words s v l Hv) as Hwl. unfold vector_copy.
  destruct (new_array_spec allocator w s (v_sz v) Hc) as [(p & w1 & -> & Hp & Hp0 & Hc1)|[-> Hno]]; [lia|lia|left|by right].
  bind_simpl. assert (p <> v_ptr v) as Hne by (intros ->; destruct Hw; congruence).
  destruct (copy_elems_spec allocator w1 _ (v_ptr v) p (l ++ y :: extra) (replicate (Z.to_nat (v_sz v)) 0) (v_sz v) Hc1)
    as (w2 & -> & Hc2); [by apply words_at_set_ne|apply words_at_set; by apply Forall_replicate|done|
      rewrite length_app; lia|rewrite length_replicate; lia|].
  bind_simpl. rewrite set_set_words, Hs, Nat2Z.id, take_app_length, drop_replicate, Nat.sub_diag, app_nil_r in Hc2.
  eexists _, w2, _. split; [done|]. cbn [v_ptr v_sz v_cap]. split; [exact Hc2|].
  split; [unfold set_words; rewrite delete_insert_eq; by apply delete_id|].
  split; [by apply words_at_set|]. split; [done|]. split; [done|]. intros q z ws Hq Eq.
  assert (p <> q) as Hpq by (intros ->; destruct Hq; congruence).
  assert (words_at (set_words s p l) q (z :: ws)) as Hq' by (by apply words_at_set_ne).
  destruct (words_at_range allocator w2 _ q _ Hc2 Hq') as (? & ? & _).
  destruct (words_at_range allocator w2 _ p l Hc2) as (? & _ & _); [by apply words_at_set|].
  destruct (store_elem allocator w2 _ q (z :: ws) 0 x Hc2 Hq') as (w3 & E & Hc3); [simpl; lia|done|].
  exists w3. split; [|exact Hc3]. unfold push_back, grow. cbn [v_ptr v_sz v_cap].
  rewrite (proj2 (Z.eqb_neq (v_sz v) (v_cap v))) by lia. bind_simpl. cbn [v_ptr v_sz v_cap].
  rewrite elem_small in E by (simpl in *; lia). rewrite elem_small by (simpl in *; lia).
  rewrite <- Eq. rewrite Z.mul_0_r, Z.add_0_r in E. rewrite E. bind_simpl.
  rewrite u64_small by lia. done.
Qed.
End Claims.

(** ** Witnesses *)

Section Witnesses.
#[local] Existing Instance phys_frames.

(** An array of three words in the big block, one of two in the small one. *)
Definition vector_view : gmap Z (list Z) :=
  {[live_cell := words_bytes [0; 0]; big_ptr := words_bytes [0; 0; 0]]}.
Definition sample_vector : vector := Vector big_ptr 2 3.

Lemma vector_client_view :
  @client_view phys (phys_frames sample_hhdm) sample_laws sample_alloc sample_state vector_view.
Proof.
  exists sample_heap. split; [exact sample_heap_inv|]. intros p l Hp.
  unfold vector_view in Hp. apply lookup_insert_Some in Hp as [[<- <-]|[_ [<- <-]%lookup_singleton_Some]].
  - exists 16. split_and!; [exact live_block|done|]. by apply (sample_bytes live_cell).
  - exists 2000. split_and!; [exact sample_big_block|done|].
    change (words_bytes [0; 0; 0]) with (replicate (Z.to_nat 24) 0).
    apply (machine_bytes 27 sample_pages); [exact sample_pages_ok|exact sample_stores_ok|done|done|done].
Qed.

Lemma sample_vec_at : vec_at vector_view sample_vector [0; 0].
Proof.
  apply (vec_array _ _ _ [0]); [|done|done]. split; [by vm_compute|]. by repeat constructor.
Qed.

Definition panics {A} (c : outcome A) : bool := match c with Panic => true | _ => false end.

Lemma panics_false {A} (c : outcome A) : panics c = false -> c <> Panic.
Proof. by intros H ->. Qed.

Definition end_of {B} (c : outcome (vector * B)) : Z :=
  match c with Ok (v, _) => v_ptr v + 8 * v_sz v | _ => 0 end.

Lemma end_of_Ok {B} (c : outcome (vector * B)) a v w : end_of c = a -> c = Ok (v, w) -> a = v_ptr v + 8 * v_sz v.
Proof. by intros <- ->. Qed.

Lemma sample_insert_ok :
  @run_vop phys (phys_frames sample_hhdm) sample_alloc (Vinsert 1 7) sample_vector sample_state <> Panic.
Proof. apply panics_false. vm_compute. reflexivity. Qed.

Lemma sample_copy_ok :
  @vector_copy phys (phys_frames sample_hhdm) sample_alloc sample_vector sample_state <> Panic.
Proof. apply panics_false. vm_compute. reflexivity. Qed.

Lemma sample_copy_end :
  end_of (@vector_copy phys (phys_frames sample_hhdm) sample_alloc sample_vector sample_state) = live_cell.
Proof. vm_compute. reflexivity. Qed.

Lemma vector_refines_witness : exists v' w',
  @run_vop phys (phys_frames sample_hhdm) sample_alloc (Vinsert 1 7) sample_vector sample_state = Ok (v', w') /\
  @at_ phys (phys_frames sample_hhdm) v' 1 w' = Ok 7.
Proof.
  destruct (@vector_refines phys (phys_frames sample_hhdm) sample_laws sample_alloc sample_state vector_view
    sample_vector [0; 0] (Vinsert 1 7) vector_client_view sample_vec_at) as [(v' & w' & s' & E & _ & _ & Ha & _)|[E _]].
  - split; [split; [discriminate|vm_compute; discriminate]|split; [discriminate|reflexivity]].
  - exact I.
  - vm_compute. discriminate.
  - exists v', w'. split; [exact E|]. apply (Ha 1%nat 7). reflexivity.
  - destruct (sample_insert_ok E).
Defined.

Lemma vector_copy_overruns_witness : exists c w1 w2,
  @vector_copy phys (phys_frames sample_hhdm) sample_alloc sample_vector sample_state = Ok (c, w1) /\
  @push_back phys (phys_frames sample_hhdm) sample_alloc 7 c w1 = Ok (with_size c (v_sz c + 1), w2) /\
  v_ptr c <> live_cell /\ @load phys (phys_frames sample_hhdm) w2 live_cell = Ok 7.
Proof.
  destruct (@vector_copy_overruns phys (phys_frames sample_hhdm) sample_laws sample_alloc sample_state vector_view
    sample_vector [0; 0] 7 vector_client_view sample_vec_at) as [(c & w1 & s1 & E & Hc1 & _ & _ & Hs & _ & Hq)|[E _]].
  - reflexivity.
  - vm_compute. discriminate.
  - split; [discriminate|reflexivity].
  - assert (live_cell = v_ptr c + 8 * v_sz c) as Ec by exact (end_of_Ok _ _ _ _ sample_copy_end E).
    destruct (Hq live_cell 0 [0]) as (w2 & E2 & Hc2); [split; [vm_compute; reflexivity|by repeat constructor]|exact Ec|].
    exists c, w1, w2. split; [exact E|]. split; [exact E2|]. split; [rewrite Hs in Ec; simpl in Ec; lia|].
    apply (@load_elem phys (phys_frames sample_hhdm) sample_laws sample_alloc w2 _ live_cell [7; 0] 0 7 Hc2).
    + apply words_at_set. by repeat constructor.
    + lia.
    + reflexivity.
  - destruct (sample_copy_ok E).
Defined.
End Witnesses.
