(* ===== verification/Paging.v ===== *)
(** * arch/x86_64/memory/virtual.cpp, include/memory/virtual.hpp, memory/virtual.cpp

    Page tables.  A table is a heap block of 512 entries of 8 bytes; walks load
    and store the entries in memory.  A [pagemap_t] is the record [pagemap] (its
    [ranges] are in [Memmap]).  [unmap] returns the addresses it passes to [invlpg];
    what that does to the CPU's translation buffer is in [Tlb]. *)

From S2P Require Import Prelude Memory LibcString Frames Math Physical Heap.

(** ** Entries *)

Definition present := 1.
Definition write := 2.
Definition user_super := 4.
Definition write_through := 8.
Definition cache_disable := 16.
Definition larger_pages := 128.
Definition pat4k := 128.
Definition global := 256.
Definition patlg := 4096.
Definition no_exec := 9223372036854775808.

(** The flags of the interface. *)
Definition WRITE := 2.
Definition RW := 3.
Definition EXEC := 4.
Definition RWX := 7.
Definition USER := 8.
Definition GLOBAL := 16.
Definition LPAGE := 32.
Definition LLPAGE := 64.

Inductive caching : Type :=
| UNCACHABLE
| WRITE_THROUGH
| WRITE_PROTECTED
| WRITE_COMBINING
| WRITE_BACK.

#[export] Instance caching_eq_dec : EqDecision caching.
Proof. solve_decision. Defined.

Definition default_caching : caching := WRITE_BACK.
Definition FRAMEBUFFER : caching := WRITE_COMBINING.

Definition KiB4 := 4096.
Definition MiB2 := 2097152.
Definition GiB1 := 1073741824.
Definition invalid_addr := 18446744073709551615.

Definition pa_mask := 4503599627366400.

(** [x & f] as a condition. *)
Definition has (x f : Z) : bool := negb (Z.land x f =? 0).

(** [x & ~f] on 64 bits. *)
Definition clear (x f : Z) : Z := Z.land x (u64 (Z.lnot f)).

Definition pte_set_flags (value flags : Z) (enabled : bool) : Z :=
  let temp := clear value flags in
  if enabled then Z.lor temp flags else temp.
Definition pte_get_flag (value flags : Z) : bool := has value flags.
Definition pte_flags (value : Z) : Z := clear value pa_mask.
Definition pte_address (value : Z) : Z := Z.land value pa_mask.
Definition pte_set_address (value address : Z) : Z := Z.lor (clear value pa_mask) address.

Definition is_lpage (flags : Z) : bool := has flags LPAGE || has flags LLPAGE.

Definition flags_to_arch (flags : Z) : Z :=
  let ret := present in
  let ret := if has flags WRITE then Z.lor ret write else ret in
  let ret := if has flags USER then Z.lor ret user_super else ret in
  let ret := if negb (has flags EXEC) then Z.lor ret no_exec else ret in
  let ret := if has flags GLOBAL then Z.lor ret global else ret in
  if is_lpage flags then Z.lor ret larger_pages else ret.

Definition cache_to_flags (cache : caching) (larger : bool) : Z :=
  let pat_bit := if larger then patlg else pat4k in
  match cache with
  | UNCACHABLE => 0
  | WRITE_COMBINING => write_through
  | WRITE_THROUGH => pat_bit
  | WRITE_PROTECTED => Z.lor pat_bit write_through
  | WRITE_BACK => Z.lor pat_bit cache_disable
  end.

Definition is_canonical (address : Z) : bool :=
  (address <=? 140737488355327) || (18446603336221196288 <=? address).

(** ** Page maps *)

Record pagemap : Type := Pagemap {
  top_level : Z;
  llpage_size : Z;
  lpage_size : Z;
  base_page_size : Z;
}.

Definition get_page_size (pm : pagemap) (flags : Z) : Z :=
  let size := base_page_size pm in
  let size := if has flags LPAGE then lpage_size pm else size in
  if has flags LLPAGE then llpage_size pm else size.

Definition required_size (pm : pagemap) (size : Z) : Z * Z :=
  if llpage_size pm <=? size then (llpage_size pm, LLPAGE)
  else if lpage_size pm <=? size then (lpage_size pm, LPAGE)
  else (base_page_size pm, 0).

(** Nine bits of a virtual address. *)
Definition index_at (va shift : Z) : Z := Z.shiftr (Z.land va (Z.shiftl 511 shift)) shift.

Section Paging.
Context {W : Type} `{Frames W} (allocator : Z).

(** Set by [arch_init] from cpuid. *)
Context (gib1_pages : bool).

(** [new page_table_t]: the entries' initialisers store 0. *)
Definition new_page_table (w : W) : outcome (Z * W) :=
  '(p, w) ← operator_new allocator 4096 w;
  w ← fill w p 0 4096;
  Ok (p, w).

Definition get_next_lvl (curr_lvl entry : Z) (allocate : bool) (w : W) : outcome (Z * W) :=
  if curr_lvl =? 0 then Ok (0, w)
  else
    e ← load w (elem curr_lvl entry);
    if pte_get_flag e present then Ok (tohh hhdm_offset (pte_address e), w)
    else if allocate then
      '(ret, w) ← new_page_table w;
      e ← load w (elem curr_lvl entry);
      w ← store w (elem curr_lvl entry) (pte_set_address e (fromhh hhdm_offset ret));
      e ← load w (elem curr_lvl entry);
      w ← store w (elem curr_lvl entry)
                (pte_set_flags e (Z.lor (Z.lor present write) user_super) true);
      Ok (ret, w)
    else Ok (0, w).

(** The address of the entry, or null. *)
Definition virtual_to_pt_entry (pm : pagemap) (va : Z) (allocate : bool) (psize : Z) (w : W)
    : outcome (Z * W) :=
  let pml4_entry := index_at va 39 in
  let pml3_entry := index_at va 30 in
  let pml2_entry := index_at va 21 in
  let pml1_entry := index_at va 12 in
  let pml4 := top_level pm in
  if pml4 =? 0 then Ok (0, w)
  else
    '(pml3, w) ← get_next_lvl pml4 pml4_entry allocate w;
    if pml3 =? 0 then Ok (0, w)
    else if psize =? llpage_size pm then Ok (elem pml3 pml3_entry, w)
    else
      '(pml2, w) ← get_next_lvl pml3 pml3_entry allocate w;
      if pml2 =? 0 then Ok (0, w)
      else if psize =? lpage_size pm then Ok (elem pml2 pml2_entry, w)
      else
        '(pml1, w) ← get_next_lvl pml2 pml2_entry allocate w;
        if pml1 =? 0 then Ok (0, w)
        else Ok (elem pml1 pml1_entry, w).

Definition virtual_to_physical (pm : pagemap) (va flags : Z) (w : W) : outcome (Z * W) :=
  let psize := get_page_size pm flags in
  '(p, w) ← virtual_to_pt_entry pm va false psize w;
  if p =? 0 then Ok (invalid_addr, w)
  else
    e ← load w p;
    if negb (pte_get_flag e present) then Ok (invalid_addr, w)
    else if psize =? 0 then Undef
    else Ok (u64 (pte_address e + va mod psize), w).

Definition map_one (pm : pagemap) (va pa flags : Z) (cache : caching) (psize : Z) (w : W)
    : outcome (bool * W) :=
  '(p, w) ← virtual_to_pt_entry pm va true psize w;
  if p =? 0 then Ok (false, w)
  else
    let real_flags := Z.lor (flags_to_arch flags)
                            (cache_to_flags cache (negb (psize =? base_page_size pm))) in
    e ← load w p;
    w ← store w p (pte_set_address e pa);
    e ← load w p;
    w ← store w p (pte_set_flags e real_flags true);
    Ok (true, w).

(** [for (i = 0; i < GiB1; i += MiB2)] with an early return; 512 rounds. *)
Fixpoint large_loop {A : Type} (n : nat) (i : Z) (body : Z -> A -> outcome (bool * A)) (a : A)
    : outcome (bool * A) :=
  match n with
  | O => Ok (true, a)
  | S n' =>
      '(ok, a) ← body i a;
      if ok : bool then large_loop n' (i + MiB2) body a else Ok (false, a)
  end.

(** [flags &= ~LLPAGE; flags |= LPAGE] *)
Definition to_lpage (flags : Z) : Z := Z.lor (clear flags LLPAGE) LPAGE.

Definition map (pm : pagemap) (va pa flags : Z) (cache : caching) (w : W) : outcome (bool * W) :=
  let psize := get_page_size pm flags in
  if (psize =? llpage_size pm) && negb gib1_pages then
    large_loop 512 0 (fun i w => map_one pm (u64 (va + i)) (u64 (pa + i)) (to_lpage flags) cache MiB2 w) w
  else map_one pm va pa flags cache psize w.

(** The lambda takes the object's [page_size], whatever size is to be unmapped. *)
Definition unmap_one (pm : pagemap) (va : Z) (s : list Z * W) : outcome (bool * (list Z * W)) :=
  let '(inv, w) := s in
  '(p, w) ← virtual_to_pt_entry pm va false (base_page_size pm) w;
  if p =? 0 then Ok (false, (inv, w))
  else
    w ← store w p 0;
    Ok (true, (inv ++ [va], w)).

Definition unmap (pm : pagemap) (va flags : Z) (w : W) : outcome (bool * (list Z * W)) :=
  let psize := get_page_size pm flags in
  if (psize =? llpage_size pm) && negb gib1_pages then
    large_loop 512 0 (fun i s => unmap_one pm (u64 (va + i)) s) ([], w)
  else unmap_one pm va ([], w).

Definition set_flags (pm : pagemap) (va flags : Z) (cache : caching) (w : W) : outcome (bool * W) :=
  let psize := get_page_size pm flags in
  '(p, w) ← virtual_to_pt_entry pm va true psize w;
  if p =? 0 then Ok (false, w)
  else
    let real_flags := Z.lor (flags_to_arch flags)
                            (cache_to_flags cache (negb (psize =? base_page_size pm))) in
    e ← load w p;
    let address := pte_address e in
    w ← store w p 0;
    w ← store w p (pte_set_address 0 address);
    w ← store w p (pte_set_flags (pte_set_address 0 address) real_flags true);
    Ok (true, w).

(** [load] gives the value written to cr3; [save] reads it back. *)
Definition pagemap_load (pm : pagemap) : Z := fromhh hhdm_offset (top_level pm).
Definition pagemap_save (pm : pagemap) (cr3 : Z) : pagemap :=
  Pagemap (tohh hhdm_offset cr3) (llpage_size pm) (lpage_size pm) (base_page_size pm).

(** The constructor; [kernel] is [kernel_pagemap]. *)
Definition pagemap_new (kernel : option pagemap) (w : W) : outcome (pagemap * W) :=
  '(top, w) ← new_page_table w;
  let pm := Pagemap top GiB1 MiB2 KiB4 in
  match kernel with
  | None =>
      w ← for_range 256 512 (fun i w => '(_, w) ← get_next_lvl (top_level pm) i true w; Ok w) w;
      Ok (pm, w)
  | Some k =>
      w ← for_range 256 512 (fun i w =>
            e ← load w (elem (top_level k) i); store w (elem (top_level pm) i) e) w;
      Ok (pm, w)
  end.

(** *** The inline operations on ranges

    [i += page_size] runs while [i < size]; for sizes up to [2^64 - page_size]
    that is one round per started page. *)
Definition rounds (size psize : Z) : nat := Z.to_nat ((size + psize - 1) / psize).

Definition remap (pm : pagemap) (old_ptr new_ptr flags : Z) (cache : caching) (w : W)
    : outcome (bool * W) :=
  '(pa, w) ← virtual_to_physical pm old_ptr flags w;
  '(_, (_, w)) ← unmap pm old_ptr flags w;
  map pm new_ptr pa flags cache w.

(** The overload with caching calls [unmap], as written. *)
Definition map_range_inline (pm : pagemap) (va pa size flags : Z) (cache : caching) (w : W) : outcome W :=
  let psize := get_page_size pm flags in
  for_steps psize (fun i w => '(_, (_, w)) ← unmap pm (u64 (va + i)) flags w; Ok w)
    (rounds size psize) 0 w.

Definition unmap_range (pm : pagemap) (va size flags : Z) (w : W) : outcome W :=
  let psize := get_page_size pm flags in
  for_steps psize (fun i w => '(_, (_, w)) ← unmap pm (u64 (va + i)) flags w; Ok w)
    (rounds size psize) 0 w.

Definition remap_range (pm : pagemap) (old_ptr new_ptr size flags : Z) (cache : caching) (w : W)
    : outcome W :=
  let psize := get_page_size pm flags in
  for_steps psize (fun i w =>
      '(_, w) ← remap pm (u64 (old_ptr + i)) (u64 (new_ptr + i)) flags cache w; Ok w)
    (rounds size psize) 0 w.

Definition set_flags_range (pm : pagemap) (va size flags : Z) (cache : caching) (w : W) : outcome W :=
  let psize := get_page_size pm flags in
  for_steps psize (fun i w => '(_, w) ← set_flags pm (u64 (va + i)) flags cache w; Ok w)
    (rounds size psize) 0 w.

(** *** Destruction *)

Fixpoint destroy_level (level : nat) (pml start stop : Z) (w : W) : outcome W :=
  match level with
  | O => Ok w
  | S level' =>
      w ← for_range start stop (fun i w =>
            '(next, w) ← get_next_lvl pml i false w;
            if next =? 0 then Ok w else destroy_level level' next 0 512 w) w;
      operator_delete pml w
  end.

Definition destroy_pagemap (pm : pagemap) (w : W) : outcome W :=
  destroy_level 4 (top_level pm) 0 256 w.

(** *** memory/virtual.cpp: the kernel's page map *)

(** [assert(x)] expands [x] twice: once for the test and, when it holds, once more
    in the other branch. *)
Definition assert_ok (x : W -> outcome (bool * W)) (w : W) : outcome W :=
  '(ok, w) ← x w;
  if ok : bool then '(_, w) ← x w; Ok w else Panic.

Definition map_both (pm : pagemap) (t extra : Z) (cache : caching) (w : W) : outcome W :=
  w ← assert_ok (map pm t t (Z.lor RWX extra) cache) w;
  assert_ok (map pm (tohh hhdm_offset t) t (Z.lor RW extra) cache) w.

(** An entry of the boot loader's memory map; [framebuffer] tells its type. *)
Definition init_entry (pm : pagemap) (base length : Z) (framebuffer : bool) (w : W) : outcome W :=
  let start := align_down base (base_page_size pm) in
  let top := align_up (u64 (base + length)) (base_page_size pm) in
  if top <? GiB1 * 4 then Ok w
  else
    let cache := if framebuffer then FRAMEBUFFER else default_caching in
    for_steps (base_page_size pm)
      (fun t w => if t <? GiB1 * 4 then Ok w else map_both pm t 0 cache w)
      (rounds (top - start) (base_page_size pm)) start w.

Fixpoint init_entries (pm : pagemap) (es : list (Z * Z * bool)) (w : W) : outcome W :=
  match es with
  | [] => Ok w
  | (b, l, fb) :: es' => w ← init_entry pm b l fb w; init_entries pm es' w
  end.

(** [sizeof(pagemap_t)]: the vector of ranges (24 bytes), the top level, three sizes. *)
Definition sizeof_pagemap := 56.

(** [init]; the result is [kernel_pagemap] and the value of cr3.  [new] takes a block
    of the heap for the object; its fields are the record. *)
Definition paging_init (es : list (Z * Z * bool)) (file_size physical_base virtual_base : Z) (w : W)
    : outcome (pagemap * Z * W) :=
  '(_, w) ← operator_new allocator sizeof_pagemap w;
  '(pm, w) ← pagemap_new None w;
  let '(psize, flags) := required_size pm (GiB1 * 4) in
  w ← for_steps psize (fun i w => map_both pm i flags default_caching w)
        (rounds (GiB1 * 4) psize) 0 w;
  w ← init_entries pm es w;
  w ← for_steps (base_page_size pm)
        (fun i w => assert_ok (map pm (u64 (virtual_base + i)) (u64 (physical_base + i)) RWX default_caching) w)
        (rounds file_size (base_page_size pm)) 0 w;
  Ok (pm, pagemap_load pm, w).
End Paging.
