(* ===== verification/PagingProofs.v ===== *)
(** * Correctness of the page tables

    The bits of an entry, the tree of tables in memory as a map from paths to
    tables, what a walk finds, and the page map as a function from paths to
    entries. *)

From S2P Require Import Prelude Memory LibcString Frames Math Physical Heap HeapInv HeapProofs HeapTheorems Paging.

(** ** Bits *)

Section Bits.
Lemma u64_bits x n : 0 <= n -> Z.testbit (u64 x) n = (n <? 64) && Z.testbit x n.
Proof.
  intros Hn. unfold wrap. destruct (Z.ltb_spec n 64).
  - by rewrite Z.mod_pow2_bits_low by lia.
  - by rewrite Z.mod_pow2_bits_high by lia.
Qed.

Lemma clear_bits x f n : 0 <= n ->
  Z.testbit (clear x f) n = Z.testbit x n && ((n <? 64) && negb (Z.testbit f n)).
Proof. intros Hn. unfold clear. by rewrite Z.land_spec, u64_bits, Z.lnot_spec. Qed.

Lemma range_bits x w n : 0 <= w -> 0 <= x < 2 ^ w -> w <= n -> Z.testbit x n = false.
Proof.
  intros Hw Hx Hn. destruct (decide (x = 0)) as [->|]; [apply Z.bits_0|].
  apply Z.bits_above_log2; [lia|]. assert (Z.log2 x < w) by (apply Z.log2_lt_pow2; lia). lia.
Qed.

Lemma pa_mask_bits n : 0 <= n -> Z.testbit pa_mask n = (12 <=? n) && (n <? 52).
Proof.
  intros Hn. unfold pa_mask. change 4503599627366400 with (Z.shiftl (Z.ones 40) 12).
  rewrite Z.shiftl_spec by lia. destruct (Z.leb_spec 12 n); [|by rewrite Z.testbit_neg_r by lia].
  rewrite Z.testbit_ones by lia. simpl.
  destruct (Z.ltb_spec n 52), (Z.leb_spec 0 (n - 12)), (Z.ltb_spec (n - 12) 40); try done; lia.
Qed.

(** An address the mask leaves as it is: page aligned and below 2^52. *)
Lemma frame_mask a : a mod 4096 = 0 -> 0 <= a < 4503599627370496 -> Z.land a pa_mask = a.
Proof.
  intros Hm Ha. apply Z.bits_inj'. intros n Hn. rewrite Z.land_spec, pa_mask_bits by done.
  destruct (Z.leb_spec 12 n) as [H12|H12]; simpl.
  - destruct (Z.ltb_spec n 52); [by rewrite andb_true_r|].
    rewrite (range_bits a 52 n) by (done || lia). done.
  - rewrite andb_false_r. symmetry. change 4096 with (2 ^ 12) in Hm.
    rewrite <- (Z.mod_pow2_bits_low a 12 n) by lia. rewrite Hm. apply Z.bits_0.
Qed.

(** Flags outside the address field. *)
Definition no_address (f : Z) : Prop := Z.land f pa_mask = 0.

Lemma no_address_bit f n : no_address f -> 12 <= n < 52 -> Z.testbit f n = false.
Proof.
  intros Hf Hn. assert (Z.testbit (Z.land f pa_mask) n = false) as E by (rewrite Hf; apply Z.bits_0).
  rewrite Z.land_spec, pa_mask_bits in E by lia.
  rewrite (proj2 (Z.leb_le _ _)), (proj2 (Z.ltb_lt _ _)) in E by lia. by rewrite andb_true_r in E.
Qed.

(** The address read back from an entry is the one stored, with the flags that
    lie in the address field added to it. *)
Lemma entry_address e a f : Z.land a pa_mask = a ->
  pte_address (pte_set_flags (pte_set_address e a) f true) = Z.lor a (Z.land f pa_mask).
Proof.
  intros Ha. unfold pte_address, pte_set_flags, pte_set_address. apply Z.bits_inj'. intros n Hn.
  rewrite !Z.land_spec, !Z.lor_spec, !clear_bits, !Z.lor_spec, !clear_bits, Z.land_spec by done.
  rewrite <- Ha, !Z.land_spec, pa_mask_bits by done.
  destruct (Z.leb_spec 12 n), (Z.ltb_spec n 52), (Z.ltb_spec n 64); try lia; simpl;
    rewrite ?andb_false_r, ?orb_false_r, ?andb_true_r; try done.
  by destruct (Z.testbit a n), (Z.testbit f n), (Z.testbit e n).
Qed.

Lemma entry_present e a f : Z.testbit f 0 = true ->
  pte_get_flag (pte_set_flags (pte_set_address e a) f true) present = true.
Proof.
  intros Hf. unfold pte_get_flag, has, pte_set_flags, present.
  apply negb_true_iff, Z.eqb_neq. intros E.
  assert (Z.testbit (Z.land (Z.lor (clear (pte_set_address e a) f) f) 1) 0 = false) as Hb.
  { rewrite E. apply Z.bits_0. }
  rewrite Z.land_spec, Z.lor_spec, Hf, orb_true_r in Hb. done.
Qed.

Lemma bits_bound z w : 0 <= w -> 0 <= z -> (forall n, w <= n -> Z.testbit z n = false) -> z < 2 ^ w.
Proof.
  intros Hw Hz Hn. replace z with (z mod 2 ^ w) by
    (apply Z.bits_inj'; intros n Hn'; destruct (Z.ltb_spec n w);
     [by rewrite Z.mod_pow2_bits_low by lia|rewrite Z.mod_pow2_bits_high by lia; symmetry; by apply Hn]).
  apply Z.mod_pos_bound. lia.
Qed.

Lemma lor_range x y : 0 <= x < W64 -> 0 <= y < W64 -> 0 <= Z.lor x y < W64.
Proof.
  intros Hx Hy. split; [apply Z.lor_nonneg; lia|]. apply (bits_bound _ 64); [lia|apply Z.lor_nonneg; lia|].
  intros n Hn. by rewrite Z.lor_spec, (range_bits x 64), (range_bits y 64) by (done || lia).
Qed.

Lemma land_range x y : 0 <= x < W64 -> 0 <= Z.land x y < W64.
Proof.
  intros Hx. split; [apply Z.land_nonneg; lia|]. apply (bits_bound _ 64); [lia|apply Z.land_nonneg; lia|].
  intros n Hn. by rewrite Z.land_spec, (range_bits x 64) by (done || lia).
Qed.

Lemma entry_range e a f : 0 <= e < W64 -> 0 <= a < W64 -> 0 <= f < W64 ->
  0 <= pte_set_flags (pte_set_address e a) f true < W64.
Proof.
  intros He Ha Hf. unfold pte_set_flags, pte_set_address, clear.
  apply lor_range; [|done]. apply land_range, lor_range; [|done]. by apply land_range.
Qed.

Lemma set_address_range e a : 0 <= e < W64 -> 0 <= a < W64 -> 0 <= pte_set_address e a < W64.
Proof. intros He Ha. unfold pte_set_address, clear. apply lor_range; [|done]. by apply land_range. Qed.

(** The bits [flags_to_arch] and [cache_to_flags] can give. *)
Lemma flags_facts flags cache larger :
  let f := Z.lor (flags_to_arch flags) (cache_to_flags cache larger) in
  Z.testbit f 0 = true /\ 0 <= f < W64 /\
  Z.land f pa_mask = if larger then Z.land (cache_to_flags cache true) patlg else 0.
Proof.
  unfold flags_to_arch, is_lpage.
  destruct (has flags WRITE), (has flags USER), (has flags EXEC), (has flags GLOBAL),
    (has flags LPAGE), (has flags LLPAGE), cache, larger; by vm_compute.
Qed.
End Bits.

(** ** Paths *)

(** The table indices of a virtual address, from the top level down. *)
Definition path_of (va : Z) : list Z := [index_at va 39; index_at va 30; index_at va 21; index_at va 12].

(** How many indices the entry for a page size has: 4 for 4 KiB, 3 for 2 MiB, 2
    for 1 GiB. *)
Definition depth (psize : Z) : nat := if psize =? GiB1 then 2 else if psize =? MiB2 then 3 else 4.

Lemma index_at_div va s : 0 <= va -> 0 <= s -> index_at va s = (va / 2 ^ s) mod 512.
Proof.
  intros Hva Hs. unfold index_at. rewrite Z.shiftr_land, Z.shiftr_shiftl_l, Z.sub_diag by lia.
  rewrite Z.shiftl_0_r, Z.shiftr_div_pow2 by lia. change 511 with (Z.ones 9).
  by rewrite Z.land_ones by lia.
Qed.

Lemma index_range va s : 0 <= va -> 0 <= s -> 0 <= index_at va s < 512.
Proof. intros. rewrite index_at_div by done. apply Z.mod_pos_bound. lia. Qed.

(** Two addresses have the same path if and only if they lie in the same 4 KiB
    page of the 48-bit space. *)
Lemma path_of_page va va' : 0 <= va -> 0 <= va' ->
  (path_of va = path_of va' <-> (va / 4096) mod 68719476736 = (va' / 4096) mod 68719476736).
Proof.
  intros Hv Hv'. unfold path_of. rewrite !index_at_div by lia.
  assert (forall v s, 0 <= v -> 0 <= s -> v / 2 ^ (12 + s) = v / 4096 / 2 ^ s) as E.
  { intros v s H1 H2. rewrite Z.pow_add_r, <- Z.div_div by lia. done. }
  change 39 with (12 + 27). change 30 with (12 + 18). change 21 with (12 + 9).
  rewrite !E by lia. change (2 ^ 12) with 4096.
  change (2 ^ 27) with 134217728. change (2 ^ 18) with 262144. change (2 ^ 9) with 512.
  set (p := va / 4096). set (q := va' / 4096). clearbody p q.
  assert (forall p, p mod 68719476736 = p mod 512 + 512 * ((p / 512) mod 512) +
            262144 * ((p / 262144) mod 512) + 134217728 * ((p / 134217728) mod 512)) as D.
  { intros z. Z.to_euclidean_division_equations. lia. }
  split.
  - intros Heq. injection Heq as H1 H2 H3 H4. rewrite (D p), (D q). lia.
  - intros Heq. rewrite (D p), (D q) in Heq.
    pose proof (Z.mod_pos_bound p 512). pose proof (Z.mod_pos_bound q 512).
    pose proof (Z.mod_pos_bound (p / 512) 512). pose proof (Z.mod_pos_bound (q / 512) 512).
    pose proof (Z.mod_pos_bound (p / 262144) 512). pose proof (Z.mod_pos_bound (q / 262144) 512).
    pose proof (Z.mod_pos_bound (p / 134217728) 512). pose proof (Z.mod_pos_bound (q / 134217728) 512).
    assert ((p / 134217728) mod 512 = (q / 134217728) mod 512 /\ (p / 262144) mod 512 = (q / 262144) mod 512 /\
            (p / 512) mod 512 = (q / 512) mod 512 /\ p mod 512 = q mod 512) as (-> & -> & -> & ->) by lia.
    done.
Qed.

(** ** Tables in memory *)

Section Tables.
Context {W : Type} `{FrameLaws W} (allocator : Z).
Local Abbreviation hh := hhdm_offset.
Local Abbreviation heap_inv := (heap_inv allocator).

(** A table is a block of one page in the direct map. *)
Definition table_at (h : heap) (t : Z) : Prop :=
  block h t 4096 /\ exists pg, t = page_addr pg /\ pg ∈ h_owned h.

Lemma table_facts w h t : heap_inv w h -> table_at h t ->
  0 < t /\ t + 4096 <= W64 /\ valid (wmem w) t 4096 /\
  tohh hh (fromhh hh t) = t /\ Z.land (fromhh hh t) pa_mask = fromhh hh t /\ 0 <= fromhh hh t < W64.
Proof.
  intros Hinv (Hb & pg & -> & Hpg). pose proof (hi_frames _ _ _ _ Hinv) as Hf.
  destruct (page_in_pages w _ pg Hf Hpg) as (? & ? & Hv & Ht & ? & _).
  destruct (frames_page w _ pg Hf Hpg) as (? & ? & _). pose proof (frames_52 w _ pg Hf Hpg).
  assert (fromhh hh (page_addr pg) = pg * page_size) as ->.
  { unfold page_addr in *. rewrite fromhh_high; lia. }
  split_and!; try done; try lia. apply frame_mask; [|lia]. apply Z.mod_mul. lia.
Qed.

Lemma elem_table t i : 0 < t -> t + 4096 <= W64 -> 0 <= i < 512 -> elem t i = t + 8 * i.
Proof. intros. unfold elem. rewrite (u64_small (i * 8)) by lia. rewrite u64_small; lia. Qed.

Lemma table_keep w' h h' t : table_at h t -> heap_inv w' h' -> block h' t 4096 -> table_at h' t.
Proof.
  intros (_ & pg & -> & _) Hinv' Hb. split; [done|]. exists pg. split; [done|].
  destruct (block_owned allocator w' h' _ 4096 (page_addr pg) Hinv' Hb) as (q & Hq & Hqx); [unfold in_range; lia|].
  replace pg with q; [done|]. apply (in_page_inj hh _ _ (page_addr pg)); [done|]. apply in_page_addr. lia.
Qed.

(** [new page_table_t] *)
Lemma new_page_table_spec w h : heap_inv w h ->
  (exists t w' h', new_page_table allocator w = Ok (t, w') /\ heap_inv w' h' /\ table_at h' t /\
     (forall i, 0 <= i < 512 -> load64 (wmem w') (t + 8 * i) = Ok 0) /\
     (forall b n, block h b n -> block h' b n /\ disjoint_ranges t 4096 b n /\
        forall x, in_range b n x -> wmem w' !! x = wmem w !! x) /\ spent 2 w w') \/
  (new_page_table allocator w = Panic /\ ~ frames_run w 2).
Proof.
  intros Hinv. unfold new_page_table, operator_new.
  destruct (malloc_spec allocator w h 4096 Hinv) as [(t & n & w1 & h1 & -> & _ & Hnb & Hbig)|(-> & _ & Hno)];
    [lia|lia|left|right; split; [done|by apply Hno]].
  destruct Hbig as (-> & Hrun & Hpg); [lia|]. pose proof (nb_step _ _ _ _ _ _ _ Hnb) as [Hinv1 _ _ Hk].
  assert (block h1 t 4096) as Hb by (apply (nb_blocks _ _ _ _ _ _ _ Hnb); by right).
  destruct (block_in allocator w1 h1 t 4096 Hinv1 Hb) as (_ & _ & Hv).
  pose proof (frames_wf _ _ (hi_frames _ _ _ _ Hinv1)) as Hw1.
  pose proof (nb_zero _ _ _ _ _ _ _ Hnb) as Hz.
  bind_simpl. rewrite fill_valid by (done || lia). change (u8 0) with 0. bind_simpl.
  assert (write_bytes (wmem w1) t (replicate (Z.to_nat 4096) 0) = wmem w1) as ->.
  { symmetry. apply write_bytes_unique; [by intros ? ?|done]. }
  exists t, (with_mem w1 (wmem w1)), h1. rewrite wmem_with_mem.
  destruct (block_write allocator w1 h1 t 4096 (wmem w1) Hinv1 Hb) as (Hinv2 & _ & Hrun2); [done..|].
  split_and!; [done|done|by split| | |by apply (spent_trans 2 0 w w1)].
  - intros i Hi. apply load64_zero. intros j Hj. rewrite length_replicate in Hj.
    replace (t + 8 * i + j) with (t + (8 * i + j)) by lia.
    rewrite Hz by (rewrite length_replicate; lia). by rewrite !lookup_replicate_2 by lia.
  - intros b n Hbn. assert (block h1 b n) by (apply (nb_blocks _ _ _ _ _ _ _ Hnb); by left).
    split_and!; [done|by apply (nb_fresh _ _ _ _ _ _ _ Hnb)|by apply Hk].
Qed.

(** A store to an entry of a table. *)
Lemma entry_store w h t i v : heap_inv w h -> table_at h t -> 0 <= i < 512 -> 0 <= v < W64 ->
  let m := write64 (wmem w) (t + 8 * i) v in
  store w (elem t i) v = Ok (with_mem w m) /\ (heap_inv (with_mem w m) h /\ spent 0 w (with_mem w m)) /\
  load64 m (t + 8 * i) = Ok v /\
  forall t' j, table_at h t' -> 0 <= j < 512 -> t' <> t \/ j <> i -> load64 m (t' + 8 * j) = load64 (wmem w) (t' + 8 * j).
Proof.
  intros Hinv Ht Hi Hv m. destruct (table_facts w h t Hinv Ht) as (? & ? & Hvt & _).
  assert (valid (wmem w) (t + 8 * i) 8) as Hv8 by (eapply valid_sub; [apply Hvt|lia..]).
  destruct (write64_ok (wmem w) (t + 8 * i) v) as [Hw Hd]; [apply (frames_wf _ _ (hi_frames _ _ _ _ Hinv))|done|].
  destruct (block_write allocator w h t 4096 m Hinv (proj1 Ht) Hw Hd) as (Hinv' & _ & Hrun).
  { intros x Hx. apply write64_out. unfold in_range in *. lia. }
  split; [|split; [done|split]].
  - rewrite elem_table by done. by apply store_valid.
  - by apply load64_write64_small.
  - intros t' j Ht' Hj Hne. apply load64_write64_ne. destruct (decide (t' = t)) as [->|Htt].
    + unfold disjoint_ranges. lia.
    + pose proof (blocks_disjoint allocator w h t 4096 t' 4096 Hinv (proj1 Ht) (proj1 Ht')) as Hdj.
      unfold disjoint_ranges in *. lia.
Qed.

(** ** The page map as a tree *)

(** The entry that points to the table at [a], made over the entry [old]. *)
Definition table_entry (old a : Z) : Z :=
  pte_set_flags (pte_set_address old a) (Z.lor (Z.lor present write) user_super) true.

(** [N] gives the table of each path of indices; [leaf] gives the entries that do
    not point to a table of [N], 0 below a missing table, and for those that do the
    entry that was there before the table. *)
Record pt_view (w : W) (h : heap) (top : Z) (N : gmap (list Z) Z) (leaf : list Z -> Z) : Prop := {
  pv_heap : heap_inv w h;
  pv_root : N !! [] = Some top;
  pv_table : forall p t, N !! p = Some t -> (length p <= 3)%nat /\ table_at h t;
  pv_inj : forall p q t, N !! p = Some t -> N !! q = Some t -> p = q;
  pv_entry : forall p t i, N !! p = Some t -> 0 <= i < 512 ->
    exists e, load64 (wmem w) (t + 8 * i) = Ok e /\ 0 <= e < W64 /\
      match N !! (p ++ [i]) with
      | Some t' => pte_get_flag e present = true /\ tohh hh (pte_address e) = t' /\
          e = table_entry (leaf (p ++ [i])) (fromhh hh t')
      | None => leaf (p ++ [i]) = e
      end;
  pv_absent : forall p i, N !! p = None -> leaf (p ++ [i]) = 0 /\ N !! (p ++ [i]) = None;
}.

(** Writing an entry that is no table pointer. *)
Lemma view_write w h top N leaf p t i v : pt_view w h top N leaf -> N !! p = Some t -> 0 <= i < 512 ->
  N !! (p ++ [i]) = None -> 0 <= v < W64 ->
  store w (elem t i) v = Ok (with_mem w (write64 (wmem w) (t + 8 * i) v)) /\
  pt_view (with_mem w (write64 (wmem w) (t + 8 * i) v)) h top N
    (fun q => if decide (q = p ++ [i]) then v else leaf q).
Proof.
  intros [Hinv Hroot Htab Hinj Hent Habs] Hp Hi Hn Hv.
  destruct (entry_store w h t i v Hinv) as (Es & [Hinv' _] & Hl & Hother); [by apply (Htab p)|done|done|].
  split; [done|]. constructor; try done.
  - intros q t' j Hq Hj. rewrite wmem_with_mem.
    destruct (decide (t' = t /\ j = i)) as [[-> ->]|Hne].
    + rewrite (Hinj q p t Hq Hp), Hn. exists v. split_and!; [done|lia|lia|]. by rewrite decide_True.
    + rewrite Hother; [|by apply (Htab q)|done|lia].
      destruct (Hent q t' j Hq Hj) as (e & He & Her & Hm). exists e. split_and!; [done|lia|lia|].
      destruct (N !! (q ++ [j])) eqn:Eq; [rewrite decide_False; [done|congruence]|]. rewrite decide_False; [done|].
      intros [-> [= ->]]%app_inj_2; [|done]. apply Hne. rewrite Hp in Hq. by injection Hq.
  - intros q j Hq. destruct (Habs q j Hq) as [Hl0 Hq']. split; [|done]. rewrite decide_False; [done|].
    intros [-> _]%app_inj_2; [congruence|done].
Qed.

(** A new table below an entry that is not present. *)
Lemma view_alloc w h top N leaf p t i w1 h1 t' e w2 :
  pt_view w h top N leaf -> N !! p = Some t -> (length p <= 2)%nat -> 0 <= i < 512 -> N !! (p ++ [i]) = None ->
  heap_inv w1 h1 -> table_at h1 t' ->
  (forall j, 0 <= j < 512 -> load64 (wmem w1) (t' + 8 * j) = Ok 0) ->
  (forall b n, block h b n -> block h1 b n /\ disjoint_ranges t' 4096 b n /\
     forall x, in_range b n x -> wmem w1 !! x = wmem w !! x) ->
  0 <= e < W64 -> pte_get_flag e present = true -> tohh hh (pte_address e) = t' ->
  e = table_entry (leaf (p ++ [i])) (fromhh hh t') ->
  heap_inv w2 h1 -> load64 (wmem w2) (t + 8 * i) = Ok e ->
  (forall t'' j, table_at h1 t'' -> 0 <= j < 512 -> t'' <> t \/ j <> i ->
     load64 (wmem w2) (t'' + 8 * j) = load64 (wmem w1) (t'' + 8 * j)) ->
  pt_view w2 h1 top (<[p ++ [i] := t']> N) leaf.
Proof.
  intros [Hinv Hroot Htab Hinj Hent Habs] Hp Hlen Hi Hn Hinv1 Ht' Hz Hold He1 He2 He3 He4 Hinv2 Hle Hother.
  assert (forall q t0, N !! q = Some t0 -> table_at h1 t0) as Htab1.
  { intros q t0 Hq. destruct (Htab q t0 Hq) as [_ Ht0]. apply (table_keep w1 h h1 t0 Ht0 Hinv1).
    by apply Hold, Ht0. }
  assert (forall q t0, N !! q = Some t0 -> t0 <> t') as Hnew.
  { intros q t0 Hq ->. destruct (Htab q t' Hq) as [_ [Hb _]]. destruct (Hold _ _ Hb) as (_ & Hd & _).
    unfold disjoint_ranges in Hd. lia. }
  assert (forall q t0 j, N !! q = Some t0 -> 0 <= j < 512 ->
            load64 (wmem w1) (t0 + 8 * j) = load64 (wmem w) (t0 + 8 * j)) as Hsame.
  { intros q t0 j Hq Hj. destruct (Htab q t0 Hq) as [_ [Hb _]]. apply load64_same. intros x Hx.
    apply (proj2 (proj2 (Hold _ _ Hb))). unfold in_range in *. lia. }
  assert (forall j, p ++ [i] <> (p ++ [i]) ++ [j]) as Hself.
  { intros j E. apply (f_equal length) in E. rewrite !length_app in E. simpl in E. lia. }
  constructor; try done.
  - rewrite lookup_insert_ne; [done|]. intros E. by apply app_eq_nil in E as [_ ?].
  - intros q t0 Hq. apply lookup_insert_Some in Hq as [[<- <-]|[_ Hq]].
    + split; [rewrite length_app; simpl; lia|done].
    + split; [by apply (Htab q t0)|by apply (Htab1 q)].
  - intros q1 q2 t0 Hq1 Hq2. apply lookup_insert_Some in Hq1 as [[<- <-]|[_ Hq1]];
      apply lookup_insert_Some in Hq2 as [[<- E]|[_ Hq2]]; try done.
    + by destruct (Hnew q2 t' Hq2).
    + subst t0. by destruct (Hnew q1 t' Hq1).
    + by apply (Hinj q1 q2 t0).
  - intros q t0 j Hq Hj. apply lookup_insert_Some in Hq as [[<- <-]|[Hqne Hq]].
    + exists 0. rewrite Hother; [|done|done|left; intros E; by apply (Hnew p t Hp)].
      split_and!; [by apply Hz|lia|lia|]. rewrite lookup_insert_ne by apply Hself.
      destruct (Habs (p ++ [i]) j Hn) as [-> ->]. done.
    + destruct (decide (t0 = t /\ j = i)) as [[-> ->]|Hne].
      * rewrite (Hinj q p t Hq Hp), lookup_insert_eq. by exists e.
      * rewrite Hother; [|by apply (Htab1 q)|done|lia]. rewrite (Hsame q) by done.
        destruct (Hent q t0 j Hq Hj) as (e0 & ? & ? & Hm). exists e0. split_and!; [done|lia|lia|].
        rewrite lookup_insert_ne; [done|]. intros [-> [= ->]]%app_inj_2; [|done].
        apply Hne. rewrite Hp in Hq. by injection Hq.
  - intros q j Hq. apply lookup_insert_None in Hq as [Hq Hqne]. destruct (Habs q j Hq) as [? Hqj].
    split; [done|]. rewrite lookup_insert_ne; [done|]. intros [-> [= ->]]%app_inj_2; [|done]. congruence.
Qed.

(** ** Walks *)

Section Walk.
Context (w : W) (h : heap) (top : Z) (N : gmap (list Z) Z) (leaf : list Z -> Z).
Context (Hview : pt_view w h top N leaf).

Lemma table_of p t : N !! p = Some t -> 0 < t /\ t + 4096 <= W64 /\ table_at h t.
Proof.
  intros Hp. destruct (pv_table _ _ _ _ _ Hview p t Hp) as [_ Ht].
  destruct (table_facts w h t (pv_heap _ _ _ _ _ Hview) Ht) as (? & ? & _). done.
Qed.

Lemma load_entry p t i : N !! p = Some t -> 0 <= i < 512 ->
  exists e, load w (elem t i) = Ok e /\ 0 <= e < W64 /\
    match N !! (p ++ [i]) with
    | Some t' => pte_get_flag e present = true /\ tohh hh (pte_address e) = t' /\
        e = table_entry (leaf (p ++ [i])) (fromhh hh t')
    | None => leaf (p ++ [i]) = e
    end.
Proof.
  intros Hp Hi. destruct (table_of p t Hp) as (? & ? & _).
  destruct (pv_entry _ _ _ _ _ Hview p t i Hp Hi) as (e & He & Hr & Hm). exists e.
  rewrite elem_table by done. split_and!; [done|lia|lia|done].
Qed.

(** A level that exists. *)
Lemma next_present p t i t' allocate : N !! p = Some t -> 0 <= i < 512 -> N !! (p ++ [i]) = Some t' ->
  get_next_lvl allocator t i allocate w = Ok (t', w).
Proof.
  intros Hp Hi Hp'. destruct (table_of p t Hp) as (? & _). destruct (load_entry p t i Hp Hi) as (e & E & _ & Hm).
  rewrite Hp' in Hm. destruct Hm as (Hpr & Ht' & _). unfold get_next_lvl.
  rewrite (proj2 (Z.eqb_neq t 0)) by lia. rewrite E. bind_simpl. by rewrite Hpr, Ht'.
Qed.

(** A level that is missing, and not to be made. *)
Lemma next_absent p t i : N !! p = Some t -> 0 <= i < 512 -> N !! (p ++ [i]) = None ->
  pte_get_flag (leaf (p ++ [i])) present = false ->
  get_next_lvl allocator t i false w = Ok (0, w).
Proof.
  intros Hp Hi Hn Hl. destruct (table_of p t Hp) as (? & _). destruct (load_entry p t i Hp Hi) as (e & E & _ & Hm).
  rewrite Hn in Hm. subst e. unfold get_next_lvl. rewrite (proj2 (Z.eqb_neq t 0)) by lia.
  rewrite E. bind_simpl. by rewrite Hl.
Qed.

(** A level that is missing, and made. *)
Lemma next_alloc p t i : N !! p = Some t -> (length p <= 2)%nat -> 0 <= i < 512 -> N !! (p ++ [i]) = None ->
  pte_get_flag (leaf (p ++ [i])) present = false ->
  (exists t' w' h', get_next_lvl allocator t i true w = Ok (t', w') /\
     pt_view w' h' top (<[p ++ [i] := t']> N) leaf /\ spent 2 w w') \/
  (get_next_lvl allocator t i true w = Panic /\ ~ frames_run w 2).
Proof.
  intros Hp Hlen Hi Hn Hl. destruct (table_of p t Hp) as (? & ? & Ht).
  destruct (load_entry p t i Hp Hi) as (e & E & Her & Hm). rewrite Hn in Hm. subst e.
  unfold get_next_lvl. rewrite (proj2 (Z.eqb_neq t 0)) by lia. rewrite E. bind_simpl. rewrite Hl.
  destruct (new_page_table_spec w h (pv_heap _ _ _ _ _ Hview)) as
    [(t' & w1 & h1 & -> & Hinv1 & Ht' & Hz & Hold & Hrun)|[-> Hno]]; [left|by right]. bind_simpl.
  destruct (table_facts w1 h1 t' Hinv1 Ht') as (? & ? & _ & Hto & Hfm & Hfr).
  assert (table_at h1 t) as Ht1 by (apply (table_keep w1 h h1 t Ht Hinv1); by apply Hold, Ht).
  assert (t <> t') as Htt.
  { intros <-. destruct (Hold t 4096 (proj1 Ht)) as (_ & Hd & _). unfold disjoint_ranges in Hd. lia. }
  assert (load w1 (elem t i) = Ok (leaf (p ++ [i]))) as E1.
  { rewrite elem_table in * by done. rewrite <- E. apply load64_same. intros x Hx.
    apply (proj2 (proj2 (Hold t 4096 (proj1 Ht)))). unfold in_range in *. lia. }
  rewrite E1. bind_simpl. set (e1 := pte_set_address (leaf (p ++ [i])) (fromhh hh t')).
  assert (0 <= e1 < W64) as He1 by (by apply set_address_range).
  destruct (entry_store w1 h1 t i e1 Hinv1 Ht1 Hi He1) as (-> & [Hinv2 Hrun2] & Hl2 & Ho2). bind_simpl.
  set (m1 := write64 (wmem w1) (t + 8 * i) e1) in *.
  rewrite elem_table by done. rewrite (load_Ok _ _ _ _ Hl2). bind_simpl.
  set (f := Z.lor (Z.lor present write) user_super).
  pose proof (entry_range (leaf (p ++ [i])) (fromhh hh t') f Her Hfr) as He2. fold e1 in He2.
  destruct (entry_store (with_mem w1 m1) h1 t i (pte_set_flags e1 f true) Hinv2 Ht1 Hi) as (Es & [Hinv3 Hrun3] & Hl3 & Ho3).
  { apply He2. by vm_compute. }
  rewrite elem_table in Es by done. rewrite Es. bind_simpl. rewrite wmem_with_mem in *.
  rewrite with_mem_with_mem in *. set (m2 := write64 m1 (t + 8 * i) (pte_set_flags e1 f true)) in *.
  exists t', (with_mem w1 m2), h1. split_and!; [done| |].
  2:{ apply (spent_trans 2 0 w w1); [done|]. by apply (spent_trans 0 0 w1 (with_mem w1 m1)). }
  apply (view_alloc w h top N leaf p t i w1 h1 t' (pte_set_flags e1 f true)); rewrite ?wmem_with_mem; try done.
  - apply He2. by vm_compute.
  - by apply entry_present.
  - unfold e1. rewrite entry_address by done. replace (Z.land f pa_mask) with 0 by done.
    by rewrite Z.lor_0_r.
  - intros t'' j Ht'' Hj Hne. rewrite Ho3, Ho2 by done. done.
Qed.
End Walk.

(** No large page stands in the way of the first [k] levels. *)
Definition path_clear (leaf : list Z -> Z) (q : list Z) (k : nat) : Prop :=
  forall j, (0 < j < k)%nat -> pte_get_flag (leaf (take j q)) present = false.

Record std_sizes (pm : pagemap) : Prop := {
  ss_ll : llpage_size pm = GiB1; ss_l : lpage_size pm = MiB2; ss_b : base_page_size pm = KiB4 }.

Definition page_size_ok (psize : Z) : Prop := psize = KiB4 \/ psize = MiB2 \/ psize = GiB1.

(** Two pages for each new table. *)
Definition tables_cost (w : W) (N : gmap (list Z) Z) (w' : W) (N' : gmap (list Z) Z) : Prop :=
  spent (2 * Z.of_nat (size N') - 2 * Z.of_nat (size N)) w w'.

Lemma tables_cost_refl w N : tables_cost w N w N.
Proof. unfold tables_cost. rewrite Z.sub_diag. apply spent_refl. Qed.

Lemma tables_cost_trans w N w1 N1 w2 N2 : tables_cost w N w1 N1 -> tables_cost w1 N1 w2 N2 -> tables_cost w N w2 N2.
Proof.
  intros H1 H2. pose proof (spent_trans _ _ _ _ _ H1 H2) as H12.
  unfold tables_cost. by replace (2 * Z.of_nat (size N2) - _) with
    (2 * Z.of_nat (size N1) - 2 * Z.of_nat (size N) + (2 * Z.of_nat (size N2) - 2 * Z.of_nat (size N1))) by lia.
Qed.

Lemma tables_cost_after w N w1 w2 N' : tables_cost w N w1 N' -> spent 0 w1 w2 -> tables_cost w N w2 N'.
Proof.
  intros H1 H2. pose proof (spent_trans _ _ _ _ _ H1 H2) as H12. unfold tables_cost. by rewrite Z.add_0_r in H12.
Qed.

(** One level of a walk that may allocate. *)
Lemma next_make w h top N leaf p t i : pt_view w h top N leaf -> N !! p = Some t -> (length p <= 2)%nat ->
  0 <= i < 512 -> pte_get_flag (leaf (p ++ [i])) present = false ->
  (exists t' w' h' N', get_next_lvl allocator t i true w = Ok (t', w') /\ pt_view w' h' top N' leaf /\
     N' !! (p ++ [i]) = Some t' /\ 0 < t' /\ N ⊆ N' /\
     (forall q, q <> p ++ [i] -> N' !! q = N !! q) /\ tables_cost w N w' N') \/
  (get_next_lvl allocator t i true w = Panic /\ N !! (p ++ [i]) = None /\ ~ frames_run w 2).
Proof.
  intros Hv Hp Hlen Hi Hl. destruct (N !! (p ++ [i])) as [t'|] eqn:E.
  - left. exists t', w, h, N. rewrite (next_present w h top N leaf Hv p t i t') by done.
    destruct (table_of w h top N leaf Hv (p ++ [i]) t' E) as (? & _). split_and!; try done. apply tables_cost_refl.
  - destruct (next_alloc w h top N leaf Hv p t i) as [(t' & w' & h' & E' & Hv' & Hrun)|[E' Hno]]; [done..|left|by right].
    exists t', w', h', (<[p ++ [i] := t']> N). split_and!; [done|done|by rewrite lookup_insert_eq| |by apply insert_subseteq| |].
    + destruct (table_of w' h' top _ leaf Hv' (p ++ [i]) t') as (? & _); [by rewrite lookup_insert_eq|done].
    + intros q Hq. by rewrite lookup_insert_ne.
    + unfold tables_cost. rewrite map_size_insert_None by done.
      by replace (2 * _ - 2 * _) with 2 by lia.
Qed.

Lemma depth_sizes psize : page_size_ok psize ->
  (psize = GiB1 /\ depth psize = 2%nat) \/ (psize = MiB2 /\ depth psize = 3%nat) \/
  (psize = KiB4 /\ depth psize = 4%nat).
Proof. intros [->|[->| ->]]; [right; right|right; left|left]; done. Qed.

(** The last index of the path to an entry. *)
Definition last_index_of (va psize : Z) : Z :=
  if psize =? GiB1 then index_at va 30 else if psize =? MiB2 then index_at va 21 else index_at va 12.

Lemma path_last va psize : page_size_ok psize ->
  take (depth psize) (path_of va) = take (depth psize - 1) (path_of va) ++ [last_index_of va psize].
Proof. by intros [->|[->| ->]]. Qed.

Lemma last_index_range va psize : 0 <= va -> 0 <= last_index_of va psize < 512.
Proof. intros Hva. unfold last_index_of. repeat case_match; apply index_range; lia. Qed.

(** The tables a walk of this depth may have made lie on its path. *)
Definition walk_keeps (va psize : Z) (N N' : gmap (list Z) Z) : Prop :=
  forall q, (forall j, (0 < j < depth psize)%nat -> q <> take j (path_of va)) -> N' !! q = N !! q.

Lemma walk_keeps_refl va psize N : walk_keeps va psize N N.
Proof. by intros q _. Qed.

(** The walk is short of the two pages of its next table, after it made those of [N1]. *)
Definition short_of_tables (va psize : Z) (w : W) (N : gmap (list Z) Z) : Prop :=
  exists N1 j, N ⊆ N1 /\ walk_keeps va psize N N1 /\ (0 < j < depth psize)%nat /\ N1 !! take j (path_of va) = None /\
    ~ frames_run w (2 * Z.of_nat (size N1) - 2 * Z.of_nat (size N) + 2).

Lemma walk_keeps_deep va psize N N' : walk_keeps va psize N N' -> forall q, (depth psize <= length q)%nat -> N' !! q = N !! q.
Proof.
  intros Hk q Hq. apply Hk. intros j Hj E. apply (f_equal length) in E. rewrite length_take in E. lia.
Qed.

(** Then a table was missing, and the page manager has no run that holds all the walk may need. *)
Lemma short_missing va psize w N : short_of_tables va psize w N ->
  (exists j, (0 < j < depth psize)%nat /\ N !! take j (path_of va) = None) /\
  ~ frames_run w (2 * (Z.of_nat (depth psize) - 1)).
Proof.
  intros (N1 & j & Hsub & Hk & Hj & Hn & Hno). split.
  { exists j. split; [done|]. by apply (lookup_weaken_None _ N1). }
  intros Hrun. apply Hno, (frames_run_le _ _ _ Hrun).
  set (X := list_to_set ((fun j => take j (path_of va)) <$> seq 1 (depth psize - 1)) : gset (list Z)).
  assert (forall j, (0 < j < depth psize)%nat -> take j (path_of va) ∈ X) as HX.
  { intros j' Hj'. apply elem_of_list_to_set, list_elem_of_fmap. exists j'. split; [done|]. apply elem_of_seq. lia. }
  assert (size X <= depth psize - 1)%nat.
  { etrans; [apply size_list_to_set_le|]. by rewrite length_fmap, length_seq. }
  assert (size N1 + 1 <= size (dom N ∪ X))%nat as Hle.
  { apply (size_missing N1 _ (take j (path_of va))); [|by apply elem_of_union_r, HX|done].
    intros q [t Hq]. apply elem_of_union. destruct (decide (q ∈ X)) as [|HqX]; [by right|left].
    apply elem_of_dom. exists t. rewrite <- Hk; [done|]. intros j' Hj' ->. by apply HqX, HX. }
  rewrite size_union_alt, size_dom in Hle.
  pose proof (subseteq_size (X ∖ dom N) X ltac:(set_solver)). lia.
Qed.

Section WalkAll.
Context (pm : pagemap) (Hss : std_sizes pm) (va psize : Z) (Hva : 0 <= va) (Hps : page_size_ok psize).
Local Abbreviation i4 := (index_at va 39).
Local Abbreviation i3 := (index_at va 30).
Local Abbreviation i2 := (index_at va 21).
Local Abbreviation i1 := (index_at va 12).

(** A walk that may allocate finds the table of the entry, or the heap is out of
    memory and a table was missing. *)
Lemma walk_make w h N leaf : pt_view w h (top_level pm) N leaf -> path_clear leaf (path_of va) (depth psize) ->
  (exists t w' h' N', virtual_to_pt_entry allocator pm va true psize w = Ok (elem t (last_index_of va psize), w') /\
     pt_view w' h' (top_level pm) N' leaf /\ N' !! take (depth psize - 1) (path_of va) = Some t /\ N ⊆ N' /\
     walk_keeps va psize N N' /\ tables_cost w N w' N') \/
  (virtual_to_pt_entry allocator pm va true psize w = Panic /\ short_of_tables va psize w N).
Proof.
  intros Hv Hc. pose proof (index_range va 39 Hva ltac:(lia)). pose proof (index_range va 30 Hva ltac:(lia)).
  pose proof (index_range va 21 Hva ltac:(lia)). destruct Hss as [Ell El Eb].
  unfold virtual_to_pt_entry, last_index_of. rewrite Ell, El.
  assert (1 < depth psize)%nat as Hd1 by (destruct (depth_sizes psize Hps) as [[_ ->]|[[_ ->]|[_ ->]]]; lia).
  destruct (table_of w h _ N leaf Hv [] (top_level pm) (pv_root _ _ _ _ _ Hv)) as (Htop & _).
  rewrite (proj2 (Z.eqb_neq _ 0)) by lia.
  destruct (next_make w h _ N leaf [] (top_level pm) i4 Hv) as [(t3 & w3 & h3 & N3 & E3 & Hv3 & Hn3 & Hp3 & Hs3 & Hk3 & Hc3)|(E3 & Hm & Hno)];
    [apply (pv_root _ _ _ _ _ Hv)|simpl; lia|done|apply (Hc 1%nat); lia| |].
  2:{ right. rewrite E3. split; [done|]. exists N, 1%nat. rewrite Z.sub_diag. split_and!; try done; lia. }
  rewrite E3. bind_simpl. rewrite (proj2 (Z.eqb_neq t3 0)) by lia.
  destruct (Z.eqb_spec psize GiB1) as [->|Hg].
  { left. exists t3, w3, h3, N3. split_and!; [done|done|done|done| |done]. intros q Hq. change (depth GiB1) with 2%nat in Hq. apply Hk3. apply (Hq 1%nat). lia. }
  assert (walk_keeps va psize N N3) as Hwk3.
  { intros q Hq. apply Hk3. apply (Hq 1%nat). lia. }
  assert (2 < depth psize)%nat as Hd2 by (destruct (depth_sizes psize Hps) as [[? _]|[[_ ->]|[_ ->]]]; [done|lia..]).
  destruct (next_make w3 h3 _ N3 leaf [i4] t3 i3 Hv3 Hn3) as [(t2 & w2 & h2 & N2 & E2 & Hv2 & Hn2 & Hp2 & Hs2 & Hk2 & Hc2)|(E2 & Hm & Hno)];
    [simpl; lia|done|apply (Hc 2%nat); lia| |].
  2:{ right. rewrite E2. split; [done|]. exists N3, 2%nat. split_and!; [done|done|lia|lia|done|by apply (spent_short _ _ w w3)]. }
  rewrite E2. bind_simpl. rewrite (proj2 (Z.eqb_neq t2 0)) by lia.
  destruct (Z.eqb_spec psize MiB2) as [->|Hm2].
  { left. exists t2, w2, h2, N2. split_and!; [done|done|done|by trans N3| |by apply (tables_cost_trans w N w3 N3)]. intros q Hq.
    change (depth MiB2) with 3%nat in Hq. rewrite Hk2, Hk3; [done|apply (Hq 1%nat); lia|apply (Hq 2%nat); lia]. }
  assert (walk_keeps va psize N N2) as Hwk2.
  { intros q Hq. rewrite Hk2, Hk3; [done|apply (Hq 1%nat); lia|apply (Hq 2%nat); lia]. }
  pose proof (tables_cost_trans _ _ _ _ _ _ Hc3 Hc2) as Hc32.
  assert (depth psize = 4%nat) as Hd by (destruct (depth_sizes psize Hps) as [[? _]|[[? _]|[_ ->]]]; done).
  rewrite Hd in *.
  destruct (next_make w2 h2 _ N2 leaf [i4; i3] t2 i2 Hv2 Hn2) as [(t1 & w1 & h1 & N1 & E1 & Hv1 & Hn1 & Hp1 & Hs1 & Hk1 & Hc1)|(E1 & Hm & Hno)];
    [simpl; lia|done|apply (Hc 3%nat); lia| |].
  2:{ right. rewrite E1. split; [done|]. exists N2, 3%nat. rewrite Hd.
      split_and!; [by trans N3|done|lia|lia|done|by apply (spent_short _ _ w w2)]. }
  left. rewrite E1. bind_simpl. rewrite (proj2 (Z.eqb_neq t1 0)) by lia.
  exists t1, w1, h1, N1. split_and!; [done|done|done|trans N2; [by trans N3|done]| |by apply (tables_cost_trans w N w2 N2)]. intros q Hq. rewrite Hd in Hq.
  rewrite Hk1, Hk2, Hk3; [done|apply (Hq 1%nat); lia|apply (Hq 2%nat); lia|apply (Hq 3%nat); lia].
Qed.

(** A walk that does not allocate changes nothing. *)
Lemma walk_find w h N leaf : pt_view w h (top_level pm) N leaf -> path_clear leaf (path_of va) (depth psize) ->
  virtual_to_pt_entry allocator pm va false psize w =
  Ok (match N !! take (depth psize - 1) (path_of va) with
      | Some t => elem t (last_index_of va psize)
      | None => 0
      end, w).
Proof.
  intros Hv Hc. pose proof (index_range va 39 Hva ltac:(lia)). pose proof (index_range va 30 Hva ltac:(lia)).
  pose proof (index_range va 21 Hva ltac:(lia)). destruct Hss as [Ell El Eb].
  unfold virtual_to_pt_entry, last_index_of. rewrite Ell, El.
  assert (1 < depth psize)%nat as Hd1 by (destruct (depth_sizes psize Hps) as [[_ ->]|[[_ ->]|[_ ->]]]; lia).
  pose proof (pv_root _ _ _ _ _ Hv) as Hr.
  assert (forall p t, N !! p = Some t -> (t =? 0) = false) as Hpos.
  { intros p t Hp. destruct (table_of w h _ N leaf Hv p t Hp) as (? & _). apply Z.eqb_neq. lia. }
  assert (forall p i, N !! p = None -> N !! (p ++ [i]) = None) as Habs by (intros p i; apply (pv_absent _ _ _ _ _ Hv)).
  rewrite (Hpos [] _ Hr).
  destruct (N !! [i4]) as [t3|] eqn:E3.
  2:{ rewrite (next_absent w h _ N leaf Hv [] _ i4 Hr) by (done || apply (Hc 1%nat); lia). bind_simpl.
      rewrite Z.eqb_refl. pose proof (Habs _ i3 E3) as E2. pose proof (Habs _ i2 E2) as E1. simpl in E2, E1.
      destruct (depth_sizes psize Hps) as [[_ ->]|[[_ ->]|[_ ->]]]; simpl take; by rewrite ?E3, ?E2, ?E1. }
  rewrite (next_present w h _ N leaf Hv [] _ i4 t3 false Hr) by done. bind_simpl. rewrite (Hpos _ _ E3).
  destruct (Z.eqb_spec psize GiB1) as [->|Hg]; [simpl take; by rewrite E3|].
  assert (2 < depth psize)%nat as Hd2 by (destruct (depth_sizes psize Hps) as [[? _]|[[_ ->]|[_ ->]]]; [done|lia..]).
  destruct (N !! [i4; i3]) as [t2|] eqn:E2.
  2:{ rewrite (next_absent w h _ N leaf Hv [i4] _ i3 E3) by (done || apply (Hc 2%nat); lia). bind_simpl.
      rewrite Z.eqb_refl. pose proof (Habs _ i2 E2) as E1. simpl in E1.
      destruct (depth_sizes psize Hps) as [[? _]|[[_ ->]|[_ ->]]]; [done|..]; simpl take; by rewrite ?E2, ?E1. }
  rewrite (next_present w h _ N leaf Hv [i4] _ i3 t2 false E3) by done. bind_simpl. rewrite (Hpos _ _ E2).
  destruct (Z.eqb_spec psize MiB2) as [->|Hm2]; [simpl take; by rewrite E2|].
  assert (depth psize = 4%nat) as Hd by (destruct (depth_sizes psize Hps) as [[? _]|[[? _]|[_ ->]]]; done).
  rewrite Hd in *. destruct (N !! [i4; i3; i2]) as [t1|] eqn:E1.
  - rewrite (next_present w h _ N leaf Hv [i4; i3] _ i2 t1 false E2) by done. bind_simpl.
    rewrite (Hpos _ _ E1). simpl take. by rewrite E1.
  - rewrite (next_absent w h _ N leaf Hv [i4; i3] _ i2 E2) by (done || apply (Hc 3%nat); lia). bind_simpl.
    rewrite Z.eqb_refl. simpl take. by rewrite E1.
Qed.
End WalkAll.
End Tables.
