(* ===== verification/PagingTheorems.v ===== *)
(** * The operations of a page map as updates of a function

    What [map], [unmap], [set_flags] and [virtual_to_physical] do to the function
    from paths to entries, for one page and for a run of 2 MiB pages. *)

From S2P Require Import Prelude Memory LibcString Frames Math Physical Heap HeapInv HeapProofs HeapTheorems Paging.
From S2P Require Import PagingProofs.

(** The path of the entry for [va] at a page size, and the function with the entry
    for one page replaced. *)
Definition entry_path (psize va : Z) : list Z := take (depth psize) (path_of va).
Definition set_entry (leaf : list Z -> Z) (p : list Z) (e : Z) : list Z -> Z :=
  fun q => if decide (q = p) then e else leaf q.

(** The entry [map] writes over [e]. *)
Definition mapped_entry (e pa flags : Z) (cache : caching) (larger : bool) : Z :=
  pte_set_flags (pte_set_address e pa) (Z.lor (flags_to_arch flags) (cache_to_flags cache larger)) true.

(** What the entries say [va] translates to. *)
Definition translate (leaf : list Z -> Z) (psize va : Z) : Z :=
  let e := leaf (entry_path psize va) in
  if pte_get_flag e present then u64 (pte_address e + va mod psize) else invalid_addr.

Lemma set_entry_twice leaf p v v' q : set_entry (set_entry leaf p v) p v' q = set_entry leaf p v' q.
Proof. unfold set_entry. by case_decide. Qed.

Lemma path_length va : length (path_of va) = 4%nat.
Proof. done. Qed.

Lemma entry_path_length psize va : length (entry_path psize va) = depth psize.
Proof. unfold entry_path, depth, path_of. by repeat case_match. Qed.

Lemma depth_bounds psize : (2 <= depth psize <= 4)%nat.
Proof. unfold depth. repeat case_match; lia. Qed.

(** Writing an entry of the depth [d] leaves the walks of at most that depth clear. *)
Lemma path_clear_set leaf p e q k : (k <= length p)%nat ->
  path_clear leaf q k -> path_clear (set_entry leaf p e) q k.
Proof.
  intros Hk Hc j Hj. unfold set_entry. rewrite decide_False; [by apply Hc|].
  intros E. apply (f_equal length) in E. rewrite length_take in E. lia.
Qed.

Lemma path_clear_le leaf q k k' : (k' <= k)%nat -> path_clear leaf q k -> path_clear leaf q k'.
Proof. intros Hk Hc j Hj. apply Hc. lia. Qed.

(** The entries of a size are one for each page of the size. *)
Lemma entry_path_page psize va va' : page_size_ok psize -> 0 <= va -> 0 <= va' ->
  (entry_path psize va = entry_path psize va' <->
   (va / psize) mod (281474976710656 / psize) = (va' / psize) mod (281474976710656 / psize)).
Proof.
  intros Hps Hv Hv'. destruct Hps as [->|Hps].
  { unfold entry_path. change (depth KiB4) with 4%nat. by apply path_of_page. }
  unfold entry_path, path_of.
  destruct Hps as [-> | ->]; [change (depth MiB2) with 3%nat|change (depth GiB1) with 2%nat]; simpl take.
  - assert (forall p, p mod 134217728 = p mod 512 + 512 * ((p / 512) mod 512) + 262144 * ((p / 262144) mod 512)) as D.
    { intros z. Z.to_euclidean_division_equations. lia. }
    assert (forall v s, 0 <= v -> 0 <= s -> v / 2 ^ (21 + s) = v / 2 ^ 21 / 2 ^ s) as E2.
    { intros v s H1 H2. by rewrite Z.pow_add_r, <- Z.div_div by lia. }
    rewrite !index_at_div by lia. change 39 with (21 + 18). change 30 with (21 + 9). rewrite !E2 by lia.
    change (2 ^ 21) with MiB2. change (281474976710656 / MiB2) with 134217728.
    change (2 ^ 18) with 262144. change (2 ^ 9) with 512.
    set (p := va / MiB2). set (q := va' / MiB2). clearbody p q. rewrite (D p), (D q).
    pose proof (Z.mod_pos_bound p 512). pose proof (Z.mod_pos_bound q 512).
    pose proof (Z.mod_pos_bound (p / 512) 512). pose proof (Z.mod_pos_bound (q / 512) 512).
    pose proof (Z.mod_pos_bound (p / 262144) 512). pose proof (Z.mod_pos_bound (q / 262144) 512).
    split; [intros [= -> -> ->]; done|]. intros Heq.
    assert ((p / 262144) mod 512 = (q / 262144) mod 512 /\ (p / 512) mod 512 = (q / 512) mod 512 /\
            p mod 512 = q mod 512) as (-> & -> & ->) by lia. done.
  - assert (forall p, p mod 262144 = p mod 512 + 512 * ((p / 512) mod 512)) as D.
    { intros z. Z.to_euclidean_division_equations. lia. }
    assert (forall v s, 0 <= v -> 0 <= s -> v / 2 ^ (30 + s) = v / 2 ^ 30 / 2 ^ s) as E2.
    { intros v s H1 H2. by rewrite Z.pow_add_r, <- Z.div_div by lia. }
    rewrite !index_at_div by lia. change 39 with (30 + 9). rewrite !E2 by lia.
    change (2 ^ 30) with GiB1. change (281474976710656 / GiB1) with 262144. change (2 ^ 9) with 512.
    set (p := va / GiB1). set (q := va' / GiB1). clearbody p q. rewrite (D p), (D q).
    pose proof (Z.mod_pos_bound p 512). pose proof (Z.mod_pos_bound q 512).
    pose proof (Z.mod_pos_bound (p / 512) 512). pose proof (Z.mod_pos_bound (q / 512) 512).
    split; [intros [= -> ->]; done|]. intros Heq.
    assert ((p / 512) mod 512 = (q / 512) mod 512 /\ p mod 512 = q mod 512) as (-> & ->) by lia. done.
Qed.

(** What a fresh entry translates to.  A large page's address field also holds the
    PAT bit of the caching mode, which [get_address] does not mask. *)
Definition pat_field (cache : caching) (psize : Z) : Z :=
  if psize =? KiB4 then 0 else Z.land (cache_to_flags cache true) patlg.

Definition frame_ok (psize pa : Z) : Prop := pa mod psize = 0 /\ 0 <= pa /\ pa + psize <= 4503599627370496.

Lemma pat_field_range cache psize : 0 <= pat_field cache psize <= 4096.
Proof. unfold pat_field. case_match; [lia|]. by destruct cache; vm_compute. Qed.

Lemma lor_disjoint a b k : 0 <= k -> a mod 2 ^ k = 0 -> 0 <= b < 2 ^ k -> Z.lor a b = a + b.
Proof.
  intros Hk Ha Hb. rewrite <- Z.add_lor_land.
  assert (Z.land a b = 0) as ->; [|lia]. apply Z.bits_inj'. intros n Hn. rewrite Z.land_spec, Z.bits_0.
  destruct (Z.ltb_spec n k).
  - rewrite <- (Z.mod_pow2_bits_low a k) by lia. by rewrite Ha, Z.bits_0.
  - rewrite (range_bits b k) by lia. by rewrite andb_false_r.
Qed.

Lemma page_multiple psize pa k : page_size_ok psize -> pa mod psize = 0 ->
  (k = 4096 \/ (k = 8192 /\ psize <> KiB4)) -> pa mod k = 0.
Proof.
  intros Hps Hm Hk. pose proof (Z.div_mod pa psize). apply Z.mod_divide; [lia|]. apply Z.mod_divide in Hm.
  - etrans; [|exact Hm]. destruct Hps as [->|[->| ->]], Hk as [->|[-> ?]]; try done;
      first [by exists 512|by exists 256|by exists 262144|by exists 131072].
  - by destruct Hps as [->|[->| ->]].
Qed.

Lemma translate_mapped leaf psize va va' e pa flags cache : page_size_ok psize -> frame_ok psize pa ->
  entry_path psize va' = entry_path psize va ->
  translate (set_entry leaf (entry_path psize va) (mapped_entry e pa flags cache (negb (psize =? KiB4)))) psize va' =
  pa + pat_field cache psize + va' mod psize.
Proof.
  intros Hps (Hm & Hp & Hb) Hq. unfold translate. rewrite Hq. unfold set_entry. rewrite decide_True by done.
  unfold mapped_entry. destruct (flags_facts flags cache (negb (psize =? KiB4))) as (H0 & _ & Hf).
  assert (4096 <= psize <= GiB1) as Hr by (destruct Hps as [->|[->| ->]]; unfold KiB4, MiB2, GiB1; lia).
  rewrite entry_present by done. rewrite entry_address by (apply frame_mask; [apply (page_multiple psize); auto|lia]).
  rewrite Hf. assert ((if negb (psize =? KiB4) then Z.land (cache_to_flags cache true) patlg else 0) = pat_field cache psize) as ->.
  { unfold pat_field. by destruct (psize =? KiB4). }
  pose proof (pat_field_range cache psize). unfold GiB1 in Hr.
  assert (Z.lor pa (pat_field cache psize) = pa + pat_field cache psize) as ->.
  { destruct (Z.eqb_spec psize KiB4) as [Ek|Hne]; [unfold pat_field; rewrite (proj2 (Z.eqb_eq _ _) Ek), Z.lor_0_r; lia|].
    apply (lor_disjoint _ _ 13); [lia| |lia]. apply (page_multiple psize); auto. }
  pose proof (Z.mod_pos_bound va' psize). apply u64_small. lia.
Qed.

Lemma translate_other leaf psize p e va : entry_path psize va <> p ->
  translate (set_entry leaf p e) psize va = translate leaf psize va.
Proof. intros Hne. unfold translate, set_entry. by rewrite decide_False. Qed.

(** *** The flags of an entry *)

Lemma has_bit x n : 0 <= n -> has x (2 ^ n) = Z.testbit x n.
Proof.
  intros Hn. unfold has. destruct (Z.testbit x n) eqn:E.
  - apply negb_true_iff, Z.eqb_neq. intros Hz. assert (Z.testbit (Z.land x (2 ^ n)) n = false) as Hb by (by rewrite Hz, Z.bits_0).
    by rewrite Z.land_spec, E, Z.pow2_bits_true in Hb by done.
  - apply negb_false_iff, Z.eqb_eq. apply Z.bits_inj'. intros k Hk. rewrite Z.land_spec, Z.bits_0, Z.pow2_bits_eqb by done.
    destruct (Z.eqb_spec n k) as [->|]; [by rewrite E|by rewrite andb_false_r].
Qed.

Lemma entry_bit e pa flags n : pa mod 4096 = 0 -> 0 <= pa < 4503599627370496 -> 0 <= n < 12 \/ 52 <= n < 64 ->
  Z.testbit (pte_set_flags (pte_set_address e pa) flags true) n = Z.testbit e n || Z.testbit flags n.
Proof.
  intros Hm Hp Hn. unfold pte_set_flags, pte_set_address.
  rewrite Z.lor_spec, clear_bits, Z.lor_spec, clear_bits, pa_mask_bits by lia.
  assert (Z.testbit pa n = false) as ->.
  { rewrite <- (frame_mask pa), Z.land_spec, pa_mask_bits by (done || lia).
    destruct (Z.leb_spec 12 n), (Z.ltb_spec n 52); try lia; by rewrite andb_false_r. }
  assert ((n <? 64) = true) as -> by (apply Z.ltb_lt; lia).
  assert ((12 <=? n) && (n <? 52) = false) as ->.
  { destruct (Z.leb_spec 12 n), (Z.ltb_spec n 52); try lia; done. }
  by destruct (Z.testbit e n), (Z.testbit flags n).
Qed.

(** The rights and the caching bits the flags of the interface ask for. *)
Definition wanted (flags : Z) (cache : caching) (n : Z) : bool :=
  if n =? 1 then has flags WRITE
  else if n =? 2 then has flags USER
  else if n =? 63 then negb (has flags EXEC)
  else if n =? 8 then has flags GLOBAL
  else if n =? 7 then bool_decide (cache = WRITE_THROUGH \/ cache = WRITE_PROTECTED \/ cache = WRITE_BACK)
  else if n =? 4 then bool_decide (cache = WRITE_BACK)
  else if n =? 3 then bool_decide (cache = WRITE_PROTECTED \/ cache = WRITE_COMBINING)
  else (n =? 0).

Lemma wanted_bits flags cache n : has flags LPAGE = false -> has flags LLPAGE = false -> 0 <= n < 12 \/ 52 <= n < 64 ->
  Z.testbit (Z.lor (flags_to_arch flags) (cache_to_flags cache false)) n = wanted flags cache n.
Proof.
  intros El Ell Hn. unfold flags_to_arch, is_lpage, wanted. rewrite El, Ell.
  assert (n = 0 \/ n = 1 \/ n = 2 \/ n = 3 \/ n = 4 \/ n = 7 \/ n = 8 \/ n = 63 \/
          n = 5 \/ n = 6 \/ n = 9 \/ n = 10 \/ n = 11 \/ n = 52 \/ n = 53 \/ n = 54 \/ n = 55 \/ n = 56 \/ n = 57 \/
          n = 58 \/ n = 59 \/ n = 60 \/ n = 61 \/ n = 62) as Hc by lia.
  destruct (has flags WRITE), (has flags USER), (has flags EXEC), (has flags GLOBAL), cache;
    (repeat destruct Hc as [->|Hc]); try subst n; reflexivity.
Qed.

Lemma pte_address_mask e : Z.land (pte_address e) pa_mask = pte_address e.
Proof. unfold pte_address. by rewrite <- Z.land_assoc, Z.land_diag. Qed.

Lemma pte_address_frame e : pte_address e mod 4096 = 0 /\ 0 <= pte_address e < 4503599627370496.
Proof.
  assert (0 <= pte_address e) as Hp by (apply Z.land_nonneg; right; by vm_compute). split.
  - change 4096 with (2 ^ 12). rewrite <- Z.land_ones by lia. apply Z.bits_inj'. intros n Hn. unfold pte_address.
    rewrite !Z.land_spec, pa_mask_bits, Z.bits_0, Z.testbit_ones by lia.
    destruct (Z.leb_spec 12 n), (Z.ltb_spec n 12), (Z.leb_spec 0 n); try lia; by rewrite ?andb_false_r.
  - split; [done|]. apply (bits_bound _ 52); [lia|done|]. intros n Hn. unfold pte_address.
    rewrite Z.land_spec, pa_mask_bits by lia. rewrite (proj2 (Z.ltb_ge n 52)) by lia. by rewrite !andb_false_r.
Qed.

Lemma mapped_address e pa flags cache : Z.land pa pa_mask = pa -> pte_address (mapped_entry e pa flags cache false) = pa.
Proof.
  intros Hp. unfold mapped_entry. rewrite entry_address by done.
  destruct (flags_facts flags cache false) as (_ & _ & ->). apply Z.lor_0_r.
Qed.

Lemma mapped_bit e pa flags cache n : has flags LPAGE = false -> has flags LLPAGE = false ->
  pa mod 4096 = 0 /\ 0 <= pa < 4503599627370496 -> 0 <= n < 12 \/ 52 <= n < 64 ->
  Z.testbit (mapped_entry e pa flags cache false) n = Z.testbit e n || wanted flags cache n.
Proof.
  intros El Ell [Hm Hp] Hn. unfold mapped_entry. by rewrite entry_bit, wanted_bits.
Qed.

(** ** Tables that are not there yet *)

Definition missing (X : gset (list Z)) (N : gmap (list Z) Z) : Z := Z.of_nat (size (X ∖ dom N)).

Lemma missing_cost X N N1 : N ⊆ N1 -> (forall q, q ∉ X -> N1 !! q = N !! q) ->
  missing X N1 + Z.of_nat (size N1) = missing X N + Z.of_nat (size N).
Proof.
  intros Hsub Hk. assert (dom N1 ∪ X = dom N ∪ X) as E.
  { apply set_eq. intros q. rewrite !elem_of_union. destruct (decide (q ∈ X)) as [|Hq]; [tauto|].
    by rewrite !elem_of_dom, Hk. }
  apply (f_equal size) in E. rewrite (size_union_alt (dom N1)), (size_union_alt (dom N)), !size_dom in E. unfold missing. lia.
Qed.

Lemma missing_le X N : missing X N <= Z.of_nat (size X).
Proof. apply Nat2Z.inj_le, subseteq_size. set_solver. Qed.

(** The pages of one GiB hang on the same tables. *)
Lemma take_gib va va' j : 0 <= va -> 0 <= va' -> va / GiB1 = va' / GiB1 -> (j <= 2)%nat ->
  take j (path_of va) = take j (path_of va').
Proof.
  intros Hv Hv' E Hj. assert (take 2 (path_of va) = take 2 (path_of va')) as E2.
  { change 2%nat with (depth GiB1). apply (entry_path_page GiB1); [by right; right|done|done|]. by rewrite E. }
  apply (f_equal (take j)) in E2. by rewrite !take_take, Nat.min_l in E2 by lia.
Qed.

(** A run of 512 pages of 2 MiB hangs on at most four tables. *)
Definition run_tables (va : Z) : gset (list Z) :=
  list_to_set [take 1 (path_of va); take 2 (path_of va);
               take 1 (path_of (va + 511 * MiB2)); take 2 (path_of (va + 511 * MiB2))].

Lemma run_tables_missing va N : missing (run_tables va) N <= 4.
Proof. etrans; [apply missing_le|]. apply (Nat2Z.inj_le _ 4). apply size_list_to_set_le. Qed.

Lemma run_tables_spec va k j : 0 <= va -> 0 <= k < 512 -> (0 < j < 3)%nat ->
  take j (path_of (va + k * MiB2)) ∈ run_tables va.
Proof.
  intros Hva Hk Hj. apply elem_of_list_to_set. rewrite !elem_of_cons.
  assert ((va + k * MiB2) / GiB1 = va / GiB1 \/ (va + k * MiB2) / GiB1 = (va + 511 * MiB2) / GiB1) as Hd.
  { unfold MiB2, GiB1. Z.to_euclidean_division_equations. lia. }
  assert (j = 1%nat \/ j = 2%nat) as Hj' by lia.
  assert (0 <= va + k * MiB2 /\ 0 <= va + 511 * MiB2) as [Hk0 Hk1] by (unfold MiB2; lia).
  destruct Hd as [E|E]; [rewrite (take_gib _ va j Hk0 Hva E) by lia|rewrite (take_gib _ _ j Hk0 Hk1 E) by lia];
    destruct Hj' as [-> | ->]; tauto.
Qed.

(** ** One entry *)

Section Ops.
Context {W : Type} `{FrameLaws W} (allocator : Z) (gib1_pages : bool).
Context (pm : pagemap) (Hss : std_sizes pm).
Local Abbreviation hh := hhdm_offset.
Local Abbreviation pt_view := (pt_view allocator).

Lemma page_size_flags flags : page_size_ok (get_page_size pm flags).
Proof.
  destruct Hss as [Ell El Eb]. unfold get_page_size, page_size_ok. rewrite Ell, El, Eb.
  repeat case_match; auto.
Qed.

Lemma small_page flags : has flags LPAGE = false -> has flags LLPAGE = false -> get_page_size pm flags = KiB4.
Proof. intros El Ell. unfold get_page_size. rewrite El, Ell. apply Hss. Qed.

(** No entry of full depth points to a table. *)
Lemma no_table_below w h N leaf p : pt_view w h (top_level pm) N leaf -> length p = 4%nat -> N !! p = None.
Proof.
  intros Hv Hl. destruct (N !! p) eqn:E; [|done]. apply (pv_table _ _ _ _ _ _ Hv) in E as [? _]. lia.
Qed.

(** The function of entries counts up to pointwise equality. *)
Lemma view_ext w h N leaf leaf' : (forall q, leaf q = leaf' q) ->
  pt_view w h (top_level pm) N leaf -> pt_view w h (top_level pm) N leaf'.
Proof.
  intros E [A1 A2 A3 A4 A5 A6]. constructor; try done; intros *; rewrite <- E; [apply A5|apply A6].
Qed.

(** A store to an entry allocates nothing. *)
Lemma entry_run w h N leaf p t i v : pt_view w h (top_level pm) N leaf -> N !! p = Some t -> 0 <= i < 512 ->
  0 <= v < W64 -> spent 0 w (with_mem w (write64 (wmem w) (t + 8 * i) v)).
Proof.
  intros Hv Hp Hi Hr. destruct (pv_table _ _ _ _ _ _ Hv p t Hp) as [_ Ht].
  by destruct (entry_store allocator w h t i v (pv_heap _ _ _ _ _ _ Hv) Ht Hi Hr) as (_ & [_ ?] & _).
Qed.

(** Two stores to the same entry, as [map] and [set_flags] do. *)
Lemma entry_twice w h N leaf p t i v v' :
  pt_view w h (top_level pm) N leaf -> N !! p = Some t -> 0 <= i < 512 -> N !! (p ++ [i]) = None ->
  0 <= v < W64 -> 0 <= v' < W64 ->
  exists w1 w2, store w (elem t i) v = Ok w1 /\ load w1 (elem t i) = Ok v /\ store w1 (elem t i) v' = Ok w2 /\
    pt_view w1 h (top_level pm) N (set_entry leaf (p ++ [i]) v) /\
    pt_view w2 h (top_level pm) N (set_entry leaf (p ++ [i]) v') /\ spent 0 w w1 /\ spent 0 w w2.
Proof.
  intros Hv Hp Hi Hn Hr Hr'.
  destruct (view_write allocator w h _ N leaf p t i v Hv Hp Hi Hn Hr) as [E1 Hv1].
  set (w1 := with_mem w (write64 (wmem w) (t + 8 * i) v)) in *.
  destruct (view_write allocator w1 h _ N _ p t i v' Hv1 Hp Hi Hn Hr') as [E2 Hv2].
  pose proof (entry_run w h N leaf p t i v Hv Hp Hi Hr) as Hr1.
  pose proof (entry_run w1 h N _ p t i v' Hv1 Hp Hi Hr') as Hr2.
  eexists w1, _. split_and!; [exact E1| |exact E2|exact Hv1| |exact Hr1|exact (spent_trans 0 0 w w1 _ Hr1 Hr2)].
  - destruct (load_entry allocator w1 h _ N _ Hv1 p t i Hp Hi) as (e & E & _ & Hm).
    rewrite Hn in Hm. rewrite E. by rewrite decide_True in Hm by done; rewrite Hm.
  - apply (view_ext _ _ _ _ _ (set_entry_twice leaf (p ++ [i]) v v') Hv2).
Qed.

Section One.
Context (w : W) (h : heap) (N : gmap (list Z) Z) (leaf : list Z -> Z).
Context (Hv : pt_view w h (top_level pm) N leaf).

Lemma translate_spec va flags : 0 <= va ->
  let psize := get_page_size pm flags in
  path_clear leaf (path_of va) (depth psize) -> N !! entry_path psize va = None ->
  virtual_to_physical allocator pm va flags w = Ok (translate leaf psize va, w).
Proof.
  intros Hva psize Hc Hn. assert (page_size_ok psize) as Hps by apply page_size_flags.
  unfold virtual_to_physical. fold psize.
  rewrite (walk_find allocator pm Hss va psize Hva Hps w h N leaf Hv Hc). bind_simpl.
  unfold translate, entry_path in *. rewrite (path_last va psize Hps) in *.
  destruct (N !! take (depth psize - 1) (path_of va)) as [t|] eqn:E.
  - destruct (load_entry allocator w h _ N leaf Hv _ t (last_index_of va psize) E) as (e & El & _ & Hm);
      [by apply last_index_range|]. rewrite Hn in Hm. subst e.
    destruct (table_of allocator w h _ N leaf Hv _ t E) as (? & ? & _).
    pose proof (last_index_range va psize Hva).
    rewrite (proj2 (Z.eqb_neq _ 0)) by (rewrite elem_table; lia). rewrite El. bind_simpl.
    destruct (pte_get_flag _ present); [|done]. simpl.
    rewrite (proj2 (Z.eqb_neq psize 0)); [done|]. by destruct Hps as [->|[->| ->]].
  - destruct (pv_absent _ _ _ _ _ _ Hv _ (last_index_of va psize) E) as [-> _]. by rewrite Z.eqb_refl.
Qed.

(** The walk of [map] and [set_flags], up to the load of the entry. *)
Lemma make_entry va psize : 0 <= va -> page_size_ok psize ->
  path_clear leaf (path_of va) (depth psize) -> N !! entry_path psize va = None ->
  (exists p t i w' h' N', virtual_to_pt_entry allocator pm va true psize w = Ok (elem t i, w') /\
     elem t i <> 0 /\ entry_path psize va = p ++ [i] /\ N' !! p = Some t /\ 0 <= i < 512 /\
     N' !! (p ++ [i]) = None /\ pt_view w' h' (top_level pm) N' leaf /\
     load w' (elem t i) = Ok (leaf (p ++ [i])) /\ 0 <= leaf (p ++ [i]) < W64 /\ N ⊆ N' /\
     walk_keeps va psize N N' /\ tables_cost w N w' N') \/
  (virtual_to_pt_entry allocator pm va true psize w = Panic /\ short_of_tables va psize w N).
Proof.
  intros Hva Hps Hc Hn.
  destruct (walk_make allocator pm Hss va psize Hva Hps w h N leaf Hv Hc) as
    [(t & w1 & h1 & N1 & E & Hv1 & Ht & Hsub & Hk & Hcost)|?]; [left|by right].
  pose proof (last_index_range va psize Hva) as Hi. set (i := last_index_of va psize) in *.
  destruct (table_of allocator w1 h1 _ N1 leaf Hv1 _ t Ht) as (? & ? & _).
  assert (entry_path psize va = take (depth psize - 1) (path_of va) ++ [i]) as Ep by (by apply path_last).
  assert (N1 !! entry_path psize va = None) as Hn1 by (by rewrite (walk_keeps_deep _ _ _ _ Hk) by (by rewrite entry_path_length)).
  destruct (load_entry allocator w1 h1 _ N1 leaf Hv1 _ t i Ht Hi) as (e & El & Her & Hm).
  rewrite <- Ep, Hn1 in Hm. subst e. rewrite Ep in *.
  exists (take (depth psize - 1) (path_of va)), t, i, w1, h1, N1.
  split_and!; try done; try lia. rewrite elem_table; lia.
Qed.

Lemma map_one_spec va pa flags cache psize : 0 <= va -> 0 <= pa < W64 -> page_size_ok psize ->
  path_clear leaf (path_of va) (depth psize) -> N !! entry_path psize va = None ->
  (exists w' h' N', map_one allocator pm va pa flags cache psize w = Ok (true, w') /\
     pt_view w' h' (top_level pm) N'
       (set_entry leaf (entry_path psize va)
          (mapped_entry (leaf (entry_path psize va)) pa flags cache (negb (psize =? KiB4)))) /\ N ⊆ N' /\
     walk_keeps va psize N N' /\ tables_cost w N w' N') \/
  (map_one allocator pm va pa flags cache psize w = Panic /\ short_of_tables va psize w N).
Proof.
  intros Hva Hpa Hps Hc Hn. unfold map_one.
  destruct (make_entry va psize Hva Hps Hc Hn) as
    [(p & t & i & w1 & h1 & N1 & -> & Hne & -> & Ht & Hi & Hn1 & Hv1 & El & Her & Hsub & Hk & Hcost)|[-> Hj]]; [left|by right].
  bind_simpl. rewrite (proj2 (Z.eqb_neq _ 0)) by done. rewrite El, (ss_b _ Hss). bind_simpl.
  set (e := leaf (p ++ [i])) in *. set (e' := mapped_entry e pa flags cache (negb (psize =? KiB4))).
  destruct (flags_facts flags cache (negb (psize =? KiB4))) as (_ & Hfr & _).
  destruct (entry_twice w1 h1 N1 leaf p t i (pte_set_address e pa) e' Hv1 Ht Hi Hn1)
    as (w2 & w3 & -> & E3 & E4 & _ & Hv3 & _ & Hrun); [by apply set_address_range|by apply entry_range|].
  bind_simpl. rewrite E3. bind_simpl. unfold e', mapped_entry in E4. rewrite E4. exists w3, h1, N1.
  split_and!; try done. by apply (tables_cost_after w N w1).
Qed.

(** [set_flags] keeps the address field and nothing else. *)
Lemma set_flags_spec va flags cache : 0 <= va ->
  let psize := get_page_size pm flags in
  path_clear leaf (path_of va) (depth psize) -> N !! entry_path psize va = None ->
  (exists w' h' N', set_flags allocator pm va flags cache w = Ok (true, w') /\
     pt_view w' h' (top_level pm) N'
       (set_entry leaf (entry_path psize va)
          (mapped_entry 0 (pte_address (leaf (entry_path psize va))) flags cache (negb (psize =? KiB4)))) /\
     N ⊆ N' /\ walk_keeps va psize N N') \/
  (set_flags allocator pm va flags cache w = Panic /\ short_of_tables va psize w N).
Proof.
  intros Hva psize Hc Hn. pose proof (page_size_flags flags) as Hps. fold psize in Hps.
  unfold set_flags. fold psize.
  destruct (make_entry va psize Hva Hps Hc Hn) as
    [(p & t & i & w1 & h1 & N1 & -> & Hne & -> & Ht & Hi & Hn1 & Hv1 & El & Her & Hsub & Hk & _)|[-> Hj]]; [left|by right].
  bind_simpl. rewrite (proj2 (Z.eqb_neq _ 0)) by done. rewrite El, (ss_b _ Hss). bind_simpl.
  set (a := pte_address (leaf (p ++ [i]))) in *. set (e' := mapped_entry 0 a flags cache (negb (psize =? KiB4))).
  destruct (flags_facts flags cache (negb (psize =? KiB4))) as (_ & Hfr & _).
  assert (0 <= a < W64) as Ha by (by apply land_range).
  assert (0 <= pte_set_address 0 a < W64) as Ha0 by (by apply set_address_range).
  assert (0 <= e' < W64) as He' by (by apply entry_range).
  destruct (entry_twice w1 h1 N1 leaf p t i 0 (pte_set_address 0 a) Hv1 Ht Hi Hn1) as (w2 & w3 & -> & _ & E3 & Hv2 & _);
    [lia|done|]. bind_simpl.
  destruct (entry_twice w2 h1 N1 _ p t i (pte_set_address 0 a) e' Hv2 Ht Hi Hn1) as (w3' & w4 & E3' & _ & E4 & _ & Hv4 & _);
    [done|done|]. rewrite E3'. bind_simpl. unfold e', mapped_entry in E4. rewrite E4.
  exists w4, h1, N1. split_and!; [done| |done|done].
  apply (view_ext _ _ _ _ _ (set_entry_twice leaf (p ++ [i]) 0 e') Hv4).
Qed.

(** [unmap] of a small page. *)
Lemma unmap_one_spec va inv : 0 <= va -> path_clear leaf (path_of va) 4 ->
  (exists w', unmap_one allocator pm va (inv, w) = Ok (true, (inv ++ [va], w')) /\
     pt_view w' h (top_level pm) N (set_entry leaf (entry_path KiB4 va) 0)) \/
  (unmap_one allocator pm va (inv, w) = Ok (false, (inv, w)) /\ leaf (entry_path KiB4 va) = 0).
Proof.
  intros Hva Hc. assert (page_size_ok KiB4) as Hps by (by left).
  unfold unmap_one. rewrite (ss_b _ Hss).
  rewrite (walk_find allocator pm Hss va KiB4 Hva Hps w h N leaf Hv Hc). bind_simpl.
  unfold entry_path. rewrite (path_last va KiB4 Hps). set (i := last_index_of va KiB4).
  assert (0 <= i < 512) as Hi by (by apply last_index_range).
  destruct (N !! take (depth KiB4 - 1) (path_of va)) as [t|] eqn:E.
  - left. destruct (table_of allocator w h _ N leaf Hv _ t E) as (? & ? & _).
    rewrite (proj2 (Z.eqb_neq _ 0)) by (rewrite elem_table; lia).
    destruct (view_write allocator w h _ N leaf _ t i 0 Hv E Hi) as [-> Hv'];
      [by apply (no_table_below w h N leaf)|lia|]. bind_simpl. eexists. split; [done|exact Hv'].
  - right. rewrite Z.eqb_refl. split; [done|]. by apply (pv_absent _ _ _ _ _ _ Hv).
Qed.
End One.

(** Below a missing table there are no entries. *)
Lemma missing_zero w h N leaf va j : pt_view w h (top_level pm) N leaf -> (0 < j < 4)%nat ->
  N !! take j (path_of va) = None -> leaf (path_of va) = 0.
Proof.
  intros Hv Hj Hn. pose proof (pv_absent _ _ _ _ _ _ Hv) as Habs. unfold path_of in *.
  assert (N !! take 3 [index_at va 39; index_at va 30; index_at va 21; index_at va 12] = None) as H3.
  { destruct j as [|[|[|[|j]]]]; simpl in Hn; [lia| | |done|lia]; simpl take.
    - apply (Habs [index_at va 39; index_at va 30]), (Habs [index_at va 39]), Hn.
    - apply (Habs [index_at va 39; index_at va 30]), Hn. }
  apply (Habs _ (index_at va 12) H3).
Qed.

(** A walk within [X] that is short of memory lacks what the missing tables take. *)
Lemma short_of_missing va psize X w N : (forall j, (0 < j < depth psize)%nat -> take j (path_of va) ∈ X) ->
  short_of_tables va psize w N -> ~ frames_run w (2 * missing X N).
Proof.
  intros HX (N1 & j & Hsub & Hk & Hj & Hn & Hno) Hr. apply Hno, (frames_run_le _ _ _ Hr).
  assert (missing X N1 + Z.of_nat (size N1) = missing X N + Z.of_nat (size N)) as Em.
  { apply missing_cost; [done|]. intros q Hq. apply Hk. intros j' Hj' ->. by apply Hq, HX. }
  assert (size (X ∖ dom N1) <> 0%nat) as Hne; [|unfold missing in *; lia]. intros E%size_empty_inv.
  assert (take j (path_of va) ∈ X ∖ dom N1); [|set_solver].
  apply elem_of_difference. split; [by apply HX|by apply not_elem_of_dom].
Qed.

(** *** A run of 2 MiB pages *)

(** The entries after [n] rounds of the loop in [map], from the offset [i] on. *)
Fixpoint map_run (leaf : list Z -> Z) (va pa flags : Z) (cache : caching) (n : nat) (i : Z) : list Z -> Z :=
  match n with
  | O => leaf
  | S n' =>
      let p := entry_path MiB2 (va + i) in
      map_run (set_entry leaf p (mapped_entry (leaf p) (pa + i) flags cache true)) va pa flags cache n' (i + MiB2)
  end.

Lemma map_loop_spec va pa flags cache X n : forall i w h N leaf, pt_view w h (top_level pm) N leaf ->
  0 <= va -> 0 <= pa -> 0 <= i -> va + i + Z.of_nat n * MiB2 <= W64 -> pa + i + Z.of_nat n * MiB2 <= W64 ->
  (forall k, 0 <= k < Z.of_nat n -> path_clear leaf (path_of (va + i + k * MiB2)) 3 /\
     N !! entry_path MiB2 (va + i + k * MiB2) = None) ->
  (forall k j, 0 <= k < Z.of_nat n -> (0 < j < 3)%nat -> take j (path_of (va + i + k * MiB2)) ∈ X) ->
  (exists w' h' N', large_loop n i (fun i w => map_one allocator pm (u64 (va + i)) (u64 (pa + i)) flags cache MiB2 w) w
       = Ok (true, w') /\
     pt_view w' h' (top_level pm) N' (map_run leaf va pa flags cache n i) /\
     forall q, (3 <= length q)%nat -> N' !! q = N !! q) \/
  (large_loop n i (fun i w => map_one allocator pm (u64 (va + i)) (u64 (pa + i)) flags cache MiB2 w) w = Panic /\
   (exists k j, 0 <= k < Z.of_nat n /\ (0 < j < 3)%nat /\ N !! take j (path_of (va + i + k * MiB2)) = None) /\
   ~ frames_run w (2 * missing X N)).
Proof.
  induction n as [|n IH]; intros i w h N leaf Hv Hva Hpa Hi Hbv Hbp Hk HX.
  { left. by exists w, h, N. }
  cbn [large_loop map_run]. unfold MiB2 in Hbv, Hbp. rewrite !u64_small by lia.
  destruct (Hk 0) as [Hc Hn]; [lia|]. rewrite Z.add_0_r in Hc, Hn.
  destruct (map_one_spec w h N leaf Hv (va + i) (pa + i) flags cache MiB2) as
    [(w1 & h1 & N1 & -> & Hv1 & Hs1 & Hwk & Hcost)|[-> Hshort]]; [lia|lia|right; by left|done|done| |right].
  2:{ split; [done|]. split.
      - destruct (short_missing _ _ _ _ Hshort) as [(j & Hj & Hnj) _]. exists 0, j. rewrite Z.add_0_r.
        split_and!; [lia|lia|lia| |done]. apply Hj.
      - apply (short_of_missing (va + i) MiB2 X w N); [|done]. intros j Hj. specialize (HX 0 j). rewrite Z.add_0_r in HX.
        apply HX; [lia|done]. }
  assert (forall q, q ∉ X -> N1 !! q = N !! q) as HkX.
  { intros q Hq. apply Hwk. intros j Hj ->. apply Hq. specialize (HX 0 j). rewrite Z.add_0_r in HX. apply HX; [lia|done]. }
  bind_simpl. change (negb (MiB2 =? KiB4)) with true in Hv1. pose proof (walk_keeps_deep _ _ _ _ Hwk) as Hk1.
  change (depth MiB2) with 3%nat in Hk1.
  destruct (IH (i + MiB2) w1 h1 N1 _ Hv1) as [(w2 & h2 & N2 & -> & Hv2 & Hk2)|(-> & (k & j & Hk' & Hj & Hnj) & Hno)]; [lia|lia|unfold MiB2; lia..| | | |].
  - intros k Hk'. destruct (Hk (k + 1)) as [Hc' Hn']; [lia|].
    replace (va + (i + MiB2) + k * MiB2) with (va + i + (k + 1) * MiB2) by (unfold MiB2; lia). split.
    + apply path_clear_set; [by rewrite entry_path_length|done].
    + rewrite Hk1; [done|]. by rewrite entry_path_length.
  - intros k j Hk' Hj. replace (va + (i + MiB2) + k * MiB2) with (va + i + (k + 1) * MiB2) by (unfold MiB2; lia).
    apply HX; [lia|done].
  - left. exists w2, h2, N2. split_and!; [done|done|]. intros q Hq. rewrite Hk2, Hk1; done.
  - right. split_and!; [done| |].
    + exists (k + 1), j. split_and!; [lia|lia|lia|lia|].
      replace (va + i + (k + 1) * MiB2) with (va + (i + MiB2) + k * MiB2) by (unfold MiB2; lia).
      by apply (lookup_weaken_None _ N1).
    + pose proof (missing_cost X N N1 Hs1 HkX) as Em. intros Hr. apply Hno. apply Hcost in Hr.
      by replace (2 * missing X N - _) with (2 * missing X N1) in Hr by lia.
Qed.

Lemma map_run_other va pa flags cache n : forall i leaf q,
  (forall k, 0 <= k < Z.of_nat n -> q <> entry_path MiB2 (va + i + k * MiB2)) ->
  map_run leaf va pa flags cache n i q = leaf q.
Proof.
  induction n as [|n IH]; intros i leaf q Hq; [done|]. cbn [map_run]. rewrite IH.
  - unfold set_entry. rewrite decide_False; [done|]. intros E. apply (Hq 0); [lia|]. by rewrite Z.add_0_r.
  - intros k Hk. replace (va + (i + MiB2) + k * MiB2) with (va + i + (k + 1) * MiB2) by (unfold MiB2; lia).
    apply Hq. lia.
Qed.

(** Two different pages of a run shorter than the address space have different entries. *)
Lemma run_paths va a b : 0 <= va -> 0 <= a -> 0 <= b -> Z.abs (a - b) < 134217728 ->
  entry_path MiB2 (va + a * MiB2) = entry_path MiB2 (va + b * MiB2) -> a = b.
Proof.
  intros Hva Ha Hb Hab E. apply entry_path_page in E; [|right; by left|unfold MiB2; lia..].
  change (281474976710656 / MiB2) with 134217728 in E. rewrite !Z.div_add in E by done.
  revert E. generalize (va / MiB2). intros c E. Z.to_euclidean_division_equations. lia.
Qed.

Lemma map_run_entry va pa flags cache n : forall i leaf k, 0 <= va -> 0 <= i -> i mod MiB2 = 0 ->
  0 <= k < Z.of_nat n -> Z.of_nat n <= 512 ->
  exists e, map_run leaf va pa flags cache n i (entry_path MiB2 (va + i + k * MiB2)) =
    mapped_entry e (pa + i + k * MiB2) flags cache true.
Proof.
  induction n as [|n IH]; intros i leaf k Hva Hi Him Hk Hn; [lia|]. cbn [map_run].
  destruct (decide (k = 0)) as [->|Hk0].
  - rewrite map_run_other.
    + rewrite !Z.add_0_r. unfold set_entry. rewrite decide_True by done. by eexists.
    + intros j Hj E.
      replace (va + i + 0 * MiB2) with (va + i + 0 * MiB2) in E by lia.
      replace (va + (i + MiB2) + j * MiB2) with (va + i + (j + 1) * MiB2) in E by (unfold MiB2; lia).
      apply run_paths in E; lia.
  - replace (va + i + k * MiB2) with (va + (i + MiB2) + (k - 1) * MiB2) by (unfold MiB2; lia).
    replace (pa + i + k * MiB2) with (pa + (i + MiB2) + (k - 1) * MiB2) by (unfold MiB2; lia).
    apply IH; [done|unfold MiB2; lia| |lia|lia].
    rewrite <- (Z.mul_1_l MiB2) at 1. by rewrite Z.mod_add.
Qed.

Lemma huge_size flags : has flags LLPAGE = true -> get_page_size pm flags = GiB1.
Proof. intros E. unfold get_page_size. rewrite E. apply Hss. Qed.

Lemma large_size : get_page_size pm LPAGE = MiB2 /\ (get_page_size pm LPAGE =? llpage_size pm) = false.
Proof. destruct Hss as [Ell El Eb]. change (get_page_size pm LPAGE) with (lpage_size pm). by rewrite El, Ell. Qed.

(** One page of a mapped run, byte by byte. *)
Lemma page_translates w h N leaf leaf' va pa e flags cache k x :
  pt_view w h (top_level pm) N leaf' -> 0 <= va -> va mod MiB2 = 0 -> 0 <= k -> frame_ok MiB2 (pa + k * MiB2) ->
  x / MiB2 = k -> path_clear leaf (path_of (va + k * MiB2)) 3 ->
  (forall q, (length q < 3)%nat -> leaf' q = leaf q) -> N !! entry_path MiB2 (va + k * MiB2) = None ->
  leaf' (entry_path MiB2 (va + k * MiB2)) = mapped_entry e (pa + k * MiB2) flags cache true ->
  virtual_to_physical allocator pm (va + x) LPAGE w = Ok (pa + x + pat_field cache MiB2, w).
Proof.
  intros Hv Hva Hvm Hk0 Hfr Ek Hc Hshort Hn He. destruct large_size as [El _].
  assert (page_size_ok MiB2) as Hps by (right; by left).
  pose proof (Z.div_mod x MiB2 ltac:(done)) as Hdx. rewrite Ek in Hdx.
  assert ((va + x) / MiB2 = (va + k * MiB2) / MiB2 /\ (va + x) mod MiB2 = x mod MiB2) as [Ed Em].
  { apply Z.mod_divide in Hvm as [c ->]; [|done]. split.
    - rewrite !(Z.add_comm (c * MiB2)), !Z.div_add by done. rewrite Ek. by rewrite Z.div_mul.
    - by rewrite Z.add_comm, Z.mod_add. }
  assert (0 <= va + x) as Hvx by (pose proof (Z.mod_pos_bound x MiB2 ltac:(done)); unfold MiB2 in *; lia).
  assert (entry_path MiB2 (va + x) = entry_path MiB2 (va + k * MiB2)) as Ep.
  { apply entry_path_page; [done|lia|unfold MiB2; lia|by rewrite Ed]. }
  assert (path_clear leaf' (path_of (va + x)) 3) as Hcr.
  { intros j Hj. rewrite Hshort by (rewrite length_take; lia).
    assert (take j (path_of (va + x)) = take j (path_of (va + k * MiB2))) as ->; [|by apply Hc].
    apply (f_equal (take j)) in Ep. unfold entry_path in Ep. rewrite !take_take, !Nat.min_l in Ep; [done|..];
      change (depth MiB2) with 3%nat; lia. }
  pose proof (translate_spec w h N leaf' Hv (va + x) LPAGE Hvx) as Ht. cbv zeta in Ht. rewrite El in Ht.
  rewrite Ht by (done || by rewrite Ep). do 2 f_equal.
  pose proof (translate_mapped leaf MiB2 (va + k * MiB2) (va + x) e (pa + k * MiB2) flags cache Hps Hfr Ep) as Hm.
  unfold translate in *. rewrite Ep in *. rewrite He. unfold set_entry in Hm. rewrite decide_True in Hm by done.
  change (negb (MiB2 =? KiB4)) with true in Hm. rewrite Hm, Em. lia.
Qed.

(** A mapped run translates byte by byte. *)
Lemma run_translates w h N leaf va pa flags cache n x :
  pt_view w h (top_level pm) N (map_run leaf va pa flags cache n 0) -> Z.of_nat n = 512 ->
  0 <= va -> va mod MiB2 = 0 -> pa mod MiB2 = 0 /\ 0 <= pa /\ pa + GiB1 <= 4503599627370496 -> 0 <= x < GiB1 ->
  (forall k, 0 <= k < 512 -> path_clear leaf (path_of (va + k * MiB2)) 3 /\
     N !! entry_path MiB2 (va + k * MiB2) = None) ->
  virtual_to_physical allocator pm (va + x) LPAGE w = Ok (pa + x + pat_field cache MiB2, w).
Proof.
  intros Hv En Hva Hvm (Hpm & Hpa & Hpb) Hx Hk.
  assert (0 <= x / MiB2 < 512) as Hk512.
  { unfold GiB1, MiB2 in *. split; [apply Z.div_pos; lia|apply Z.div_lt_upper_bound; lia]. }
  destruct (Hk _ Hk512) as [Hc Hn].
  destruct (map_run_entry va pa flags cache n 0 leaf (x / MiB2)) as [e He]; [done|lia|done|lia|lia|]. rewrite !Z.add_0_r in He.
  apply (page_translates w h N leaf _ va pa e flags cache (x / MiB2) x Hv); [done|done|lia| |done|done| |done|done].
  - split_and!; [by rewrite Z.mod_add|unfold MiB2 in *; lia|unfold MiB2, GiB1 in *; lia].
  - intros q Hq. apply map_run_other. intros k' _ E. rewrite E, entry_path_length in Hq.
    change (depth MiB2) with 3%nat in Hq. lia.
Qed.

(** *** Unmapping a large page *)

(** The walk to the fourth level goes through an entry that maps a 2 MiB page. *)
Lemma walk_through w h N leaf va : pt_view w h (top_level pm) N leaf -> 0 <= va ->
  path_clear leaf (path_of va) 3 -> N !! entry_path MiB2 va = None ->
  pte_get_flag (leaf (entry_path MiB2 va)) present = true ->
  let f := tohh hh (pte_address (leaf (entry_path MiB2 va))) in
  virtual_to_pt_entry allocator pm va false KiB4 w = Ok (if f =? 0 then 0 else elem f (index_at va 12), w).
Proof.
  intros Hv Hva Hc Hn Hp f. destruct Hss as [Ell El Eb].
  pose proof (index_range va 39 Hva ltac:(lia)). pose proof (index_range va 30 Hva ltac:(lia)).
  pose proof (index_range va 21 Hva ltac:(lia)).
  unfold virtual_to_pt_entry. rewrite Ell, El.
  pose proof (pv_root _ _ _ _ _ _ Hv) as Hr.
  assert (forall p i, N !! p = None -> leaf (p ++ [i]) = 0 /\ N !! (p ++ [i]) = None) as Habs
    by (intros p i; apply (pv_absent _ _ _ _ _ _ Hv)).
  assert (forall p t, N !! p = Some t -> (t =? 0) = false) as Hpos.
  { intros p t Ht. destruct (table_of allocator w h _ N leaf Hv p t Ht) as (? & _). apply Z.eqb_neq. lia. }
  change (entry_path MiB2 va) with [index_at va 39; index_at va 30; index_at va 21] in *.
  destruct (N !! [index_at va 39; index_at va 30]) as [t2|] eqn:E2.
  2:{ destruct (Habs _ (index_at va 21) E2) as [E _]. simpl in E. by rewrite E in Hp. }
  destruct (N !! [index_at va 39]) as [t3|] eqn:E3.
  2:{ destruct (Habs _ (index_at va 30) E3) as [_ E]. simpl in E. congruence. }
  rewrite (Hpos _ _ Hr), (next_present allocator w h _ N leaf Hv [] _ (index_at va 39) t3 false Hr) by done.
  bind_simpl. rewrite (Hpos _ _ E3). change (KiB4 =? GiB1) with false. change (KiB4 =? MiB2) with false.
  cbv iota. rewrite (next_present allocator w h _ N leaf Hv [index_at va 39] t3 (index_at va 30) t2 false E3) by done.
  bind_simpl. rewrite (Hpos _ _ E2).
  destruct (load_entry allocator w h _ N leaf Hv _ t2 (index_at va 21) E2) as (e & El' & _ & Hm); [done|].
  simpl app in Hm. rewrite Hn in Hm. unfold get_next_lvl. rewrite (Hpos _ _ E2), El'. bind_simpl.
  rewrite <- Hm, Hp. bind_simpl. fold f. by destruct (f =? 0).
Qed.
End Ops.

(** ** New address spaces *)

(** Paths that start in the kernel's half. *)
Definition upper (p : list Z) : bool :=
  match p with a :: _ => (256 <=? a) && (a <? 512) | [] => false end.
Definition share_tables (N : gmap (list Z) Z) (top : Z) : gmap (list Z) Z :=
  <[[] := top]> (filter (fun x => upper x.1 = true) N).
Definition share_leaf (leaf : list Z -> Z) (p : list Z) : Z := if upper p then leaf p else 0.

Lemma upper_app p i : p <> [] -> upper (p ++ [i]) = upper p.
Proof. by destruct p. Qed.

Lemma share_lookup N top p : p <> [] -> share_tables N top !! p = if upper p then N !! p else None.
Proof.
  intros Hp. unfold share_tables. rewrite lookup_insert_ne by done. destruct (upper p) eqn:E.
  - destruct (N !! p) eqn:Ep; [by apply map_lookup_filter_Some|].
    apply map_lookup_filter_None. by left.
  - apply map_lookup_filter_None. right. intros x _. simpl. by rewrite E.
Qed.

Lemma share_translate leaf va : 0 <= va ->
  translate (share_leaf leaf) KiB4 va = if 256 <=? index_at va 39 then translate leaf KiB4 va else invalid_addr.
Proof.
  intros Hva. pose proof (index_range va 39 Hva ltac:(lia)). unfold translate, share_leaf, entry_path, path_of.
  change (depth KiB4) with 4%nat. cbn [take upper]. rewrite (proj2 (Z.ltb_lt _ 512)), andb_true_r by lia.
  by destruct (256 <=? index_at va 39).
Qed.

Section Spaces.
Context {W : Type} `{FrameLaws W} (allocator : Z).
Local Abbreviation pt_view := (pt_view allocator).
Local Abbreviation heap_inv := (heap_inv allocator).

(** A view survives what keeps the blocks and their contents. *)
Lemma table_view_keep w h w' h' top N leaf : pt_view w h top N leaf -> heap_inv w' h' ->
  (forall p t, N !! p = Some t -> block h' t 4096 /\
     forall i, 0 <= i < 512 -> load64 (wmem w') (t + 8 * i) = load64 (wmem w) (t + 8 * i)) ->
  pt_view w' h' top N leaf.
Proof.
  intros [Hinv Hroot Htab Hinj Hent Habs] Hinv' Hk. constructor; try done.
  - intros p t Hp. destruct (Htab p t Hp) as [Hl Ht]. split; [done|].
    apply (table_keep allocator w' h h' t Ht Hinv'). by apply (Hk p).
  - intros p t i Hp Hi. destruct (Hk p t Hp) as [_ ->]; [|done]. by apply Hent.
Qed.

(** A store to a block that is no table. *)
Lemma view_block_write w h top N leaf p n a v : pt_view w h top N leaf -> block h p n ->
  (forall q t, N !! q = Some t -> t <> p) -> valid (wmem w) a 8 -> p <= a /\ a + 8 <= p + n ->
  pt_view (with_mem w (write64 (wmem w) a v)) h top N leaf.
Proof.
  intros Hv Hb Hne Hva Ha. pose proof (pv_heap _ _ _ _ _ _ Hv) as Hinv.
  destruct (write64_ok (wmem w) a v (frames_wf _ _ (hi_frames _ _ _ _ Hinv)) Hva) as [Hw Hd].
  destruct (block_write allocator w h p n _ Hinv Hb Hw Hd) as [Hinv' _].
  { intros x Hx. apply write64_out. unfold in_range in *. lia. }
  apply (table_view_keep w h _ h _ _ _ Hv Hinv'). intros q t Hq.
  destruct (pv_table _ _ _ _ _ _ Hv q t Hq) as [_ [Ht _]]. split; [done|]. intros i Hi. rewrite wmem_with_mem.
  apply load64_write64_ne.
  pose proof (blocks_disjoint allocator w h t 4096 p n Hinv Ht Hb (Hne q t Hq)) as Hdj.
  unfold disjoint_ranges in *. lia.
Qed.

(** A store to a table that is not one of the view's. *)
Lemma view_store_other w h top N leaf t i v : pt_view w h top N leaf -> table_at h t ->
  (forall p t', N !! p = Some t' -> t' <> t) -> 0 <= i < 512 -> 0 <= v < W64 ->
  store w (elem t i) v = Ok (with_mem w (write64 (wmem w) (t + 8 * i) v)) /\
  pt_view (with_mem w (write64 (wmem w) (t + 8 * i) v)) h top N leaf.
Proof.
  intros Hv Ht Hne Hi Hr.
  destruct (entry_store allocator w h t i v (pv_heap _ _ _ _ _ _ Hv) Ht Hi Hr) as (Es & [Hinv _] & _ & Ho).
  split; [done|]. apply (table_view_keep w h _ h _ _ _ Hv Hinv). intros p t' Hp.
  destruct (pv_table _ _ _ _ _ _ Hv p t' Hp) as [_ Ht']. split; [apply Ht'|]. intros j Hj.
  rewrite wmem_with_mem. apply Ho; [done|done|]. left. by apply (Hne p).
Qed.

(** A top level whose upper half is the kernel's and whose lower half is empty. *)
Lemma share_view w h ktop N leaf top : pt_view w h ktop N leaf -> table_at h top ->
  (forall p t, N !! p = Some t -> t <> top) ->
  (forall j, 0 <= j < 512 -> load64 (wmem w) (top + 8 * j) =
     if 256 <=? j then load64 (wmem w) (ktop + 8 * j) else Ok 0) ->
  pt_view w h top (share_tables N top) (share_leaf leaf).
Proof.
  intros Hv Ht Hne Hl. pose proof (pv_root _ _ _ _ _ _ Hv) as Hr.
  assert (forall p t, p <> [] -> share_tables N top !! p = Some t -> N !! p = Some t /\ upper p = true) as Hin.
  { intros p t Hp E. rewrite share_lookup in E by done. by destruct (upper p). }
  assert (share_tables N top !! [] = Some top) as Hroot by apply lookup_insert_eq.
  constructor.
  - apply Hv.
  - done.
  - intros p t Hp. destruct (decide (p = [])) as [->|Hp0].
    + rewrite Hroot in Hp. injection Hp as <-. split; [simpl; lia|done].
    + apply Hin in Hp as [Hp _]; [|done]. by apply (pv_table _ _ _ _ _ _ Hv).
  - intros p q t Hp Hq. destruct (decide (p = [])) as [->|Hp0], (decide (q = [])) as [->|Hq0]; [done|..].
    + rewrite Hroot in Hp. injection Hp as <-. apply Hin in Hq as [Hq _]; [|done]. by destruct (Hne q top Hq).
    + rewrite Hroot in Hq. injection Hq as <-. apply Hin in Hp as [Hp _]; [|done]. by destruct (Hne p top Hp).
    + apply Hin in Hp as [Hp _]; [|done]. apply Hin in Hq as [Hq _]; [|done].
      by apply (pv_inj _ _ _ _ _ _ Hv p q t).
  - intros p t i Hp Hi. rewrite share_lookup by (by destruct p). unfold share_leaf.
    destruct (decide (p = [])) as [->|Hp0].
    + rewrite Hroot in Hp. injection Hp as <-. rewrite Hl by done. simpl app. unfold upper.
      rewrite (proj2 (Z.ltb_lt i 512)), andb_true_r by lia. destruct (256 <=? i).
      * apply (pv_entry _ _ _ _ _ _ Hv [] ktop i Hr Hi).
      * exists 0. split_and!; done || lia.
    + apply Hin in Hp as [Hp Hu]; [|done]. rewrite upper_app, Hu by done.
      by apply (pv_entry _ _ _ _ _ _ Hv).
  - intros p i Hp. destruct (decide (p = [])) as [->|Hp0]; [congruence|].
    rewrite share_lookup in * by (by destruct p). unfold share_leaf. rewrite upper_app by done.
    destruct (upper p); [|done]. by apply (pv_absent _ _ _ _ _ _ Hv).
Qed.

(** [pagemap_t()] for a process. *)
Lemma pagemap_new_spec w h k N leaf : pt_view w h (top_level k) N leaf ->
  (exists top w' h', pagemap_new allocator (Some k) w = Ok (Pagemap top GiB1 MiB2 KiB4, w') /\
     pt_view w' h' (top_level k) N leaf /\ pt_view w' h' top (share_tables N top) (share_leaf leaf)) \/
  (pagemap_new allocator (Some k) w = Panic /\ ~ frames_run w 2).
Proof.
  intros Hv. unfold pagemap_new.
  destruct (new_page_table_spec allocator w h (pv_heap _ _ _ _ _ _ Hv)) as
    [(top & w1 & h1 & -> & Hinv1 & Ht & Hz & Hold & _)|[-> Hno]]; [left|by right]. bind_simpl. cbv zeta. cbn [top_level].
  assert (pt_view w1 h1 (top_level k) N leaf) as Hv1.
  { apply (table_view_keep w h _ _ _ _ _ Hv Hinv1). intros p t Hp. destruct (pv_table _ _ _ _ _ _ Hv p t Hp) as [_ [Hb _]].
    destruct (Hold _ _ Hb) as (Hb1 & _ & Hx). split; [done|]. intros i Hi. apply load64_same. intros x Hx'.
    apply Hx. unfold in_range in *. lia. }
  assert (forall p t, N !! p = Some t -> t <> top) as Hne.
  { intros p t Hp ->. destruct (pv_table _ _ _ _ _ _ Hv p top Hp) as [_ [Hb _]].
    destruct (Hold _ _ Hb) as (_ & Hd & _). unfold disjoint_ranges in Hd. lia. }
  pose proof (pv_root _ _ _ _ _ _ Hv1) as Hr.
  destruct (table_facts allocator w1 h1 top Hinv1 Ht) as (? & ? & _).
  destruct (for_range_inv 256 512 (fun i w =>
      e ← load w (elem (top_level k) i); store w (elem top i) e)
    (fun i s => pt_view s h1 (top_level k) N leaf /\
       forall j, 0 <= j < 512 -> load64 (wmem s) (top + 8 * j) =
         if (256 <=? j) && (j <? i) then load64 (wmem s) (top_level k + 8 * j) else Ok 0) w1)
    as (w2 & -> & Hv2 & Hl2); [lia| | |].
  - split; [done|]. intros j Hj. rewrite Hz by done. destruct (Z.leb_spec 256 j), (Z.ltb_spec j 256); done || lia.
  - intros i s Hi [Hvs Hls].
    destruct (load_entry allocator s h1 _ N leaf Hvs [] (top_level k) i Hr) as (e & El & Her & _); [lia|].
    destruct (table_of allocator s h1 _ N leaf Hvs [] _ Hr) as (? & ? & Hkt).
    rewrite El. bind_simpl.
    destruct (entry_store allocator s h1 top i e (pv_heap _ _ _ _ _ _ Hvs) Ht) as (_ & _ & Hle & Ho); [lia|done|].
    destruct (view_store_other s h1 _ N leaf top i e Hvs Ht Hne) as [-> Hvs']; [lia|done|].
    eexists. split; [done|]. split; [exact Hvs'|]. intros j Hj. rewrite wmem_with_mem.
    assert (top_level k <> top) as Hkne by (by apply (Hne [])).
    rewrite (Ho (top_level k) j) by (done || by left).
    destruct (decide (j = i)) as [->|Hji].
    + rewrite Hle. rewrite elem_table in El by done.
      destruct (Z.leb_spec 256 i), (Z.ltb_spec i (i + 1)); try lia. by symmetry.
    + rewrite Ho, Hls by (done || by right).
      destruct (Z.leb_spec 256 j), (Z.ltb_spec j i), (Z.ltb_spec j (i + 1)); done || lia.
  - bind_simpl. exists top, w2, h1. split_and!; [done|done|].
    apply (share_view w2 h1 (top_level k) N leaf top Hv2 Ht Hne). intros j Hj. rewrite Hl2 by done.
    rewrite (proj2 (Z.ltb_lt j 512)), andb_true_r by lia. done.
Qed.
End Spaces.
