(* ===== verification/PagingClaims.v ===== *)
(** * What the page tables guarantee

    The theorems on arch/x86_64/memory/virtual.cpp, proved against the contract of
    the heap and the page manager, with a small machine that has four tables. *)

From S2P Require Import Prelude Memory LibcString Frames Math Bitmap Physical PhysicalProofs.
From S2P Require Import Heap HeapInv HeapProofs HeapTheorems Machine Paging PagingProofs PagingTheorems.

(** ** The specification: a page map is a function from paths to entries *)

Inductive page_op : Type :=
| Pmap (va pa flags : Z) (cache : caching)
| Punmap (va : Z)
| Pset_flags (va flags : Z) (cache : caching)
| Ptranslate (va : Z).

Definition op_address (o : page_op) : Z :=
  match o with Pmap va _ _ _ | Punmap va | Pset_flags va _ _ | Ptranslate va => va end.

(** Operations on 4 KiB pages. *)
Definition small_flags (flags : Z) : Prop := has flags LPAGE = false /\ has flags LLPAGE = false.

Definition op_legal (leaf : list Z -> Z) (o : page_op) : Prop :=
  0 <= op_address o < W64 /\ path_clear leaf (path_of (op_address o)) 4 /\
  match o with
  | Pmap _ pa flags _ => small_flags flags /\ 0 <= pa < W64
  | Pset_flags _ flags _ => small_flags flags
  | _ => True
  end.

(** The answer and the entries afterwards; [unmap] answers whether there is a table. *)
Definition op_spec (o : page_op) (leaf : list Z -> Z) (r : Z) (leaf' : list Z -> Z) : Prop :=
  match o with
  | Pmap va pa flags cache =>
      r = 1 /\ leaf' = set_entry leaf (path_of va) (mapped_entry (leaf (path_of va)) pa flags cache false)
  | Punmap va =>
      (r = 1 /\ leaf' = set_entry leaf (path_of va) 0) \/ (r = 0 /\ leaf' = leaf /\ leaf (path_of va) = 0)
  | Pset_flags va flags cache =>
      r = 1 /\ leaf' = set_entry leaf (path_of va) (mapped_entry 0 (pte_address (leaf (path_of va))) flags cache false)
  | Ptranslate va => r = translate leaf KiB4 va /\ leaf' = leaf
  end.

Section Run.
Context {W : Type} `{Frames W} (allocator : Z) (gib1_pages : bool) (pm : pagemap).

Definition run_op (o : page_op) (w : W) : outcome (Z * W) :=
  match o with
  | Pmap va pa flags cache => '(b, w) ← map allocator gib1_pages pm va pa flags cache w; Ok (Z.b2z b, w)
  | Punmap va => '(b, (_, w)) ← unmap allocator gib1_pages pm va 0 w; Ok (Z.b2z b, w)
  | Pset_flags va flags cache => '(b, w) ← set_flags allocator pm va flags cache w; Ok (Z.b2z b, w)
  | Ptranslate va => virtual_to_physical allocator pm va 0 w
  end.
End Run.

(** ** Theorems *)

Section Claims.
Context {W : Type} `{FrameLaws W} (allocator : Z) (gib1_pages : bool).
Context (pm : pagemap) (Hss : std_sizes pm).

(** The entries of the page map [pm] in the memory of [w]. *)
Definition page_map (w : W) (leaf : list Z -> Z) : Prop :=
  exists h N, pt_view allocator w h (top_level pm) N leaf.

Lemma small_not_huge flags : small_flags flags -> (get_page_size pm flags =? llpage_size pm) = false.
Proof. intros [? ?]. rewrite (small_page pm Hss), (ss_ll _ Hss) by done. done. Qed.

Lemma page_map_no_table w h N leaf va : pt_view allocator w h (top_level pm) N leaf -> N !! path_of va = None.
Proof. intros Hv. by apply (no_table_below allocator pm w h N leaf _ Hv). Qed.

(** The four operations on one 4 KiB page. *)
Section Small.
Context (w : W) (leaf : list Z -> Z) (va : Z) (Hm : page_map w leaf) (Hva : 0 <= va).
Context (Hc : path_clear leaf (path_of va) 4).

Lemma small_map pa flags cache : small_flags flags -> 0 <= pa < W64 ->
  (exists w', map allocator gib1_pages pm va pa flags cache w = Ok (true, w') /\
     page_map w' (set_entry leaf (path_of va) (mapped_entry (leaf (path_of va)) pa flags cache false))) \/
  (map allocator gib1_pages pm va pa flags cache w = Panic /\ leaf (path_of va) = 0 /\ ~ frames_run w 6).
Proof.
  intros Hf Hpa. destruct Hm as (h & N & Hv). pose proof (page_map_no_table w h N leaf va Hv) as Hn.
  unfold map. rewrite (small_not_huge flags Hf), (small_page pm Hss) by apply Hf. simpl andb.
  destruct (map_one_spec allocator pm Hss w h N leaf Hv va pa flags cache KiB4) as
    [(w' & h' & N' & -> & Hv' & _ & _)|[-> ((j & Hj & Hnj) & Hno)%short_missing]]; [done|done|by left|done|done|left|right].
  - exists w'. split; [done|]. by exists h', N'.
  - split_and!; [done| |done]. by apply (missing_zero allocator pm w h N leaf va j).
Qed.

Lemma small_set_flags flags cache : small_flags flags ->
  (exists w', set_flags allocator pm va flags cache w = Ok (true, w') /\
     page_map w' (set_entry leaf (path_of va) (mapped_entry 0 (pte_address (leaf (path_of va))) flags cache false))) \/
  (set_flags allocator pm va flags cache w = Panic /\ leaf (path_of va) = 0 /\ ~ frames_run w 6).
Proof.
  intros Hf. destruct Hm as (h & N & Hv). pose proof (page_map_no_table w h N leaf va Hv) as Hn.
  pose proof (set_flags_spec allocator pm Hss w h N leaf Hv va flags cache Hva) as Hs. cbv zeta in Hs.
  rewrite (small_page pm Hss) in Hs by apply Hf.
  destruct (Hs Hc Hn) as [(w' & h' & N' & -> & Hv' & _)|[-> ((j & Hj & Hnj) & Hno)%short_missing]]; [left|right].
  - exists w'. split; [done|]. by exists h', N'.
  - split_and!; [done| |done]. by apply (missing_zero allocator pm w h N leaf va j).
Qed.

Lemma small_unmap :
  (exists w', unmap allocator gib1_pages pm va 0 w = Ok (true, ([va], w')) /\
     page_map w' (set_entry leaf (path_of va) 0)) \/
  (unmap allocator gib1_pages pm va 0 w = Ok (false, ([], w)) /\ leaf (path_of va) = 0).
Proof.
  destruct Hm as (h & N & Hv). unfold unmap. rewrite (small_not_huge 0) by done. simpl andb.
  destruct (unmap_one_spec allocator pm Hss w h N leaf Hv va [] Hva Hc) as [(w' & -> & Hv')|[-> Hz]]; [left|by right].
  exists w'. split; [done|]. by exists h, N.
Qed.

Lemma small_translate : virtual_to_physical allocator pm va 0 w = Ok (translate leaf KiB4 va, w).
Proof.
  destruct Hm as (h & N & Hv). rewrite <- (small_page pm Hss 0) by done.
  apply (translate_spec allocator pm Hss w h N leaf Hv va 0 Hva); rewrite (small_page pm Hss 0) by done;
    [done|by apply (page_map_no_table w h N leaf)].
Qed.
End Small.

(** C4: for 4 KiB pages the page tables implement the function from paths to
    entries: [map], [unmap], [set_flags] and [virtual_to_physical] answer and update
    it as specified; only [map] and [set_flags] can panic, when a table on the path
    is missing and the page manager has no six free pages in a row for the tables. *)
Theorem paging_refines w leaf o : page_map w leaf -> op_legal leaf o ->
  (exists r w' leaf', run_op allocator gib1_pages pm o w = Ok (r, w') /\ op_spec o leaf r leaf' /\ page_map w' leaf') \/
  (run_op allocator gib1_pages pm o w = Panic /\
   match o with Pmap _ _ _ _ | Pset_flags _ _ _ => leaf (path_of (op_address o)) = 0 /\ ~ frames_run w 6 | _ => False end).
Proof.
  intros Hm ([Hva _] & Hc & Hl). destruct o as [va pa flags cache|va|va flags cache|va]; cbn [run_op op_spec op_address] in *.
  - destruct Hl as [Hf Hpa].
    destruct (small_map w leaf va Hm Hva Hc pa flags cache Hf Hpa) as [(w' & -> & Hm')|[-> Hz]]; [left|by right].
    exists 1, w'. by eexists.
  - left. destruct (small_unmap w leaf va Hm Hva Hc) as [(w' & -> & Hm')|[-> Hz]].
    + exists 1, w'. eexists. split_and!; [done|by left|done].
    + exists 0, w, leaf. split_and!; [done|by right|done].
  - destruct (small_set_flags w leaf va Hm Hva Hc flags cache Hl) as [(w' & -> & Hm')|[-> Hz]]; [left|by right].
    exists 1, w'. by eexists.
  - left. exists (translate leaf KiB4 va), w, leaf. split; [by apply small_translate|done].
Qed.

(** C7: mapping a 4 KiB page makes every address of that page translate to the frame
    plus its offset and leaves the translation of every other page alone; while six
    pages in a row are free it cannot panic. *)
Theorem map_translates w leaf va pa flags cache : page_map w leaf -> small_flags flags ->
  0 <= va < W64 -> frame_ok KiB4 pa -> path_clear leaf (path_of va) 4 ->
  (exists w', map allocator gib1_pages pm va pa flags cache w = Ok (true, w') /\
     forall va', 0 <= va' < W64 -> path_clear leaf (path_of va') 4 ->
     exists r, virtual_to_physical allocator pm va' 0 w = Ok (r, w) /\
       virtual_to_physical allocator pm va' 0 w' =
         Ok (if decide ((va' / 4096) mod 2 ^ 36 = (va / 4096) mod 2 ^ 36) then pa + va' mod 4096 else r, w')) \/
  (map allocator gib1_pages pm va pa flags cache w = Panic /\ leaf (path_of va) = 0 /\ ~ frames_run w 6).
Proof.
  intros Hm Hf [Hva _] Hpa Hc. pose proof Hpa as (_ & Hp0 & Hp1). unfold KiB4 in Hp1.
  destruct (small_map w leaf va Hm Hva Hc pa flags cache Hf) as [(w' & -> & Hm')|[-> Hz]]; [lia|left|by right].
  exists w'. split; [done|]. intros va' [Hva' _] Hc'. exists (translate leaf KiB4 va').
  split; [by apply small_translate|].
  rewrite (small_translate w' _ va' Hm' Hva') by (by apply path_clear_set). do 2 f_equal.
  pose proof (path_of_page va' va Hva' Hva) as Hp. destruct (decide _) as [E|E].
  - apply Hp in E. rewrite (translate_mapped leaf KiB4 va va') by (done || by left).
    change (pat_field cache KiB4) with 0. unfold KiB4. lia.
  - apply translate_other. intros Ep. by apply E, Hp.
Qed.

(** C9: on pages of 4 KiB [set_flags] keeps the frame and sets exactly the rights and the
    caching mode asked for; [map] over an entry in use adds to the rights that are there
    and never takes one away.  On pages of 2 MiB and 1 GiB [set_flags] keeps bit 12 of the
    old entry, the caching bit of large pages, with the address. *)
Theorem rights_exact w leaf va pa flags cache : page_map w leaf -> small_flags flags ->
  0 <= va < W64 -> path_clear leaf (path_of va) 4 -> frame_ok KiB4 pa ->
  let old := leaf (path_of va) in
  (set_flags allocator pm va flags cache w = Panic /\ old = 0 /\ ~ frames_run w 6 \/
   exists w' e, set_flags allocator pm va flags cache w = Ok (true, w') /\ page_map w' (set_entry leaf (path_of va) e) /\
     pte_address e = pte_address old /\
     forall n, 0 <= n < 12 \/ 52 <= n < 64 -> Z.testbit e n = wanted flags cache n) /\
  (map allocator gib1_pages pm va pa flags cache w = Panic /\ old = 0 /\ ~ frames_run w 6 \/
   exists w' e, map allocator gib1_pages pm va pa flags cache w = Ok (true, w') /\ page_map w' (set_entry leaf (path_of va) e) /\
     pte_address e = pa /\
     forall n, 0 <= n < 12 \/ 52 <= n < 64 -> Z.testbit e n = Z.testbit old n || wanted flags cache n).
Proof.
  intros Hm Hf [Hva _] Hc (Ha & Hp0 & Hp1) old. unfold KiB4 in Ha, Hp1. split.
  - destruct (small_set_flags w leaf va Hm Hva Hc flags cache Hf) as [(w' & -> & Hm')|[-> Hz]]; [right|by left].
    exists w'. eexists. split_and!; [done|exact Hm'|..].
    + by apply mapped_address, pte_address_mask.
    + intros n Hn. by rewrite mapped_bit, Z.bits_0 by (done || apply pte_address_frame || apply Hf).
  - destruct (small_map w leaf va Hm Hva Hc pa flags cache Hf) as [(w' & -> & Hm')|[-> Hz]]; [lia|right|by left].
    exists w'. eexists. split_and!; [done|exact Hm'|..].
    + apply mapped_address, frame_mask; lia.
    + intros n Hn. by rewrite mapped_bit by (apply Hf || lia).
Qed.

(** C10: without 1 GiB pages, mapping one maps 512 pages of 2 MiB that cover the same
    GiB.  Asked for the 2 MiB page, [virtual_to_physical] answers the frame and the
    offset plus, for the caching modes that set the PAT bit, 4096: the bit lies in
    the field [get_address] reads.  Other 2 MiB pages are left alone.  With eight free
    pages in a row it cannot panic. *)
Theorem map_huge_splits w h N leaf va pa flags cache : pt_view allocator w h (top_level pm) N leaf ->
  gib1_pages = false -> has flags LLPAGE = true -> 0 <= va -> va + GiB1 <= W64 -> va mod MiB2 = 0 ->
  pa mod MiB2 = 0 -> 0 <= pa -> pa + GiB1 <= 4503599627370496 ->
  (forall k, 0 <= k < 512 -> path_clear leaf (path_of (va + k * MiB2)) 3 /\
     N !! entry_path MiB2 (va + k * MiB2) = None) ->
  (exists w' h' N' leaf', map allocator gib1_pages pm va pa flags cache w = Ok (true, w') /\
     pt_view allocator w' h' (top_level pm) N' leaf' /\
     (forall x, 0 <= x < GiB1 ->
        virtual_to_physical allocator pm (va + x) LPAGE w' = Ok (pa + x + pat_field cache MiB2, w')) /\
     forall q, (forall k, 0 <= k < 512 -> q <> entry_path MiB2 (va + k * MiB2)) -> leaf' q = leaf q) \/
  (map allocator gib1_pages pm va pa flags cache w = Panic /\
   (exists k j, 0 <= k < 512 /\ (0 < j < 3)%nat /\ N !! take j (path_of (va + k * MiB2)) = None) /\ ~ frames_run w 8).
Proof.
  intros Hv Hg Hf Hva Hvb Hvm Hpm Hpa Hpb Hk. pose proof (huge_size pm Hss flags Hf) as Es.
  assert (Z.of_nat 512 * MiB2 = GiB1) as E512 by done. unfold GiB1 in Hvb, Hpb.
  unfold map. rewrite Es, Hg, (ss_ll _ Hss), Z.eqb_refl. simpl andb. cbv iota.
  destruct (map_loop_spec allocator pm Hss va pa (to_lpage flags) cache (run_tables va) 512 0 w h N leaf Hv) as
    [(w' & h' & N' & E & Hv' & Hn')|(E & (k & j & Hk' & Hj & Hnj) & Hno)];
    [lia|lia|lia|unfold GiB1, MiB2 in *; lia..| | |left|right].
  { intros k Hk'. rewrite Z.add_0_r. apply Hk. lia. }
  { intros k j Hk' Hj. rewrite Z.add_0_r. by apply run_tables_spec. }
  2:{ rewrite Z.add_0_r in Hnj. split_and!; [exact E|exists k, j; split_and!; try done; lia|].
      intros Hr. apply Hno, (frames_run_le _ _ _ Hr). pose proof (run_tables_missing va N). lia. }
  exists w', h', N'. eexists. split_and!; [exact E|exact Hv'| |].
  - intros x Hx. apply (run_translates allocator pm Hss w' h' N' leaf va pa _ cache 512 x Hv' eq_refl Hva Hvm); [by split_and!|done|].
    intros k Hk'. destruct (Hk k Hk') as [Hc Hn]. split; [done|]. rewrite Hn'; [done|]. by rewrite entry_path_length.
  - intros q Hq. apply map_run_other. intros k Hk'. rewrite Z.add_0_r. apply Hq. lia.
Qed.

(** C12: [unmap] of a 2 MiB page does not unmap it: the walk goes on through the
    entry of the page, and the eight bytes of the mapped frame found there are set
    to zero; every entry stays as it was, and the answer is [true]. *)
Theorem unmap_large_corrupts w h N leaf va p n : pt_view allocator w h (top_level pm) N leaf ->
  0 <= va < W64 -> path_clear leaf (path_of va) 3 -> N !! entry_path MiB2 va = None ->
  pte_get_flag (leaf (entry_path MiB2 va)) present = true ->
  let f := tohh hhdm_offset (pte_address (leaf (entry_path MiB2 va))) in
  let a := f + 8 * index_at va 12 in
  block h p n -> (forall q t, N !! q = Some t -> t <> p) -> 0 < f -> f + 4096 <= W64 -> p <= a -> a + 8 <= p + n ->
  exists w', unmap allocator gib1_pages pm va LPAGE w = Ok (true, ([va], w')) /\
    pt_view allocator w' h (top_level pm) N leaf /\ load w' a = Ok 0 /\
    virtual_to_physical allocator pm va LPAGE w' = Ok (translate leaf MiB2 va, w').
Proof.
  intros Hv [Hva _] Hc Hn Hp f a Hb Hne Hf Hf2 Ha Ha2.
  destruct (large_size pm Hss) as [El Ell]. pose proof (index_range va 12 Hva ltac:(lia)).
  destruct (block_in allocator w h p n (pv_heap _ _ _ _ _ _ Hv) Hb) as (? & ? & Hvp).
  assert (valid (wmem w) a 8) as Hv8 by (eapply valid_sub; [apply Hvp|lia..]).
  assert (elem f (index_at va 12) = a) as Ea by (by apply elem_table).
  unfold unmap, unmap_one. cbv zeta. rewrite Ell. simpl andb. cbv iota. rewrite (ss_b _ Hss).
  rewrite (walk_through allocator pm Hss w h N leaf va Hv Hva Hc Hn Hp). bind_simpl. fold f.
  rewrite (proj2 (Z.eqb_neq f 0)), Ea by lia. rewrite (proj2 (Z.eqb_neq a 0)) by lia.
  rewrite store_valid by done. bind_simpl. eexists. split; [done|].
  assert (pt_view allocator (with_mem w (write64 (wmem w) a 0)) h (top_level pm) N leaf) as Hv'.
  { apply (view_block_write allocator w h (top_level pm) N leaf p n a 0 Hv Hb Hne Hv8). done. }
  split_and!; [done|by apply load_Ok, load64_write64_small|].
  rewrite <- El. apply (translate_spec allocator pm Hss _ h N leaf Hv' va LPAGE Hva); by rewrite El.
Qed.

(** C8: a new address space shares the kernel's half: addresses of the upper half
    translate as they do in the kernel's page map, addresses of the lower half do
    not translate, and the kernel's page map stays as it was.  Two free pages in a row
    are enough for it. *)
Theorem pagemap_new_shares w leaf : page_map w leaf ->
  (exists pm' w', pagemap_new allocator (Some pm) w = Ok (pm', w') /\ std_sizes pm' /\ page_map w' leaf /\
     forall va, 0 <= va < W64 -> path_clear leaf (path_of va) 4 ->
       virtual_to_physical allocator pm' va 0 w' =
         Ok (if 256 <=? index_at va 39 then translate leaf KiB4 va else invalid_addr, w') /\
       virtual_to_physical allocator pm va 0 w' = Ok (translate leaf KiB4 va, w')) \/
  (pagemap_new allocator (Some pm) w = Panic /\ ~ frames_run w 2).
Proof.
  intros (h & N & Hv).
  destruct (pagemap_new_spec allocator w h pm N leaf Hv) as [(top & w' & h' & -> & Hv1 & Hv2)|E]; [left|by right].
  set (pm' := Pagemap top GiB1 MiB2 KiB4) in *. assert (std_sizes pm') as Hss' by done.
  assert (page_map w' leaf) as Hm by (by exists h', N).
  exists pm', w'. split_and!; [done|done|done|]. intros va [Hva _] Hc. split; [|by apply small_translate].
  rewrite <- (share_translate leaf va Hva).
  rewrite <- (small_page pm' Hss' 0) by done.
  apply (translate_spec allocator pm' Hss' w' h' _ _ Hv2 va 0 Hva).
  - intros j Hj. unfold share_leaf. case_match; [by apply (Hc j)|done].
  - apply (no_table_below allocator pm' w' h' _ _ _ Hv2). done.
Qed.
End Claims.

(** ** Witnesses *)

(** Tables in the pages 2, 4, 6, 8 and 12, a client's block in page 10, an entry for
    a small page and one for a large page. *)
Definition paged_pages : list Z := [1; 2; 3; 4; 5; 6; 7; 8; 9; 10; 11; 12].
Definition paged_page (i : Z) : Z := sample_hhdm + i * 4096.
Definition meta_stores (i : Z) : list (Z * Z) := [(paged_page i, 1); (paged_page i + 8, 4096)].
Definition paged_entries : list (Z * Z) :=
  [(paged_page 2, 4 * 4096 + 7); (paged_page 4, 6 * 4096 + 7); (paged_page 4 + 8, 12 * 4096 + 7);
   (paged_page 6, 8 * 4096 + 7); (paged_page 6 + 8, 10 * 4096 + 131); (paged_page 8 + 40, 10 * 4096 + 3)].
Definition paged_writes : list (Z * Z) :=
  paged_entries ++ meta_stores 1 ++ meta_stores 3 ++ meta_stores 5 ++ meta_stores 7 ++ meta_stores 9 ++
  meta_stores 11 ++ size_stores.
Definition paged_state : phys := machine 8191 paged_writes.
Definition paged_heap : heap :=
  MkHeap (list_to_set paged_pages) ∅ (fun _ => []) ∅
    {[1 := (1, 4096); 3 := (1, 4096); 5 := (1, 4096); 7 := (1, 4096); 9 := (1, 4096); 11 := (1, 4096)]}.
Definition paged_map : pagemap := Pagemap (paged_page 2) GiB1 MiB2 KiB4.
Definition paged_tables : gmap (list Z) Z :=
  {[ [] := paged_page 2; [0] := paged_page 4; [0; 0] := paged_page 6; [0; 0; 0] := paged_page 8; [0; 1] := paged_page 12]}.
Definition paged_leaf (p : list Z) : Z :=
  if decide (p = [0; 0; 0; 5]) then 10 * 4096 + 3 else if decide (p = [0; 0; 1]) then 10 * 4096 + 131 else 0.

Section Witnesses.
#[local] Existing Instance phys_frames.

Lemma paged_pages_ok : pages_ok 8191 paged_pages = true.
Proof. reflexivity. Qed.

Lemma paged_stores_ok : stores_ok paged_pages paged_writes = true.
Proof. reflexivity. Qed.

Lemma paged_size : 4096 * Z.of_nat (size (list_to_set paged_pages : gset Z)) <= 65536.
Proof. assert (size (list_to_set paged_pages : gset Z) = 12%nat) as -> by reflexivity. lia. Qed.

Lemma paged_written a v : a mod 8 = 0 -> assoc paged_writes a = Some v -> u64 v = v ->
  load64 (ram paged_state) a = Ok v.
Proof. apply (machine_written 8191 paged_pages); [exact paged_pages_ok|exact paged_stores_ok]. Qed.

Lemma paged_unwritten a : a mod 8 = 0 -> assoc paged_writes a = None ->
  sample_hhdm + 2 <= a /\ a + 8 <= sample_hhdm + 65536 \/ sample_alloc <= a /\ a + 8 <= sample_alloc + 169 ->
  load64 (ram paged_state) a = Ok 0.
Proof. apply (machine_unwritten 8191 paged_pages); [exact paged_pages_ok|exact paged_stores_ok]. Qed.

(** The big blocks, one by one. *)
Lemma paged_big pg n sz : h_big paged_heap !! pg = Some (n, sz) ->
  n = 1 /\ sz = 4096 /\ (pg = 1 \/ pg = 3 \/ pg = 5 \/ pg = 7 \/ pg = 9 \/ pg = 11).
Proof.
  cbn [paged_heap h_big]. intros Hb.
  repeat (apply lookup_insert_Some in Hb as [[<- [= <- <-]]|[_ Hb]]; [lia|]).
  apply lookup_singleton_Some in Hb as [<- [= <- <-]]. lia.
Qed.

Lemma paged_shape : @heap_shape phys (phys_frames sample_hhdm) paged_heap.
Proof.
  constructor; cbn [paged_heap h_slab h_owned h_free h_live].
  - intros pg i. by rewrite lookup_empty.
  - intros i a _ Ha. by apply elem_of_nil in Ha.
  - intros i _. apply NoDup_nil_2.
  - intros a Ha. by apply elem_of_empty in Ha.
  - intros pg n sz Hb. apply paged_big in Hb as (-> & -> & Hpg). split_and!; [lia|lia|lia| |set_solver].
    intros i Hi%elem_of_pages. apply elem_of_list_to_set. unfold paged_pages. rewrite !elem_of_cons. lia.
  - intros pg n sz pg' n' sz' Hb Hb' Hne. apply paged_big in Hb as (-> & -> & Hpg), Hb' as (-> & -> & Hpg').
    intros i Hi%elem_of_pages Hi'%elem_of_pages. lia.
Qed.

Lemma paged_heap_inv : @heap_inv phys (phys_frames sample_hhdm) sample_laws sample_alloc paged_state paged_heap.
Proof.
  constructor; [apply (machine_inv 8191 paged_pages)| |exact paged_shape|].
  - exact paged_pages_ok.
  - exact paged_stores_ok.
  - exact paged_size.
  - apply (machine_table_ok 8191 paged_pages paged_writes paged_pages_ok paged_stores_ok paged_size). by left.
  - constructor; cbn [paged_heap h_slab h_free wmem phys_frames].
    + intros pg i Hp. exfalso. rewrite lookup_empty in Hp. discriminate Hp.
    + intros i Hi. destruct (class_cases i Hi) as [->|[->|[->|[->|[->|[->|[->|[->|[->| ->]]]]]]]]];
        by apply paged_written.
    + intros i Hi. exists 0. split; [|reflexivity].
      destruct (class_cases i Hi) as [->|[->|[->|[->|[->|[->|[->|[->|[->| ->]]]]]]]]];
        (apply paged_unwritten; [reflexivity|reflexivity|right; unfold slab_at, sample_alloc; lia]).
    + intros pg n sz Hb. apply paged_big in Hb as (-> & -> & [->|[->|[->|[->|[->| ->]]]]]);
        split; by apply paged_written.
Qed.

Lemma paged_lookup p t : paged_tables !! p = Some t ->
  (p, t) ∈ [([], paged_page 2); ([0], paged_page 4); ([0; 0], paged_page 6); ([0; 0; 0], paged_page 8); ([0; 1], paged_page 12)].
Proof.
  unfold paged_tables. intros Hp. rewrite !elem_of_cons.
  repeat (apply lookup_insert_Some in Hp as [[<- <-]|[_ Hp]]; [tauto|]).
  apply lookup_singleton_Some in Hp as [<- <-]. tauto.
Qed.

Lemma paged_block pg : h_big paged_heap !! pg = Some (1, 4096) -> bool_decide (pg + 1 ∈ paged_pages) = true ->
  @table_at phys (phys_frames sample_hhdm) paged_heap (paged_page (pg + 1)).
Proof.
  intros Hb Hp%bool_decide_eq_true. split.
  - exact (@block_big phys (phys_frames sample_hhdm) paged_heap pg 1 4096 Hb).
  - exists (pg + 1). split; [reflexivity|]. by apply elem_of_list_to_set.
Qed.

Definition paged_keys : list Z := Eval vm_compute in List.map fst paged_writes.

Lemma paged_keys_eq : List.map fst paged_writes = paged_keys.
Proof. reflexivity. Qed.

(** An entry the stores left alone. *)
Lemma paged_zero p i : 1 < p < 16 -> 0 <= i < 512 -> paged_page p + 8 * i ∉ List.map fst paged_writes ->
  load64 (ram paged_state) (paged_page p + 8 * i) = Ok 0.
Proof.
  intros Hp Hi Ha. apply paged_unwritten; [|by apply assoc_none|left; unfold paged_page, sample_hhdm; lia].
  unfold paged_page, sample_hhdm. Z.to_euclidean_division_equations. lia.
Qed.

Ltac no_store :=
  rewrite paged_keys_eq; unfold paged_keys, paged_page, sample_hhdm; rewrite !elem_of_cons, elem_of_nil; lia.

Ltac no_path := rewrite ?decide_False by (intros [=]; lia); reflexivity.

Lemma paged_none p : p ∉ [[]; [0]; [0; 0]; [0; 0; 0]; [0; 1]] -> paged_tables !! p = None.
Proof.
  intros Hp. destruct (paged_tables !! p) as [t|] eqn:E; [|done]. apply paged_lookup in E.
  exfalso. apply Hp. rewrite !elem_of_cons in *.
  destruct E as [[= -> _]|[[= -> _]|[[= -> _]|[[= -> _]|[[= -> _]|E]]]]]; try tauto. by apply elem_of_nil in E.
Qed.

(** Any other entry of a table. *)
Ltac empty_entry :=
  exists 0; split_and!; [apply paged_zero; [lia|lia|no_store]|lia|lia|];
  rewrite paged_none;
    [unfold paged_leaf; no_path
    |rewrite !elem_of_cons, elem_of_nil; intros Hin; repeat destruct Hin as [Hin|Hin];
     try discriminate Hin; try (injection Hin; lia); done].

(** The 512 entries of a table of the sample. *)
Lemma paged_entry p t i : paged_tables !! p = Some t -> 0 <= i < 512 ->
  exists e, load64 (ram paged_state) (t + 8 * i) = Ok e /\ 0 <= e < W64 /\
    match paged_tables !! (p ++ [i]) with
    | Some t' => pte_get_flag e present = true /\ tohh sample_hhdm (pte_address e) = t' /\
        e = table_entry (paged_leaf (p ++ [i])) (fromhh sample_hhdm t')
    | None => paged_leaf (p ++ [i]) = e
    end.
Proof.
  intros Hp Hi. apply paged_lookup in Hp. rewrite !elem_of_cons in Hp.
  assert (forall q e, q mod 8 = 0 -> assoc paged_writes q = Some e -> 0 <= e < W64 ->
            load64 (ram paged_state) q = Ok e) as Hw.
  { intros q e Hq Ha He. apply paged_written; [done|done|by apply u64_small]. }
  destruct Hp as [[= -> ->]|[[= -> ->]|[[= -> ->]|[[= -> ->]|[[= -> ->]|Hp]]]]]; [..|by apply elem_of_nil in Hp]; simpl app.
  - destruct (decide (i = 0)) as [->|H0].
    + exists (4 * 4096 + 7). split_and!; [by apply Hw|lia|lia|]. by vm_compute.
    + empty_entry.
  - destruct (decide (i = 0)) as [->|H0]; [|destruct (decide (i = 1)) as [->|H1]].
    + exists (6 * 4096 + 7). split_and!; [by apply Hw|lia|lia|]. by vm_compute.
    + exists (12 * 4096 + 7). split_and!; [by apply Hw|lia|lia|]. by vm_compute.
    + empty_entry.
  - destruct (decide (i = 0)) as [->|H0]; [|destruct (decide (i = 1)) as [->|H1]].
    + exists (8 * 4096 + 7). split_and!; [by apply Hw|lia|lia|]. by vm_compute.
    + exists (10 * 4096 + 131). split_and!; [by apply Hw|lia|lia|]. by vm_compute.
    + empty_entry.
  - destruct (decide (i = 5)) as [->|H5].
    + exists (10 * 4096 + 3). split_and!; [by apply Hw|lia|lia|]. by vm_compute.
    + empty_entry.
  - empty_entry.
Qed.

Lemma paged_view : @pt_view phys (phys_frames sample_hhdm) sample_laws sample_alloc paged_state paged_heap
  (top_level paged_map) paged_tables paged_leaf.
Proof.
  constructor.
  - exact paged_heap_inv.
  - reflexivity.
  - intros p t Hp%paged_lookup. rewrite !elem_of_cons in Hp.
    destruct Hp as [[= -> ->]|[[= -> ->]|[[= -> ->]|[[= -> ->]|[[= -> ->]|Hp]]]]]; [..|by apply elem_of_nil in Hp];
      (split; [simpl; lia|]).
    + by apply (paged_block 1).
    + by apply (paged_block 3).
    + by apply (paged_block 5).
    + by apply (paged_block 7).
    + by apply (paged_block 11).
  - intros p q t Hp%paged_lookup Hq%paged_lookup. rewrite !elem_of_cons in Hp, Hq. unfold paged_page in *.
    destruct Hp as [[= -> ->]|[[= -> ->]|[[= -> ->]|[[= -> ->]|[[= -> ->]|Hp]]]]]; [..|by apply elem_of_nil in Hp];
      destruct Hq as [[= ->]|[[= ->]|[[= ->]|[[= ->]|[[= ->]|Hq]]]]]; try done; by apply elem_of_nil in Hq.
  - exact paged_entry.
  - intros p i Hp.
    assert (p ∉ [[]; [0]; [0; 0]; [0; 0; 0]; [0; 1]]) as Hn.
    { intros Hin. rewrite !elem_of_cons, elem_of_nil in Hin. by destruct Hin as [->|[->|[->|[->|[->|[]]]]]]. }
    rewrite !elem_of_cons, elem_of_nil in Hn. split.
    + unfold paged_leaf. rewrite !decide_False; [done|..]; intros E.
      * apply (app_inj_2 p [0; 0] [i] [1]) in E as [-> _]; [tauto|done].
      * apply (app_inj_2 p [0; 0; 0] [i] [5]) in E as [-> _]; [tauto|done].
    + apply paged_none. rewrite !elem_of_cons, elem_of_nil. intros Hin.
      destruct Hin as [E|[E|[E|[E|[E|[]]]]]].
      * by destruct p.
      * apply (app_inj_2 p [] [i] [0]) in E as [-> _]; [tauto|done].
      * apply (app_inj_2 p [0] [i] [0]) in E as [-> _]; [tauto|done].
      * apply (app_inj_2 p [0; 0] [i] [0]) in E as [-> _]; [tauto|done].
      * apply (app_inj_2 p [0] [i] [1]) in E as [-> _]; [tauto|done].
Qed.

Lemma paged_sizes : std_sizes paged_map.
Proof. by constructor. Qed.

Lemma paged_map_ok : @page_map phys (phys_frames sample_hhdm) sample_laws sample_alloc paged_map paged_state paged_leaf.
Proof. exists paged_heap, paged_tables. exact paged_view. Qed.

(** An address whose entry is in use, and its frame. *)
Definition used_address : Z := 5 * 4096.

Lemma used_clear : path_clear paged_leaf (path_of used_address) 4.
Proof. intros [|[|[|[|j]]]] Hj; [lia|reflexivity..|lia]. Qed.

Lemma paging_refines_witness : exists r w',
  @run_op phys (phys_frames sample_hhdm) sample_alloc false paged_map (Pmap used_address 36864 RW WRITE_BACK) paged_state = Ok (r, w').
Proof.
  destruct (@paging_refines phys (phys_frames sample_hhdm) sample_laws sample_alloc false paged_map
    paged_sizes paged_state paged_leaf (Pmap used_address 36864 RW WRITE_BACK) paged_map_ok)
    as [(r & w' & leaf' & E & _)|(_ & Hz & _)].
  - split; [by vm_compute|]. split; [exact used_clear|by vm_compute].
  - exists r, w'. exact E.
  - discriminate Hz.
Defined.

Lemma map_translates_witness : exists w',
  @virtual_to_physical phys (phys_frames sample_hhdm) sample_alloc paged_map (used_address + 7) 0 w' = Ok (36864 + 7, w').
Proof.
  destruct (@map_translates phys (phys_frames sample_hhdm) sample_laws sample_alloc false paged_map
    paged_sizes paged_state paged_leaf used_address 36864 RW WRITE_BACK paged_map_ok)
    as [(w' & _ & Ht)|(_ & Hz & _)].
  - by vm_compute.
  - by vm_compute.
  - by vm_compute.
  - exact used_clear.
  - exists w'. destruct (Ht (used_address + 7)) as (r & _ & E); [split; [discriminate|reflexivity]|exact used_clear|]. exact E.
  - discriminate Hz.
Defined.

Lemma rights_exact_witness : exists w' e,
  @set_flags phys (phys_frames sample_hhdm) sample_alloc paged_map used_address RW WRITE_BACK paged_state = Ok (true, w') /\
  pte_address e = 40960 /\ Z.testbit e 63 = true.
Proof.
  destruct (@rights_exact phys (phys_frames sample_hhdm) sample_laws sample_alloc false paged_map
    paged_sizes paged_state paged_leaf used_address 36864 RW WRITE_BACK paged_map_ok)
    as [[(_ & Hz & _)|(w' & e & E & _ & Ha & Hb)] _].
  - by vm_compute.
  - by vm_compute.
  - exact used_clear.
  - by vm_compute.
  - discriminate Hz.
  - exists w', e. split; [exact E|]. split; [exact Ha|]. rewrite Hb by lia. by vm_compute.
Defined.

Lemma map_huge_splits_witness : exists w',
  @map phys (phys_frames sample_hhdm) sample_alloc false paged_map GiB1 GiB1 (Z.lor RW LLPAGE) WRITE_BACK paged_state = Ok (true, w') /\
  @virtual_to_physical phys (phys_frames sample_hhdm) sample_alloc paged_map (GiB1 + 5000000) LPAGE w' =
    Ok (GiB1 + 5000000 + 4096, w').
Proof.
  assert (forall k, 0 <= k < 512 -> path_of (GiB1 + k * MiB2) = [0; 1; k; 0]) as Hp.
  { intros k Hk. unfold path_of. rewrite !index_at_div by (unfold GiB1, MiB2; lia). unfold GiB1, MiB2.
    repeat f_equal; Z.to_euclidean_division_equations; lia. }
  destruct (@map_huge_splits phys (phys_frames sample_hhdm) sample_laws sample_alloc false paged_map
    paged_sizes paged_state paged_heap paged_tables paged_leaf
    GiB1 GiB1 (Z.lor RW LLPAGE) WRITE_BACK paged_view) as [(w' & h' & N' & leaf' & E & _ & Ht & _)|(_ & (k & j & Hk & Hj & Hn) & _)];
    [reflexivity|reflexivity|by vm_compute|by vm_compute|by vm_compute|by vm_compute|by vm_compute|by vm_compute|..].
  - intros k Hk. unfold entry_path. rewrite Hp by done. split.
    + intros [|[|[|j]]] Hj; [lia|reflexivity..|lia].
    + apply paged_none. rewrite !elem_of_cons, elem_of_nil. simpl. intros [?|[?|[?|[?|[?|[]]]]]]; done.
  - exists w'. split; [exact E|]. apply (Ht 5000000). split; [discriminate|reflexivity].
  - exfalso. rewrite Hp in Hn by done. destruct j as [|[|[|j]]]; [lia|discriminate Hn|discriminate Hn|lia].
Defined.

Lemma unmap_large_corrupts_witness : exists w',
  @unmap phys (phys_frames sample_hhdm) sample_alloc false paged_map MiB2 LPAGE paged_state = Ok (true, ([MiB2], w')) /\
  @virtual_to_physical phys (phys_frames sample_hhdm) sample_alloc paged_map MiB2 LPAGE w' = Ok (40960, w').
Proof.
  destruct (@unmap_large_corrupts phys (phys_frames sample_hhdm) sample_laws sample_alloc false paged_map
    paged_sizes paged_state paged_heap paged_tables paged_leaf
    MiB2 (paged_page 10) 4096 paged_view) as (w' & E & _ & _ & Ht).
  - by vm_compute.
  - intros [|[|[|j]]] Hj; [lia|reflexivity..|lia].
  - apply paged_none. rewrite !elem_of_cons, elem_of_nil. intros [E|[E|[E|[E|[E|[]]]]]]; discriminate E.
  - reflexivity.
  - exact (@block_big phys (phys_frames sample_hhdm) paged_heap 9 1 4096 eq_refl).
  - intros q t Hq%paged_lookup ->. rewrite !elem_of_cons, elem_of_nil in Hq. 
    destruct Hq as [E|[E|[E|[E|[E|[]]]]]]; apply (f_equal snd) in E; discriminate E.
  - by vm_compute.
  - by vm_compute.
  - by vm_compute.
  - by vm_compute.
  - exists w'. split; [exact E|exact Ht].
Defined.

Lemma paged_run : pmm_run paged_state 2.
Proof.
  apply (machine_run 8191 paged_pages paged_writes paged_pages_ok paged_stores_ok paged_size 13); by vm_compute.
Qed.

Lemma pagemap_new_shares_witness : exists pm' w',
  @pagemap_new phys (phys_frames sample_hhdm) sample_alloc (Some paged_map) paged_state = Ok (pm', w') /\
  @virtual_to_physical phys (phys_frames sample_hhdm) sample_alloc pm' used_address 0 w' = Ok (invalid_addr, w').
Proof.
  destruct (@pagemap_new_shares phys (phys_frames sample_hhdm) sample_laws sample_alloc paged_map
    paged_sizes paged_state paged_leaf paged_map_ok) as [(pm' & w' & E & _ & _ & Ht)|[_ Hno]].
  - exists pm', w'. split; [exact E|]. apply (Ht used_address); [split; [discriminate|reflexivity]|exact used_clear].
  - destruct (Hno paged_run).
Defined.
End Witnesses.
