(* ===== verification/Mmu.v ===== *)
(** * What the processor makes of the page tables

    A reference definition of the four-level page walk of x86-64: from the address
    in cr3 and the tables in physical memory, read through the direct map, to the
    physical address and the rights.  It knows nothing of the kernel's routines.  The
    lemmas relate it to the function from paths to entries of [PagingProofs]. *)

From S2P Require Import Prelude Memory LibcString Frames Math Physical Heap HeapInv HeapProofs HeapTheorems Paging.
From S2P Require Import PagingProofs PagingTheorems.

Record access : Type := Access { ac_address : Z; ac_write : bool; ac_user : bool; ac_exec : bool }.

Section Mmu.
Context (hh : Z) (m : mem).

(** An entry that maps a page of [2 ^ shift] bytes; of the address bits below the
    page's only bit 12, which selects the caching, may be set. *)
Definition mmu_page (shift e va : Z) (w u x : bool) : option access :=
  let frame := Z.land e pa_mask in
  if (shift =? 12) || ((frame / 8192) mod 2 ^ (shift - 13) =? 0) then
    Some (Access (frame / 2 ^ shift * 2 ^ shift + va mod 2 ^ shift) w u x)
  else None.

(** The walk from the table at the physical address [table]; [level'] levels are
    below it.  Rights must be granted at every level; bit 7 ends the walk at the
    levels of 1 GiB and 2 MiB and is reserved at the top. *)
Fixpoint mmu_walk (level : nat) (table va : Z) (w u x : bool) : option access :=
  match level with
  | O => None
  | S level' =>
      let shift := 12 + 9 * Z.of_nat level' in
      match load64 m (hh + table + 8 * index_at va shift) with
      | Ok e =>
          if Z.testbit e 0 then
            let w := w && Z.testbit e 1 in
            let u := u && Z.testbit e 2 in
            let x := x && negb (Z.testbit e 63) in
            match level' with
            | O => mmu_page shift e va w u x
            | S _ =>
                if Z.testbit e 7 then
                  if (level' <=? 2)%nat then mmu_page shift e va w u x else None
                else mmu_walk level' (Z.land e pa_mask) va w u x
            end
          else None
      | _ => None
      end
  end.

(** The translation of an address; [None] is a page fault. *)
Definition mmu (cr3 va : Z) : option access :=
  if is_canonical va then mmu_walk 4 (Z.land cr3 pa_mask) va true true true else None.
End Mmu.

#[global] Arguments mmu_walk : simpl never.

(** What an entry for a page of [psize] bytes gives. *)
Definition page_shift (psize : Z) : Z := if psize =? GiB1 then 30 else if psize =? MiB2 then 21 else 12.
Definition mmu_entry (psize va e : Z) : option access :=
  if Z.testbit e 0 && ((psize =? KiB4) || Z.testbit e 7) then
    mmu_page (page_shift psize) e va (Z.testbit e 1) (Z.testbit e 2) (negb (Z.testbit e 63))
  else None.

Lemma pow_page_shift psize : page_size_ok psize -> 2 ^ page_shift psize = psize.
Proof. by intros [->|[->| ->]]. Qed.

(** ** Entries that point to tables *)

Lemma table_entry_bits a n : Z.land a pa_mask = a -> 0 <= n < 12 \/ 52 <= n < 64 ->
  Z.testbit (table_entry 0 a) n = (n <? 3).
Proof.
  intros Ha Hn. unfold table_entry, pte_set_flags, pte_set_address.
  rewrite Z.lor_spec, clear_bits, Z.lor_spec, clear_bits, Z.bits_0 by lia.
  assert (Z.testbit a n = false) as ->.
  { rewrite <- Ha, Z.land_spec, pa_mask_bits by lia. destruct (Z.leb_spec 12 n), (Z.ltb_spec n 52); try lia; by rewrite andb_false_r. }
  change (Z.lor (Z.lor present write) user_super) with (Z.ones 3). rewrite Z.testbit_ones by lia.
  simpl. destruct (Z.leb_spec 0 n); [done|lia].
Qed.

Lemma table_entry_address old a : Z.land a pa_mask = a -> Z.land (table_entry old a) pa_mask = a.
Proof.
  intros Ha. change (Z.land (table_entry old a) pa_mask) with (pte_address (table_entry old a)).
  unfold table_entry. rewrite entry_address by done.
  replace (Z.land (Z.lor (Z.lor present write) user_super) pa_mask) with 0 by done. apply Z.lor_0_r.
Qed.

(** ** The walk over a view *)

Section Walk.
Context {W : Type} `{FrameLaws W} (allocator : Z).
Local Abbreviation hh := hhdm_offset.
Local Abbreviation pt_view := (pt_view allocator).

Lemma table_phys w h t : heap_inv allocator w h -> table_at h t ->
  hh + fromhh hh t = t /\ Z.land (fromhh hh t) pa_mask = fromhh hh t.
Proof.
  intros Hinv Ht. destruct (table_facts allocator w h t Hinv Ht) as (_ & _ & _ & _ & Hm & _). split; [|done].
  destruct Ht as (_ & pg & -> & Hpg). pose proof (hi_frames _ _ _ _ Hinv) as Hf.
  destruct (page_in_pages w _ pg Hf Hpg) as (? & ? & _ & ? & ? & _). destruct (frames_page w _ pg Hf Hpg) as (? & ? & _).
  unfold page_addr in *. rewrite fromhh_high; lia.
Qed.

Section View.
Context (w : W) (h : heap) (top : Z) (N : gmap (list Z) Z) (leaf : list Z -> Z).
Context (Hv : pt_view w h top N leaf).
Local Abbreviation walk := (mmu_walk hh (wmem w)).

(** One level of the walk: on to the next table, or not. *)
Lemma mmu_down level va p t : N !! p = Some t -> 0 <= va -> (0 < level)%nat ->
  let i := index_at va (12 + 9 * Z.of_nat level) in
  leaf (p ++ [i]) = 0 ->
  walk (S level) (fromhh hh t) va true true true =
  match N !! (p ++ [i]) with Some t' => walk level (fromhh hh t') va true true true | None => None end.
Proof.
  intros Hp Hva Hlev i Hl. assert (0 <= i < 512) as Hi by (apply index_range; lia).
  pose proof (pv_heap _ _ _ _ _ _ Hv) as Hinv. destruct (pv_table _ _ _ _ _ _ Hv p t Hp) as [_ Ht].
  destruct (table_phys w h t Hinv Ht) as [Eh _].
  destruct (pv_entry _ _ _ _ _ _ Hv p t i Hp Hi) as (e & El & _ & Hm).
  unfold mmu_walk at 1; fold mmu_walk. fold i. rewrite Eh, El.
  destruct (N !! (p ++ [i])) as [t'|] eqn:E; [|by rewrite <- Hm, Hl, Z.bits_0].
  destruct Hm as (_ & _ & ->). destruct (pv_table _ _ _ _ _ _ Hv _ t' E) as [_ Ht'].
  destruct (table_phys w h t' Hinv Ht') as [_ Hm]. rewrite Hl.
  rewrite !table_entry_bits by (done || lia). cbn [andb negb]. rewrite table_entry_address by done.
  by destruct level; [lia|].
Qed.

(** The level of the entry itself. *)
Lemma mmu_last level va p t : N !! p = Some t -> 0 <= va -> (level <= 2)%nat ->
  let shift := 12 + 9 * Z.of_nat level in
  let e := leaf (p ++ [index_at va shift]) in
  N !! (p ++ [index_at va shift]) = None ->
  (level = O \/ Z.testbit e 0 = false \/ Z.testbit e 7 = true) ->
  walk (S level) (fromhh hh t) va true true true =
  if Z.testbit e 0 then mmu_page shift e va (Z.testbit e 1) (Z.testbit e 2) (negb (Z.testbit e 63)) else None.
Proof.
  intros Hp Hva Hlev shift e Hn He. assert (0 <= index_at va shift < 512) as Hi by (apply index_range; lia).
  pose proof (pv_heap _ _ _ _ _ _ Hv) as Hinv. destruct (pv_table _ _ _ _ _ _ Hv p t Hp) as [_ Ht].
  destruct (table_phys w h t Hinv Ht) as [Eh _].
  destruct (pv_entry _ _ _ _ _ _ Hv p t _ Hp Hi) as (e' & El & _ & Hm). rewrite Hn in Hm. fold e in Hm. subst e'.
  unfold mmu_walk at 1; fold mmu_walk. fold shift. rewrite Eh, El. cbn [andb].
  destruct (Z.testbit e 0); [|done]. destruct level as [|level]; [done|].
  destruct He as [?|[?| ->]]; [done|done|]. by rewrite (proj2 (Nat.leb_le _ _)).
Qed.

(** The walk for an address whose entry is one for pages of [psize] bytes. *)
Lemma mmu_spec psize va : page_size_ok psize -> 0 <= va ->
  (forall j, (0 < j < depth psize)%nat -> leaf (take j (path_of va)) = 0) ->
  let e := leaf (entry_path psize va) in
  N !! entry_path psize va = None -> (psize = KiB4 \/ Z.testbit e 0 = false \/ Z.testbit e 7 = true) ->
  walk 4 (fromhh hh top) va true true true = mmu_entry psize va e.
Proof.
  intros Hps Hva Hc e Hn He. pose proof (pv_root _ _ _ _ _ _ Hv) as Hr.
  pose proof (pv_absent _ _ _ _ _ _ Hv) as Habs.
  assert (mmu_entry psize va e = if Z.testbit e 0 then
    mmu_page (page_shift psize) e va (Z.testbit e 1) (Z.testbit e 2) (negb (Z.testbit e 63)) else None) as ->.
  { unfold mmu_entry. destruct (Z.testbit e 0); [|done]. destruct He as [->|[?| ->]]; [done|done|]. by rewrite orb_true_r. }
  assert (forall b, leaf (entry_path psize va) = 0 -> None = if Z.testbit e 0 then b else @None access) as Hz
    by (intros b E; unfold e; by rewrite E, Z.bits_0).
  rewrite (mmu_down 3 va [] top Hr Hva) by (first [lia|apply (Hc 1%nat); destruct (depth_sizes psize Hps) as [[_ ->]|[[_ ->]|[_ ->]]]; lia]).
  simpl app. change (12 + 9 * Z.of_nat 3) with 39. set (i4 := index_at va 39) in *.
  destruct Hps as [->|[->| ->]]; change (entry_path KiB4 va) with [i4; index_at va 30; index_at va 21; index_at va 12] in *;
    change (entry_path MiB2 va) with [i4; index_at va 30; index_at va 21] in *;
    change (entry_path GiB1 va) with [i4; index_at va 30] in *.
  - destruct (N !! [i4]) as [t3|] eqn:E3.
    2:{ apply Hz. destruct (Habs _ (index_at va 30) E3) as [_ E2]. destruct (Habs _ (index_at va 21) E2) as [_ E1].
        by destruct (Habs _ (index_at va 12) E1). }
    rewrite (mmu_down 2 va [i4] t3 E3 Hva) by (first [lia|apply (Hc 2%nat); unfold depth; simpl; lia]).
    simpl app. change (12 + 9 * Z.of_nat 2) with 30. destruct (N !! [i4; index_at va 30]) as [t2|] eqn:E2.
    2:{ apply Hz. destruct (Habs _ (index_at va 21) E2) as [_ E1]. by destruct (Habs _ (index_at va 12) E1). }
    rewrite (mmu_down 1 va _ t2 E2 Hva) by (first [lia|apply (Hc 3%nat); unfold depth; simpl; lia]).
    simpl app. change (12 + 9 * Z.of_nat 1) with 21. destruct (N !! [i4; index_at va 30; index_at va 21]) as [t1|] eqn:E1.
    2:{ apply Hz. by destruct (Habs _ (index_at va 12) E1). }
    apply (mmu_last 0 va _ t1 E1 Hva); [lia|done|by left].
  - destruct (N !! [i4]) as [t3|] eqn:E3.
    2:{ apply Hz. destruct (Habs _ (index_at va 30) E3) as [_ E2]. by destruct (Habs _ (index_at va 21) E2). }
    rewrite (mmu_down 2 va [i4] t3 E3 Hva) by (first [lia|apply (Hc 2%nat); unfold depth; simpl; lia]).
    simpl app. change (12 + 9 * Z.of_nat 2) with 30. destruct (N !! [i4; index_at va 30]) as [t2|] eqn:E2.
    2:{ apply Hz. by destruct (Habs _ (index_at va 21) E2). }
    apply (mmu_last 1 va _ t2 E2 Hva); [lia|done|]. by destruct He; [|right].
  - destruct (N !! [i4]) as [t3|] eqn:E3; [|apply Hz; by destruct (Habs _ (index_at va 30) E3)].
    apply (mmu_last 2 va _ t3 E3 Hva); [lia|done|]. by destruct He; [|right].
Qed.
End View.
End Walk.
