(* ===== verification/PagingInit.v ===== *)
(** * The kernel's address space after boot

    What [paging_init] (memory/virtual.cpp) builds: which pages are asked for, that
    no two requests get in each other's way, and that the processor's walk of the
    tables gives every address the translation the boot code means it to have. *)

From S2P Require Import Prelude Memory LibcString Frames Math Physical Heap HeapInv HeapProofs HeapTheorems Paging.
From S2P Require Import PagingProofs PagingTheorems Mmu.

(** ** Computations that succeed or panic *)

(** [rich]: there is memory enough, and so no panic. *)
Definition ok_or_panic {A} (rich : bool) (c : outcome A) (Q : A -> Prop) : Prop :=
  (exists a, c = Ok a /\ Q a) \/ c = Panic /\ rich = false.

Section Rules.
Context {rich : bool}.
Local Abbreviation ok_or_panic := (ok_or_panic rich).

Lemma op_ok {A} (a : A) (Q : A -> Prop) : Q a -> ok_or_panic (Ok a) Q.
Proof. intros Hq. left. by exists a. Qed.

Lemma op_bind {A B} (c : outcome A) (k : A -> outcome B) Q R :
  ok_or_panic c Q -> (forall a, Q a -> ok_or_panic (k a) R) -> ok_or_panic (c ≫= k) R.
Proof. intros [(a & -> & Ha)|[-> ?]] Hk; [by apply Hk|by right]. Qed.

Lemma op_mono {A} (c : outcome A) (Q R : A -> Prop) : ok_or_panic c Q -> (forall a, Q a -> R a) -> ok_or_panic c R.
Proof. intros [(a & -> & Ha)|[-> ?]] Hk; [apply op_ok; by apply Hk|by right]. Qed.

Lemma op_steps {S} step (body : Z -> S -> outcome S) (I : Z -> S -> Prop) n i s :
  I 0 s -> (forall k s, 0 <= k < Z.of_nat n -> I k s -> ok_or_panic (body (i + k * step) s) (I (k + 1))) ->
  ok_or_panic (for_steps step body n i s) (I (Z.of_nat n)).
Proof.
  revert i s I. induction n as [|n IH]; intros i s I H0 Hb; [by apply op_ok|]. cbn [for_steps].
  pose proof (Hb 0 s) as Hb0. rewrite Z.mul_0_l, Z.add_0_r in Hb0.
  eapply op_bind; [apply Hb0; [lia|done]|]. intros s1 H1. simpl in H1. replace (Z.of_nat (Datatypes.S n)) with (Z.of_nat n + 1) by lia.
  apply (IH (i + step) s1 (fun k => I (k + 1))); [done|]. intros k t Hk Ht.
  replace (i + step + k * step) with (i + (k + 1) * step) by lia. apply Hb; [lia|done].
Qed.

Lemma op_large {S} (body : Z -> S -> outcome (bool * S)) (I : Z -> S -> Prop) n : forall i s,
  I i s -> (forall k s, 0 <= k < Z.of_nat n -> I (i + k * MiB2) s ->
     ok_or_panic (body (i + k * MiB2) s) (fun r => r.1 = true /\ I (i + (k + 1) * MiB2) r.2)) ->
  ok_or_panic (large_loop n i body s) (fun r => r.1 = true /\ I (i + Z.of_nat n * MiB2) r.2).
Proof.
  induction n as [|n IH]; intros i s H0 Hb.
  { apply op_ok. split; [done|]. simpl. by rewrite Z.add_0_r. }
  cbn [large_loop]. specialize (Hb 0) as H1. rewrite Z.mul_0_l, Z.add_0_r, Z.mul_1_l in H1.
  eapply op_bind; [apply H1; [lia|done]|]. intros [ok s1] [Eok Hs1]. simpl in Eok, Hs1. subst ok. cbv iota.
  replace (i + Z.of_nat (Datatypes.S n) * MiB2) with (i + MiB2 + Z.of_nat n * MiB2) by lia.
  apply IH; [done|]. intros k t Hk Ht.
  replace (i + MiB2 + k * MiB2) with (i + (k + 1) * MiB2) in * by lia.
  replace (i + MiB2 + (k + 1) * MiB2) with (i + (k + 1 + 1) * MiB2) by lia. apply Hb; [lia|done].
Qed.
End Rules.

(** ** Requests *)

(** A page the boot code asks for; all are writable and not the users'. *)
Record request : Type := Request { rq_va : Z; rq_pa : Z; rq_exec : bool; rq_size : Z }.

Definition rq_path (a : request) : list Z := entry_path (rq_size a) (rq_va a).
Definition rq_covers (a : request) (va : Z) : Prop := rq_va a <= va < rq_va a + rq_size a.

Record request_ok (a : request) : Prop := {
  ro_size : page_size_ok (rq_size a);
  ro_frame : frame_ok (rq_size a) (rq_pa a);
  ro_aligned : rq_va a mod rq_size a = 0;
  ro_range : 0 <= rq_va a < W64;
  ro_canonical : is_canonical (rq_va a) = true;
}.

(** Two requests whose pages meet are for the same page. *)
Definition compatible (P : request -> Prop) : Prop :=
  (forall a, P a -> request_ok a) /\
  forall a b, P a -> P b -> rq_size a <= rq_size b -> rq_covers b (rq_va a) ->
    rq_size a = rq_size b /\ rq_pa a = rq_pa b /\ rq_exec a = rq_exec b.

(** The flags of a request. *)
Definition flags_for (a : request) (flags : Z) : Prop :=
  has flags WRITE = true /\ has flags USER = false /\ has flags EXEC = rq_exec a /\
  (rq_size a = KiB4 \/ is_lpage flags = true).

(** An entry that gives what the request asks for. *)
Record entry_ok (a : request) (e : Z) : Prop := {
  eo_frame : pte_address e = rq_pa a \/ (rq_size a <> KiB4 /\ pte_address e = rq_pa a + 4096);
  eo_present : Z.testbit e 0 = true;
  eo_write : Z.testbit e 1 = true;
  eo_user : Z.testbit e 2 = false;
  eo_exec : Z.testbit e 63 = negb (rq_exec a);
  eo_large : rq_size a = KiB4 \/ Z.testbit e 7 = true;
}.

(** *** Addresses and paths *)

Lemma size_range psize : page_size_ok psize -> 4096 <= psize <= 1073741824.
Proof. intros [->|[->| ->]]; unfold KiB4, MiB2, GiB1; lia. Qed.

(** Canonical addresses with the same path lie in the same page. *)
Lemma canonical_path psize va va' : page_size_ok psize -> 0 <= va < W64 -> 0 <= va' < W64 ->
  is_canonical va = true -> is_canonical va' = true ->
  (entry_path psize va = entry_path psize va' <-> va / psize = va' / psize).
Proof.
  intros Hps Hv Hv' Hc Hc'. rewrite entry_path_page by (done || lia).
  unfold is_canonical in Hc, Hc'. rewrite orb_true_iff, !Z.leb_le in Hc, Hc'.
  split; [|by intros ->].
  destruct Hps as [->|[->| ->]]; unfold KiB4, MiB2, GiB1;
    change (281474976710656 / 4096) with 68719476736; change (281474976710656 / 2097152) with 134217728;
    change (281474976710656 / 1073741824) with 262144; intros E; Z.to_euclidean_division_equations; lia.
Qed.

Lemma covers_div psize b va : 0 < psize -> b mod psize = 0 -> (b <= va < b + psize <-> va / psize = b / psize).
Proof.
  intros Hp Hb. apply Z.mod_divide in Hb as [c ->]; [|lia]. rewrite Z.div_mul by lia.
  pose proof (Z.div_mod va psize ltac:(lia)). pose proof (Z.mod_pos_bound va psize Hp). split; [|intros <-; lia].
  intros Hr. symmetry. apply (Z.div_unique va psize c (va - c * psize)); [left|]; lia.
Qed.

Lemma covers_path a va : request_ok a -> 0 <= va < W64 -> is_canonical va = true ->
  (rq_covers a va <-> entry_path (rq_size a) va = rq_path a).
Proof.
  intros [Hs _ Hal Hr Hc] Hva Hcv. pose proof (size_range _ Hs).
  unfold rq_path, rq_covers. rewrite (covers_div (rq_size a)), canonical_path by (done || lia). done.
Qed.

Lemma path_prefix va j p psize : take j (path_of va) = entry_path psize p -> page_size_ok psize -> (j <= 4)%nat ->
  j = depth psize /\ entry_path psize va = entry_path psize p.
Proof.
  intros E Hs Hj. pose proof (f_equal length E) as El. rewrite entry_path_length, length_take, path_length in El.
  assert (j = depth psize) as -> by lia. by split.
Qed.

Lemma depth_lt s s' : page_size_ok s -> page_size_ok s' -> (depth s < depth s')%nat -> s' < s.
Proof. by intros [->|[->| ->]] [->|[->| ->]]; unfold KiB4, MiB2, GiB1, depth; simpl; lia. Qed.

Lemma depth_inj s s' : page_size_ok s -> page_size_ok s' -> depth s = depth s' -> s = s'.
Proof. by intros [->|[->| ->]] [->|[->| ->]]. Qed.

(** *** Entries *)

Lemma mapped_entry_ok a e flags cache : request_ok a -> flags_for a flags ->
  e = 0 \/ entry_ok a e ->
  entry_ok a (mapped_entry e (rq_pa a) flags cache (negb (rq_size a =? KiB4))).
Proof.
  intros [Hs (Hm & Hp & Hb) _ _ _] (Hw & Hu & Hx & Hl) He. pose proof (size_range _ Hs).
  assert (rq_pa a mod 4096 = 0) as Hm4 by (by apply (page_multiple (rq_size a)); auto).
  set (larger := negb (rq_size a =? KiB4)).
  destruct (flags_facts flags cache larger) as (H0 & _ & Hf).
  assert (forall n, 0 <= n < 12 \/ 52 <= n < 64 ->
    Z.testbit (mapped_entry e (rq_pa a) flags cache larger) n =
    Z.testbit e n || Z.testbit (Z.lor (flags_to_arch flags) (cache_to_flags cache larger)) n) as Hbit.
  { intros n Hn. apply entry_bit; [done|lia|done]. }
  assert (forall n b, (e = 0 \/ Z.testbit e n = b) -> 0 <= n < 12 \/ 52 <= n < 64 ->
    Z.testbit (Z.lor (flags_to_arch flags) (cache_to_flags cache larger)) n = b ->
    Z.testbit (mapped_entry e (rq_pa a) flags cache larger) n = b) as Hset.
  { intros n b Hen Hn Hfn. rewrite Hbit, Hfn by done. destruct Hen as [->|Hen].
    - by rewrite Z.bits_0.
    - rewrite Hen. by destruct b. }
  assert (larger = false /\ rq_size a = KiB4 \/ larger = true /\ rq_size a <> KiB4 /\ is_lpage flags = true) as Hlg.
  { unfold larger. destruct (Z.eqb_spec (rq_size a) KiB4) as [E|E]; [by left|right]. destruct Hl as [?|?]; done. }
  assert (forall n, (n = 1 \/ n = 2 \/ n = 63 \/ n = 7 /\ larger = true) ->
    Z.testbit (Z.lor (flags_to_arch flags) (cache_to_flags cache larger)) n =
    if n =? 1 then true else if n =? 2 then false else if n =? 63 then negb (rq_exec a) else true) as Hfl.
  { unfold flags_to_arch. rewrite Hw, Hu, Hx. destruct Hlg as [[-> _]|(-> & _ & ->)];
      destruct (rq_exec a), (has flags GLOBAL), (is_lpage flags), cache;
      intros n [->|[->|[->|[-> ?]]]]; done. }
  constructor.
  - unfold mapped_entry. rewrite entry_address by (apply frame_mask; [done|lia]). rewrite Hf.
    destruct Hlg as [[-> Ek]|(-> & Hk & _)].
    + left. apply Z.lor_0_r.
    + pose proof (pat_field_range cache (rq_size a)) as Hpr.
      unfold pat_field in Hpr. rewrite (proj2 (Z.eqb_neq _ _)) in Hpr by done.
      assert (Z.land (cache_to_flags cache true) patlg = 0 \/ Z.land (cache_to_flags cache true) patlg = 4096) as Hc
        by (destruct cache; vm_compute; auto).
      rewrite (lor_disjoint _ _ 13) by (first [lia|apply (page_multiple (rq_size a)); auto]).
      destruct Hc as [-> | ->]; [left; lia|by right].
  - by rewrite Hbit, H0, orb_true_r by lia.
  - apply Hset; [destruct He as [?|[]]; auto|lia|by rewrite Hfl by auto].
  - apply Hset; [destruct He as [?|[]]; auto|lia|by rewrite Hfl by auto].
  - apply Hset; [destruct He as [?|[]]; auto|lia|by rewrite Hfl by auto].
  - destruct Hlg as [[_ Ek]|(El & Hk & _)]; [by left|right]. rewrite Hbit by lia. rewrite Hfl by auto. apply orb_true_r.
Qed.

(** What the processor makes of such an entry. *)
Lemma entry_ok_access a e va : request_ok a -> entry_ok a e -> 0 <= va -> rq_covers a va ->
  mmu_entry (rq_size a) va e = Some (Access (rq_pa a + (va - rq_va a)) true false (rq_exec a)).
Proof.
  intros [Hs (Hm & Hp & _) Hal Hr _] [Hf H0 H1 H2 H63 H7] Hva Hc. unfold mmu_entry. rewrite H0, H1, H2, H63, negb_involutive.
  assert ((rq_size a =? KiB4) || Z.testbit e 7 = true) as ->.
  { destruct H7 as [->| ->]; [done|apply orb_true_r]. }
  simpl andb. cbv iota. unfold mmu_page. fold (pte_address e).
  assert (va mod rq_size a = va - rq_va a) as Ev.
  { pose proof (size_range _ Hs). apply (covers_div (rq_size a)) in Hc; [|lia|done].
    pose proof (Z.div_mod va (rq_size a)). pose proof (Z.div_mod (rq_va a) (rq_size a)). rewrite Hc in *. lia. }
  rewrite pow_page_shift, Ev by done.
  assert (pte_address e / rq_size a * rq_size a = rq_pa a /\
          (page_shift (rq_size a) =? 12) || ((pte_address e / 8192) mod 2 ^ (page_shift (rq_size a) - 13) =? 0) = true) as [-> ->]; [|done].
  unfold page_shift. destruct Hs as [Es|[Es|Es]]; rewrite Es in *.
  - destruct Hf as [->|[? _]]; [|done]. split; [|done]. unfold KiB4 in *. Z.to_euclidean_division_equations. lia.
  - change (2 ^ (21 - 13)) with 256. unfold MiB2 in *. simpl orb. rewrite Z.eqb_eq.
    destruct Hf as [->|[_ ->]]; Z.to_euclidean_division_equations; lia.
  - change (2 ^ (30 - 13)) with 131072. unfold GiB1 in *. simpl orb. rewrite Z.eqb_eq.
    destruct Hf as [->|[_ ->]]; Z.to_euclidean_division_equations; lia.
Qed.

(** ** Building the map *)

Section Build.
Context {W : Type} `{FrameLaws W} (allocator : Z) (gib1_pages : bool).
Context (pm : pagemap) (Hss : std_sizes pm).
Context (P : request -> Prop) (HP : compatible P).
(* the paths of the tables the requests need, and whether there is memory for them *)
Context (Q : gset (list Z)) (rich : bool).
Context (HQ : forall a, P a -> forall j, (0 < j < depth (rq_size a))%nat -> take j (path_of (rq_va a)) ∈ Q).
Local Abbreviation pt_view := (pt_view allocator).
Local Abbreviation ok_or_panic := (ok_or_panic rich).

(** Every entry comes from a request, and the requests of [D] have been met. *)
Record built (w : W) (D : request -> Prop) (h : heap) (N : gmap (list Z) Z) (leaf : list Z -> Z) : Prop := {
  bt_view : pt_view w h (top_level pm) N leaf;
  bt_entries : forall q, leaf q = 0 \/ exists a, P a /\ rq_path a = q /\ entry_ok a (leaf q);
  bt_tables : forall a, P a -> N !! rq_path a = None;
  bt_done : forall a, D a -> P a /\ entry_ok a (leaf (rq_path a));
  bt_paths : forall q, is_Some (N !! q) -> q ∈ Q;
  bt_run : rich = true -> frames_run w (2 * Z.of_nat (size Q) - 2 * Z.of_nat (size N));
}.

Definition holds (w : W) (D : request -> Prop) : Prop := exists h N leaf, built w D h N leaf.

(** [c] maps the requests [S]. *)
Definition maps (c : W -> outcome (bool * W)) (S : request -> Prop) : Prop :=
  forall w D, holds w D -> ok_or_panic (c w) (fun r => r.1 = true /\ holds r.2 (fun a => D a \/ S a)).

Lemma holds_mono w D D' : holds w D -> (forall a, D' a -> D a) -> holds w D'.
Proof.
  intros (h & N & leaf & [Hv He Ht Hd Hp Hr]) Hs. exists h, N, leaf. constructor; try done. intros a Ha. by apply Hd, Hs.
Qed.

Lemma entry_zero a : ~ entry_ok a 0.
Proof. intros Ho. pose proof (eo_present _ _ Ho) as E. by rewrite Z.bits_0 in E. Qed.

(** No request lies on the way to another. *)
Lemma prefix_free a b j : P a -> P b -> (0 < j < depth (rq_size a))%nat -> rq_path b <> take j (path_of (rq_va a)).
Proof.
  intros Ha Hb Hj E. destruct (proj1 HP a Ha) as [Hsa _ _ Hra Hca]. pose proof (proj1 HP b Hb) as Hob.
  pose proof (ro_size _ Hob) as Hsb. pose proof (depth_bounds (rq_size a)).
  symmetry in E. apply path_prefix in E as [-> E]; [|done|lia].
  pose proof (depth_lt _ _ Hsb Hsa (proj2 Hj)) as Hlt.
  destruct (proj2 HP a b Ha Hb) as (? & _); [lia|by apply covers_path|lia].
Qed.

(** Requests for the same entry ask for the same. *)
Lemma same_path a b : P a -> P b -> rq_path a = rq_path b ->
  rq_size a = rq_size b /\ rq_pa a = rq_pa b /\ rq_exec a = rq_exec b.
Proof.
  intros Ha Hb E. destruct (proj1 HP a Ha) as [Hsa _ _ Hra Hca]. pose proof (proj1 HP b Hb) as Hob.
  pose proof (ro_size _ Hob) as Hsb.
  assert (rq_size a = rq_size b) as Es.
  { apply (f_equal length) in E. unfold rq_path in E. rewrite !entry_path_length in E.
    by apply depth_inj. }
  apply (proj2 HP); [done|done|lia|]. apply covers_path; [done..|]. by rewrite <- Es.
Qed.

Lemma entry_ok_same a b e : P a -> P b -> rq_path a = rq_path b -> entry_ok a e -> entry_ok b e.
Proof.
  intros Ha Hb E [F0 F1 F2 F3 F4 F5]. destruct (same_path a b Ha Hb E) as (Es & Ep & Ex).
  constructor; by rewrite <- ?Es, <- ?Ep, <- ?Ex.
Qed.

(** The tables of a walk for a request are among [Q]. *)
Lemma walk_paths a N N' : P a -> (forall q, is_Some (N !! q) -> q ∈ Q) -> walk_keeps (rq_va a) (rq_size a) N N' ->
  forall q, is_Some (N' !! q) -> q ∈ Q.
Proof.
  intros Ha HN Hk q [t Hq]. destruct (decide (q ∈ Q)) as [|Hn]; [done|]. apply HN. exists t.
  rewrite <- Hk; [done|]. intros j Hj ->. by apply Hn, HQ.
Qed.

(** With memory for all of [Q] no walk is short of it. *)
Lemma rich_walk a w N : P a -> (forall q, is_Some (N !! q) -> q ∈ Q) ->
  (rich = true -> frames_run w (2 * Z.of_nat (size Q) - 2 * Z.of_nat (size N))) ->
  short_of_tables (rq_va a) (rq_size a) w N -> rich = false.
Proof.
  intros Ha HN Hr (N1 & j & _ & Hk & Hj & Hn & Hno). apply not_true_iff_false. intros Hrich. apply Hno.
  apply (frames_run_le _ _ _ (Hr Hrich)).
  pose proof (size_missing N1 Q (take j (path_of (rq_va a))) (walk_paths a N N1 Ha HN Hk) (HQ a Ha j Hj) Hn). lia.
Qed.

(** One entry. *)
Lemma map_one_built a flags cache : P a -> flags_for a flags ->
  maps (map_one allocator pm (rq_va a) (rq_pa a) flags cache (rq_size a)) (fun b => b = a).
Proof.
  intros Ha Hf w D (h & N & leaf & [Hv He Ht Hd HpQ Hrun]). pose proof (proj1 HP a Ha) as Hoa.
  pose proof Hoa as [Hsa (Hm & Hp & Hb) Hal Hra Hca].
  destruct (map_one_spec allocator pm Hss w h N leaf Hv (rq_va a) (rq_pa a) flags cache (rq_size a))
    as [(w' & h' & N' & -> & Hv' & _ & Hk & Hcost)|[-> Hshort]]; [lia|pose proof (size_range _ Hsa); lia|done| |by apply Ht| |].
  3:{ right. split; [done|]. by apply (rich_walk a w N). }
  - intros j Hj. destruct (He (take j (path_of (rq_va a)))) as [->|(b & Hpb & Eb & _)]; [done|].
    by destruct (prefix_free a b j).
  - apply op_ok. split; [done|]. fold (rq_path a) in Hv'. set (e := mapped_entry _ _ _ _ _) in Hv'.
    assert (entry_ok a e) as Heo.
    { apply mapped_entry_ok; [done|done|]. destruct (He (rq_path a)) as [->|(b & Hpb & Eb & Hob)]; [by left|right].
      by apply (entry_ok_same b a). }
    exists h', N', (set_entry leaf (rq_path a) e). constructor; [done|..].
    + intros q. unfold set_entry. case_decide as Eq; [subst q; right; by exists a|apply He].
    + intros b Hpb. rewrite Hk; [by apply Ht|]. intros j Hj. by apply prefix_free.
    + intros b [Hdb| ->].
      * destruct (Hd b Hdb) as [Hpb Hob]. split; [done|]. unfold set_entry. case_decide as Eq; [|done].
        by apply (entry_ok_same a b).
      * split; [done|]. unfold set_entry. by rewrite decide_True.
    + by apply (walk_paths a N).
    + intros Hrich. specialize (Hcost _ (Hrun Hrich)).
      by replace (2 * Z.of_nat (size Q) - 2 * Z.of_nat (size N) - (2 * Z.of_nat (size N') - 2 * Z.of_nat (size N)))
        with (2 * Z.of_nat (size Q) - 2 * Z.of_nat (size N')) in Hcost by lia.
Qed.

(** The requests of one call of [map]. *)
Definition pages_of (va pa : Z) (exec : bool) (psize : Z) (a : request) : Prop :=
  if (psize =? GiB1) && negb gib1_pages
  then exists k, 0 <= k < 512 /\ a = Request (va + k * MiB2) (pa + k * MiB2) exec MiB2
  else a = Request va pa exec psize.

(** The flags the boot code passes. *)
Definition boot_flags (exec : bool) (extra : Z) : Z := Z.lor (if exec then RWX else RW) extra.
Definition boot_size (psize extra : Z) : Prop := psize = KiB4 /\ extra = 0 \/ psize = GiB1 /\ extra = LLPAGE.

Lemma map_built va pa exec psize extra cache : boot_size psize extra -> (forall a, pages_of va pa exec psize a -> P a) ->
  0 <= va -> va + psize <= W64 -> 0 <= pa -> pa + psize <= W64 ->
  maps (map allocator gib1_pages pm va pa (boot_flags exec extra) cache) (pages_of va pa exec psize).
Proof.
  intros Hs HS Hva Hvb Hpa Hpb w D Hw. unfold map. destruct Hss as [Ell El Eb].
  assert (get_page_size pm (boot_flags exec extra) = psize) as ->.
  { unfold get_page_size. rewrite Ell, El, Eb. by destruct Hs as [[-> ->]|[-> ->]], exec. }
  rewrite Ell. unfold pages_of in *. destruct ((psize =? GiB1) && negb gib1_pages) eqn:Eg.
  - apply andb_true_iff in Eg as [->%Z.eqb_eq _]. destruct Hs as [[? _]|[_ ->]]; [done|].
    eapply op_mono.
    + apply (op_large _ (fun i w => holds w (fun a => D a \/
        exists k, 0 <= k < i / MiB2 /\ a = Request (va + k * MiB2) (pa + k * MiB2) exec MiB2))).
      { eapply holds_mono; [exact Hw|]. intros a [Ha|(k & Hk & _)]; [done|].
        change (0 / MiB2) with 0 in Hk. lia. }
      intros k s Hk Hs. cbv beta in Hs |- *. rewrite !Z.add_0_l in *. change (Z.of_nat 512) with 512 in Hk. unfold GiB1, MiB2 in Hvb, Hpb.
      rewrite Z.div_mul in Hs by done. rewrite Z.div_mul by done. rewrite !u64_small by (unfold MiB2; lia).
      set (a := Request (va + k * MiB2) (pa + k * MiB2) exec MiB2).
      assert (P a) as Ha by (apply HS; by exists k).
      assert (flags_for a (to_lpage (boot_flags exec LLPAGE))) as Hf.
      { unfold flags_for, a. cbn [rq_exec rq_size]. by destruct exec; split_and!; try done; right. }
      eapply op_mono; [apply (map_one_built a _ cache Ha Hf _ _ Hs)|].
      intros [ok s'] [Eok Hs']. split; [done|]. eapply holds_mono; [exact Hs'|]. simpl.
      intros b [Hb|(k' & Hk' & ->)]; [tauto|]. destruct (decide (k' = k)) as [->|]; [by right|].
      left. right. exists k'. split; [lia|done].
    + intros [ok s'] [Eok Hs']. split; [done|]. eapply holds_mono; [exact Hs'|]. simpl. intros b [Hb|Hb]; [by left|by right].
  - set (a := Request va pa exec psize). assert (flags_for a (boot_flags exec extra)) as Hf.
    { unfold flags_for, a. cbn [rq_exec rq_size].
      destruct Hs as [[-> ->]|[-> ->]], exec; split_and!; try done; first [by left|by right]. }
    apply (map_one_built a _ cache (HS a eq_refl) Hf _ _ Hw).
Qed.

(** Computations that meet requests. *)
Definition meets (c : W -> outcome W) (S : request -> Prop) : Prop :=
  forall w D, holds w D -> ok_or_panic (c w) (fun w' => holds w' (fun a => D a \/ S a)).

Lemma meets_assert c S : maps c S -> meets (assert_ok c) S.
Proof.
  intros Hc w D Hw. unfold assert_ok. eapply op_bind; [apply (Hc w D Hw)|]. intros [ok w1] [Eok Hw1]. simpl in Eok, Hw1. subst ok.
  eapply op_bind; [apply (Hc w1 _ Hw1)|]. intros [ok w2] [_ Hw2]. apply op_ok. eapply holds_mono; [exact Hw2|]. simpl. tauto.
Qed.

Lemma meets_bind c c' S S' : meets c S -> meets c' S' -> meets (fun w => w ← c w; c' w) (fun a => S a \/ S' a).
Proof.
  intros Hc Hc' w D Hw. eapply op_bind; [apply (Hc w D Hw)|]. intros w1 Hw1.
  eapply op_mono; [apply (Hc' w1 _ Hw1)|]. intros w2 Hw2. eapply holds_mono; [exact Hw2|]. simpl. tauto.
Qed.

Lemma meets_mono c S S' : meets c S -> (forall a, S' a -> S a) -> meets c S'.
Proof.
  intros Hc Hs w D Hw. eapply op_mono; [apply (Hc w D Hw)|]. intros w1 Hw1. eapply holds_mono; [exact Hw1|].
  simpl. intros a [?|?]; auto.
Qed.

Lemma meets_ret : meets (fun w => Ok w) (fun _ => False).
Proof. intros w D Hw. apply op_ok. eapply holds_mono; [exact Hw|]. simpl. tauto. Qed.

Lemma meets_steps step body n i (S : Z -> request -> Prop) :
  (forall k, 0 <= k < Z.of_nat n -> meets (body (i + k * step)) (S (i + k * step))) ->
  meets (for_steps step body n i) (fun a => exists k, 0 <= k < Z.of_nat n /\ S (i + k * step) a).
Proof.
  intros Hb w D Hw.
  apply (op_steps step body (fun j w => holds w (fun a => D a \/ exists k, 0 <= k < j /\ S (i + k * step) a))).
  - eapply holds_mono; [exact Hw|]. intros a [?|(k & ? & _)]; [done|lia].
  - intros k s Hk Hs. eapply op_mono; [apply (Hb k Hk s _ Hs)|]. intros s' Hs'. eapply holds_mono; [exact Hs'|]. simpl.
    intros a [Ha|(k' & Hk' & Ha)]; [tauto|]. destruct (decide (k' = k)) as [->|]; [by right|].
    left. right. exists k'. split; [lia|done].
Qed.

(** *** What the processor finds *)

Lemma view_mmu w h N leaf va : pt_view w h (top_level pm) N leaf -> is_canonical va = true ->
  mmu hhdm_offset (wmem w) (pagemap_load pm) va =
  mmu_walk hhdm_offset (wmem w) 4 (fromhh hhdm_offset (top_level pm)) va true true true.
Proof.
  intros Hv Hc. unfold mmu, pagemap_load. rewrite Hc.
  destruct (pv_table _ _ _ _ _ _ Hv [] _ (pv_root _ _ _ _ _ _ Hv)) as [_ Ht].
  by destruct (table_phys allocator w h _ (pv_heap _ _ _ _ _ _ Hv) Ht) as [_ ->].
Qed.

Lemma mmu_requested w D a va : holds w D -> D a -> 0 <= va < W64 -> is_canonical va = true -> rq_covers a va ->
  mmu hhdm_offset (wmem w) (pagemap_load pm) va = Some (Access (rq_pa a + (va - rq_va a)) true false (rq_exec a)).
Proof.
  intros (h & N & leaf & [Hv He Ht Hd _ _]) Hda Hva Hc Hcov. destruct (Hd a Hda) as [Ha Ho]. pose proof (proj1 HP a Ha) as Hoa.
  rewrite (view_mmu w h N leaf) by done. pose proof (proj1 (covers_path a va Hoa Hva Hc) Hcov) as Ep.
  pose proof (mmu_spec allocator w h (top_level pm) N leaf Hv (rq_size a) va (ro_size _ Hoa) (proj1 Hva)) as Hm.
  cbv zeta in Hm. rewrite Ep in Hm. rewrite Hm; [apply entry_ok_access; done || apply Hva| |by apply Ht|].
  - intros j Hj. destruct (He (take j (path_of va))) as [->|(b & Hb & Eb & _)]; [done|].
    destruct (prefix_free a b j Ha Hb Hj). rewrite Eb. apply (f_equal (take j)) in Ep.
    unfold rq_path, entry_path in Ep. by rewrite !take_take, !Nat.min_l in Ep by lia.
  - destruct (eo_large _ _ Ho) as [?|?]; auto.
Qed.

Lemma mmu_unrequested w D va : holds w D -> 0 <= va < W64 -> (forall a, P a -> ~ rq_covers a va) ->
  mmu hhdm_offset (wmem w) (pagemap_load pm) va = None.
Proof.
  intros (h & N & leaf & [Hv He Ht Hd _ _]) Hva Hno. destruct (is_canonical va) eqn:Hc; [|by unfold mmu; rewrite Hc].
  rewrite (view_mmu w h N leaf) by done.
  assert (forall j, (j <= 4)%nat -> leaf (take j (path_of va)) = 0) as Hz.
  { intros j Hj. destruct (He (take j (path_of va))) as [->|(b & Hb & Eb & _)]; [done|].
    pose proof (proj1 HP b Hb) as Hob. symmetry in Eb. apply path_prefix in Eb as [_ Eb]; [|apply Hob|done].
    destruct (Hno b Hb). by apply covers_path. }
  pose proof (mmu_spec allocator w h (top_level pm) N leaf Hv KiB4 va (or_introl eq_refl) (proj1 Hva)) as Hm.
  cbv zeta in Hm. rewrite Hm.
  - change (entry_path KiB4 va) with (take 4 (path_of va)). by rewrite Hz.
  - intros j Hj. apply Hz. change (depth KiB4) with 4%nat in Hj. lia.
  - by apply (no_table_below allocator pm w h N leaf).
  - by left.
Qed.
End Build.

(** A new page map: the upper half has its tables, no entry is in use. *)
Lemma pagemap_new_built {W : Type} `{FrameLaws W} (allocator : Z) (w : W) (h : heap) (P : request -> Prop)
    (Q : gset (list Z)) (rich : bool) :
  heap_inv allocator w h -> compatible P ->
  [] ∈ Q -> (forall i, 256 <= i < 512 -> [i] ∈ Q) -> (rich = true -> frames_run w (2 * Z.of_nat (size Q))) ->
  ok_or_panic rich (pagemap_new allocator None w)
    (fun r => std_sizes r.1 /\ holds allocator r.1 P Q rich r.2 (fun _ => False)).
Proof.
  intros Hinv HP HQ0 HQi Hrun. unfold pagemap_new. set (k := 2 * Z.of_nat (size Q)) in *.
  assert (0 < size Q)%nat as HQpos by (apply Nat.neq_0_lt_0; intros E%size_empty_inv; set_solver).
  destruct (new_page_table_spec allocator w h Hinv) as [(top & w1 & h1 & -> & Hinv1 & Ht & Hz & _ & Hs1)|[-> Hno]].
  2:{ right. split; [done|]. apply not_true_iff_false. intros Hr. apply Hno, (frames_run_le _ _ _ (Hrun Hr)). lia. }
  bind_simpl. cbv zeta. cbn [top_level]. set (pm := Pagemap top GiB1 MiB2 KiB4).
  set (I := fun (j : Z) (w : W) => exists h N, pt_view allocator w h top N (fun _ => 0) /\
     (forall q, (2 <= length q)%nat \/ (exists i, 256 + j <= i /\ q = [i]) -> N !! q = None) /\
     (forall q, is_Some (N !! q) -> q ∈ Q) /\ (rich = true -> frames_run w (k - 2 * Z.of_nat (size N)))).
  eapply op_bind.
  - unfold for_range. apply (op_steps 1 _ I).
    + exists h1, {[ [] := top ]}. split_and!.
      * constructor; [done|by apply lookup_singleton_eq|..].
        -- intros p t [<- <-]%lookup_singleton_Some. split; [simpl; lia|done].
        -- intros p q t [<- _]%lookup_singleton_Some [<- _]%lookup_singleton_Some. done.
        -- intros p t i [<- <-]%lookup_singleton_Some Hi. exists 0. rewrite lookup_singleton_ne by done.
           split_and!; [by apply Hz|lia|lia|done].
        -- intros p i _. split; [done|]. rewrite lookup_singleton_ne; [done|]. by destruct p.
      * intros q [Hq|(i & _ & ->)]; rewrite lookup_singleton_ne; try done. intros <-. simpl in Hq. lia.
      * intros q [t [<- _]%lookup_singleton_Some]. done.
      * intros Hr. rewrite map_size_singleton. by apply Hs1, Hrun.
    + intros j s Hj (h2 & N & Hv & Hn & HNQ & Hr). rewrite Z.mul_1_r. change (Z.of_nat (Z.to_nat (512 - 256))) with 256 in Hj.
      assert (N !! [256 + j] = None) as Hnj by (apply Hn; right; exists (256 + j); split; [lia|done]).
      destruct (next_alloc allocator s h2 top N _ Hv [] top (256 + j)) as [(t & s' & h3 & -> & Hv' & Hs2)|[-> Hno]];
        [apply Hv|simpl; lia|lia|done|done| |].
      2:{ right. split; [done|]. apply not_true_iff_false. intros Hrich. apply Hno, (frames_run_le _ _ _ (Hr Hrich)).
          pose proof (size_missing N Q [256 + j] HNQ (HQi (256 + j) ltac:(lia)) Hnj). unfold k. lia. }
      apply op_ok. eexists h3, _. split_and!; [exact Hv'|..].
      * intros q Hq. rewrite lookup_insert_ne.
        -- apply Hn. destruct Hq as [?|(i & Hi & ->)]; [by left|right]. exists i. split; [lia|done].
        -- simpl. intros <-. destruct Hq as [Hq|(i & Hi & [= <-])]; [simpl in Hq|]; lia.
      * intros q [x Hq]. apply lookup_insert_Some in Hq as [[<- _]|[_ Hq]]; [apply HQi; lia|]. apply HNQ. by exists x.
      * intros Hrich. specialize (Hs2 _ (Hr Hrich)). simpl app. rewrite map_size_insert_None by done.
        by replace (k - 2 * Z.of_nat (size N) - 2) with (k - 2 * Z.of_nat (S (size N))) in Hs2 by lia.
  - intros w2 (h2 & N & Hv & Hn & HNQ & Hr). apply op_ok. split; [done|]. exists h2, N, (fun _ => 0).
    constructor; [done|by left| |done|done|done].
    intros a Ha. apply Hn. left. unfold rq_path. rewrite entry_path_length.
    pose proof (depth_bounds (rq_size a)). lia.
Qed.
