(* ===== verification/BootMap.v ===== *)
(** * The map [paging::init] sets up, address by address

    The theorem on memory/virtual.cpp: which addresses the processor translates after
    the boot code has loaded cr3, to what, and with which rights. *)

From S2P Require Import Prelude Memory LibcString Frames Math Bitmap Physical PhysicalProofs.
From S2P Require Import Heap HeapInv HeapProofs HeapTheorems Machine PhysicalInit Paging PagingProofs PagingTheorems Mmu PagingInit.

Abbreviation GiB4 := 4294967296.

(** ** The specification *)

Section Spec.
Context (hh : Z) (es : list (Z * Z * bool)) (file_size physical_base virtual_base : Z).

(** The boot loader's memory map has an entry that touches the frame of [pa]. *)
Definition described (pa : Z) : bool :=
  existsb (fun '(b, l, _) => (b / 4096 * 4096 <=? pa) && (pa <? (b + l + 4095) / 4096 * 4096)) es.

Definition image_size : Z := (file_size + 4095) / 4096 * 4096.

(** The first 4 GiB and the described memory above are mapped to themselves and, not
    executable, to the direct map; the kernel's image where it was linked. *)
Definition boot_access (va : Z) : option access :=
  if va <? hh then
    if (va <? GiB4) || described va then Some (Access va true false true) else None
  else if va <? virtual_base then
    let pa := va - hh in
    if (pa <? GiB4) || described pa then Some (Access pa true false false) else None
  else
    if va <? virtual_base + image_size then Some (Access (physical_base + (va - virtual_base)) true false true) else None.

(** The paths of the tables that an entry for [va] hangs on. *)
Definition table_paths (psize va : Z) : list (list Z) := (fun j => take j (path_of va)) <$> seq 1 (depth psize - 1).

(** The frames from 4 GiB on that an entry of the memory map touches. *)
Definition high_frames (e : Z * Z * bool) : list Z :=
  let '(b, l, _) := e in
  filter (fun t => GiB4 <= t) ((fun p => p * 4096) <$> seqZ (b / 4096) ((b + l + 4095) / 4096 - b / 4096)).

(** The tables [init] makes: the top level, one for each entry of its upper half, and
    those of the pages mapped. *)
Definition boot_paths (gib1_pages : bool) : list (list Z) :=
  [] :: ((fun i => [i]) <$> seqZ 256 256) ++
  flat_map (fun k => table_paths (if gib1_pages then GiB1 else MiB2) (k * GiB1) ++
                     table_paths (if gib1_pages then GiB1 else MiB2) (hh + k * GiB1)) (seqZ 0 4) ++
  flat_map (fun t => table_paths KiB4 t ++ table_paths KiB4 (hh + t)) (flat_map high_frames es) ++
  flat_map (fun i => table_paths KiB4 (virtual_base + i * 4096)) (seqZ 0 (image_size / 4096)).
Definition boot_path_set (gib1_pages : bool) : gset (list Z) := list_to_set (boot_paths gib1_pages).

(** The pages for them, two for each table: its block's meta data takes one.  One more
    may be a new slab for the object [kernel_pagemap]. *)
Definition boot_pages (gib1_pages : bool) : Z := 1 + 2 * Z.of_nat (size (boot_path_set gib1_pages)).

Lemma boot_pages_pos gib1_pages : 0 <= boot_pages gib1_pages.
Proof. unfold boot_pages. lia. Qed.

(** What the boot loader guarantees: the direct map starts at a multiple of 1 GiB in
    the upper half, physical memory ends below its size and below 2^47, and the image
    lies above the direct map on page boundaries. *)
Record boot_layout (top : Z) : Prop := {
  bl_hh : hh mod GiB1 = 0;
  bl_upper : W64 - 2 ^ 47 <= hh;
  bl_low : GiB4 <= top;
  bl_page : top mod 4096 = 0;
  bl_direct : hh + top <= virtual_base;
  bl_lower : top <= 2 ^ 47;
  bl_entries : forall b l fb, (b, l, fb) ∈ es -> 0 <= b /\ 0 <= l /\ b + l <= top;
  bl_image : 0 <= file_size /\ virtual_base mod 4096 = 0 /\ virtual_base + image_size <= W64;
  bl_frames : 0 <= physical_base /\ physical_base mod 4096 = 0 /\ physical_base + image_size <= 2 ^ 52;
}.
End Spec.

(** ** The requests of the boot code *)

Section Boot.
Context (hh : Z) (gib1_pages : bool) (es : list (Z * Z * bool)) (file_size physical_base virtual_base top : Z).
Context (L : boot_layout hh es file_size physical_base virtual_base top).
Local Abbreviation described := (described es).
Local Abbreviation image_size := (image_size file_size).

(** The size of the pages of the first 4 GiB. *)
Definition low_size : Z := if gib1_pages then GiB1 else MiB2.
Local Abbreviation paths := (boot_path_set hh es file_size virtual_base gib1_pages).

Inductive kernel_page : request -> Prop :=
| KP_low t : 0 <= t < GiB4 -> t mod low_size = 0 -> kernel_page (Request t t true low_size)
| KP_low_direct t : 0 <= t < GiB4 -> t mod low_size = 0 -> kernel_page (Request (hh + t) t false low_size)
| KP_high t : GiB4 <= t -> t mod 4096 = 0 -> described t = true -> kernel_page (Request t t true KiB4)
| KP_high_direct t : GiB4 <= t -> t mod 4096 = 0 -> described t = true -> kernel_page (Request (hh + t) t false KiB4)
| KP_image i : 0 <= i < image_size -> i mod 4096 = 0 ->
    kernel_page (Request (virtual_base + i) (physical_base + i) true KiB4).

Lemma described_top t : described t = true -> 0 <= t < top.
Proof.
  intros Hd. apply existsb_exists in Hd as ([[b l] fb] & Hin%list_elem_of_In & Hr).
  destruct (bl_entries _ _ _ _ _ _ L b l fb Hin) as (? & ? & ?). rewrite andb_true_iff, Z.leb_le, Z.ltb_lt in Hr.
  pose proof (bl_page _ _ _ _ _ _ L). Z.to_euclidean_division_equations. lia.
Qed.

(** The frame of a described address is described. *)
Lemma described_frame t : described (t / 4096 * 4096) = described t.
Proof.
  unfold BootMap.described. apply eq_true_iff_eq. rewrite !existsb_exists. split; intros ([[b l] fb] & Hin & Hr); exists (b, l, fb);
    (split; [done|]); rewrite andb_true_iff, Z.leb_le, Z.ltb_lt in *; Z.to_euclidean_division_equations; lia.
Qed.

Lemma low_size_ok : page_size_ok low_size /\ low_size <> KiB4 /\ GiB4 mod low_size = 0 /\ hh mod low_size = 0 /\ 4096 <= low_size <= GiB1.
Proof.
  pose proof (bl_hh _ _ _ _ _ _ L) as Hh. unfold low_size. destruct gib1_pages.
  - split_and!; try done. by right; right.
  - split_and!; try done; [by right; left|]. unfold GiB1, MiB2 in *. Z.to_euclidean_division_equations. lia.
Qed.

Lemma low_page_end t : 0 <= t < GiB4 -> t mod low_size = 0 -> t + low_size <= GiB4.
Proof.
  destruct low_size_ok as (_ & _ & Hl & _ & Hb). generalize dependent low_size. intros s Hl Hs Ht Hm.
  apply Z.mod_divide in Hl as [d Hd]; [|lia]. apply Z.mod_divide in Hm as [c ->]; [|lia].
  rewrite Hd in *. assert (c < d) by nia. nia.
Qed.

Lemma canonical_bound va : 0 <= va < 2 ^ 47 \/ W64 - 2 ^ 47 <= va -> is_canonical va = true.
Proof. intros Hva. unfold is_canonical. rewrite orb_true_iff, !Z.leb_le. lia. Qed.

Lemma kernel_page_ok a : kernel_page a -> request_ok a.
Proof.
  destruct low_size_ok as (Hls & _ & Hl4 & Hlh & Hlb). destruct L as [Hh Hu Hl Hp Hd Hlo He (Hi1 & Hi2 & Hi3) (Hf1 & Hf2 & Hf3)].
  unfold GiB1 in Hlb. pose proof (size_range _ Hls).
  assert (0 <= image_size) as Hi0 by (unfold BootMap.image_size; Z.to_euclidean_division_equations; lia).
  pose proof low_page_end as Hend.
  intros [t Ht Hm|t Ht Hm|t Ht Hm Hdt|t Ht Hm Hdt|i Hi Hm]; try (pose proof (described_top t Hdt));
    try (pose proof (Hend t Ht Hm)).
  - constructor; simpl; [done|split_and!; [done|lia|lia]|done|lia|apply canonical_bound; lia].
  - constructor; simpl; [done|split_and!; [done|lia|lia]| |lia|apply canonical_bound; lia].
    by rewrite Z.add_mod, Hm, Hlh, Z.add_0_l, Z.mod_0_l by lia.
  - constructor; simpl; [by left|split_and!; [done|lia|unfold KiB4; lia]|done|lia|apply canonical_bound; lia].
  - constructor; simpl; [by left|split_and!; [done|lia|unfold KiB4; lia]| |lia|apply canonical_bound; lia].
    unfold KiB4, GiB1 in *. Z.to_euclidean_division_equations. lia.
  - assert (i + 4096 <= image_size) by (unfold BootMap.image_size in *; Z.to_euclidean_division_equations; lia).
    constructor; simpl; [by left|split_and!; [|lia|unfold KiB4; lia]| |lia|apply canonical_bound; lia];
      unfold KiB4; rewrite Z.add_mod, Hm by done; [by rewrite Hf2|by rewrite Hi2].
Qed.

Lemma kernel_pages_compatible : compatible kernel_page.
Proof.
  split; [exact kernel_page_ok|]. intros a b Ha Hb.
  destruct low_size_ok as (Hls & Hne & Hl4 & Hlh & Hlb). pose proof (size_range _ Hls) as Hsr.
  pose proof (kernel_page_ok a Ha) as [_ _ Hala _ _]. pose proof (kernel_page_ok b Hb) as [_ _ Halb _ _].
  destruct L as [Hh Hu Hl Hp Hd Hlo He (Hi1 & Hi2 & Hi3) (Hf1 & Hf2 & Hf3)].
  pose proof low_page_end as Hend.
  assert (forall s x y, 0 < s -> x mod s = 0 -> y mod s = 0 -> y <= x < y + s -> x = y) as Heq.
  { intros s x y Hs Hx Hy. apply Z.mod_divide in Hx as [c ->], Hy as [d ->]; [|lia..]. intros. assert (c = d) by nia. by subst. }
  intros Hle Hc. unfold rq_covers in Hc.
  assert (rq_size a = rq_size b -> rq_va a = rq_va b) as Hva.
  { intros Es. rewrite Es in Hala. apply (Heq (rq_size b)); [|done..].
    destruct Hb; simpl; unfold KiB4; lia. }
  clear Heq Hala Halb.
  destruct Ha as [t Ht Hm|t Ht Hm|t Ht Hm Hdt|t Ht Hm Hdt|i Hi Hm], Hb as [t' Ht' Hm'|t' Ht' Hm'|t' Ht' Hm' Hdt'|t' Ht' Hm' Hdt'|i' Hi' Hm'];
    cbn [rq_va rq_pa rq_exec rq_size] in *; unfold KiB4 in *;
    try (pose proof (Hend t Ht Hm)); try (pose proof (Hend t' Ht' Hm'));
    try (pose proof (described_top t Hdt)); try (pose proof (described_top t' Hdt'));
    try (exfalso; lia); specialize (Hva eq_refl); split_and!; done || lia.
Qed.

(** *** The tables of the requests *)

Lemma table_paths_take psize va j : (0 < j < depth psize)%nat -> take j (path_of va) ∈ table_paths psize va.
Proof. intros Hj. apply list_elem_of_fmap. exists j. split; [done|]. apply elem_of_seq. lia. Qed.

Lemma low_paths d t j : (d = 0 \/ d = hh) -> 0 <= t < GiB4 -> (0 < j < depth low_size)%nat ->
  take j (path_of (d + t)) ∈ paths.
Proof.
  intros Hd Ht Hj. pose proof (bl_hh _ _ _ _ _ _ L) as Hh. pose proof (bl_upper _ _ _ _ _ _ L).
  assert (depth low_size <= 3)%nat by (unfold low_size; destruct gib1_pages; vm_compute; lia).
  set (k := t / GiB1). assert (0 <= k < 4) as Hk by (unfold k, GiB1; Z.to_euclidean_division_equations; lia).
  rewrite (take_gib (d + t) (d + k * GiB1) j); [|lia|unfold GiB1; lia| |lia].
  2:{ unfold k, GiB1 in *. destruct Hd as [-> | ->]; Z.to_euclidean_division_equations; lia. }
  apply elem_of_list_to_set, elem_of_cons. right. apply elem_of_app. right. apply elem_of_app. left.
  apply list_elem_of_In, in_flat_map. exists k. rewrite <- !list_elem_of_In. split; [by apply elem_of_seqZ|].
  apply elem_of_app. fold low_size. destruct Hd as [-> | ->]; [left; rewrite Z.add_0_l|right]; by apply table_paths_take.
Qed.

Lemma high_paths d t j : (d = 0 \/ d = hh) -> GiB4 <= t -> t mod 4096 = 0 -> described t = true ->
  (0 < j < depth KiB4)%nat -> take j (path_of (d + t)) ∈ paths.
Proof.
  intros Hd Ht Hm Hdt Hj. apply existsb_exists in Hdt as ([[b l] fb] & Hin & Hr).
  rewrite andb_true_iff, Z.leb_le, Z.ltb_lt in Hr.
  apply elem_of_list_to_set, elem_of_cons. right. apply elem_of_app. right. apply elem_of_app. right. apply elem_of_app. left.
  apply list_elem_of_In, in_flat_map. exists t. split.
  - apply in_flat_map. exists (b, l, fb). split; [done|]. apply list_elem_of_In, list_elem_of_filter. split; [done|].
    apply list_elem_of_fmap. exists (t / 4096). split; [Z.to_euclidean_division_equations; lia|].
    apply elem_of_seqZ. Z.to_euclidean_division_equations. lia.
  - rewrite <- list_elem_of_In. apply elem_of_app.
    destruct Hd as [-> | ->]; [left; rewrite Z.add_0_l|right]; by apply table_paths_take.
Qed.

Lemma kernel_paths a : kernel_page a -> forall j, (0 < j < depth (rq_size a))%nat -> take j (path_of (rq_va a)) ∈ paths.
Proof.
  intros [t Ht Hm|t Ht Hm|t Ht Hm Hdt|t Ht Hm Hdt|i Hi Hm] j Hj; cbn [rq_va rq_size] in *.
  - apply (low_paths 0 t); auto.
  - apply (low_paths hh t); auto.
  - apply (high_paths 0 t); auto.
  - apply (high_paths hh t); auto.
  - apply elem_of_list_to_set, elem_of_cons. right. do 3 (apply elem_of_app; right).
    apply list_elem_of_In, in_flat_map. exists (i / 4096). rewrite <- !list_elem_of_In. split.
    + apply elem_of_seqZ. unfold BootMap.image_size in *. Z.to_euclidean_division_equations. lia.
    + replace (i / 4096 * 4096) with i by (Z.to_euclidean_division_equations; lia). by apply table_paths_take.
Qed.

Lemma upper_paths : [] ∈ paths /\ forall i, 256 <= i < 512 -> [i] ∈ paths.
Proof.
  split; [apply elem_of_list_to_set; by left|]. intros i Hi. apply elem_of_list_to_set, elem_of_cons. right. apply elem_of_app. left.
  apply list_elem_of_fmap. exists i. split; [done|]. apply elem_of_seqZ. lia.
Qed.
End Boot.

(** ** What the boot code maps *)

Section Init.
Context {W : Type} `{FrameLaws W} (allocator : Z) (gib1_pages : bool).
Context (es : list (Z * Z * bool)) (file_size physical_base virtual_base top : Z).
Context (L : boot_layout hhdm_offset es file_size physical_base virtual_base top).
Context (pm : pagemap) (Hss : std_sizes pm) (rich : bool).
Local Abbreviation hh := hhdm_offset.
Local Abbreviation P := (kernel_page hhdm_offset gib1_pages es file_size physical_base virtual_base).
Local Abbreviation Q := (boot_path_set hhdm_offset es file_size virtual_base gib1_pages).
Local Abbreviation meets := (meets allocator pm P Q rich).
Local Abbreviation described := (described es).

Lemma kernel_compatible : compatible P.
Proof. apply (kernel_pages_compatible _ _ _ _ _ _ top L). Qed.

Lemma kernel_tables a : P a -> forall j, (0 < j < depth (rq_size a))%nat -> take j (path_of (rq_va a)) ∈ Q.
Proof. apply (kernel_paths _ _ _ _ _ _ top L). Qed.

(** The pages of one round of a loop of [init]. *)
Definition both (psize t : Z) (a : request) : Prop :=
  pages_of gib1_pages t t true psize a \/ pages_of gib1_pages (hh + t) t false psize a.

Lemma meets_map_both t psize extra cache : boot_size psize extra -> 0 <= t -> t + psize <= top ->
  (forall a, both psize t a -> P a) -> meets (map_both allocator gib1_pages pm t extra cache) (both psize t).
Proof.
  intros Hs Ht Hb HS. pose proof (bl_direct _ _ _ _ _ _ L). pose proof (bl_upper _ _ _ _ _ _ L).
  pose proof (bl_lower _ _ _ _ _ _ L). destruct (bl_image _ _ _ _ _ _ L) as (Hf & _ & Hi).
  assert (0 <= image_size file_size) as Hi0 by (unfold image_size; Z.to_euclidean_division_equations; lia).
  assert (0 < psize) by (destruct Hs as [[-> _]|[-> _]]; done).
  unfold map_both. apply meets_bind; apply meets_assert.
  - apply (map_built allocator gib1_pages pm Hss P kernel_compatible Q rich kernel_tables t t true psize extra cache Hs);
      [intros a Ha; apply HS; by left|lia..].
  - rewrite tohh_low, Z.add_comm by lia.
    apply (map_built allocator gib1_pages pm Hss P kernel_compatible Q rich kernel_tables (hh + t) t false psize extra cache Hs);
      [intros a Ha; apply HS; by right|lia..].
Qed.

(** The pages of a 4 GiB round are pages of the low map, and all of them. *)
Lemma both_low t a : 0 <= t < GiB4 -> t mod GiB1 = 0 -> both GiB1 t a -> P a.
Proof.
  intros Ht Hm Ha. unfold both, pages_of in Ha.
  assert (forall k, 0 <= k < 512 -> t + k * MiB2 < GiB4 /\ (t + k * MiB2) mod MiB2 = 0) as Hk.
  { intros k Hk. unfold GiB1, MiB2 in *. Z.to_euclidean_division_equations. lia. }
  pose proof (KP_low hh gib1_pages es file_size physical_base virtual_base) as K1.
  pose proof (KP_low_direct hh gib1_pages es file_size physical_base virtual_base) as K2.
  unfold low_size in K1, K2. destruct gib1_pages; simpl in Ha.
  - destruct Ha as [-> | ->]; [by apply K1|by apply K2].
  - destruct Ha as [(k & Hr & ->)|(k & Hr & ->)]; destruct (Hk k Hr).
    + apply K1; [unfold MiB2 in *; lia|done].
    + rewrite <- Z.add_assoc. apply K2; [unfold MiB2 in *; lia|done].
Qed.

Lemma low_both t : 0 <= t < GiB4 -> t mod low_size gib1_pages = 0 ->
  exists k, 0 <= k < 4 /\ both GiB1 (0 + k * GiB1) (Request t t true (low_size gib1_pages)) /\
    both GiB1 (0 + k * GiB1) (Request (hh + t) t false (low_size gib1_pages)).
Proof.
  intros Ht Hm. exists (t / GiB1). unfold both, pages_of, low_size in *. unfold GiB1, MiB2 in *.
  split; [Z.to_euclidean_division_equations; lia|]. destruct gib1_pages; simpl.
  - assert (t / 1073741824 * 1073741824 = t) as E by (Z.to_euclidean_division_equations; lia).
    rewrite E. by split; [left|right].
  - assert (0 <= t mod 1073741824 / 2097152 < 512 /\
      t = t / 1073741824 * 1073741824 + t mod 1073741824 / 2097152 * 2097152) as [Hr E]
      by (Z.to_euclidean_division_equations; lia).
    split; [left|right]; exists (t mod 1073741824 / 2097152); (split; [done|]); f_equal; lia.
Qed.

Lemma meets_low : meets (for_steps GiB1 (fun i w => map_both allocator gib1_pages pm i LLPAGE default_caching w) 4 0)
  (fun a => exists t, 0 <= t < GiB4 /\ t mod low_size gib1_pages = 0 /\
     (a = Request t t true (low_size gib1_pages) \/ a = Request (hh + t) t false (low_size gib1_pages))).
Proof.
  pose proof (bl_low _ _ _ _ _ _ L).
  eapply (meets_mono allocator pm P Q rich).
  - apply (meets_steps allocator pm P Q rich GiB1 _ 4 0 (both GiB1)). intros k Hk. apply meets_map_both.
    + by right.
    + unfold GiB1. lia.
    + unfold GiB1. lia.
    + intros a. apply both_low; [unfold GiB1; lia|]. by rewrite Z.add_0_l, Z.mod_mul.
  - intros a (t & Ht & Hm & Ha). destruct (low_both t Ht Hm) as (k & Hk & Hk1 & Hk2). exists k. split; [done|].
    by destruct Ha as [-> | ->].
Qed.

(** The pages of an entry of the memory map. *)
Definition entry_requests (e : Z * Z * bool) (a : request) : Prop :=
  let '(b, l, _) := e in
  exists t, GiB4 <= t /\ t mod 4096 = 0 /\ b / 4096 * 4096 <= t < (b + l + 4095) / 4096 * 4096 /\
    (a = Request t t true KiB4 \/ a = Request (hh + t) t false KiB4).

Lemma entry_described b l fb t : (b, l, fb) ∈ es -> b / 4096 * 4096 <= t < (b + l + 4095) / 4096 * 4096 -> described t = true.
Proof.
  intros Hin Ht. apply existsb_exists. exists (b, l, fb). split; [by apply list_elem_of_In|].
  rewrite andb_true_iff, Z.leb_le, Z.ltb_lt. done.
Qed.

Lemma meets_entry b l fb : (b, l, fb) ∈ es ->
  meets (init_entry allocator gib1_pages pm b l fb) (entry_requests (b, l, fb)).
Proof.
  intros Hin. destruct (bl_entries _ _ _ _ _ _ L b l fb Hin) as (Hb & Hl & Hbl).
  pose proof (bl_lower _ _ _ _ _ _ L). unfold init_entry. rewrite (ss_b _ Hss). change KiB4 with (2 ^ 12).
  rewrite (u64_small (b + l)), align_down_pow2, align_up_pow2 by lia. change (2 ^ 12) with 4096.
  replace (b - b mod 4096) with (b / 4096 * 4096) by (Z.to_euclidean_division_equations; lia).
  replace (b + l + 4096 - 1) with (b + l + 4095) by lia. unfold GiB1. change (1073741824 * 4) with GiB4.
  destruct (Z.ltb_spec ((b + l + 4095) / 4096 * 4096) GiB4) as [Hlt|Hge].
  { eapply (meets_mono allocator pm P Q rich); [apply meets_ret|]. intros a (t & Ht & _ & Hr & _). lia. }
  set (start := b / 4096 * 4096). set (stop := (b + l + 4095) / 4096 * 4096) in *.
  assert (start <= stop /\ start mod 4096 = 0 /\ stop mod 4096 = 0 /\ 0 <= start /\ stop <= top) as (Hss1 & Hs1 & Hs2 & Hs3 & Hs4).
  { unfold start, stop. pose proof (bl_page _ _ _ _ _ _ L). Z.to_euclidean_division_equations. lia. }
  assert (Z.of_nat (rounds (stop - start) 4096) * 4096 = stop - start) as Hn.
  { unfold rounds. Z.to_euclidean_division_equations. lia. }
  eapply (meets_mono allocator pm P Q rich).
  - apply (meets_steps allocator pm P Q rich 4096 _ _ start (fun t a => GiB4 <= t /\ both KiB4 t a)). intros k Hk.
    set (t := start + k * 4096). assert (t mod 4096 = 0 /\ start <= t < stop) as [Hm Ht].
    { unfold t. rewrite Z.mod_add by done. split; [done|]. lia. }
    assert (t + 4096 <= stop) by (Z.to_euclidean_division_equations; lia).
    destruct (Z.ltb_spec t GiB4) as [Hlt|Hge'].
    { eapply (meets_mono allocator pm P Q rich); [apply meets_ret|]. intros a [? _]. lia. }
    eapply (meets_mono allocator pm P Q rich); [apply (meets_map_both t KiB4)|by intros a [_ Ha]].
    + by left.
    + lia.
    + unfold KiB4. lia.
    + pose proof (entry_described b l fb t Hin Ht). intros a [-> | ->]; by constructor.
  - intros a (t & Ht & Hm & Hr & Ha). exists ((t - start) / 4096). split.
    + fold start stop in Hr. Z.to_euclidean_division_equations. lia.
    + replace (start + (t - start) / 4096 * 4096) with t by (Z.to_euclidean_division_equations; lia).
      split; [done|]. by destruct Ha as [-> | ->]; [left|right].
Qed.

Lemma meets_entries es' : (forall e, e ∈ es' -> e ∈ es) ->
  meets (init_entries allocator gib1_pages pm es') (fun a => exists e, e ∈ es' /\ entry_requests e a).
Proof.
  induction es' as [|[[b l] fb] es' IH]; intros Hin.
  - eapply (meets_mono allocator pm P Q rich); [apply meets_ret|]. intros a (e & He & _). by apply elem_of_nil in He.
  - cbn [init_entries]. eapply (meets_mono allocator pm P Q rich).
    + apply meets_bind; [apply meets_entry, Hin; by left|]. apply IH. intros e He. apply Hin. by right.
    + intros a (e & He & Ha). apply elem_of_cons in He as [->|He]; [by left|right]. by exists e.
Qed.

(** The pages of the kernel's image. *)
Lemma meets_image :
  meets (for_steps KiB4 (fun i w => assert_ok (map allocator gib1_pages pm (u64 (virtual_base + i)) (u64 (physical_base + i)) RWX
           default_caching) w) (rounds file_size KiB4) 0)
    (fun a => exists i, 0 <= i < image_size file_size /\ i mod 4096 = 0 /\
       a = Request (virtual_base + i) (physical_base + i) true KiB4).
Proof.
  destruct (bl_image _ _ _ _ _ _ L) as (Hf & Hvm & Hi). destruct (bl_frames _ _ _ _ _ _ L) as (Hf1 & Hf2 & Hf3).
  pose proof (bl_direct _ _ _ _ _ _ L). pose proof (bl_low _ _ _ _ _ _ L). pose proof (bl_upper _ _ _ _ _ _ L).
  assert (Z.of_nat (rounds file_size KiB4) * 4096 = image_size file_size) as Hn.
  { unfold rounds, image_size, KiB4. Z.to_euclidean_division_equations. lia. }
  eapply (meets_mono allocator pm P Q rich).
  - apply (meets_steps allocator pm P Q rich KiB4 _ _ 0 (fun i => pages_of gib1_pages (virtual_base + i) (physical_base + i) true KiB4)).
    intros k Hk. rewrite Z.add_0_l, !u64_small by (unfold KiB4; lia). apply meets_assert.
    apply (map_built allocator gib1_pages pm Hss P kernel_compatible Q rich kernel_tables _ _ true KiB4 0).
    + by left.
    + intros a ->. apply KP_image; [unfold KiB4; lia|]. by apply Z.mod_mul.
    + unfold KiB4. lia.
    + unfold KiB4. lia.
    + unfold KiB4. lia.
    + unfold KiB4. lia.
  - intros a (i & Hr & Hm & ->). exists (i / 4096). change KiB4 with 4096 in *. split.
    + Z.to_euclidean_division_equations. lia.
    + replace (0 + i / 4096 * 4096) with i by (Z.to_euclidean_division_equations; lia). done.
Qed.
End Init.

(** ** The theorem *)

Lemma page_start n x : 0 < n -> 0 <= x -> x / n * n <= x < x / n * n + n /\ x / n * n mod n = 0 /\ 0 <= x / n * n.
Proof.
  intros Hn Hx. rewrite Z.mod_mul by lia. pose proof (Z.div_mod x n). pose proof (Z.mod_pos_bound x n). pose proof (Z.div_pos x n). lia.
Qed.

Section Claim.
Context {W : Type} `{FrameLaws W} (allocator : Z) (gib1_pages : bool).
Context (es : list (Z * Z * bool)) (file_size physical_base virtual_base top : Z).
Local Abbreviation hh := hhdm_offset.
Local Abbreviation P := (kernel_page hh gib1_pages es file_size physical_base virtual_base).
Local Abbreviation Q := (boot_path_set hh es file_size virtual_base gib1_pages).
Local Abbreviation need := (boot_pages hh es file_size virtual_base gib1_pages).
Local Abbreviation init := (paging_init allocator gib1_pages es file_size physical_base virtual_base).
Local Abbreviation access := (boot_access hh es file_size physical_base virtual_base).

(** The whole of [init] meets every request. *)
Lemma init_meets w h rich : heap_inv allocator w h -> boot_layout hh es file_size physical_base virtual_base top ->
  (rich = true -> frames_run w need) ->
  ok_or_panic rich (init w) (fun r => let '(pm, cr3, w') := r in
    std_sizes pm /\ cr3 = pagemap_load pm /\ exists D, holds allocator pm P Q rich w' D /\ forall a, P a -> D a).
Proof.
  intros Hinv L Hrich. unfold paging_init. destruct (upper_paths hh gib1_pages es file_size virtual_base) as [HQ0 HQi].
  destruct (small_malloc_spec allocator w h sizeof_pagemap Hinv) as [(p & w0 & h0 & E0 & Hinv0 & Hsp)|[E0 Hno]];
    [unfold sizeof_pagemap; lia| |]; unfold operator_new; rewrite E0.
  2:{ right. split; [done|]. apply not_true_iff_false. intros Hr. apply Hno, (frames_run_le _ _ _ (Hrich Hr)). unfold boot_pages. lia. }
  bind_simpl. assert (rich = true -> frames_run w0 (2 * Z.of_nat (size Q))) as Hrich0.
  { intros Hr. apply (frames_run_le _ _ _ (Hsp _ (Hrich Hr))). unfold boot_pages. lia. }
  eapply op_bind; [apply (pagemap_new_built allocator w0 h0 P Q rich Hinv0 (kernel_compatible gib1_pages es _ _ _ top L) HQ0 HQi Hrich0)|].
  intros [pm w1] [Hss Hw1]. cbn [fst snd] in Hss, Hw1.
  assert (required_size pm (GiB1 * 4) = (GiB1, LLPAGE)) as Er by (unfold required_size; by rewrite (ss_ll _ Hss)).
  rewrite Er, (ss_b _ Hss). change (rounds (GiB1 * 4) GiB1) with 4%nat. cbv iota.
  eapply op_bind; [apply (meets_low allocator gib1_pages es _ _ _ top L pm Hss rich w1 _ Hw1)|]. intros w2 Hw2.
  eapply op_bind; [apply (meets_entries allocator gib1_pages es _ _ _ top L pm Hss rich es ltac:(done) w2 _ Hw2)|]. intros w3 Hw3.
  eapply op_bind; [apply (meets_image allocator gib1_pages es _ _ _ top L pm Hss rich w3 _ Hw3)|]. intros w4 Hw4.
  apply op_ok. split_and!; [done|done|]. eexists. split; [exact Hw4|].
  intros a Ha. destruct Ha as [t Ht Hm|t Ht Hm|t Ht Hm Hd|t Ht Hm Hd|i Hi Hm]; [left; left; right|left; left; right|left; right|left; right|right].
  - exists t. split_and!; try lia; by left.
  - exists t. split_and!; try lia; by right.
  - apply existsb_exists in Hd as ([[b l] fb] & Hin%list_elem_of_In & Hr). rewrite andb_true_iff, Z.leb_le, Z.ltb_lt in Hr.
    exists (b, l, fb). split; [done|]. exists t. split_and!; try lia; by left.
  - apply existsb_exists in Hd as ([[b l] fb] & Hin%list_elem_of_In & Hr). rewrite andb_true_iff, Z.leb_le, Z.ltb_lt in Hr.
    exists (b, l, fb). split; [done|]. exists t. split_and!; try lia; by right.
  - exists i. split_and!; lia || done.
Qed.

(** *** The specification, read off the requests *)

Section Access.
Context (L : boot_layout hh es file_size physical_base virtual_base top).
Local Abbreviation s := (low_size gib1_pages).

(** A request gives the address what the specification says, or none covers it. *)
Definition agrees (va : Z) (r : option Mmu.access) : Prop :=
  (exists a, P a /\ rq_covers a va /\ r = Some (Access (rq_pa a + (va - rq_va a)) true false (rq_exec a))) \/
  ((forall a, P a -> ~ rq_covers a va) /\ r = None).

Lemma low_facts : 4096 <= s <= GiB1 /\ (forall t, 0 <= t < GiB4 -> t mod s = 0 -> t + s <= GiB4).
Proof.
  split; [apply (low_size_ok _ gib1_pages _ _ _ _ _ L)|apply (low_page_end _ gib1_pages _ _ _ _ _ L)].
Qed.

Lemma described_page x y : x mod 4096 = 0 -> x <= y < x + KiB4 -> described es y = described es x.
Proof.
  intros Hx Hy. rewrite <- (described_frame _ y). unfold KiB4 in Hy. f_equal. Z.to_euclidean_division_equations. lia.
Qed.

Lemma described_end x : described es x = true -> x mod 4096 = 0 -> x + KiB4 <= top.
Proof.
  intros Hd Hx. apply (described_top _ _ _ _ _ _ L) in Hd. pose proof (bl_page _ _ _ _ _ _ L). unfold KiB4.
  Z.to_euclidean_division_equations. lia.
Qed.

(** Below the direct map. *)
Lemma access_low va : 0 <= va < hh ->
  agrees va (if (va <? GiB4) || described es va then Some (Access va true false true) else None).
Proof.
  intros Hva. destruct low_facts as [Hs Hend]. pose proof (bl_direct _ _ _ _ _ _ L). pose proof (bl_low _ _ _ _ _ _ L).
  destruct (Z.ltb_spec va GiB4) as [Hlt|Hge]; cbn [orb]; [left|destruct (described es va) eqn:Ed; [left|right]].
  - exists (Request (va / s * s) (va / s * s) true s). destruct (page_start s va) as (? & ? & ?); [lia..|].
    split_and!; [apply KP_low; [lia|done]|done|]. cbn [rq_pa rq_va rq_exec]. do 2 f_equal. lia.
  - exists (Request (va / KiB4 * KiB4) (va / KiB4 * KiB4) true KiB4). destruct (page_start KiB4 va) as (Hc & Hm & ?); [done|lia|].
    split_and!; [apply KP_high; [|done|]|done|].
    + unfold KiB4 in *. Z.to_euclidean_division_equations. lia.
    + by rewrite <- (described_page _ va).
    + cbn [rq_pa rq_va rq_exec]. do 2 f_equal. lia.
  - split; [|done]. intros a Ha Hc. unfold rq_covers in Hc.
    destruct Ha as [t Ht Hm|t Ht Hm|t Ht Hm Hd|t Ht Hm Hd|i Hi Hm]; cbn [rq_va rq_size] in Hc;
      [pose proof (Hend t Ht Hm); lia|lia| |lia|lia].
    by rewrite (described_page t va), Hd in Ed.
Qed.

(** In the direct map. *)
Lemma access_direct va : hh <= va < virtual_base ->
  agrees va (if (va - hh <? GiB4) || described es (va - hh) then Some (Access (va - hh) true false false) else None).
Proof.
  intros Hva. destruct low_facts as [Hs Hend]. pose proof (bl_low _ _ _ _ _ _ L). pose proof (bl_upper _ _ _ _ _ _ L).
  pose proof (bl_lower _ _ _ _ _ _ L). set (t := va - hh).
  destruct (Z.ltb_spec t GiB4) as [Hlt|Hge]; cbn [orb]; [left|destruct (described es t) eqn:Ed; [left|right]].
  - exists (Request (hh + t / s * s) (t / s * s) false s). destruct (page_start s t) as (? & ? & ?); [lia..|].
    split_and!; [apply KP_low_direct; [lia|done]|unfold rq_covers; cbn [rq_va rq_size]; lia|].
    cbn [rq_pa rq_va rq_exec]. do 2 f_equal. lia.
  - exists (Request (hh + t / KiB4 * KiB4) (t / KiB4 * KiB4) false KiB4). destruct (page_start KiB4 t) as (Hc & Hm & ?); [done|lia|].
    split_and!; [apply KP_high_direct; [|done|]|unfold rq_covers; cbn [rq_va rq_size]; lia|].
    + unfold KiB4 in *. Z.to_euclidean_division_equations. lia.
    + by rewrite <- (described_page _ t).
    + cbn [rq_pa rq_va rq_exec]. do 2 f_equal. lia.
  - split; [|done]. intros a Ha Hc. unfold rq_covers in Hc.
    destruct Ha as [u Hu Hm|u Hu Hm|u Hu Hm Hd|u Hu Hm Hd|i Hi Hm]; cbn [rq_va rq_size] in Hc;
      [pose proof (Hend u Hu Hm); lia..|pose proof (described_end u Hd Hm); lia| |lia].
    by rewrite (described_page u t), Hd in Ed by lia.
Qed.

(** From the kernel's image on. *)
Lemma access_image va : virtual_base <= va ->
  agrees va (if va <? virtual_base + image_size file_size
             then Some (Access (physical_base + (va - virtual_base)) true false true) else None).
Proof.
  intros Hva. destruct low_facts as [Hs Hend]. pose proof (bl_low _ _ _ _ _ _ L). pose proof (bl_upper _ _ _ _ _ _ L).
  pose proof (bl_lower _ _ _ _ _ _ L). pose proof (bl_direct _ _ _ _ _ _ L).
  destruct (Z.ltb_spec va (virtual_base + image_size file_size)) as [Hlt|Hge]; [left|right].
  - set (i := va - virtual_base). destruct (page_start KiB4 i) as (Hc & Hm & ?); [done|lia|].
    exists (Request (virtual_base + i / KiB4 * KiB4) (physical_base + i / KiB4 * KiB4) true KiB4).
    split_and!; [apply KP_image; [lia|done]|unfold rq_covers; cbn [rq_va rq_size]; lia|].
    cbn [rq_pa rq_va rq_exec]. do 2 f_equal. lia.
  - split; [|done]. intros a Ha Hc. unfold rq_covers in Hc.
    destruct Ha as [u Hu Hm|u Hu Hm|u Hu Hm Hd|u Hu Hm Hd|i Hi Hm]; cbn [rq_va rq_size] in Hc;
      try (pose proof (Hend u Hu Hm); lia); try (pose proof (described_end u Hd Hm); lia).
    unfold image_size, KiB4 in *. Z.to_euclidean_division_equations. lia.
Qed.

Lemma access_page va : 0 <= va < W64 -> agrees va (access va).
Proof.
  intros Hva. unfold boot_access. cbv zeta. destruct (Z.ltb_spec va hh); [apply access_low; lia|].
  destruct (Z.ltb_spec va virtual_base); [apply access_direct; lia|by apply access_image].
Qed.
End Access.

(** [init], with its result as one property. *)
Lemma paging_init_spec w h rich : heap_inv allocator w h -> boot_layout hh es file_size physical_base virtual_base top ->
  (rich = true -> frames_run w need) ->
  ok_or_panic rich (init w) (fun r => let '(pm, cr3, w') := r in
    std_sizes pm /\ (exists h', heap_inv allocator w' h') /\
    forall va, 0 <= va < W64 -> mmu hh (wmem w') cr3 va = access va).
Proof.
  intros Hinv L Hrich. destruct (init_meets w h rich Hinv L Hrich) as [([[pm cr3] w'] & -> & Hss & -> & D & Hw & Hall)|?]; [left|by right].
  exists (pm, pagemap_load pm, w'). split_and!; [done|done| |].
  - destruct Hw as (h' & N & leaf & Hb). exists h'. apply (pv_heap _ _ _ _ _ _ (bt_view _ _ _ _ _ _ _ _ _ _ Hb)).
  - intros va Hva. pose proof (kernel_compatible gib1_pages es _ _ _ top L) as HP.
    destruct (access_page L va Hva) as [(a & Ha & Hc & ->)|[Hno ->]].
    + destruct (is_canonical va) eqn:Ec.
      * apply (mmu_requested allocator pm P HP Q rich w' D a va Hw); auto.
      * exfalso. pose proof (kernel_page_ok _ gib1_pages _ _ _ _ _ L a Ha) as [Hs (_ & Hp0 & _) Hal Hr Hcan].
        unfold rq_covers in Hc. unfold is_canonical in Ec, Hcan. rewrite orb_false_iff, !Z.leb_gt in Ec. rewrite orb_true_iff, !Z.leb_le in Hcan.
        destruct Hs as [E|[E|E]]; rewrite E in *; unfold KiB4, MiB2, GiB1 in *; Z.to_euclidean_division_equations; lia.
    + by apply (mmu_unrequested allocator pm P HP Q rich w' D va Hw).
Qed.
(** C3: after the page tables are set up and cr3 is loaded, the processor's walk gives
    every address exactly the translation and the rights of [boot_access]: the first
    4 GiB and the described memory at themselves and, not executable, in the direct
    map; the kernel's image where it was linked; a fault everywhere else, and no page
    is open to user mode.  This holds with 1 GiB pages and without.  [init] ends, and
    panics only when the page manager has not the [boot_pages] in a row that the
    tables and the object of the address space take. *)
Theorem paging_init_maps w h : heap_inv allocator w h ->
  boot_layout hh es file_size physical_base virtual_base top ->
  (exists pm cr3 w', init w = Ok (pm, cr3, w') /\ std_sizes pm /\ (exists h', heap_inv allocator w' h') /\
     forall va, 0 <= va < W64 -> mmu hh (wmem w') cr3 va = access va) \/
  (init w = Panic /\ ~ frames_run w need).
Proof.
  intros Hinv L. destruct (paging_init_spec w h false Hinv L ltac:(done)) as [([[pm cr3] w'] & E & Hr)|[E _]]; [left|right].
  - by exists pm, cr3, w'.
  - split; [done|]. intros Hrun. destruct (paging_init_spec w h true Hinv L ltac:(done)) as [(r & E' & _)|[_ ?]]; [|done].
    by rewrite E in E'.
Qed.
End Claim.

(** ** A witness: the addresses a PC has, with a framebuffer at 5 GiB *)

Definition pc_hhdm : Z := 18446603336221196288.
Definition pc_virtual_base : Z := 18446744071562067968.
Definition pc_entries : list (Z * Z * bool) := [(0, 4096, false); (8192, 61440, false); (5368709120, 8192, true)].

Lemma pc_layout : boot_layout pc_hhdm pc_entries 5000 1048576 pc_virtual_base (2 ^ 36).
Proof.
  constructor; try done. intros b l fb Hin. unfold pc_entries in Hin. rewrite !elem_of_cons, elem_of_nil in Hin.
  destruct Hin as [[= -> -> ->]|[[= -> -> ->]|[[= -> -> ->]|[]]]]; by split_and!.
Qed.

Lemma pc_hhdm_range : 524288 * page_size < pc_hhdm /\ pc_hhdm + 524288 * page_size <= W64.
Proof. done. Qed.

(** The state after the page manager's [init]: there is memory for the tables. *)
Lemma pc_heap : exists es' st h, physical_init pc_hhdm sample_alloc boot_map (phys_zero (boot_ram pc_hhdm)) = Ok (es', st) /\
  @heap_inv phys (phys_frames pc_hhdm) (phys_frame_laws pc_hhdm eq_refl) sample_alloc st h /\
  pmm_run st (boot_pages pc_hhdm pc_entries 5000 pc_virtual_base false).
Proof.
  destruct (physical_init_spec pc_hhdm (boot_ram pc_hhdm) boot_map sample_alloc eq_refl)
    as (e & es' & st & E & _ & Hi & [(st' & h & E' & Hh & _ & Hrun)|(_ & _ & Hr)]).
  - apply boot_map_ok, pc_hhdm_range.
  - by vm_compute.
  - by vm_compute.
  - exists (MemmapEntry 4096 4194304 LIMINE_MEMMAP_USABLE). split; [right; left|by vm_compute].
  - done.
  - apply boot_ram_valid, pc_hhdm_range.
  - left. by vm_compute.
  - exists es', st', h. split; [exact E'|]. split; [exact Hh|]. apply Hrun. vm_compute. reflexivity.
  - exfalso. vm_compute in Hr. discriminate Hr.
Qed.

Lemma paging_init_maps_witness : exists w pm cr3 w',
  @paging_init phys (phys_frames pc_hhdm) sample_alloc false pc_entries 5000 1048576 pc_virtual_base w = Ok (pm, cr3, w') /\
  mmu pc_hhdm (ram w') cr3 (pc_hhdm + 5368709121) = Some (Access 5368709121 true false false) /\
  mmu pc_hhdm (ram w') cr3 (pc_virtual_base + 8191) = Some (Access 1056767 true false true) /\
  mmu pc_hhdm (ram w') cr3 (pc_virtual_base + 8192) = None.
Proof.
  destruct pc_heap as (es' & w & h & _ & Hh & Hrun). exists w.
  destruct (@paging_init_maps phys (phys_frames pc_hhdm) (phys_frame_laws pc_hhdm eq_refl) sample_alloc false pc_entries
    5000 1048576 pc_virtual_base (2 ^ 36) w h Hh pc_layout) as [(pm & cr3 & w' & E & _ & _ & Hm)|[_ Hno]];
    [|destruct (Hno Hrun)].
  exists pm, cr3, w'. split; [exact E|]. split; [|split].
  - apply (Hm (pc_hhdm + 5368709121)). split; [discriminate|reflexivity].
  - apply (Hm (pc_virtual_base + 8191)). split; [discriminate|reflexivity].
  - apply (Hm (pc_virtual_base + 8192)). split; [discriminate|reflexivity].
Defined.
