(* ===== verification/Tlb.v ===== *)
(** * The translation buffer of the processor

    The processor may keep the translation of a page for as long as it likes, and uses
    it in place of the walk of [Mmu] until [invlpg] drops it.  The steps of the kernel's
    operations on 4 KiB pages and of the processor interleave.  The theorems say when
    what is kept agrees with the tables, and what happens when it does not.  The page
    map stays the same: a load of cr3 is not among the steps. *)

From S2P Require Import Prelude Memory LibcString Frames Math Bitmap Physical PhysicalProofs.
From S2P Require Import Heap HeapInv HeapProofs HeapTheorems Machine Paging PagingProofs PagingTheorems PagingClaims Mmu PagingInit BootMap.

(** ** The buffer *)

(** Translations of the first bytes of pages, by page number. *)
Abbreviation buffer := (gmap Z access).

Definition page_number (va : Z) : Z := va / 4096.

(** The translation of [va] that one of its page gives. *)
Definition within (va : Z) (a : access) : access := Access (ac_address a + va mod 4096) (ac_write a) (ac_user a) (ac_exec a).

(** cpu.cpp, [invlpg] *)
Definition invlpg (t : buffer) (addr : Z) : buffer := delete (page_number addr) t.

Section Tlb.
Context {W : Type} `{Frames W} (allocator : Z) (gib1_pages : bool) (pm : pagemap).

Definition walk (w : W) (va : Z) : option access := mmu hhdm_offset (wmem w) (pagemap_load pm) va.

(** What the processor does with [va]. *)
Definition translation (w : W) (t : buffer) (va : Z) : option access :=
  match t !! page_number va with Some a => Some (within va a) | None => walk w va end.

(** An operation of the kernel, with the [invlpg] in it. *)
Definition kernel_op (o : page_op) (w : W) (t : buffer) : outcome (Z * W * buffer) :=
  match o with
  | Punmap va => '(b, (inv, w)) ← unmap allocator gib1_pages pm va 0 w; Ok (Z.b2z b, w, foldl invlpg t inv)
  | _ => '(r, w) ← run_op allocator gib1_pages pm o w; Ok (r, w, t)
  end.
End Tlb.

(** ** The machine *)

(** Tables, the function from paths to entries they hold, and buffer. *)
Record cpu {W : Type} : Type := Cpu { tables : W; entries : list Z -> Z; tlb : buffer }.
Arguments cpu W : clear implicits.
Arguments Cpu {W}.

(** Entries of the upper levels point to tables, map large pages or are zero. *)
Definition settled (leaf : list Z -> Z) : Prop :=
  forall q, (length q < 4)%nat -> leaf q = 0 \/ Z.testbit (leaf q) 0 = true /\ Z.testbit (leaf q) 7 = true.

(** Operations that leave nothing stale behind: [map] of a page that is not mapped,
    [set_flags] of a page the processor does not keep. *)
Definition flush_legal (leaf : list Z -> Z) (t : buffer) (o : page_op) : Prop :=
  op_legal leaf o /\ is_canonical (op_address o) = true /\
  match o with
  | Pmap va _ _ _ => Z.testbit (leaf (path_of va)) 0 = false
  | Pset_flags va _ _ => t !! page_number va = None
  | _ => True
  end.

Section Steps.
Context {W : Type} `{FrameLaws W} (allocator : Z) (gib1_pages : bool) (pm : pagemap).

Inductive cpu_step : cpu W -> cpu W -> Prop :=
| Keep_page w leaf t va a :
    0 <= va < W64 -> walk pm w (page_number va * 4096) = Some a ->
    cpu_step (Cpu w leaf t) (Cpu w leaf (<[page_number va := a]> t))
| Drop_page w leaf t n : cpu_step (Cpu w leaf t) (Cpu w leaf (delete n t))
| Kernel_op w leaf t o r w' leaf' t' :
    flush_legal leaf t o -> kernel_op allocator gib1_pages pm o w t = Ok (r, w', t') -> op_spec o leaf r leaf' ->
    cpu_step (Cpu w leaf t) (Cpu w' leaf' t').

(** What is kept agrees with the tables. *)
Definition coherent (w : W) (t : buffer) : Prop :=
  forall n a, t !! n = Some a -> 0 <= n * 4096 < W64 /\ walk pm w (n * 4096) = Some a.

Record cpu_inv (s : cpu W) : Prop := {
  ci_map : page_map allocator pm (tables s) (entries s);
  ci_settled : settled (entries s);
  ci_coherent : coherent (tables s) (tlb s);
}.
End Steps.

(** ** The walk from the start of a page *)

Lemma page_split va : 0 <= va -> va mod 4096 + page_number va * 4096 = va /\ 0 <= va mod 4096 < 4096.
Proof. intros Hva. unfold page_number. Z.to_euclidean_division_equations. lia. Qed.

Lemma start_page n : page_number (n * 4096) = n.
Proof. unfold page_number. apply Z.div_mul. lia. Qed.

Lemma start_number va : 0 <= va -> page_number va * 4096 / 4096 = va / 4096.
Proof. intros. unfold page_number. apply Z.div_mul. lia. Qed.

Lemma start_range va : 0 <= va < W64 -> 0 <= page_number va * 4096 < W64.
Proof. intros Hva. destruct (page_split va); [lia|]. split; [|lia]. unfold page_number. Z.to_euclidean_division_equations. lia. Qed.

Lemma start_canonical va : 0 <= va -> is_canonical (page_number va * 4096) = is_canonical va.
Proof.
  intros Hva. unfold is_canonical, page_number. apply eq_true_iff_eq. rewrite !orb_true_iff, !Z.leb_le.
  Z.to_euclidean_division_equations. lia.
Qed.

Lemma start_path va : 0 <= va -> path_of (page_number va * 4096) = path_of va.
Proof.
  intros Hva. apply path_of_page; [unfold page_number; Z.to_euclidean_division_equations; lia|done|].
  by rewrite start_number.
Qed.

Lemma start_mod va k : 0 <= va -> va mod (4096 * 2 ^ Z.of_nat k) = (page_number va * 4096) mod (4096 * 2 ^ Z.of_nat k) + va mod 4096.
Proof.
  intros Hva. unfold page_number. assert (0 < 2 ^ Z.of_nat k) by lia.
  rewrite (Z.mul_comm (va / 4096)), Zmult_mod_distr_l, (Z.rem_mul_r va 4096) by lia. lia.
Qed.

(** Pages and paths of canonical addresses. *)
Lemma page_paths va va' : 0 <= va < W64 -> 0 <= va' < W64 -> is_canonical va = true -> is_canonical va' = true ->
  path_of va = path_of va' -> page_number va = page_number va'.
Proof. intros Hv Hv' Hc Hc' Hp. by apply (canonical_path KiB4 va va' (or_introl eq_refl)). Qed.

Section Walks.
Context (hh : Z) (m : mem).

Lemma page_within k e va w u x : 0 <= va ->
  mmu_page (12 + Z.of_nat k) e va w u x = within va <$> mmu_page (12 + Z.of_nat k) e (page_number va * 4096) w u x.
Proof.
  intros Hva. unfold mmu_page. destruct (_ || _); [|done]. cbn. unfold within. cbn. do 2 f_equal.
  rewrite Z.pow_add_r by lia. change (2 ^ 12) with 4096. rewrite (start_mod va k Hva). lia.
Qed.

Lemma walk_within level : forall table va w u x, 0 <= va ->
  mmu_walk hh m level table va w u x = within va <$> mmu_walk hh m level table (page_number va * 4096) w u x.
Proof.
  induction level as [|level IH]; intros table va w u x Hva; [done|].
  unfold mmu_walk; fold mmu_walk. cbv zeta. set (shift := 12 + 9 * Z.of_nat level).
  assert (index_at (page_number va * 4096) shift = index_at va shift) as ->.
  { rewrite !index_at_div by (unfold shift; lia || apply (page_split va Hva) || unfold page_number; Z.to_euclidean_division_equations; lia).
    unfold shift. rewrite Z.pow_add_r by lia. change (2 ^ 12) with 4096. by rewrite <- !Z.div_div, start_number by lia. }
  destruct (load64 m _) as [e| | | |]; try done. destruct (Z.testbit e 0); [|done].
  assert (shift = 12 + Z.of_nat (9 * level)) as -> by (unfold shift; lia).
  destruct level as [|level]; [by apply page_within|].
  destruct (Z.testbit e 7); [|by apply IH]. destruct (_ <=? _)%nat; [by apply page_within|done].
Qed.

Lemma mmu_within cr3 va : 0 <= va -> mmu hh m cr3 va = within va <$> mmu hh m cr3 (page_number va * 4096).
Proof. intros Hva. unfold mmu. rewrite start_canonical by done. destruct (is_canonical va); [by apply walk_within|done]. Qed.
End Walks.

Lemma mmu_canonical hh m cr3 va a : mmu hh m cr3 va = Some a -> is_canonical va = true.
Proof. unfold mmu. by destruct (is_canonical va). Qed.

(** ** Two views that differ in one entry *)

Lemma path_index va k : (k < 4)%nat -> path_of va !! k = Some (index_at va (12 + 9 * Z.of_nat (3 - k))).
Proof. destruct k as [|[|[|[|k]]]]; [done..|lia]. Qed.

Section Other.
Context {W : Type} `{FrameLaws W} (allocator : Z) (w w' : W) (h h' : heap) (top : Z) (N N' : gmap (list Z) Z).
Context (leaf leaf' : list Z -> Z) (p0 : list Z).
Context (Hv : pt_view allocator w h top N leaf) (Hv' : pt_view allocator w' h' top N' leaf').
Context (Hsub : N ⊆ N') (Hnew : forall q, N !! q = None -> is_Some (N' !! q) -> Z.testbit (leaf q) 0 = false).
Context (Hleaf : forall q, q <> p0 -> leaf' q = leaf q) (Hlen : length p0 = 4%nat) (Hset : settled leaf).
Local Abbreviation hh := hhdm_offset.

(** The entry on the path of an address of another page is the same, unless it was not present. *)
Lemma entry_other p t va : N !! p = Some t -> (length p < 4)%nat -> 0 <= va -> take (length p) (path_of va) = p -> path_of va <> p0 ->
  exists e, let i := index_at va (12 + 9 * Z.of_nat (3 - length p)) in
    load64 (wmem w) (t + 8 * i) = Ok e /\
    (Z.testbit e 0 = false \/
     load64 (wmem w') (t + 8 * i) = Ok e /\
     (Z.testbit e 7 = true \/ length p = 3%nat \/ exists t', N !! (p ++ [i]) = Some t' /\ Z.land e pa_mask = fromhh hh t')).
Proof.
  intros Hp Hl Hva Ht Hne. set (i := index_at va _). assert (0 <= i < 512) as Hi by (apply index_range; lia).
  assert (take (S (length p)) (path_of va) = p ++ [i]) as Eq.
  { rewrite (take_S_r _ _ i) by (by apply path_index). by rewrite Ht. }
  assert (p ++ [i] <> p0) as Hq.
  { intros <-. apply Hne. rewrite <- Eq. rewrite firstn_all2; [done|]. rewrite path_length. rewrite length_app in Hlen. simpl in Hlen. lia. }
  destruct (pv_entry _ _ _ _ _ _ Hv p t i Hp Hi) as (e & El & _ & Hm). exists e. split; [exact El|].
  destruct (pv_entry _ _ _ _ _ _ Hv' p t i) as (e' & El' & _ & Hm'); [by apply (lookup_weaken N)|done|].
  rewrite Hleaf in Hm' by done.
  destruct (N !! (p ++ [i])) as [t'|] eqn:E.
  - rewrite (lookup_weaken N N' _ t' E Hsub) in Hm'. destruct Hm as (_ & _ & Ee), Hm' as (_ & _ & Ee'). right.
    split; [by rewrite El', Ee, Ee'|]. right; right. exists t'. split; [done|].
    destruct (pv_table _ _ _ _ _ _ Hv _ t' E) as [_ Ht'].
    destruct (table_phys allocator w h t' (pv_heap _ _ _ _ _ _ Hv) Ht') as [_ Hmask]. rewrite Ee. by apply table_entry_address.
  - destruct (N' !! (p ++ [i])) as [t'|] eqn:E'; [left; rewrite <- Hm; by apply Hnew; [|eexists]|].
    destruct (Z.testbit e 0) eqn:E0; [right|by left]. split; [congruence|].
    destruct (decide (length p = 3%nat)) as [|Hl3]; [tauto|left]. rewrite <- Hm in E0 |- *.
    destruct (Hset (p ++ [i])) as [Ez|[_ ?]]; [rewrite length_app; simpl; lia| |done].
    rewrite Ez, Z.bits_0 in E0. discriminate E0.
Qed.

(** A translation of another page stays as it is. *)
Lemma walk_other n : forall p t va a w0 u x, N !! p = Some t -> (n + length p = 4)%nat -> 0 <= va -> take (length p) (path_of va) = p ->
  path_of va <> p0 -> mmu_walk hh (wmem w) n (fromhh hh t) va w0 u x = Some a -> mmu_walk hh (wmem w') n (fromhh hh t) va w0 u x = Some a.
Proof.
  induction n as [|n IH]; intros p t va a w0 u x Hp Hn Hva Ht Hne; [done|].
  destruct (entry_other p t va) as (e & El & He); [done|lia|done..|]. cbv zeta in El, He.
  replace (3 - length p)%nat with n in * by lia.
  destruct (pv_table _ _ _ _ _ _ Hv p t Hp) as [_ Htab].
  destruct (table_phys allocator w h t (pv_heap _ _ _ _ _ _ Hv) Htab) as [Eh _].
  unfold mmu_walk; fold mmu_walk. rewrite Eh, El. destruct He as [->|[-> He]]; [done|].
  destruct (Z.testbit e 0); [|done]. destruct n as [|n]; [done|]. destruct (Z.testbit e 7); [done|].
  destruct He as [?|[?|(t' & Ht' & ->)]]; [done|lia|].
  apply (IH (p ++ [index_at va (12 + 9 * Z.of_nat (S n))])); [done|rewrite length_app; simpl; lia|done| |done].
  rewrite length_app, Nat.add_1_r. rewrite (take_S_r _ _ (index_at va (12 + 9 * Z.of_nat (S n)))), Ht; [done|].
  rewrite path_index by lia. by replace (3 - length p)%nat with (S n) by lia.
Qed.
End Other.

(** ** The operations of the kernel *)

Lemma settled_set leaf p e : settled leaf -> length p = 4%nat -> settled (set_entry leaf p e).
Proof. intros Hs Hp q Hq. unfold set_entry. rewrite decide_False by (intros ->; lia). by apply Hs. Qed.

(** With such upper levels the entries above a page are zero where they point to no table. *)
Lemma settled_clear leaf va j : settled leaf -> path_clear leaf (path_of va) 4 -> (0 < j < 4)%nat -> leaf (take j (path_of va)) = 0.
Proof.
  intros Hs Hc Hj. destruct (Hs (take j (path_of va))) as [?|[E _]]; [rewrite length_take, path_length; lia|done|].
  specialize (Hc j Hj). unfold pte_get_flag in Hc. change present with (2 ^ 0) in Hc. rewrite has_bit in Hc by lia. congruence.
Qed.

Section Claims.
Context {W : Type} `{FrameLaws W} (allocator : Z) (gib1_pages : bool) (pm : pagemap) (Hss : std_sizes pm).
Local Abbreviation page_map := (page_map allocator pm).
Local Abbreviation run_op := (run_op allocator gib1_pages pm).
Local Abbreviation walk := (walk pm).

(** The walk of an address whose page is mapped by an entry of the last level, or not at all. *)
Lemma walk_entry w leaf va : page_map w leaf -> settled leaf -> 0 <= va -> is_canonical va = true ->
  path_clear leaf (path_of va) 4 -> walk w va = mmu_entry KiB4 va (leaf (path_of va)).
Proof.
  intros (h & N & Hv) Hs Hva Hc Hcl. unfold Tlb.walk. rewrite (view_mmu allocator pm w h N leaf) by done.
  apply (mmu_spec allocator w h (top_level pm) N leaf Hv KiB4 va (or_introl eq_refl) Hva); [|by apply (page_map_no_table allocator pm w h N leaf)|by left].
  intros j Hj. change (depth KiB4) with 4%nat in Hj. by apply settled_clear.
Qed.

(** [w'] translates what [w] does, but for the page at [va]. *)
Definition keeps_others (w w' : W) (va : Z) : Prop :=
  forall va' a, 0 <= va' -> path_of va' <> path_of va -> walk w va' = Some a -> walk w' va' = Some a.

Lemma views_keep w h N leaf w' h' N' va e : pt_view allocator w h (top_level pm) N leaf -> settled leaf ->
  pt_view allocator w' h' (top_level pm) N' (set_entry leaf (path_of va) e) -> N ⊆ N' -> walk_keeps va KiB4 N N' ->
  path_clear leaf (path_of va) 4 -> keeps_others w w' va.
Proof.
  intros Hv Hs Hv' Hsub Hk Hcl va' a Hva' Hne Ha. pose proof (mmu_canonical _ _ _ _ _ Ha) as Hc. unfold Tlb.walk in *.
  rewrite (view_mmu allocator pm w h N leaf) in Ha by done. rewrite (view_mmu allocator pm w' h' N' _ va' Hv') by done.
  apply (walk_other allocator w w' h h' (top_level pm) N N' leaf _ (path_of va) Hv Hv' Hsub) with (p := []); try done.
  - intros q Hq Hq'. destruct (decide (q ∈ (fun j => take j (path_of va)) <$> [1; 2; 3]%nat)) as [Hin|Hout].
    + apply list_elem_of_fmap in Hin as (j & -> & Hj). rewrite !elem_of_cons, elem_of_nil in Hj.
      rewrite (settled_clear leaf va j Hs Hcl) by lia. apply Z.bits_0.
    + exfalso. rewrite Hk, Hq in Hq'; [by destruct Hq'|]. intros j Hj ->. apply Hout, list_elem_of_fmap. exists j.
      split; [done|]. change (depth KiB4) with 4%nat in Hj. rewrite !elem_of_cons. lia.
  - intros q Hq. unfold set_entry. by rewrite decide_False.
  - exact (pv_root _ _ _ _ _ _ Hv).
Qed.

(** What each operation does to tables and translations. *)
Lemma op_keeps w leaf o r w' leaf' : page_map w leaf -> settled leaf -> op_legal leaf o ->
  run_op o w = Ok (r, w') -> op_spec o leaf r leaf' ->
  page_map w' leaf' /\ settled leaf' /\ keeps_others w w' (op_address o).
Proof.
  intros (h & N & Hv) Hs ([Hva _] & Hcl & Hl) E Hsp. pose proof (page_map_no_table allocator pm w h N leaf (op_address o) Hv) as Hn.
  destruct o as [va pa flags cache|va|va flags cache|va]; cbn [PagingClaims.run_op op_spec op_address] in *.
  - destruct Hl as [Hf Hpa], Hsp as [_ ->]. apply bind_inv in E as ([b w1] & E & [= _ <-]). revert E.
    unfold map. rewrite (small_not_huge pm Hss flags Hf), (small_page pm Hss) by apply Hf. simpl andb. intros E.
    destruct (map_one_spec allocator pm Hss w h N leaf Hv va pa flags cache KiB4 Hva Hpa (or_introl eq_refl) Hcl Hn) as
      [(w2 & h' & N' & E' & Hv' & Hsub & Hk & _)|[E' _]]; rewrite E' in E; [|discriminate E].
    injection E as _ <-. split_and!; [by exists h', N'|by apply settled_set|by apply (views_keep w h N leaf w2 h' N' va _ Hv Hs Hv')].
  - apply bind_inv in E as ([b [inv w1]] & E & [= Er <-]). revert E. unfold unmap.
    rewrite (small_not_huge pm Hss 0) by done. simpl andb. intros E.
    destruct (unmap_one_spec allocator pm Hss w h N leaf Hv va [] Hva Hcl) as [(w2 & E' & Hv')|[E' _]]; rewrite E' in E;
      injection E as <- _ <-; simpl in Er; subst r; destruct Hsp as [[? ->]|(? & -> & _)]; try done.
    + split_and!; [by exists h, N|by apply settled_set|by apply (views_keep w h N leaf w2 h N va _ Hv Hs Hv')].
    + split_and!; [by exists h, N|done|by intros ???].
  - destruct Hsp as [_ ->]. apply bind_inv in E as ([b w1] & E & [= _ <-]).
    pose proof (set_flags_spec allocator pm Hss w h N leaf Hv va flags cache Hva) as Hset. cbv zeta in Hset.
    rewrite (small_page pm Hss) in Hset by apply Hl.
    destruct (Hset Hcl Hn) as [(w2 & h' & N' & E' & Hv' & Hsub & Hk)|[E' _]]; rewrite E' in E; [|discriminate E].
    injection E as _ <-. split_and!; [by exists h', N'|by apply settled_set|by apply (views_keep w h N leaf w2 h' N' va _ Hv Hs Hv')].
  - destruct Hsp as [_ ->]. rewrite (small_translate allocator pm Hss w leaf va) in E by (done || by exists h, N).
    injection E as _ <-. split_and!; [by exists h, N|done|by intros ???].
Qed.

(** An entry of the last level, as the processor reads it. *)
Lemma small_access va e : mmu_entry KiB4 va e =
  if Z.testbit e 0 then Some (Access (pte_address e + va mod 4096) (Z.testbit e 1) (Z.testbit e 2) (negb (Z.testbit e 63))) else None.
Proof.
  unfold mmu_entry. destruct (Z.testbit e 0); [|done]. simpl andb. cbv iota. unfold mmu_page. fold (pte_address e).
  change (page_shift KiB4) with 12. change (2 ^ 12) with 4096. cbn [Z.eqb Pos.eqb orb].
  destruct (pte_address_frame e) as [Hm _]. do 2 f_equal. Z.to_euclidean_division_equations. lia.
Qed.

(** ** The steps *)

Lemma kernel_op_inv o w t r w' t' : kernel_op allocator gib1_pages pm o w t = Ok (r, w', t') ->
  run_op o w = Ok (r, w') /\ (forall n a, t' !! n = Some a -> t !! n = Some a) /\
  forall va, o = Punmap va -> exists b inv, unmap allocator gib1_pages pm va 0 w = Ok (b, (inv, w')) /\ r = Z.b2z b /\ t' = foldl invlpg t inv.
Proof.
  assert (forall inv t n a, foldl invlpg t inv !! n = Some a -> t !! n = Some a) as Hf.
  { induction inv as [|v inv IH]; intros t0 n a Ht; [done|]. apply IH in Ht. unfold invlpg in Ht. by apply lookup_delete_Some in Ht as [_ Ht]. }
  destruct o as [va pa flags cache|va|va flags cache|va]; unfold kernel_op; intros E; apply bind_inv in E as ([x y] & E & E').
  1,3,4: injection E' as <- <- <-; by split_and!.
  destruct y as [inv w1]. injection E' as <- <- <-. cbn [PagingClaims.run_op]. rewrite E. split_and!; [done|apply Hf|].
  intros va' [= <-]. by exists x, inv.
Qed.

(** What is kept of the page the operation is about. *)
Lemma own_page w leaf t o r w' t' n a : page_map w leaf -> settled leaf -> flush_legal leaf t o ->
  kernel_op allocator gib1_pages pm o w t = Ok (r, w', t') -> t' !! n = Some a -> n = page_number (op_address o) ->
  walk w (n * 4096) = Some a -> walk w' (n * 4096) = Some a.
Proof.
  intros Hm Hs (([Hva Hva1] & Hcl & _) & Hc & Hl) E Ht -> Ha. destruct (kernel_op_inv _ _ _ _ _ _ E) as (Er & Hsub & Hun).
  rewrite (walk_entry w leaf) in Ha; [|done|done|apply start_range; lia|by rewrite start_canonical|by rewrite start_path].
  rewrite start_path, small_access in Ha by done.
  destruct o as [va pa flags cache|va|va flags cache|va]; cbn [op_address] in *.
  - rewrite Hl in Ha. discriminate Ha.
  - destruct (Hun va eq_refl) as (b & inv & Eu & _ & ->).
    destruct (small_unmap allocator gib1_pages pm Hss w leaf va Hm Hva Hcl) as [(w1 & E1 & _)|[E1 Hz]].
    + rewrite Eu in E1. injection E1 as -> -> _. cbn [foldl] in Ht. unfold invlpg in Ht. rewrite lookup_delete_eq in Ht. discriminate Ht.
    + rewrite Hz, Z.bits_0 in Ha. discriminate Ha.
  - apply Hsub in Ht. congruence.
  - cbn [PagingClaims.run_op] in Er. rewrite (small_translate allocator pm Hss w leaf va) in Er by done. injection Er as _ <-.
    rewrite (walk_entry w leaf); [|done|done|apply start_range; lia|by rewrite start_canonical|by rewrite start_path].
    by rewrite start_path, small_access by done.
Qed.

Lemma cpu_step_inv s s' : cpu_inv allocator pm s -> cpu_step allocator gib1_pages pm s s' -> cpu_inv allocator pm s'.
Proof.
  intros [Hm Hs Hc] Hst. destruct Hst as [w leaf t va a Hva Ha|w leaf t n|w leaf t o r w' leaf' t' Hl E Hsp]; cbn [tables entries tlb] in *.
  - constructor; cbn [tables entries tlb]; try done. intros n b [[<- <-]|[_ Hn]]%lookup_insert_Some; [|by apply Hc].
    split; [by apply start_range|done].
  - constructor; cbn [tables entries tlb]; try done. intros n' b [_ Hn]%lookup_delete_Some. by apply Hc.
  - destruct (kernel_op_inv _ _ _ _ _ _ E) as (Er & Hsub & _).
    destruct (op_keeps w leaf o r w' leaf' Hm Hs (proj1 Hl) Er Hsp) as (Hm' & Hs' & Hk).
    constructor; cbn [tables entries tlb]; try done. intros n a Hn. destruct (Hc n a (Hsub n a Hn)) as [Hr Ha]. split; [done|].
    destruct (decide (path_of (n * 4096) = path_of (op_address o))) as [Ep|Ep]; [|by apply Hk; [lia|..]].
    apply (own_page w leaf t o r w' t' n a Hm Hs Hl E Hn); [|done]. rewrite <- (start_page n).
    destruct Hl as ((Hva & _) & Hcan & _). apply page_paths; try done. by apply mmu_canonical in Ha.
Qed.

Lemma coherent_translation w t va : coherent pm w t -> 0 <= va -> translation pm w t va = walk w va.
Proof.
  intros Hc Hva. unfold translation. destruct (t !! page_number va) as [a|] eqn:E; [|done].
  destruct (Hc _ _ E) as [_ Ha]. unfold Tlb.walk in *. by rewrite mmu_within, Ha.
Qed.

(** C5: however the operations of the kernel on 4 KiB pages interleave with the processor's
    keeping and dropping of translations, the processor translates every address as a
    walk of the current tables does, and addresses outside large pages as their entry
    says; the [invlpg] in [unmap] is enough, provided [map] is used on pages that are
    not mapped and [set_flags] on pages the processor does not keep. *)
Theorem tlb_transparent s s' : cpu_inv allocator pm s -> rtc (cpu_step allocator gib1_pages pm) s s' ->
  cpu_inv allocator pm s' /\ forall va, 0 <= va < W64 ->
    translation pm (tables s') (tlb s') va = walk (tables s') va /\
    (is_canonical va = true -> path_clear (entries s') (path_of va) 4 ->
     translation pm (tables s') (tlb s') va = mmu_entry KiB4 va (entries s' (path_of va))).
Proof.
  intros Hi Hst. assert (cpu_inv allocator pm s') as Hi'.
  { induction Hst as [s|s s1 s2 Hs _ IH]; [done|]. apply IH. by apply (cpu_step_inv s). }
  split; [done|]. intros va [Hva _]. destruct Hi' as [Hm Hset Hc].
  rewrite (coherent_translation _ _ va Hc Hva). split; [done|]. intros Hcan Hcl. by apply walk_entry.
Qed.

(** C6: [set_flags] and [map] do not flush.  Used on a mapped page whose translation the
    processor keeps, they change what the tables say, the rights or the frame, and the
    processor goes on with the old translation. *)
Theorem no_flush_stale w leaf t va a flags cache : cpu_inv allocator pm (Cpu w leaf t) ->
  0 <= va < W64 -> is_canonical va = true -> path_clear leaf (path_of va) 4 -> small_flags flags ->
  t !! page_number va = Some a ->
  (exists w', kernel_op allocator gib1_pages pm (Pset_flags va flags cache) w t = Ok (1, w', t) /\
     walk w' va = Some (Access (ac_address a + va mod 4096) (has flags WRITE) (has flags USER) (has flags EXEC)) /\
     translation pm w' t va = Some (within va a)) /\
  (forall pa, frame_ok KiB4 pa -> exists w' b, kernel_op allocator gib1_pages pm (Pmap va pa flags cache) w t = Ok (1, w', t) /\
     walk w' va = Some b /\ ac_address b = pa + va mod 4096 /\ translation pm w' t va = Some (within va a)).
Proof.
  intros [Hm Hs Hc] [Hva Hva1] Hcan Hcl Hf Ht. cbn [tables entries tlb] in *. destruct (Hc _ _ Ht) as [_ Ha].
  rewrite (walk_entry w leaf), start_path, small_access in Ha; try done; [|apply start_range; lia|by rewrite start_canonical|by rewrite start_path].
  set (e := leaf (path_of va)) in *. destruct (Z.testbit e 0) eqn:E0; [|discriminate Ha]. injection Ha as Ha.
  assert (e <> 0) as Hne by (intros Ez; rewrite Ez, Z.bits_0 in E0; discriminate E0).
  assert (ac_address a = pte_address e) as Eaddr by (rewrite <- Ha; cbn; rewrite Z.mod_mul; lia).
  assert (forall w', translation pm w' t va = Some (within va a)) as Htr by (intros w'; unfold translation; by rewrite Ht).
  assert (forall w' e', page_map w' (set_entry leaf (path_of va) e') -> Z.testbit e' 0 = true ->
    walk w' va = Some (Access (pte_address e' + va mod 4096) (Z.testbit e' 1) (Z.testbit e' 2) (negb (Z.testbit e' 63)))) as Hwalk.
  { intros w' e' Hm' He'. rewrite (walk_entry w' _ va Hm'), small_access; [|by apply settled_set|done|done|by apply path_clear_set].
    unfold set_entry. rewrite decide_True by done. by rewrite He'. }
  split.
  - destruct (small_set_flags allocator pm Hss w leaf va Hm Hva Hcl flags cache Hf) as [(w' & E & Hm')|(_ & Hz & _)]; [|done].
    exists w'. cbn [kernel_op PagingClaims.run_op]. rewrite E. split_and!; [done| |apply Htr].
    assert (forall n, 0 <= n < 12 \/ 52 <= n < 64 -> Z.testbit (mapped_entry 0 (pte_address e) flags cache false) n = wanted flags cache n) as Hb
      by (intros n Hn; rewrite mapped_bit, Z.bits_0; [done|apply Hf|apply Hf|apply pte_address_frame|done]).
    rewrite (Hwalk w' _ Hm') by (rewrite Hb by lia; done). rewrite mapped_address by apply pte_address_mask. rewrite !Hb, Eaddr by lia.
    unfold wanted. cbn [Z.eqb Pos.eqb]. by rewrite negb_involutive.
  - intros pa (Hpm & Hp0 & Hp1). unfold KiB4 in Hpm, Hp1.
    destruct (small_map allocator gib1_pages pm Hss w leaf va Hm Hva Hcl pa flags cache Hf) as [(w' & E & Hm')|(_ & Hz & _)]; [lia| |done].
    exists w'. eexists. cbn [kernel_op PagingClaims.run_op]. rewrite E. split_and!; [done|apply (Hwalk w' _ Hm')| |apply Htr].
    + rewrite mapped_bit by (apply Hf || lia). fold e. by rewrite E0.
    + cbn [ac_address]. rewrite mapped_address; [done|by apply frame_mask; [|lia]].
Qed.
End Claims.

(** Boot ends in such a state: cr3 is loaded last, with the buffer empty. *)
Lemma boot_cpu_inv {W : Type} `{FrameLaws W} (allocator : Z) (gib1_pages : bool) es file_size physical_base virtual_base top w h pm cr3 w' :
  heap_inv allocator w h -> boot_layout hhdm_offset es file_size physical_base virtual_base top ->
  paging_init allocator gib1_pages es file_size physical_base virtual_base w = Ok (pm, cr3, w') ->
  std_sizes pm /\ cr3 = pagemap_load pm /\ exists leaf, cpu_inv allocator pm (Cpu w' leaf ∅).
Proof.
  intros Hinv L E.
  destruct (init_meets allocator gib1_pages es file_size physical_base virtual_base top w h false Hinv L ltac:(done)) as [(r & E' & Hr)|[E' _]];
    rewrite E in E'; [|discriminate E']. injection E' as <-. destruct Hr as (Hss & Ec & D & (h' & N & leaf & Hb) & _).
  split; [done|]. split; [done|]. exists leaf. constructor; cbn [tables entries tlb].
  - exists h', N. exact (bt_view _ _ _ _ _ _ _ _ _ _ Hb).
  - intros q Hq. destruct (bt_entries _ _ _ _ _ _ _ _ _ _ Hb q) as [?|(a & _ & <- & He)]; [by left|right].
    split; [apply (eo_present _ _ He)|]. destruct (eo_large _ _ He) as [Ea|?]; [|done].
    unfold rq_path in Hq. rewrite Ea, entry_path_length in Hq. change (depth KiB4) with 4%nat in Hq. lia.
  - intros n a Hn. by rewrite lookup_empty in Hn.
Qed.

(** ** A machine with a page the processor keeps *)

Definition used_access : access := Access 40960 true false true.

Section Witnesses.
#[local] Existing Instance phys_frames.
Local Abbreviation sample_step := (@cpu_step phys (phys_frames sample_hhdm) sample_alloc false paged_map).

Lemma paged_settled : settled paged_leaf.
Proof.
  intros q Hq. unfold paged_leaf. rewrite decide_False by (intros ->; simpl in Hq; lia).
  destruct (decide _); [by right|by left].
Qed.

Lemma used_walk : @walk phys (phys_frames sample_hhdm) paged_map paged_state used_address = Some used_access.
Proof.
  rewrite (@walk_entry phys (phys_frames sample_hhdm) sample_laws sample_alloc paged_map paged_state paged_leaf used_address
    paged_map_ok paged_settled); [by vm_compute|by vm_compute|done|exact used_clear].
Qed.

Lemma paged_cpu_inv t : t = ∅ \/ t = {[5 := used_access]} ->
  @cpu_inv phys (phys_frames sample_hhdm) sample_laws sample_alloc paged_map (Cpu paged_state paged_leaf t).
Proof.
  intros Ht. constructor; [exact paged_map_ok|exact paged_settled|]. cbn [tables tlb]. intros n a Hn. destruct Ht as [->| ->].
  - by rewrite lookup_empty in Hn.
  - apply lookup_singleton_Some in Hn as [<- <-]. split; [lia|].
    change (5 * 4096) with used_address. exact used_walk.
Qed.

Lemma tlb_transparent_witness : exists w' t',
  rtc sample_step (Cpu paged_state paged_leaf ∅) (Cpu w' (set_entry paged_leaf (path_of used_address) 0) t') /\
  @translation phys (phys_frames sample_hhdm) paged_map w' t' used_address = None.
Proof.
  destruct (@small_unmap phys (phys_frames sample_hhdm) sample_laws sample_alloc false paged_map paged_sizes paged_state paged_leaf
    used_address paged_map_ok ltac:(by vm_compute) used_clear) as [(w' & E & Hm)|[_ Hz]]; [|discriminate Hz].
  set (t' := invlpg (<[page_number used_address := used_access]> ∅) used_address).
  assert (rtc sample_step (Cpu paged_state paged_leaf ∅) (Cpu w' (set_entry paged_leaf (path_of used_address) 0) t')) as Hst.
  { eapply rtc_l; [|apply rtc_once].
    - apply (@Keep_page phys (phys_frames sample_hhdm) sample_alloc false paged_map paged_state paged_leaf ∅ used_address used_access).
      { unfold used_address. lia. }
      change (page_number used_address * 4096) with used_address. exact used_walk.
    - apply Kernel_op with (o := Punmap used_address) (r := 1).
      + split; [|split; [reflexivity|exact I]]. split; [unfold used_address; cbn; lia|]. split; [exact used_clear|exact I].
      + unfold kernel_op. rewrite E. exact eq_refl.
      + left. split; reflexivity. }
  exists w', t'. split; [exact Hst|].
  destruct (@tlb_transparent phys (phys_frames sample_hhdm) sample_laws sample_alloc false paged_map paged_sizes _ _
    (paged_cpu_inv ∅ (or_introl eq_refl)) Hst) as [_ Ht].
  destruct (Ht used_address) as [_ Ht']; [unfold used_address; lia|]. cbn [tables tlb entries] in Ht'. rewrite Ht'.
  - reflexivity.
  - reflexivity.
  - apply path_clear_set; [apply le_n|exact used_clear].
Defined.

Lemma no_flush_stale_witness : exists w',
  @kernel_op phys (phys_frames sample_hhdm) sample_alloc false paged_map (Pset_flags used_address 0 WRITE_BACK) paged_state
    {[5 := used_access]} = Ok (1, w', {[5 := used_access]}) /\
  @walk phys (phys_frames sample_hhdm) paged_map w' used_address = Some (Access 40960 false false false) /\
  @translation phys (phys_frames sample_hhdm) paged_map w' {[5 := used_access]} used_address = Some used_access.
Proof.
  destruct (@no_flush_stale phys (phys_frames sample_hhdm) sample_laws sample_alloc false paged_map paged_sizes paged_state paged_leaf
    {[5 := used_access]} used_address used_access 0 WRITE_BACK) as [(w' & E & Ew & Et) _].
  - apply paged_cpu_inv. by right.
  - by vm_compute.
  - done.
  - exact used_clear.
  - by vm_compute.
  - apply lookup_singleton_eq.
  - exists w'. split_and!; [exact E|exact Ew|exact Et].
Defined.
End Witnesses.
