(* ===== verification/Stdio.v ===== *)
(** * libs/libc/stdio.cpp: output and integers

    Where the characters go, and the formatting of integers.  A local character
    array is the list of the characters written to it, so its length is the
    variable [len] of the source; the arrays have 32 places. *)

From S2P Require Import Prelude Memory.
From Stdlib Require Export Ascii String.

(** Character constants and string literals. *)
Definition ch (a : ascii) : Z := Z.of_N (N_of_ascii a).
Definition str (s : string) : list Z := List.map ch (list_ascii_of_string s).

#[global] Open Scope char_scope.
#[global] Open Scope Z_scope.
#[global] Open Scope list_scope.

(** ** Flags and limits *)

Definition FLAGS_ZEROPAD := 1.
Definition FLAGS_LEFT := 2.
Definition FLAGS_PLUS := 4.
Definition FLAGS_SPACE := 8.
Definition FLAGS_HASH := 16.
Definition FLAGS_UPPERCASE := 32.
Definition FLAGS_CHAR := 64.
Definition FLAGS_SHORT := 128.
Definition FLAGS_INT := 256.
Definition FLAGS_LONG := 512.
Definition FLAGS_LONG_LONG := 1024.
Definition FLAGS_PRECISION := 2048.
Definition FLAGS_ADAPT_EXP := 4096.
Definition FLAGS_POINTER := 8192.
Definition FLAGS_SIGNED := 16384.

Definition BASE_BINARY := 2.
Definition BASE_OCTAL := 8.
Definition BASE_DECIMAL := 10.
Definition BASE_HEX := 16.

Definition PRINTF_INTEGER_BUFFER_SIZE := 32.
Definition PRINTF_DECIMAL_BUFFER_SIZE := 32.
Definition PRINTF_MAX_POSSIBLE_BUFFER_SIZE := 2147483647.

(** [flags & f] as a condition, and [flags & ~f] on 32 bits. *)
Definition flag (flags f : Z) : bool := negb (Z.land flags f =? 0).
Definition unflag (flags f : Z) : Z := Z.land flags (u32 (Z.lnot f)).

(** [ABS_FOR_PRINTING] of a value of a signed type of at most 64 bits; both casts
    of the macro go to [unsigned long long]. *)
Definition abs_for_printing (x : Z) : Z := if 0 <? x then u64 x else u64 (- u64 x).

(** ** The output *)

(** An output gadget: a function with its extra argument, or a buffer. *)
Record output_gadget_t : Type := Gadget {
  has_function : bool;
  extra_function_arg : Z;
  buffer : Z;
  pos : Z;
  max_chars : Z;
}.

Definition discarding_gadget : output_gadget_t := Gadget false 0 0 0 0.

Definition buffer_gadget (p buffer_size : Z) : output_gadget_t :=
  let usable := if PRINTF_MAX_POSSIBLE_BUFFER_SIZE <? buffer_size then PRINTF_MAX_POSSIBLE_BUFFER_SIZE
                else buffer_size in
  if p =? 0 then discarding_gadget else Gadget false 0 p 0 usable.

Definition function_gadget (extra_arg : Z) : output_gadget_t :=
  Gadget true extra_arg 0 0 PRINTF_MAX_POSSIBLE_BUFFER_SIZE.

Section Output.
(** [function c arg s] is a call of the gadget's function. *)
Context {S : Type} (function : Z -> Z -> S -> outcome S).

(** The output in progress: the gadget, the memory and the function's state. *)
Record out : Type := Out { gadget : output_gadget_t; o_mem : mem; o_state : S }.

Definition with_pos (g : output_gadget_t) (p : Z) : output_gadget_t :=
  Gadget (has_function g) (extra_function_arg g) (buffer g) p (max_chars g).

Definition putchar_via_gadget (c : Z) (o : out) : outcome out :=
  let write_pos := pos (gadget o) in
  let g := with_pos (gadget o) (u32 (write_pos + 1)) in
  if max_chars g <=? write_pos then Ok (Out g (o_mem o) (o_state o))
  else if has_function g then
    s ← function c (extra_function_arg g) (o_state o);
    Ok (Out g (o_mem o) s)
  else
    m ← store8 (o_mem o) (u64 (buffer g + write_pos)) c;
    Ok (Out g m (o_state o)).

Definition append_termination_with_gadget (o : out) : outcome out :=
  let g := gadget o in
  if has_function g || (max_chars g =? 0) then Ok o
  else if buffer g =? 0 then Ok o
  else
    let null_char_pos := if pos g <? max_chars g then pos g else u32 (max_chars g - 1) in
    m ← store8 (o_mem o) (u64 (buffer g + null_char_pos)) 0;
    Ok (Out g m (o_state o)).

(** [while (output->pos - start_pos < width) putchar_via_gadget(output, ' ')] *)
Definition pad_right (start_pos width : Z) (o : out) : outcome out :=
  loop (fun o =>
      if u32 (pos (gadget o) - start_pos) <? width then
        o ← putchar_via_gadget (ch " ") o; Ok (inl o)
      else Ok (inr o)) (Z.to_nat width + 1) o.

(** A run of one character, and a list of characters. *)
Definition put_many (n : Z) (c : Z) (o : out) : outcome out :=
  for_range 0 n (fun _ o => putchar_via_gadget c o) o.
Fixpoint put_all (l : list Z) (o : out) : outcome out :=
  match l with
  | [] => Ok o
  | c :: l' => o ← putchar_via_gadget c o; put_all l' o
  end.

Definition out_rev (buf : list Z) (width flags : Z) (o : out) : outcome out :=
  let len := Z.of_nat (List.length buf) in
  let start_pos := pos (gadget o) in
  o ← (if negb (flag flags FLAGS_LEFT) && negb (flag flags FLAGS_ZEROPAD)
       then put_many (width - len) (ch " ") o else Ok o);
  o ← put_all (reverse buf) o;
  if flag flags FLAGS_LEFT then pad_right start_pos width o else Ok o.

(** ** Integers *)

Local Abbreviation len := (fun buf : list Z => Z.of_nat (List.length buf)).

(** [while ((len < limit) && (len < 32)) buf[len++] = '0'] *)
Fixpoint pad_zeros (n : nat) (limit : Z) (buf : list Z) : list Z :=
  match n with
  | O => buf
  | Datatypes.S n' =>
      if (len buf <? limit) && (len buf <? PRINTF_INTEGER_BUFFER_SIZE)
      then pad_zeros n' limit (buf ++ [ch "0"]) else buf
  end.

(** [if (len < 32) buf[len++] = c] *)
Definition push (c : Z) (buf : list Z) : list Z :=
  if len buf <? PRINTF_INTEGER_BUFFER_SIZE then buf ++ [c] else buf.

Definition print_integer_finalization (buf : list Z) (negative : bool) (base precision width flags : Z)
    (o : out) : outcome out :=
  let unpadded_len := len buf in
  (* pad with leading zeros *)
  let width' := if negb (flag flags FLAGS_LEFT) && negb (width =? 0) && flag flags FLAGS_ZEROPAD &&
                   (negative || flag flags (Z.lor FLAGS_PLUS FLAGS_SPACE)) then width - 1 else width in
  let buf := if negb (flag flags FLAGS_LEFT) && flag flags FLAGS_ZEROPAD then pad_zeros 32 width' buf else buf in
  let buf := pad_zeros 32 precision buf in
  let flags := if (base =? BASE_OCTAL) && (unpadded_len <? len buf) then unflag flags FLAGS_HASH else flags in
  (* handle hash *)
  let buf :=
    if flag flags (Z.lor FLAGS_HASH FLAGS_POINTER) then
      let buf :=
        if negb (flag flags FLAGS_PRECISION) && negb (len buf =? 0) &&
           ((len buf =? precision) || (len buf =? width')) then
          let buf := if unpadded_len <? len buf then removelast buf else buf in
          if negb (len buf =? 0) && ((base =? BASE_HEX) || (base =? BASE_BINARY)) && (unpadded_len <? len buf)
          then removelast buf else buf
        else buf in
      let buf :=
        if (base =? BASE_HEX) && negb (flag flags FLAGS_UPPERCASE) && (len buf <? PRINTF_INTEGER_BUFFER_SIZE)
        then buf ++ [ch "x"]
        else if (base =? BASE_HEX) && flag flags FLAGS_UPPERCASE && (len buf <? PRINTF_INTEGER_BUFFER_SIZE)
        then buf ++ [ch "X"]
        else if (base =? BASE_BINARY) && (len buf <? PRINTF_INTEGER_BUFFER_SIZE) then buf ++ [ch "b"]
        else buf in
      push (ch "0") buf
    else buf in
  let buf :=
    if len buf <? PRINTF_INTEGER_BUFFER_SIZE then
      if negative then buf ++ [ch "-"]
      else if flag flags FLAGS_PLUS then buf ++ [ch "+"]
      else if flag flags FLAGS_SPACE then buf ++ [ch " "]
      else buf
    else buf in
  out_rev buf width' flags o.

Definition digit_char (digit flags : Z) : Z :=
  if digit <? 10 then ch "0" + digit
  else (if flag flags FLAGS_UPPERCASE then ch "A" else ch "a") + digit - 10.

(** [do ... while (value && (len < 32))] *)
Fixpoint digits_loop (n : nat) (value base flags : Z) (buf : list Z) : list Z :=
  match n with
  | O => buf
  | Datatypes.S n' =>
      let buf := buf ++ [digit_char (value mod base) flags] in
      let value := value / base in
      if negb (value =? 0) && (len buf <? PRINTF_INTEGER_BUFFER_SIZE)
      then digits_loop n' value base flags buf else buf
  end.

Definition print_integer (value : Z) (negative : bool) (base precision width flags : Z) (o : out) : outcome out :=
  if value =? 0 then
    if negb (flag flags FLAGS_PRECISION) then
      print_integer_finalization [ch "0"] negative base precision width (unflag flags FLAGS_HASH) o
    else
      print_integer_finalization [] negative base precision width
        (if base =? BASE_HEX then unflag flags FLAGS_HASH else flags) o
  else print_integer_finalization (digits_loop 32 value base flags []) negative base precision width flags o.
End Output.

#[global] Arguments out S : clear implicits.
