(* ===== verification/StdioFloat.v ===== *)
(** * libs/libc/stdio.cpp: floating-point output

    Doubles are IEEE binary64 values, with the Standard Library's specification of
    the operations (round to nearest, ties to even), as the SSE2 code of the kernel
    computes them.  Conversions to integers that overflow, and uses of variables
    that were never set, are [Undef]. *)

From S2P Require Import Prelude Memory Stdio.
From Stdlib Require Import SpecFloat.

Abbreviation double := spec_float.

(** ** Arithmetic *)

Section Double.
Definition dadd : double -> double -> double := SFadd 53 1024.
Definition dsub : double -> double -> double := SFsub 53 1024.
Definition dmul : double -> double -> double := SFmul 53 1024.
Definition ddiv : double -> double -> double := SFdiv 53 1024.

(** [static_cast<double>] of an integer. *)
Definition d_of_Z (z : Z) : double := binary_normalize 53 1024 z 0 false.

(** The integer part towards zero, when it is a signed [w]-bit integer. *)
Definition d_to_int (w : Z) (x : double) : outcome Z :=
  match x with
  | S754_zero _ => Ok 0
  | S754_finite s m e =>
      let v := if 0 <=? e then Z.pos m * 2 ^ e else Z.pos m / 2 ^ (- e) in
      let v := if s then - v else v in
      if (- 2 ^ (w - 1) <=? v) && (v <? 2 ^ (w - 1)) then Ok v else Undef
  | _ => Undef
  end.

(** The representation: sign, 11 bits of exponent, 52 bits of mantissa. *)
Definition d_bits (x : double) : Z :=
  match x with
  | S754_zero s => Z.b2z s * 2 ^ 63
  | S754_infinity s => Z.b2z s * 2 ^ 63 + 2047 * 2 ^ 52
  | S754_nan => 2047 * 2 ^ 52 + 2 ^ 51
  | S754_finite s m e =>
      Z.b2z s * 2 ^ 63 + (if Z.pos m <? 2 ^ 52 then Z.pos m else (e + 1075) * 2 ^ 52 + (Z.pos m - 2 ^ 52))
  end.

Definition d_of_bits (u : Z) : double :=
  let s := Z.testbit u 63 in
  let ex := (u / 2 ^ 52) mod 2048 in
  let m := u mod 2 ^ 52 in
  if ex =? 2047 then (if m =? 0 then S754_infinity s else S754_nan)
  else
    match (if ex =? 0 then m else m + 2 ^ 52) with
    | Z.pos p => S754_finite s p (if ex =? 0 then -1074 else ex - 1075)
    | _ => S754_zero s
    end.
End Double.

(** [m * 2^e] for a mantissa of 53 bits. *)
Abbreviation lit m e := (S754_finite false m e).
Definition d_half : double := lit 4503599627370496 (-53).
Definition d_1e_308 : double := lit 2024022533073106 (-1074).
Definition DBL_MAX : double := lit 9007199254740991 971.

Definition get_sign_bit (x : double) : bool := negb (d_bits x / 2 ^ 63 =? 0).
Definition get_exp2 (x : double) : Z := (d_bits x / 2 ^ 52) mod 2048 - 1023.

Definition powers_of_10 : list double := List.map (fun k => d_of_Z (10 ^ k)) (seqZ 0 18).
(** [powers_of_10[i]] *)
Definition power_of_10 (i : Z) : outcome double :=
  match (if 0 <=? i then powers_of_10 !! Z.to_nat i else None) with Some p => Ok p | None => Undef end.

Definition d_abs_of (negative : bool) (x : double) : double := if negative then SFopp x else x.

(** ** Splitting a number *)

Record double_components : Type := Components { integral : Z; fractional : Z; is_negative : bool }.
Record scaling_factor : Type := Scaling { raw_factor : double; multiply : bool }.

Definition get_components (number : double) (precision : Z) : outcome double_components :=
  let neg := get_sign_bit number in
  let abs_number := d_abs_of neg number in
  integral ← d_to_int 64 abs_number;
  p10 ← power_of_10 precision;
  let remainder := dsub abs_number (dmul (d_of_Z integral) p10) in
  fractional ← d_to_int 64 remainder;
  let remainder := dsub remainder (d_of_Z fractional) in
  let '(integral, fractional) :=
    if SFltb d_half remainder then
      if SFleb p10 (d_of_Z (fractional + 1)) then (integral + 1, 0) else (integral, fractional + 1)
    else if SFeqb remainder d_half && ((fractional =? 0) || Z.testbit fractional 0)
    then (integral, fractional + 1) else (integral, fractional) in
  let integral :=
    if precision =? 0 then
      let remainder := dsub abs_number (d_of_Z integral) in
      if (negb (SFltb remainder d_half) || SFltb d_half remainder) && Z.testbit integral 0
      then integral + 1 else integral
    else integral in
  Ok (Components integral fractional neg).

Definition apply_scaling (num : double) (n : scaling_factor) : double :=
  if multiply n then dmul num (raw_factor n) else ddiv num (raw_factor n).
Definition unapply_scaling (normalized : double) (n : scaling_factor) : double :=
  if multiply n then ddiv normalized (raw_factor n) else dmul normalized (raw_factor n).

Definition update_normalization (sf : scaling_factor) (extra : double) : scaling_factor :=
  if multiply sf then Scaling (dmul (raw_factor sf) extra) true
  else
    let factor_exp2 := get_exp2 (raw_factor sf) in
    let extra_factor_exp2 := get_exp2 extra in
    if Z.abs extra_factor_exp2 <? Z.abs factor_exp2 then Scaling (ddiv (raw_factor sf) extra) false
    else Scaling (ddiv extra (raw_factor sf)) true.

Definition get_normalized_components (negative : bool) (precision : Z) (non_normalized : double)
    (normalization : scaling_factor) (floored_exp10 : Z) : outcome double_components :=
  let scaled := apply_scaling non_normalized normalization in
  if -309 <? - floored_exp10 + s32 precision then
    get_components (if negative then SFopp scaled else scaled) precision
  else
    integral ← d_to_int 64 scaled;
    let remainder := dsub non_normalized (unapply_scaling (d_of_Z integral) normalization) in
    prec_power_of_10 ← power_of_10 precision;
    let scaled_remainder := apply_scaling remainder (update_normalization normalization prec_power_of_10) in
    fractional ← d_to_int 64 scaled_remainder;
    let scaled_remainder := dsub scaled_remainder (d_of_Z fractional) in
    let fractional := if SFleb d_half scaled_remainder then fractional + 1 else fractional in
    let fractional := if SFeqb scaled_remainder d_half then Z.land fractional (-2) else fractional in
    if SFleb prec_power_of_10 (d_of_Z fractional) then Ok (Components (integral + 1) 0 negative)
    else Ok (Components integral fractional negative).

(** ** Printing *)

Section Print.
Context {S : Type} (function : Z -> Z -> S -> outcome S).
Local Abbreviation len := (fun buf : list Z => Z.of_nat (List.length buf)).
Local Abbreviation out := (Stdio.out S).
Local Abbreviation SIZE := PRINTF_DECIMAL_BUFFER_SIZE.

(** [%g]: trailing zeros of the fraction are dropped; at most 64 rounds for a
    positive 64-bit number. *)
Fixpoint drop_zeros (n : nat) (count fractional : Z) : outcome (Z * Z) :=
  match n with
  | O => NoFuel
  | Datatypes.S n' =>
      if Z.rem fractional 10 =? 0 then drop_zeros n' (u32 (count - 1)) (Z.quot fractional 10)
      else Ok (count, fractional)
  end.

(** The digits of the fraction, the last first. *)
Fixpoint fraction_digits (n : nat) (count fractional : Z) (buf : list Z) : Z * list Z :=
  match n with
  | O => (count, buf)
  | Datatypes.S n' =>
      if len buf <? SIZE then
        let buf := buf ++ [u8 (ch "0" + Z.rem fractional 10)] in
        let fractional := Z.quot fractional 10 in
        if fractional =? 0 then (u32 (count - 1), buf) else fraction_digits n' (u32 (count - 1)) fractional buf
      else (count, buf)
  end.

(** [while ((len < 32) && (count > 0)) { buf[len++] = '0'; --count; }] *)
Fixpoint fraction_zeros (n : nat) (count : Z) (buf : list Z) : list Z :=
  match n with
  | O => buf
  | Datatypes.S n' =>
      if (len buf <? SIZE) && (0 <? count) then fraction_zeros n' (count - 1) (buf ++ [ch "0"]) else buf
  end.

(** The digits of the integer part, the last first. *)
Fixpoint integral_digits (n : nat) (integral : Z) (buf : list Z) : list Z :=
  match n with
  | O => buf
  | Datatypes.S n' =>
      if len buf <? SIZE then
        let buf := buf ++ [u8 (ch "0" + Z.rem integral 10)] in
        let integral := Z.quot integral 10 in
        if integral =? 0 then buf else integral_digits n' integral buf
      else buf
  end.

Definition print_broken_up_decimal (number : double_components) (precision width flags : Z) (buf : list Z)
    (o : out) : outcome out :=
  buf ← (if negb (precision =? 0) then
      '(count, fractional) ←
        (if flag flags FLAGS_ADAPT_EXP && negb (flag flags FLAGS_HASH) && (0 <? fractional number)
         then drop_zeros 64 precision (fractional number) else Ok (precision, fractional number));
      if (0 <? fractional) || negb (flag flags FLAGS_ADAPT_EXP) || flag flags FLAGS_HASH then
        let '(count, buf) := fraction_digits 32 count fractional buf in
        let buf := fraction_zeros 32 count buf in
        Ok (push (ch ".") buf)
      else Ok buf
    else Ok (if flag flags FLAGS_HASH then push (ch ".") buf else buf));
  let buf := integral_digits 32 (integral number) buf in
  let pad := negb (flag flags FLAGS_LEFT) && flag flags FLAGS_ZEROPAD in
  let width := if pad && negb (width =? 0) && (is_negative number || flag flags (Z.lor FLAGS_PLUS FLAGS_SPACE))
               then width - 1 else width in
  let buf := if pad then pad_zeros 32 width buf else buf in
  let buf :=
    if len buf <? SIZE then
      if is_negative number then buf ++ [ch "-"]
      else if flag flags FLAGS_PLUS then buf ++ [ch "+"]
      else if flag flags FLAGS_SPACE then buf ++ [ch " "]
      else buf
    else buf in
  out_rev function buf width flags o.

Definition print_decimal_number (number : double) (precision width flags : Z) (buf : list Z) (o : out) : outcome out :=
  value ← get_components number precision;
  print_broken_up_decimal value precision width flags buf o.

Definition bastardized_floor (x : double) : outcome Z :=
  n ← d_to_int 32 x;
  if SFleb (S754_zero false) x then Ok n
  else if SFeqb (d_of_Z n) x then Ok n else Ok (n - 1).

Definition log10_of_positive (positive_number : double) : double :=
  let u := d_bits positive_number in
  let exp2 := get_exp2 positive_number in
  let m := d_of_bits (u mod 2 ^ 52 + 1023 * 2 ^ 52) in
  let z := dsub m (lit 6755399441055744 (-52)) in
  dadd (dadd (dsub (dadd (lit 6344356229330940 (-55)) (dmul z (lit 5215702578316127 (-54))))
                   (dmul (dmul z z) (lit 6954270104421502 (-56))))
             (dmul (dmul (dmul z z) z) (lit 6181573426152447 (-57))))
       (dmul (d_of_Z exp2) (lit 5422874305198591 (-54))).

Definition pow10_of_int (floored_exp10 : Z) : outcome double :=
  if floored_exp10 =? -308 then Ok d_1e_308
  else
    exp2 ← bastardized_floor (dadd (dmul (d_of_Z floored_exp10) (lit 7480317065143153 (-51))) d_half);
    let z := dsub (dmul (d_of_Z floored_exp10) (lit 5184960683398422 (-51)))
                  (dmul (d_of_Z exp2) (lit 6243314768165359 (-53))) in
    let z2 := dmul z z in
    let u := u64 (u64 (u64 exp2 + 1023) * 2 ^ 52) in
    let c := dadd (d_of_Z 10) (ddiv z2 (d_of_Z 14)) in
    let c := dadd (d_of_Z 6) (ddiv z2 c) in
    let c := dadd (dsub (d_of_Z 2) z) (ddiv z2 c) in
    Ok (dmul (d_of_bits u) (dadd (d_of_Z 1) (ddiv (dmul (d_of_Z 2) z) c))).

(** The decimal exponent, and whether the table covers it with the factor, which
    are not set for the number 0. *)
Definition decimal_exponent (abs_number : double) : outcome (Z * option (bool * double)) :=
  if SFeqb abs_number (S754_zero false) then Ok (10, None)
  else
    floored_exp10 ← bastardized_floor (log10_of_positive abs_number);
    p10 ← pow10_of_int floored_exp10;
    let '(floored_exp10, p10) :=
      if SFltb abs_number p10 then (floored_exp10 - 1, ddiv p10 (d_of_Z 10)) else (floored_exp10, p10) in
    let covered := Z.abs floored_exp10 <? 18 in
    factor ← (if covered then power_of_10 (Z.abs floored_exp10) else Ok p10);
    Ok (floored_exp10, Some (covered, factor)).

Definition print_exponential_number (number : double) (precision width flags : Z) (buf : list Z) (o : out)
    : outcome out :=
  let negative := get_sign_bit number in
  let abs_number := d_abs_of negative number in
  '(floored_exp10, norm) ← decimal_exponent abs_number;
  let adapt := flag flags FLAGS_ADAPT_EXP in
  let required_significant_digits := if precision =? 0 then 1 else s32 precision in
  let fall_back := adapt && (-4 <=? floored_exp10) && (floored_exp10 <? required_significant_digits) in
  let precision :=
    if adapt then
      let precision_ := if fall_back then s32 precision - 1 - floored_exp10 else s32 precision - 1 in
      if 0 <? precision_ then precision_ else 0
    else precision in
  let flags := if adapt then Z.lor flags FLAGS_PRECISION else flags in
  components ←
    (if fall_back || (floored_exp10 =? 0)
     then get_components (d_abs_of negative abs_number) precision
     else
       match norm with
       | None => Undef
       | Some (covered, factor) =>
           get_normalized_components negative precision abs_number
             (Scaling factor ((floored_exp10 <? 0) && covered)) floored_exp10
       end);
  '(floored_exp10, precision, components) ←
    (if fall_back then
       if adapt && (-1 <=? floored_exp10) then
         p ← power_of_10 (floored_exp10 + 1);
         if SFeqb (d_of_Z (integral components)) p then Ok (floored_exp10 + 1, u32 (precision - 1), components)
         else Ok (floored_exp10, precision, components)
       else Ok (floored_exp10, precision, components)
     else
       if 10 <=? integral components then Ok (floored_exp10 + 1, precision, Components 1 0 (is_negative components))
       else Ok (floored_exp10, precision, components));
  let exp10_part_width := if fall_back then 0 else if Z.abs floored_exp10 <? 100 then 4 else 5 in
  let decimal_part_width :=
    if flag flags FLAGS_LEFT && negb (exp10_part_width =? 0) then 0
    else if exp10_part_width <? width then width - exp10_part_width else 0 in
  let start_pos := pos (gadget o) in
  o ← print_broken_up_decimal components precision decimal_part_width flags buf o;
  if fall_back then Ok o
  else
    o ← putchar_via_gadget function (if flag flags FLAGS_UPPERCASE then ch "E" else ch "e") o;
    o ← print_integer function (abs_for_printing floored_exp10) (floored_exp10 <? 0) 10 0 (exp10_part_width - 1)
          (Z.lor FLAGS_ZEROPAD FLAGS_PLUS) o;
    if flag flags FLAGS_LEFT then pad_right function start_pos width o else Ok o.

(** [while ((len < 32) && (precision > 17)) { buf[len++] = '0'; precision--; }] *)
Fixpoint cut_precision (n : nat) (precision : Z) (buf : list Z) : Z * list Z :=
  match n with
  | O => (precision, buf)
  | Datatypes.S n' =>
      if (len buf <? SIZE) && (17 <? precision) then cut_precision n' (precision - 1) (buf ++ [ch "0"])
      else (precision, buf)
  end.

Definition print_floating_point (value : double) (precision width flags : Z) (prefer_exponential : bool) (o : out)
    : outcome out :=
  if negb (SFeqb value value) then out_rev function (str "nan") width flags o
  else if SFltb value (SFopp DBL_MAX) then out_rev function (str "fni-") width flags o
  else if SFltb DBL_MAX value then
    out_rev function (if flag flags FLAGS_PLUS then str "fni+" else str "fni") width flags o
  else if negb prefer_exponential &&
          (SFltb (d_of_Z (10 ^ 9)) value || SFltb value (SFopp (d_of_Z (10 ^ 9)))) then
    print_exponential_number value precision width flags [] o
  else
    let precision := if flag flags FLAGS_PRECISION then precision else 6 in
    let '(precision, buf) := cut_precision 32 precision [] in
    if prefer_exponential then print_exponential_number value precision width flags buf o
    else print_decimal_number value precision width flags buf o.
End Print.
