(* ===== verification/Printf.v ===== *)
(** * libs/libc/stdio.cpp: the format string

    The parser of conversion specifications, the loop over the format and the
    entry points.  Variadic arguments are a list: an integer or a pointer fills an
    8-byte slot, as the calling convention passes it, a double is a binary64
    value.  Loops over memory take fuel. *)

From S2P Require Import Prelude Memory Stdio StdioFloat.

Inductive vararg : Type :=
| Word (z : Z)
| Double (d : double).

(** [va_arg] of an integer or pointer type, and of [double]. *)
Definition va_word (args : list vararg) : outcome (Z * list vararg) :=
  match args with Word z :: args' => Ok (z, args') | _ => Undef end.
Definition va_double (args : list vararg) : outcome (double * list vararg) :=
  match args with Double d :: args' => Ok (d, args') | _ => Undef end.

Definition is_digit (c : Z) : bool := (ch "0" <=? s8 c) && (s8 c <=? ch "9").

(** ** Conversion specifications *)

Definition atou (fuel : nat) (m : mem) (fmt : Z) : outcome (Z * Z) :=
  loop (fun '(i, fmt) =>
      c ← load8 m fmt;
      if is_digit c then Ok (inl (u32 (i * 10 + (c - ch "0")), u64 (fmt + 1)))
      else Ok (inr (i, fmt))) fuel (0, fmt).

Definition flag_of_char (c : Z) : option Z :=
  if c =? ch "0" then Some FLAGS_ZEROPAD
  else if c =? ch "-" then Some FLAGS_LEFT
  else if c =? ch "+" then Some FLAGS_PLUS
  else if c =? ch " " then Some FLAGS_SPACE
  else if c =? ch "#" then Some FLAGS_HASH
  else None.

Definition parse_flags (fuel : nat) (m : mem) (fmt : Z) : outcome (Z * Z) :=
  loop (fun '(flags, fmt) =>
      c ← load8 m fmt;
      match flag_of_char c with
      | Some f => Ok (inl (Z.lor flags f, u64 (fmt + 1)))
      | None => Ok (inr (flags, fmt))
      end) fuel (0, fmt).

(** [ADVANCE_IN_FORMAT_STRING]: [None] is the [return] at the end of the format. *)
Definition advance (m : mem) (fmt : Z) : outcome (option Z) :=
  c ← load8 m (u64 (fmt + 1));
  if c =? 0 then Ok None else Ok (Some (u64 (fmt + 1))).

Definition or_return {A B : Type} (c : outcome (option A)) (k : A -> outcome (option B)) : outcome (option B) :=
  r ← c; match r with Some a => k a | None => Ok None end.
Notation "x ⇐ c ; k" := (or_return c (fun x : _ => k))
  (at level 20, c at level 100, k at level 200, only parsing).

(** A specification, parsed up to its last character; [spec_fmt] points there. *)
Record spec : Type := Spec {
  spec_fmt : Z;
  spec_args : list vararg;
  spec_flags : Z;
  spec_width : Z;
  spec_precision : Z;
}.

Definition parse_width (fuel : nat) (m : mem) (s : spec) : outcome (option spec) :=
  c ← load8 m (spec_fmt s);
  if is_digit c then
    '(w, fmt) ← atou fuel m (spec_fmt s);
    Ok (Some (Spec fmt (spec_args s) (spec_flags s) w (spec_precision s)))
  else if c =? ch "*" then
    '(v, args) ← va_word (spec_args s);
    let w := s32 v in
    if w =? -2147483648 then Undef
    else
      fmt ⇐ advance m (spec_fmt s);
      Ok (Some (if w <? 0 then Spec fmt args (Z.lor (spec_flags s) FLAGS_LEFT) (- w) (spec_precision s)
                else Spec fmt args (spec_flags s) w (spec_precision s)))
  else Ok (Some s).

Definition parse_precision (fuel : nat) (m : mem) (s : spec) : outcome (option spec) :=
  c ← load8 m (spec_fmt s);
  if c =? ch "." then
    let flags := Z.lor (spec_flags s) FLAGS_PRECISION in
    fmt ⇐ advance m (spec_fmt s);
    c ← load8 m fmt;
    if is_digit c then
      '(p, fmt) ← atou fuel m fmt;
      Ok (Some (Spec fmt (spec_args s) flags (spec_width s) p))
    else if c =? ch "*" then
      '(v, args) ← va_word (spec_args s);
      let precision_ := s32 v in
      fmt ⇐ advance m fmt;
      Ok (Some (Spec fmt args flags (spec_width s) (if 0 <? precision_ then precision_ else 0)))
    else Ok (Some (Spec fmt (spec_args s) flags (spec_width s) (spec_precision s)))
  else Ok (Some s).

Definition spec_at (s : spec) (fmt flags : Z) : spec :=
  Spec fmt (spec_args s) flags (spec_width s) (spec_precision s).

(** [l], [ll], [h], [hh]: a second character of the same kind adds a flag. *)
Definition parse_double_length (m : mem) (s : spec) (c one two : Z) : outcome (option spec) :=
  let flags := Z.lor (spec_flags s) one in
  fmt ⇐ advance m (spec_fmt s);
  c' ← load8 m fmt;
  if c' =? c then
    fmt ⇐ advance m fmt;
    Ok (Some (spec_at s fmt (Z.lor flags two)))
  else Ok (Some (spec_at s fmt flags)).

Definition parse_length (m : mem) (s : spec) : outcome (option spec) :=
  c ← load8 m (spec_fmt s);
  if c =? ch "l" then parse_double_length m s c FLAGS_LONG FLAGS_LONG_LONG
  else if c =? ch "h" then parse_double_length m s c FLAGS_SHORT FLAGS_CHAR
  else if (c =? ch "t") || (c =? ch "j") || (c =? ch "z") then
    fmt ⇐ advance m (spec_fmt s);
    Ok (Some (spec_at s fmt (Z.lor (spec_flags s) FLAGS_LONG)))
  else Ok (Some s).

(** From the [%] to the conversion character. *)
Definition parse_spec (fuel : nat) (m : mem) (fmt : Z) (args : list vararg) : outcome (option spec) :=
  fmt ⇐ advance m fmt;
  '(flags, fmt) ← parse_flags fuel m fmt;
  s ⇐ parse_width fuel m (Spec fmt args flags 0 0);
  s ⇐ parse_precision fuel m s;
  parse_length m s.

Definition strnlen_s (fuel : nat) (m : mem) (p maxsize : Z) : outcome Z :=
  loop (fun '(s, maxsize) =>
      c ← load8 m s;
      if (c =? 0) || (maxsize =? 0) then Ok (inr (u32 (s - p)))
      else Ok (inl (u64 (s + 1), maxsize - 1))) fuel (p, maxsize).

(** ** Conversions *)

Section Format.
Context {S : Type} (function : Z -> Z -> S -> outcome S).
Local Abbreviation out := (Stdio.out S).
Local Abbreviation putchar := (putchar_via_gadget function).
Local Abbreviation put_many := (put_many function).
Local Abbreviation out_rev := (out_rev function).
Local Abbreviation print_integer := (print_integer function).

Definition convert_integer (c flags width precision : Z) (v : Z) (o : out) : outcome out :=
  let flags := if (c =? ch "d") || (c =? ch "i") then Z.lor flags FLAGS_SIGNED else flags in
  let '(base, flags) :=
    if (c =? ch "x") || (c =? ch "X") then (BASE_HEX, flags)
    else if c =? ch "o" then (BASE_OCTAL, flags)
    else if c =? ch "b" then (BASE_BINARY, flags)
    else (BASE_DECIMAL, unflag flags FLAGS_HASH) in
  let flags := if c =? ch "X" then Z.lor flags FLAGS_UPPERCASE else flags in
  let flags := if flag flags FLAGS_PRECISION then unflag flags FLAGS_ZEROPAD else flags in
  if flag flags FLAGS_SIGNED then
    let value :=
      if flag flags FLAGS_LONG_LONG then s64 v
      else if flag flags FLAGS_LONG then s64 v
      else if flag flags FLAGS_CHAR then s8 v
      else if flag flags FLAGS_SHORT then s16 v
      else s32 v in
    print_integer (abs_for_printing value) (value <? 0) base precision width flags o
  else
    let flags := unflag flags (Z.lor FLAGS_PLUS FLAGS_SPACE) in
    let value :=
      if flag flags FLAGS_LONG_LONG then u64 v
      else if flag flags FLAGS_LONG then u64 v
      else if flag flags FLAGS_CHAR then u8 v
      else if flag flags FLAGS_SHORT then u16 v
      else u32 v in
    print_integer value false base precision width flags o.

(** The characters of the string, up to its end or the precision. *)
Definition put_string (fuel : nat) (p precision flags : Z) (o : out) : outcome out :=
  loop (fun '(p, precision, o) =>
      c ← load8 (o_mem o) p;
      if negb (c =? 0) && (negb (flag flags FLAGS_PRECISION) || negb (precision =? 0)) then
        o ← putchar c o; Ok (inl (u64 (p + 1), u32 (precision - 1), o))
      else Ok (inr o)) fuel (p, precision, o).

Definition convert_string (fuel : nat) (p flags width precision : Z) (o : out) : outcome out :=
  if p =? 0 then out_rev (str ")llun(") width flags o
  else
    l ← strnlen_s fuel (o_mem o) p (if precision =? 0 then PRINTF_MAX_POSSIBLE_BUFFER_SIZE else precision);
    let l := if flag flags FLAGS_PRECISION then (if l <? precision then l else precision) else l in
    o ← (if flag flags FLAGS_LEFT then Ok o else put_many (width - l) (ch " ") o);
    o ← put_string fuel p precision flags o;
    if flag flags FLAGS_LEFT then put_many (width - l) (ch " ") o else Ok o.

Definition convert_pointer (value flags precision : Z) (o : out) : outcome out :=
  let width := 18 in
  let flags := Z.lor flags (Z.lor FLAGS_ZEROPAD FLAGS_POINTER) in
  if value =? 0 then out_rev (str ")lin(") width flags o
  else print_integer value false BASE_HEX precision width flags o.

(** [%n] *)
Definition store_count (p flags : Z) (o : out) : outcome out :=
  let n := if flag flags FLAGS_CHAR then 1 else if flag flags FLAGS_SHORT then 2
           else if flag flags FLAGS_LONG || flag flags FLAGS_LONG_LONG then 8 else 4 in
  m ← store_le (Z.to_nat n) (o_mem o) p (pos (gadget o));
  Ok (Out (gadget o) m (o_state o)).

(** The conversion character: the arguments that are left and the output. *)
Definition convert (fuel : nat) (c : Z) (s : spec) (o : out) : outcome (list vararg * out) :=
  let '(flags, width, precision) := (spec_flags s, spec_width s, spec_precision s) in
  let one_of l := existsb (Z.eqb c) (str l) in
  if one_of "diuxXob"%string then
    '(v, args) ← va_word (spec_args s);
    o ← convert_integer c flags width precision v o; Ok (args, o)
  else if one_of "fF"%string then
    let flags := if c =? ch "F" then Z.lor flags FLAGS_UPPERCASE else flags in
    '(v, args) ← va_double (spec_args s);
    o ← print_floating_point function v precision width flags false o; Ok (args, o)
  else if one_of "eEgG"%string then
    let flags := if (c =? ch "g") || (c =? ch "G") then Z.lor flags FLAGS_ADAPT_EXP else flags in
    let flags := if (c =? ch "E") || (c =? ch "G") then Z.lor flags FLAGS_UPPERCASE else flags in
    '(v, args) ← va_double (spec_args s);
    o ← print_floating_point function v precision width flags true o; Ok (args, o)
  else if c =? ch "c" then
    o ← (if flag flags FLAGS_LEFT then Ok o else put_many (width - 1) (ch " ") o);
    '(v, args) ← va_word (spec_args s);
    o ← putchar (u8 v) o;
    o ← (if flag flags FLAGS_LEFT then put_many (width - 1) (ch " ") o else Ok o);
    Ok (args, o)
  else if c =? ch "s" then
    '(v, args) ← va_word (spec_args s);
    o ← convert_string fuel (u64 v) flags width precision o; Ok (args, o)
  else if c =? ch "p" then
    '(v, args) ← va_word (spec_args s);
    o ← convert_pointer (u64 v) flags precision o; Ok (args, o)
  else if c =? ch "n" then
    '(v, args) ← va_word (spec_args s);
    o ← store_count (u64 v) flags o; Ok (args, o)
  else
    o ← putchar c o; Ok (spec_args s, o).

(** One round of the loop over the format. *)
Definition format_step (fuel : nat) (st : Z * list vararg * out)
    : outcome ((Z * list vararg * out) + out) :=
  let '(fmt, args, o) := st in
  c ← load8 (o_mem o) fmt;
  if c =? 0 then Ok (inr o)
  else if negb (c =? ch "%") then
    o ← putchar c o; Ok (inl (u64 (fmt + 1), args, o))
  else
    r ← parse_spec fuel (o_mem o) fmt args;
    match r with
    | None => Ok (inr o)
    | Some s =>
        c ← load8 (o_mem o) (spec_fmt s);
        '(args, o) ← convert fuel c s o;
        Ok (inl (u64 (spec_fmt s + 1), args, o))
    end.

Definition format_string_loop (fuel : nat) (fmt : Z) (args : list vararg) (o : out) : outcome out :=
  loop (format_step fuel) fuel (fmt, args, o).

(** ** Entry points *)

Definition vsnprintf_impl (fuel : nat) (fmt : Z) (args : list vararg) (o : out) : outcome (Z * out) :=
  o ← format_string_loop fuel fmt args o;
  o ← append_termination_with_gadget o;
  Ok (s32 (pos (gadget o)), o).

(** [vprintf], with [putchar_wrapper] as the function, and [vfctprintf]. *)
Definition vfctprintf (fuel : nat) (extra_arg fmt : Z) (args : list vararg) (m : mem) (s : S) : outcome (Z * out) :=
  vsnprintf_impl fuel fmt args (Out (function_gadget extra_arg) m s).

Definition vprintf (fuel : nat) (fmt : Z) (args : list vararg) (m : mem) (s : S) : outcome (Z * out) :=
  vsnprintf_impl fuel fmt args (Out (function_gadget 0) m s).

(** The count is cut to 32 bits where the gadget is made. *)
Definition vsnprintf (fuel : nat) (p count fmt : Z) (args : list vararg) (m : mem) (s : S) : outcome (Z * out) :=
  vsnprintf_impl fuel fmt args (Out (buffer_gadget p (u32 count)) m s).

Definition vsprintf (fuel : nat) (p fmt : Z) (args : list vararg) (m : mem) (s : S) : outcome (Z * out) :=
  vsnprintf fuel p PRINTF_MAX_POSSIBLE_BUFFER_SIZE fmt args m s.

(** The variadic functions collect their arguments and call these. *)
Definition printf (fuel : nat) (fmt : Z) (args : list vararg) (m : mem) (s : S) : outcome (Z * out) :=
  vprintf fuel fmt args m s.
Definition sprintf (fuel : nat) (p fmt : Z) (args : list vararg) (m : mem) (s : S) : outcome (Z * out) :=
  vsprintf fuel p fmt args m s.
Definition snprintf (fuel : nat) (p n fmt : Z) (args : list vararg) (m : mem) (s : S) : outcome (Z * out) :=
  vsnprintf fuel p n fmt args m s.
Definition fctprintf (fuel : nat) (extra_arg fmt : Z) (args : list vararg) (m : mem) (s : S) : outcome (Z * out) :=
  vfctprintf fuel extra_arg fmt args m s.
End Format.
