(* ===== verification/StdioProofs.v ===== *)
(** * Correctness of the integer output

    Printing through a gadget is printing a list of characters; what [out_rev] and
    [print_integer] print, and that a buffer gadget writes inside its buffer. *)

From S2P Require Import Prelude Memory Stdio StdioFloat Printf.
From Stdlib Require Import SpecFloat.

(** ** Lists of characters *)

Section Output.
Context {S : Type} (function : Z -> Z -> S -> outcome S).
Local Abbreviation out := (Stdio.out S).
Local Abbreviation put_all := (put_all function).

Lemma put_all_app l1 l2 (o : out) : put_all (l1 ++ l2) o = (o ← put_all l1 o; put_all l2 o).
Proof.
  revert o. induction l1 as [|c l1 IH]; intros o; [done|]. cbn [app Stdio.put_all].
  destruct (putchar_via_gadget function c o) as [o'| | | |]; [|done..]. bind_simpl. apply IH.
Qed.

Lemma put_many_all n c (o : out) : put_many function n c o = put_all (replicate (Z.to_nat n) c) o.
Proof.
  unfold put_many, for_range. rewrite Z.sub_0_r. generalize 0 as i. revert o.
  induction (Z.to_nat n) as [|k IH]; intros o i; [done|]. cbn [for_steps replicate Stdio.put_all].
  destruct (putchar_via_gadget function c o) as [o'| | | |]; [|done..]. bind_simpl. apply IH.
Qed.

(** A character advances the position and changes nothing else of the gadget. *)
Lemma putchar_gadget c (o o' : out) : putchar_via_gadget function c o = Ok o' ->
  gadget o' = with_pos (gadget o) (u32 (pos (gadget o) + 1)).
Proof.
  unfold putchar_via_gadget. intros E. case_match; [by injection E as <-|].
  case_match; apply bind_inv in E as (x & _ & E); by injection E as <-.
Qed.

Lemma put_all_gadget l (o o' : out) : put_all l o = Ok o' -> 0 <= pos (gadget o) ->
  pos (gadget o) + Z.of_nat (List.length l) < 4294967296 ->
  gadget o' = with_pos (gadget o) (pos (gadget o) + Z.of_nat (List.length l)).
Proof.
  revert o. induction l as [|c l IH]; intros o E Hp Hl.
  - injection E as <-. rewrite Z.add_0_r. by destruct o as [[]].
  - cbn [Stdio.put_all] in E. apply bind_inv in E as (o1 & E1 & E). apply putchar_gadget in E1.
    cbn [List.length] in Hl. assert (pos (gadget o1) = pos (gadget o) + 1) as Ep.
    { rewrite E1. cbn [with_pos pos]. apply (wrap_small 32). lia. }
    rewrite (IH o1 E), Ep, E1 by lia. unfold with_pos. cbn. f_equal. lia.
Qed.

(** The padding loop prints what is missing to the width. *)
Lemma pad_right_all start width (o : out) : 0 <= start <= pos (gadget o) ->
  start + width < 4294967296 -> pos (gadget o) < 4294967296 ->
  pad_right function start width o =
  put_all (replicate (Z.to_nat (width - (pos (gadget o) - start))) (ch " ")) o.
Proof.
  intros Hs Hw Hp. unfold pad_right.
  assert (forall fuel (o : out), start <= pos (gadget o) < 4294967296 ->
    (Z.to_nat (width - (pos (gadget o) - start)) < fuel)%nat ->
    loop (fun o => if u32 (pos (gadget o) - start) <? width
                   then o ← putchar_via_gadget function (ch " ") o; Ok (inl o) else Ok (inr o)) fuel o =
    put_all (replicate (Z.to_nat (width - (pos (gadget o) - start))) (ch " ")) o) as H.
  { assert (0 <= start) as Hs0 by lia. clear o Hp Hs. induction fuel as [|fuel IH]; intros o Hp Hf; [lia|].
    rewrite loop_step. rewrite (wrap_small 32) by lia.
    destruct (Z.ltb_spec (pos (gadget o) - start) width) as [Hlt|Hge].
    - assert (Z.to_nat (width - (pos (gadget o) - start)) =
        Datatypes.S (Z.to_nat (width - (pos (gadget o) + 1 - start)))) as En by lia. rewrite En in *.
      cbn [replicate Stdio.put_all]. destruct (putchar_via_gadget function (ch " ") o) as [o1| | | |] eqn:E; [|done..].
      bind_simpl. apply putchar_gadget in E.
      assert (pos (gadget o1) = pos (gadget o) + 1) as Ep.
      { rewrite E. cbn [with_pos pos]. apply (wrap_small 32). lia. }
      rewrite IH by (rewrite Ep; lia). by rewrite Ep.
    - replace (Z.to_nat (width - (pos (gadget o) - start))) with O by lia. done. }
  apply H; lia.
Qed.

(** The two paddings of [out_rev]. *)
Definition pad_left_chars (len width flags : Z) : list Z :=
  if negb (flag flags FLAGS_LEFT) && negb (flag flags FLAGS_ZEROPAD)
  then replicate (Z.to_nat (width - len)) (ch " ") else [].
Definition pad_right_chars (len width flags : Z) : list Z :=
  if flag flags FLAGS_LEFT then replicate (Z.to_nat (width - len)) (ch " ") else [].

Lemma out_rev_all buf width flags (o : out) : 0 <= width -> 0 <= pos (gadget o) ->
  pos (gadget o) + Z.of_nat (List.length buf) + width < 4294967296 ->
  let len := Z.of_nat (List.length buf) in
  out_rev function buf width flags o =
  put_all (pad_left_chars len width flags ++ reverse buf ++ pad_right_chars len width flags) o.
Proof.
  intros Hw Hp Hb len. unfold out_rev, pad_left_chars, pad_right_chars. fold len.
  destruct (flag flags FLAGS_LEFT) eqn:El.
  - simpl andb. cbv iota. bind_simpl. rewrite app_nil_l, put_all_app.
    destruct (put_all (reverse buf) o) as [o1| | | |] eqn:E; [|done..]. bind_simpl.
    assert (pos (gadget o1) = pos (gadget o) + len) as Eg.
    { rewrite (put_all_gadget _ _ _ E Hp), length_reverse by (rewrite length_reverse; lia). done. }
    rewrite pad_right_all by (rewrite ?Eg; lia). do 3 f_equal. rewrite Eg. lia.
  - rewrite app_nil_r. destruct (flag flags FLAGS_ZEROPAD); simpl andb; cbv iota.
    + bind_simpl. rewrite app_nil_l. by destruct (put_all (reverse buf) o).
    + rewrite put_many_all, put_all_app. destruct (put_all (replicate _ _) o) as [o1| | | |]; [|done..]. bind_simpl.
      by destruct (put_all (reverse buf) o1).
Qed.
End Output.

(** ** Digits *)

Definition digit_value (c : Z) : Z :=
  if c <=? ch "9" then c - ch "0" else if c <? ch "a" then c - ch "A" + 10 else c - ch "a" + 10.
(** The number a list of digits denotes, the first digit being the highest. *)
Definition number_of (base : Z) (l : list Z) : Z := foldl (fun acc c => acc * base + digit_value c) 0 l.

Lemma number_of_snoc base l c : number_of base (l ++ [c]) = number_of base l * base + digit_value c.
Proof. unfold number_of. by rewrite foldl_app. Qed.

Lemma digit_value_char d flags : 0 <= d < 16 -> digit_value (digit_char d flags) = d.
Proof.
  intros Hd. unfold digit_char, digit_value.
  assert (d = 0 \/ d = 1 \/ d = 2 \/ d = 3 \/ d = 4 \/ d = 5 \/ d = 6 \/ d = 7 \/ d = 8 \/ d = 9 \/ d = 10 \/
          d = 11 \/ d = 12 \/ d = 13 \/ d = 14 \/ d = 15) as Hc by lia.
  destruct (flag flags FLAGS_UPPERCASE); (repeat destruct Hc as [->|Hc]); try subst d; reflexivity.
Qed.

Section Digits.
Context (base flags : Z) (Hbase : 2 <= base <= 16).

(** A character that stands for a digit of the base, in the case asked for. *)
Definition digit_of (c : Z) : Prop := exists d, 0 <= d < base /\ c = digit_char d flags.

Lemma digits_loop_spec n value buf : 0 < value -> (1 <= n)%nat -> (List.length buf + n = 32)%nat ->
  exists d, digits_loop n value base flags buf = buf ++ d /\ (1 <= List.length d <= n)%nat /\
    Forall digit_of d /\ number_of base (reverse d) = value mod base ^ Z.of_nat n /\
    (value < base ^ Z.of_nat n -> head (reverse d) <> Some (ch "0")) /\
    (base ^ Z.of_nat n <= value -> List.length d = n).
Proof.
  revert value buf. induction n as [|n IH]; intros value buf Hv Hn Hlen; [lia|].
  assert (0 <= value mod base < base) as Hm by (apply Z.mod_pos_bound; lia).
  assert (digit_of (digit_char (value mod base) flags)) as Hd by (by exists (value mod base)).
  assert (digit_value (digit_char (value mod base) flags) = value mod base) as Ed by (apply digit_value_char; lia).
  cbn [digits_loop]. rewrite length_app. cbn [List.length].
  assert (base ^ Z.of_nat (Datatypes.S n) = base * base ^ Z.of_nat n) as Ep by (rewrite Nat2Z.inj_succ, Z.pow_succ_r; lia).
  assert (0 < base ^ Z.of_nat n) as Hpow by (apply Z.pow_pos_nonneg; lia).
  destruct (Z.eqb_spec (value / base) 0) as [E0|E0]; [|destruct (decide (n = O)) as [->|Hn0]].
  - simpl andb. cbv iota. exists [digit_char (value mod base) flags].
    assert (value < base) as Hlt by (apply Z.div_small_iff in E0; lia). rewrite Z.mod_small in * by lia.
    split_and!; [done|simpl; lia|simpl; lia|by constructor| | |].
    + change (reverse [digit_char value flags]) with ([] ++ [digit_char value flags]). rewrite number_of_snoc, Ed.
      rewrite Z.mod_small; [done|]. rewrite Ep. nia.
    + intros _ [= E]. rewrite E in Ed. change (digit_value (ch "0")) with 0 in Ed. lia.
    + rewrite Ep. nia.
  - rewrite (proj2 (Z.ltb_ge _ _)) by (unfold PRINTF_INTEGER_BUFFER_SIZE; lia). rewrite andb_false_r.
    exists [digit_char (value mod base) flags]. split_and!; [done|simpl; lia|simpl; lia|by constructor| | |done].
    + change (reverse [digit_char (value mod base) flags]) with ([] ++ [digit_char (value mod base) flags]).
      rewrite number_of_snoc, Ed. by rewrite Z.pow_1_r.
    + rewrite Z.pow_1_r. intros Hlt. rewrite Z.div_small in E0 by lia. done.
  - rewrite (proj2 (Z.ltb_lt _ _)) by (unfold PRINTF_INTEGER_BUFFER_SIZE; lia). simpl andb. cbv iota.
    assert (0 <= value / base) by (apply Z.div_pos; lia).
    destruct (IH (value / base) (buf ++ [digit_char (value mod base) flags])) as (d & -> & Hl & Hf & Hnum & Hhd & Hfull);
      [lia|lia|rewrite length_app; simpl; lia|].
    exists (digit_char (value mod base) flags :: d). rewrite reverse_cons.
    assert (value < base ^ Z.of_nat (Datatypes.S n) <-> value / base < base ^ Z.of_nat n) as Hlt.
    { rewrite Ep. split; intros ?; [apply Z.div_lt_upper_bound; lia|].
      apply Z.nle_gt. intros Hge. assert (base ^ Z.of_nat n <= value / base) by (apply Z.div_le_lower_bound; lia). lia. }
    split_and!; [by rewrite <- app_assoc|simpl; lia|simpl; lia|by constructor| | |].
    + rewrite number_of_snoc, Hnum, Ed, Ep, Z.rem_mul_r by lia. lia.
    + intros Hs. apply Hlt, Hhd in Hs. destruct (reverse d) as [|x r] eqn:Er; [|done].
      apply (f_equal (@List.length Z)) in Er. rewrite length_reverse in Er. simpl in Er. lia.
    + intros Hge. cbn [List.length]. rewrite Hfull; [done|]. lia.
Qed.
End Digits.

Lemma pad_zeros_spec n limit buf : 32 - Z.of_nat (List.length buf) <= Z.of_nat n ->
  pad_zeros n limit buf = buf ++ replicate (Z.to_nat (Z.min limit 32 - Z.of_nat (List.length buf))) (ch "0").
Proof.
  revert buf. induction n as [|n IH]; intros buf Hn; cbn [pad_zeros].
  - replace (Z.to_nat _) with O by lia. by rewrite app_nil_r.
  - unfold PRINTF_INTEGER_BUFFER_SIZE.
    destruct (Z.ltb_spec (Z.of_nat (List.length buf)) limit), (Z.ltb_spec (Z.of_nat (List.length buf)) 32); simpl andb; cbv iota;
      try (replace (Z.to_nat _) with O by lia; by rewrite app_nil_r).
    rewrite IH by (rewrite length_app; simpl; lia). rewrite length_app, <- app_assoc. simpl List.length.
    replace (Z.to_nat (Z.min limit 32 - Z.of_nat (List.length buf))) with
      (Datatypes.S (Z.to_nat (Z.min limit 32 - Z.of_nat (List.length buf + 1)))) by lia. done.
Qed.

(** ** Flags *)

Lemma flag_unflag flags f g : Z.land (u32 (Z.lnot f)) g = g -> flag (unflag flags f) g = flag flags g.
Proof. intros E. unfold flag, unflag. by rewrite <- Z.land_assoc, E. Qed.

(** Clearing a flag that is not set. *)
Lemma unflag_id flags f : 0 <= flags < 4294967296 -> flag flags f = false -> unflag flags f = flags.
Proof.
  unfold flag, unflag. intros Hf E%negb_false_iff%Z.eqb_eq. apply Z.bits_inj'. intros n Hn.
  assert (Z.testbit (Z.land flags f) n = false) as Eb by (by rewrite E, Z.bits_0). rewrite Z.land_spec in *.
  destruct (Z.ltb_spec n 32) as [H32|H32].
  - unfold wrap. rewrite Z.mod_pow2_bits_low, Z.lnot_spec by lia. by destruct (Z.testbit flags n), (Z.testbit f n).
  - assert (Z.testbit flags n = false) as ->; [|done]. destruct (decide (flags = 0)) as [->|]; [apply Z.bits_0|].
    apply Z.bits_above_log2; [lia|]. apply (Z.lt_le_trans _ 32); [apply Z.log2_lt_pow2; lia|done].
Qed.

Lemma flag_unflag_false flags f g : flag flags g = false -> flag (unflag flags f) g = false.
Proof.
  unfold flag, unflag. rewrite !negb_false_iff, !Z.eqb_eq. intros E.
  rewrite <- Z.land_assoc, (Z.land_comm (u32 _)), Z.land_assoc, E. apply Z.land_0_l.
Qed.

(** ** Integers *)

Definition sign_chars (negative : bool) (flags : Z) : list Z :=
  if negative then [ch "-"] else if flag flags FLAGS_PLUS then [ch "+"]
  else if flag flags FLAGS_SPACE then [ch " "] else [].

(** [0]s are added up to the width, less the sign, or the precision. *)
Definition zero_chars (len : Z) (negative : bool) (precision width flags : Z) : list Z :=
  let target := if negb (flag flags FLAGS_LEFT) && flag flags FLAGS_ZEROPAD
                then width - Z.of_nat (List.length (sign_chars negative flags)) else 0 in
  replicate (Z.to_nat (Z.max precision target - len)) (ch "0").

Lemma flag_lor flags f g : flag flags (Z.lor f g) = flag flags f || flag flags g.
Proof.
  unfold flag. rewrite Z.land_lor_distr_r. destruct (Z.eqb_spec (Z.lor (Z.land flags f) (Z.land flags g)) 0) as [E|E].
  - apply Z.lor_eq_0_iff in E as [-> ->]. done.
  - destruct (Z.eqb_spec (Z.land flags f) 0) as [E1|]; [|done].
    destruct (Z.eqb_spec (Z.land flags g) 0) as [E2|]; [|done]. by rewrite E1, E2 in E.
Qed.

Lemma sign_length negative flags :
  Z.of_nat (List.length (sign_chars negative flags)) = Z.b2z (negative || flag flags (Z.lor FLAGS_PLUS FLAGS_SPACE)).
Proof.
  unfold sign_chars. rewrite flag_lor.
  by destruct negative, (flag flags FLAGS_PLUS), (flag flags FLAGS_SPACE).
Qed.

Section Integer.
Context {S : Type} (function : Z -> Z -> S -> outcome S).
Local Abbreviation out := (Stdio.out S).

(** The buffer of a number fits: less than 32 digits and zeros. *)
Definition number_fits (len precision width flags : Z) : Prop :=
  len <= 31 /\ 0 <= precision <= 31 /\ 0 <= width /\
  (flag flags FLAGS_LEFT = true \/ flag flags FLAGS_ZEROPAD = false \/ width <= 32).

Lemma finalization_spec buf negative base precision width flags (o : out) :
  let len := Z.of_nat (List.length buf) in
  let body := sign_chars negative flags ++ zero_chars len negative precision width flags ++ reverse buf in
  let total := Z.of_nat (List.length body) in
  flag flags (Z.lor FLAGS_HASH FLAGS_POINTER) = false -> number_fits len precision width flags ->
  0 <= pos (gadget o) -> pos (gadget o) + width + 64 < 4294967296 ->
  print_integer_finalization function buf negative base precision width flags o =
  put_all function (pad_left_chars total width flags ++ body ++ pad_right_chars total width flags) o.
Proof.
  intros len body total Hh (Hlen & Hprec & Hw & Hzw) Hp Hb. unfold print_integer_finalization. cbv zeta. fold len.
  set (ns := negative || flag flags (Z.lor FLAGS_PLUS FLAGS_SPACE)).
  assert (Z.of_nat (List.length (sign_chars negative flags)) = Z.b2z ns) as Es by apply sign_length.
  set (pad := negb (flag flags FLAGS_LEFT) && flag flags FLAGS_ZEROPAD).
  set (width' := if negb (flag flags FLAGS_LEFT) && negb (width =? 0) && flag flags FLAGS_ZEROPAD && ns
                 then width - 1 else width).
  assert (pad = true -> width' = if width =? 0 then 0 else width - Z.b2z ns) as Hw'.
  { unfold pad, width'. destruct (flag flags FLAGS_LEFT), (flag flags FLAGS_ZEROPAD), ns, (Z.eqb_spec width 0);
      simpl; try done; lia. }
  assert (pad = false -> width' = width) as Hw''.
  { unfold pad, width'. by destruct (flag flags FLAGS_LEFT), (flag flags FLAGS_ZEROPAD), ns, (width =? 0). }
  assert (0 <= width' <= width) as Hwb.
  { unfold width'. destruct (flag flags FLAGS_LEFT), (flag flags FLAGS_ZEROPAD), ns, (Z.eqb_spec width 0); simpl; lia. }
  assert (pad = true -> width <= 32) as Hpw.
  { unfold pad. intros E. destruct Hzw as [E'|[E'|?]]; [by rewrite E' in E|rewrite E', andb_false_r in E; done|done]. }
  assert ((if pad then pad_zeros 32 width' buf else buf) =
          buf ++ replicate (Z.to_nat ((if pad then width' else 0) - len)) (ch "0")) as Ez.
  { destruct pad eqn:E.
    - rewrite pad_zeros_spec by lia. fold len. do 3 f_equal. rewrite Hw' by done. specialize (Hpw eq_refl).
      case_match; destruct ns; cbn [Z.b2z] in *; lia.
    - replace (Z.to_nat (0 - len)) with O by lia. by rewrite app_nil_r. }
  rewrite Ez. rewrite pad_zeros_spec by lia. rewrite <- app_assoc, <- replicate_add.
  assert (replicate (Z.to_nat ((if pad then width' else 0) - len) +
             Z.to_nat (Z.min precision 32 - Z.of_nat (List.length (buf ++ replicate (Z.to_nat ((if pad then width' else 0) - len)) (ch "0")))))
             (ch "0") = zero_chars len negative precision width flags) as Ezz.
  { unfold zero_chars. fold pad. rewrite Es, length_app, length_replicate. f_equal. fold len.
    destruct pad; [rewrite Hw' by done; specialize (Hpw eq_refl); case_match; destruct ns; cbn [Z.b2z]; lia|lia]. }
  rewrite Ezz. set (zs := zero_chars len negative precision width flags) in *.
  set (flags' := if (base =? BASE_OCTAL) && (len <? Z.of_nat (List.length (buf ++ zs))) then unflag flags FLAGS_HASH else flags).
  assert (flag flags' (Z.lor FLAGS_HASH FLAGS_POINTER) = false) as Eh by (unfold flags'; destruct ((base =? BASE_OCTAL) && _); [by apply flag_unflag_false|done]).
  assert (forall g, Z.land (u32 (Z.lnot FLAGS_HASH)) g = g -> flag flags' g = flag flags g) as Hg.
  { intros g E. unfold flags'. destruct ((base =? BASE_OCTAL) && _); [by apply flag_unflag|done]. }
  rewrite Eh. cbv iota zeta.
  assert (Z.of_nat (List.length (buf ++ zs)) < 32 \/ sign_chars negative flags = []) as Hfit.
  { unfold zs, zero_chars. fold pad. rewrite Es, length_app, length_replicate. fold len.
    destruct ns eqn:En; [left|right; apply nil_length_inv; cbn [Z.b2z] in Es; lia].
    destruct pad; [specialize (Hpw eq_refl)|]; cbn [Z.b2z]; lia. }
  assert ((if Z.of_nat (List.length (buf ++ zs)) <? PRINTF_INTEGER_BUFFER_SIZE then
             if negative then (buf ++ zs) ++ [ch "-"]
             else if flag flags' FLAGS_PLUS then (buf ++ zs) ++ [ch "+"]
             else if flag flags' FLAGS_SPACE then (buf ++ zs) ++ [ch " "] else buf ++ zs
           else buf ++ zs) = buf ++ zs ++ sign_chars negative flags) as ->.
  { rewrite !Hg by reflexivity. unfold PRINTF_INTEGER_BUFFER_SIZE.
    destruct Hfit as [Hfit|Hfit]; [rewrite (proj2 (Z.ltb_lt _ _)) by lia|rewrite Hfit].
    - unfold sign_chars. rewrite <- !app_assoc. repeat case_match; rewrite ?app_nil_r; done.
    - unfold sign_chars in Hfit. rewrite app_nil_r. repeat case_match; done. }
  rewrite out_rev_all.
  - rewrite !reverse_app, <- !app_assoc.
    assert (reverse (sign_chars negative flags) = sign_chars negative flags) as -> by (unfold sign_chars; by repeat case_match).
    assert (reverse zs = zs) as -> by apply reverse_replicate.
    assert (Z.of_nat (List.length (buf ++ zs ++ sign_chars negative flags)) = total) as ->.
    { unfold total, body. rewrite !length_app, length_reverse. lia. }
    unfold body, pad_left_chars, pad_right_chars. rewrite !Hg by reflexivity. rewrite <- !app_assoc.
    destruct (flag flags FLAGS_LEFT) eqn:El, (flag flags FLAGS_ZEROPAD) eqn:Ez'; simpl andb; cbv iota; try done;
      rewrite Hw'' by done; done.
  - lia.
  - done.
  - assert (Z.of_nat (List.length (buf ++ zs ++ sign_chars negative flags)) <= 33); [|lia].
    rewrite !length_app. unfold zs, zero_chars. fold pad. rewrite length_replicate. fold len.
    assert (0 <= Z.b2z ns <= 1) by (destruct ns; cbn [Z.b2z]; lia).
    destruct pad; [specialize (Hpw eq_refl)|]; lia.
Qed.

(** A full buffer is printed as it is. *)
Lemma finalization_full buf base flags (o : out) : List.length buf = 32%nat ->
  flag flags (Z.lor FLAGS_HASH FLAGS_POINTER) = false -> 0 <= pos (gadget o) -> pos (gadget o) + 64 < 4294967296 ->
  print_integer_finalization function buf false base 0 0 flags o = put_all function (reverse buf) o.
Proof.
  intros Hl Hh Hp Hb. unfold print_integer_finalization. cbv zeta. change (0 =? 0) with true.
  change (negb true) with false. rewrite !andb_false_r, !andb_false_l. cbv iota.
  assert ((if negb (flag flags FLAGS_LEFT) && flag flags FLAGS_ZEROPAD then pad_zeros 32 0 buf else buf) = buf) as ->.
  { destruct (_ && _); [|done]. rewrite pad_zeros_spec by lia. replace (Z.to_nat _) with O by lia. apply app_nil_r. }
  rewrite pad_zeros_spec by lia. replace (Z.to_nat (Z.min 0 32 - _)) with O by lia. rewrite app_nil_r, Hl.
  rewrite (Z.ltb_irrefl (Z.of_nat 32)), !andb_false_r. rewrite Hh.
  change (Z.of_nat 32 <? PRINTF_INTEGER_BUFFER_SIZE) with false. cbv iota.
  rewrite Hl. change (Z.of_nat 32 <? PRINTF_INTEGER_BUFFER_SIZE) with false. cbv iota.
  rewrite out_rev_all by (rewrite ?Hl; lia). unfold pad_left_chars, pad_right_chars. rewrite Hl.
  change (Z.to_nat (0 - Z.of_nat 32)) with O. simpl replicate. by destruct (_ && _), (flag flags FLAGS_LEFT); rewrite ?app_nil_l, ?app_nil_r.
Qed.

(** The magnitude printed for a signed number. *)
Lemma abs_for_printing_spec x : - 2 ^ 63 <= x < 2 ^ 63 -> abs_for_printing x = Z.abs x.
Proof.
  intros Hx. unfold abs_for_printing. destruct (Z.ltb_spec 0 x); [rewrite u64_small; lia|].
  destruct (decide (x = 0)) as [->|]; [done|].
  assert (u64 x = x + W64) as -> by (unfold wrap; symmetry; apply (Z.mod_unique _ _ (-1)); lia).
  unfold wrap. symmetry. apply (Z.mod_unique _ _ (-1)); lia.
Qed.
End Integer.

(** ** Where a buffer gadget writes *)

Section Bounded.
Context {S : Type} (function : Z -> Z -> S -> outcome S).
Local Abbreviation out := (Stdio.out S).
Context (p count : Z) (Hp : 0 <= p) (Hpc : p + count <= W64) (allowed : Z -> Prop) (m0 : mem).

(** The gadget is the buffer of [count] places at [p], and the memory is that of
    the start outside of it and of the [allowed] addresses. *)
Record in_buffer (o : out) : Prop := {
  ib_function : has_function (gadget o) = false;
  ib_buffer : buffer (gadget o) = p;
  ib_max : max_chars (gadget o) = count;
  ib_pos : 0 <= pos (gadget o);
  ib_mem : forall a, ~ in_range p count a -> ~ allowed a -> o_mem o !! a = m0 !! a;
}.

Definition keeps (f : out -> outcome out) : Prop := forall o o', in_buffer o -> f o = Ok o' -> in_buffer o'.

Lemma keeps_ok : keeps Ok.
Proof. by intros o o' Ho [= <-]. Qed.

Lemma keeps_bind f g : keeps f -> keeps g -> keeps (fun o => o ← f o; g o).
Proof. intros Hf Hg o o' Ho E. apply bind_inv in E as (o1 & E1 & E). by apply (Hg o1), E; apply (Hf o). Qed.

Lemma keeps_if (b : bool) f g : keeps f -> keeps g -> keeps (fun o => if b then f o else g o).
Proof. by destruct b. Qed.

Lemma keeps_from {A} (c : outcome A) (f : A -> out -> outcome out) :
  (forall x, keeps (f x)) -> keeps (fun o => x ← c; f x o).
Proof. intros Hf o o' Ho E. apply bind_inv in E as (x & _ & E). by apply (Hf x o). Qed.

Lemma keeps_putchar c : keeps (putchar_via_gadget function c).
Proof.
  intros o o' [Hf Hb Hm Hpos Hmem] E. unfold putchar_via_gadget in E.
  assert (0 <= u32 (pos (gadget o) + 1)) as Hpos' by (apply (wrap_range 32); lia).
  change (max_chars (with_pos _ _)) with (max_chars (gadget o)) in E.
  change (has_function (with_pos _ _)) with (has_function (gadget o)) in E.
  change (buffer (with_pos _ _)) with (buffer (gadget o)) in E. rewrite Hf, Hb, Hm in E.
  destruct (Z.leb_spec count (pos (gadget o))) as [Hc|Hc]; [by injection E as <-|].
  apply bind_inv in E as (m & Es & E). injection E as <-. constructor; try done.
  intros a Ha Hal. cbn [o_mem]. unfold store8 in Es. destruct (o_mem o !! _); [|done]. injection Es as <-.
  rewrite lookup_insert_ne; [by apply Hmem|]. intros <-. apply Ha. rewrite u64_small; unfold in_range; lia.
Qed.

Lemma keeps_put_all l : keeps (put_all function l).
Proof. induction l as [|c l IH]; [exact keeps_ok|]. apply (keeps_bind _ _ (keeps_putchar c) IH). Qed.

Lemma keeps_put_many n c : keeps (put_many function n c).
Proof. intros o o'. rewrite put_many_all. apply keeps_put_all. Qed.

Lemma keeps_loop (body : out -> outcome (out + out)) fuel :
  (forall o o', in_buffer o -> body o = Ok (inl o') \/ body o = Ok (inr o') -> in_buffer o') -> keeps (loop body fuel).
Proof.
  intros Hb o o' Ho. apply (loop_keeps body in_buffer in_buffer).
  - intros s s' Hs E. apply (Hb s s' Hs). by left.
  - intros s r Hs E. apply (Hb s r Hs). by right.
  - done.
Qed.

Lemma keeps_pad_right start width : keeps (pad_right function start width).
Proof.
  apply keeps_loop. intros o o' Ho E. case_match.
  - destruct E as [E|E]; apply bind_inv in E as (o1 & E1 & E); [|done]. injection E as <-. by eapply (keeps_putchar).
  - destruct E as [E|E]; [done|]. by injection E as <-.
Qed.

Lemma keeps_out_rev buf width flags : keeps (out_rev function buf width flags).
Proof.
  intros o o' Ho E. unfold out_rev in E. apply bind_inv in E as (o1 & E1 & E). apply bind_inv in E as (o2 & E2 & E).
  assert (in_buffer o1) as H1.
  { destruct (_ && _); [by eapply (keeps_put_many)|by apply (keeps_ok o)]. }
  assert (in_buffer o2) as H2 by (by eapply (keeps_put_all)).
  destruct (flag flags FLAGS_LEFT); [by eapply (keeps_pad_right)|by apply (keeps_ok o2)].
Qed.

Lemma keeps_print_integer value negative base precision width flags :
  keeps (print_integer function value negative base precision width flags).
Proof.
  intros o o' Ho E. unfold print_integer in E.
  repeat match type of E with (if ?b then _ else _) = _ => destruct b end;
    by apply keeps_out_rev in E.
Qed.

Lemma keeps_broken_up number precision width flags buf :
  keeps (print_broken_up_decimal function number precision width flags buf).
Proof. apply keeps_from. intros b. apply keeps_out_rev. Qed.

Lemma keeps_exponential number precision width flags buf :
  keeps (print_exponential_number function number precision width flags buf).
Proof.
  intros o o' Ho E. unfold print_exponential_number in E.
  apply bind_inv in E as ([fe norm] & _ & E). apply bind_inv in E as (comp & _ & E).
  apply bind_inv in E as ([[fe' prec'] comp'] & _ & E). apply bind_inv in E as (o1 & E1 & E).
  apply keeps_broken_up in E1; [|done]. destruct (_ && _ && _); [by injection E as <-|].
  apply bind_inv in E as (o2 & E2 & E). apply bind_inv in E as (o3 & E3 & E).
  apply keeps_putchar in E2; [|done]. apply keeps_print_integer in E3; [|done].
  destruct (flag _ FLAGS_LEFT); [by apply keeps_pad_right in E|by injection E as <-].
Qed.

Lemma keeps_floating value precision width flags prefer :
  keeps (print_floating_point function value precision width flags prefer).
Proof.
  intros o o' Ho E. unfold print_floating_point in E.
  destruct (negb _); [by apply keeps_out_rev in E|].
  destruct (SFltb value (SFopp DBL_MAX)); [by apply keeps_out_rev in E|].
  destruct (SFltb DBL_MAX value); [by destruct (flag flags FLAGS_PLUS); apply keeps_out_rev in E|].
  destruct (_ && _); [by apply keeps_exponential in E|].
  destruct (cut_precision _ _ _) as [prec buf]. destruct prefer; [by apply keeps_exponential in E|].
  unfold print_decimal_number in E. apply bind_inv in E as (v & _ & E). by apply keeps_broken_up in E.
Qed.

(** *** The loop over the format *)

(** What [%n] may write to: eight bytes at an integer argument. *)
Definition uses (args : list vararg) : Prop := forall v a, Word v ∈ args -> in_range (u64 v) 8 a -> allowed a.

Lemma va_word_uses args v args' : va_word args = Ok (v, args') -> uses args ->
  uses args' /\ forall a, in_range (u64 v) 8 a -> allowed a.
Proof.
  destruct args as [|[z|d] args1]; simpl; try done. intros [= <- <-] Hu. split.
  - intros u a Hin. apply (Hu u). by right.
  - intros a. apply (Hu z). left.
Qed.

Lemma va_double_uses args d args' : va_double args = Ok (d, args') -> uses args -> uses args'.
Proof. destruct args as [|[z|e] args1]; simpl; try done. intros [= <- <-] Hu u a Hin. apply (Hu u). by right. Qed.

Lemma or_return_inv {A B} (c : outcome (option A)) (k : A -> outcome (option B)) b :
  or_return c k = Ok (Some b) -> exists a, c = Ok (Some a) /\ k a = Ok (Some b).
Proof. unfold or_return. intros E. apply bind_inv in E as ([a|] & Ec & E); [by exists a|done]. Qed.

Lemma parse_width_uses fuel m s s' : parse_width fuel m s = Ok (Some s') -> uses (spec_args s) -> uses (spec_args s').
Proof.
  unfold parse_width. intros E Hu. apply bind_inv in E as (c & _ & E). destruct (is_digit c).
  - apply bind_inv in E as ([w fmt] & _ & E). by injection E as <-.
  - destruct (c =? ch "*"); [|by injection E as <-]. apply bind_inv in E as ([v args] & Ev & E).
    destruct (_ =? _); [done|]. apply or_return_inv in E as (fmt & _ & E). apply va_word_uses in Ev as [Hu' _]; [|done].
    injection E as <-. by destruct (_ <? 0).
Qed.

Lemma parse_precision_uses fuel m s s' : parse_precision fuel m s = Ok (Some s') -> uses (spec_args s) -> uses (spec_args s').
Proof.
  unfold parse_precision. intros E Hu. apply bind_inv in E as (c & _ & E).
  destruct (c =? ch "."); [|by injection E as <-]. apply or_return_inv in E as (fmt & _ & E).
  apply bind_inv in E as (c' & _ & E). destruct (is_digit c').
  - apply bind_inv in E as ([w fmt'] & _ & E). by injection E as <-.
  - destruct (c' =? ch "*"); [|by injection E as <-]. apply bind_inv in E as ([v args] & Ev & E).
    apply or_return_inv in E as (fmt' & _ & E). apply va_word_uses in Ev as [Hu' _]; [|done]. by injection E as <-.
Qed.

Lemma parse_length_uses m s s' : parse_length m s = Ok (Some s') -> uses (spec_args s) -> uses (spec_args s').
Proof.
  assert (forall c one two, parse_double_length m s c one two = Ok (Some s') -> uses (spec_args s) -> uses (spec_args s')) as Hd.
  { unfold parse_double_length. intros c one two E Hu. apply or_return_inv in E as (fmt & _ & E).
    apply bind_inv in E as (c' & _ & E). destruct (c' =? c); [|by injection E as <-].
    apply or_return_inv in E as (fmt' & _ & E). by injection E as <-. }
  unfold parse_length. intros E Hu. apply bind_inv in E as (c & _ & E).
  destruct (c =? ch "l"); [by eapply Hd|]. destruct (c =? ch "h"); [by eapply Hd|].
  destruct (_ || _); [|by injection E as <-]. apply or_return_inv in E as (fmt & _ & E). by injection E as <-.
Qed.

Lemma parse_spec_uses fuel m fmt args s : parse_spec fuel m fmt args = Ok (Some s) -> uses args -> uses (spec_args s).
Proof.
  unfold parse_spec. intros E Hu. apply or_return_inv in E as (fmt1 & _ & E).
  apply bind_inv in E as ([flags fmt2] & _ & E). apply or_return_inv in E as (s1 & E1 & E).
  apply or_return_inv in E as (s2 & E2 & E).
  apply (parse_length_uses _ _ _ E), (parse_precision_uses _ _ _ _ E2), (parse_width_uses _ _ _ _ E1), Hu.
Qed.

(** [%n] writes to at most eight bytes at its argument. *)
Lemma store_le_outside n m a v m' x : store_le n m a v = Ok m' -> ~ in_range a (Z.of_nat n) x -> m' !! x = m !! x.
Proof.
  revert m a v. induction n as [|n IH]; intros m a v E Hx; [by injection E as <-|].
  cbn [store_le] in E. apply bind_inv in E as (m1 & E1 & E). rewrite (IH _ _ _ E) by (unfold in_range in *; lia).
  unfold store8 in E1. destruct (m !! a); [|done]. injection E1 as <-. apply lookup_insert_ne. unfold in_range in Hx. lia.
Qed.

Lemma keeps_store_count q flags : (forall a, in_range q 8 a -> allowed a) -> keeps (store_count q flags).
Proof.
  intros Hq o o' [Hf Hb Hm Hpos Hmem] E. unfold store_count in E. apply bind_inv in E as (m & E & [= <-]).
  constructor; try done. intros a Ha Hal. cbn [o_mem]. rewrite (store_le_outside _ _ _ _ _ _ E); [by apply Hmem|].
  intros Hin. apply Hal, Hq. unfold in_range in *. repeat case_match; lia.
Qed.

Lemma keeps_convert_integer c flags width precision v : keeps (convert_integer function c flags width precision v).
Proof.
  intros o o' Ho E. unfold convert_integer in E.
  match type of E with (let '(_, _) := ?x in _) = _ => destruct x as [base flags'] end.
  cbv zeta in E. destruct (flag _ FLAGS_SIGNED); by apply keeps_print_integer in E.
Qed.

Lemma keeps_put_string fuel q precision flags : keeps (put_string function fuel q precision flags).
Proof.
  intros o o' Ho. unfold put_string. apply (loop_keeps _ (fun x => in_buffer x.2) in_buffer); [| |done].
  - intros [[q1 pr1] o1] s' H1 E. apply bind_inv in E as (c & _ & E). destruct (_ && _); [|done].
    apply bind_inv in E as (o2 & E2 & [= <-]). by apply keeps_putchar in E2.
  - intros [[q1 pr1] o1] r H1 E. apply bind_inv in E as (c & _ & E). destruct (_ && _).
    + apply bind_inv in E as (o2 & E2 & E). done.
    + by injection E as <-.
Qed.

Lemma keeps_convert_string fuel q flags width precision : keeps (convert_string function fuel q flags width precision).
Proof.
  intros o o' Ho E. unfold convert_string in E. destruct (q =? 0); [by apply keeps_out_rev in E|].
  apply bind_inv in E as (l & _ & E). apply bind_inv in E as (o1 & E1 & E). apply bind_inv in E as (o2 & E2 & E).
  assert (in_buffer o1) as H1 by (destruct (flag flags FLAGS_LEFT); [by injection E1 as <-|by apply keeps_put_many in E1]).
  apply keeps_put_string in E2; [|done].
  destruct (flag flags FLAGS_LEFT); [by apply keeps_put_many in E|by injection E as <-].
Qed.

Lemma keeps_convert fuel c s o args' o' : in_buffer o -> uses (spec_args s) ->
  convert function fuel c s o = Ok (args', o') -> in_buffer o' /\ uses args'.
Proof.
  intros Ho Hu E. unfold convert in E. cbv zeta in E.
  repeat match type of E with (if ?b then _ else _) = _ => destruct b end.
  - apply bind_inv in E as ([v args] & Ev & E). apply bind_inv in E as (o1 & E1 & [= <- <-]).
    apply va_word_uses in Ev as [? _]; [|done]. split; [by eapply keeps_convert_integer|done].
  - apply bind_inv in E as ([v args] & Ev & E). apply bind_inv in E as (o1 & E1 & [= <- <-]).
    apply va_double_uses in Ev; [|done]. split; [by eapply keeps_floating|done].
  - apply bind_inv in E as ([v args] & Ev & E). apply bind_inv in E as (o1 & E1 & [= <- <-]).
    apply va_double_uses in Ev; [|done]. split; [by eapply keeps_floating|done].
  - apply bind_inv in E as (o1 & E1 & E). apply bind_inv in E as ([v args] & Ev & E).
    apply bind_inv in E as (o2 & E2 & E). apply bind_inv in E as (o3 & E3 & [= <- <-]).
    apply va_word_uses in Ev as [? _]; [|done]. split; [|done].
    destruct (flag _ FLAGS_LEFT).
    + injection E1 as <-. apply keeps_putchar in E2; [|done]. by apply keeps_put_many in E3.
    + apply keeps_put_many in E1; [|done]. apply keeps_putchar in E2; [|done]. by injection E3 as <-.
  - apply bind_inv in E as ([v args] & Ev & E). apply bind_inv in E as (o1 & E1 & [= <- <-]).
    apply va_word_uses in Ev as [? _]; [|done]. split; [by eapply keeps_convert_string|done].
  - apply bind_inv in E as ([v args] & Ev & E). apply bind_inv in E as (o1 & E1 & [= <- <-]).
    apply va_word_uses in Ev as [? _]; [|done]. split; [|done]. unfold convert_pointer in E1. cbv zeta in E1.
    destruct (_ =? 0); [by apply keeps_out_rev in E1|by apply keeps_print_integer in E1].
  - apply bind_inv in E as ([v args] & Ev & E). apply bind_inv in E as (o1 & E1 & [= <- <-]).
    apply va_word_uses in Ev as [? Hv]; [|done]. split; [by eapply (keeps_store_count (u64 v) _ Hv o)|done].
  - apply bind_inv in E as (o1 & E1 & [= <- <-]). split; [by eapply keeps_putchar|done].
Qed.

Lemma keeps_format fuel fmt args : uses args -> keeps (format_string_loop function fuel fmt args).
Proof.
  intros Hu o o' Ho. unfold format_string_loop.
  assert (forall f a b r, in_buffer b -> uses a -> format_step function fuel (f, a, b) = Ok r ->
    match r with inl (_, a', b') => in_buffer b' /\ uses a' | inr b' => in_buffer b' end) as Hstep.
  { intros f a b r Hb Ha E. unfold format_step in E. apply bind_inv in E as (c & _ & E).
    destruct (c =? 0); [by injection E as <-|]. destruct (negb _).
    - apply bind_inv in E as (o1 & E1 & [= <-]). split; [by eapply keeps_putchar|done].
    - apply bind_inv in E as ([s|] & Es & E); [|by injection E as <-]. apply parse_spec_uses in Es; [|done].
      apply bind_inv in E as (c' & _ & E). apply bind_inv in E as ([a' o1] & E1 & [= <-]).
      by apply (keeps_convert fuel c' s b). }
  apply (loop_keeps _ (fun x => in_buffer x.2 /\ uses x.1.2) in_buffer); [| |done].
  - intros [[f a] b] [[f' a'] b'] [Hb Ha] E. by apply (Hstep f a b (inl (f', a', b'))).
  - intros [[f a] b] r [Hb Ha] E. by apply (Hstep f a b (inr r)).
Qed.

(** The terminating NUL. *)
Lemma termination_write o o' : in_buffer o -> p <> 0 -> 0 < count < 4294967296 ->
  append_termination_with_gadget o = Ok o' ->
  in_buffer o' /\ gadget o' = gadget o /\ o_mem o' !! (p + Z.min (pos (gadget o)) (count - 1)) = Some 0.
Proof.
  intros [Hf Hb Hm Hpos Hmem] Hp0 Hc E. unfold append_termination_with_gadget in E. rewrite Hf, Hb, Hm in E.
  rewrite (proj2 (Z.eqb_neq count 0)), (proj2 (Z.eqb_neq p 0)) in E by lia. simpl in E.
  rewrite (wrap_small 32) in E by lia.
  apply bind_inv in E as (m & Es & [= <-]). unfold store8 in Es. destruct (o_mem o !! _) eqn:El; [|done]. injection Es as <-.
  assert (u64 (p + (if pos (gadget o) <? count then pos (gadget o) else count - 1)) =
          p + Z.min (pos (gadget o)) (count - 1)) as Ea.
  { destruct (Z.ltb_spec (pos (gadget o)) count); rewrite u64_small; lia. }
  rewrite Ea in *. split_and!; [|done|].
  - constructor; try done. intros a Ha Hal. cbn [o_mem]. rewrite lookup_insert_ne; [by apply Hmem|].
    intros <-. apply Ha. unfold in_range. lia.
  - cbn [o_mem]. apply lookup_insert_eq.
Qed.
End Bounded.
