(* ===== verification/StdioFormat.v ===== *)
(** * What a format string prints

    A format is a list of pieces: text, [%%], integers, characters and strings.
    [render] is what the pieces print, defined on its own; the lemmas here show
    that one round of the loop over the format prints one piece. *)

From S2P Require Import Prelude Memory LibcString StringProofs Stdio StdioFloat Printf StdioProofs.

(** ** The reference rendering of numbers *)

(** The digits of [v], from the highest. *)
Fixpoint digits_ref (n : nat) (base flags v : Z) : list Z :=
  match n with
  | O => []
  | S n' => if v <? base then [digit_char v flags]
            else digits_ref n' base flags (v / base) ++ [digit_char (v mod base) flags]
  end.

Lemma digits_loop_ref n base flags v buf : 2 <= base -> 0 <= v < base ^ Z.of_nat n ->
  (List.length buf + n <= 32)%nat ->
  digits_loop n v base flags buf = buf ++ reverse (digits_ref n base flags v).
Proof.
  intros Hb. revert v buf. induction n as [|n IH]; intros v buf Hv Hl; [cbn; by rewrite app_nil_r|].
  cbn [digits_loop digits_ref]. rewrite length_app. cbn [List.length].
  rewrite Nat2Z.inj_succ, Z.pow_succ_r in Hv by lia.
  destruct (Z.ltb_spec v base) as [Hlt|Hge].
  - rewrite (Z.div_small v base), (Z.mod_small v base) by lia. done.
  - assert (0 < v / base < base ^ Z.of_nat n) as Hd.
    { split; [apply Z.div_str_pos; lia|apply Z.div_lt_upper_bound; lia]. }
    assert (n <> O) as Hn by (intros ->; simpl in Hd; lia).
    rewrite (proj2 (Z.eqb_neq _ _)) by lia. unfold PRINTF_INTEGER_BUFFER_SIZE. rewrite (proj2 (Z.ltb_lt _ _)) by lia.
    simpl andb. cbv iota. rewrite IH by (rewrite ?length_app; simpl; lia).
    by rewrite reverse_app, <- app_assoc.
Qed.

(** A number that fits leaves the loop before the buffer is full. *)
Lemma digits_loop_more n base flags v buf : 2 <= base -> 0 <= v < base ^ Z.of_nat n -> (0 < n)%nat ->
  digits_loop (S n) v base flags buf = digits_loop n v base flags buf.
Proof.
  intros Hb. revert v buf. induction n as [|n IH]; intros v buf Hv Hn; [lia|].
  rewrite Nat2Z.inj_succ, Z.pow_succ_r in Hv by lia.
  destruct n as [|n].
  - cbn [digits_loop]. rewrite (Z.div_small v base) by lia. done.
  - change (digits_loop (S (S (S n))) v base flags buf) with
      (let buf := buf ++ [digit_char (v mod base) flags] in let v := v / base in
       if negb (v =? 0) && (Z.of_nat (List.length buf) <? PRINTF_INTEGER_BUFFER_SIZE)
       then digits_loop (S (S n)) v base flags buf else buf).
    cbv zeta. rewrite IH; [done| |lia]. split; [apply Z.div_pos; lia|apply Z.div_lt_upper_bound; lia].
Qed.

Lemma digits_ref_length n base flags v : (List.length (digits_ref n base flags v) <= n)%nat.
Proof.
  revert v. induction n as [|n IH]; intros v; simpl; [lia|].
  destruct (v <? base); [simpl; lia|]. rewrite length_app. specialize (IH (v / base)). simpl. lia.
Qed.

(** They denote [v]. *)
Lemma digits_ref_number n base flags v : 2 <= base <= 16 -> 0 <= v < base ^ Z.of_nat n ->
  number_of base (digits_ref n base flags v) = v /\ Forall (digit_of base flags) (digits_ref n base flags v).
Proof.
  intros Hb. revert v. induction n as [|n IH]; intros v Hv; [split; [unfold number_of; cbn in *; lia|constructor]|].
  cbn [digits_ref]. rewrite Nat2Z.inj_succ, Z.pow_succ_r in Hv by lia.
  destruct (Z.ltb_spec v base) as [Hlt|Hge].
  - split; [unfold number_of; simpl; by rewrite digit_value_char by lia|]. apply Forall_singleton. by exists v; split; [lia|].
  - pose proof (Z.mod_pos_bound v base ltac:(lia)). destruct (IH (v / base)) as [En Hf].
    { split; [apply Z.div_pos; lia|apply Z.div_lt_upper_bound; lia]. }
    rewrite number_of_snoc, En, digit_value_char by lia. split; [pose proof (Z.div_mod v base); lia|].
    apply Forall_app. split; [done|]. apply Forall_singleton. by exists (v mod base).
Qed.

(** ** Pieces of a format *)

Inductive piece : Type :=
| Text (c : Z)
| Percent
| Integer (long : bool) (conv v : Z)
| Char (v : Z)
| CString (p : Z) (l : list Z).

Definition piece_source (x : piece) : list Z :=
  match x with
  | Text c => [c]
  | Percent => str "%%"
  | Integer long conv _ => if long then [ch "%"; ch "l"; conv] else [ch "%"; conv]
  | Char _ => str "%c"
  | CString _ _ => str "%s"
  end.

Definition piece_args (x : piece) : list vararg :=
  match x with
  | Text _ | Percent => []
  | Integer _ _ v | Char v => [Word v]
  | CString p _ => [Word p]
  end.

Definition conv_base (conv : Z) : Z :=
  if (conv =? ch "x") || (conv =? ch "X") then 16 else if conv =? ch "o" then 8 else 10.
Definition conv_flags (conv : Z) : Z := if conv =? ch "X" then FLAGS_UPPERCASE else 0.

(** What a piece prints. *)
Definition render (x : piece) : list Z :=
  match x with
  | Text c => [c]
  | Percent => [ch "%"]
  | Integer long conv v =>
      let digits := digits_ref 31 (conv_base conv) (conv_flags conv) in
      if (conv =? ch "d") || (conv =? ch "i") then
        let n := if long then s64 v else s32 v in
        (if n <? 0 then [ch "-"] else []) ++ digits (Z.abs n)
      else digits (if long then u64 v else u32 v)
  | Char v => [u8 v]
  | CString _ l => l
  end.

(** Text holds no [%]; the conversions are those named; strings are in memory. *)
Definition piece_ok (m : mem) (x : piece) : Prop :=
  match x with
  | Text c => is_char c /\ c <> ch "%"
  | Integer _ conv _ => conv ∈ str "diuxXo"
  | CString p l => cstr m p l /\ 0 < p /\ Z.of_nat (List.length l) < PRINTF_MAX_POSSIBLE_BUFFER_SIZE
  | Percent | Char _ => True
  end.

(** A string that is printed lies beside the [n] bytes at [q]. *)
Definition piece_apart (q n : Z) (x : piece) : Prop :=
  match x with CString p l => disjoint_ranges q n p (Z.of_nat (List.length l) + 1) | _ => True end.

Definition longest (ps : list piece) : nat := foldr (fun x n => List.length (render x) `max` n)%nat O ps.

(** ** One piece *)

(** One goal for each element of a concrete list. *)
Ltac each_elem H :=
  repeat (apply elem_of_cons in H as [->|H]); [..|by apply not_elem_of_nil in H].

Section Pieces.
Context {S : Type} (function : Z -> Z -> S -> outcome S).
Local Abbreviation out := (Stdio.out S).
Local Abbreviation put_all := (put_all function).

(** A gadget with a function leaves the memory alone; one with a buffer writes its
    places only, which lie in the [n] bytes at [q]. *)
Definition within (q n : Z) (g : output_gadget_t) : Prop :=
  has_function g = true \/
  0 <= buffer g /\ 0 <= pos g /\ buffer g + max_chars g <= W64 /\ (0 < max_chars g -> q <= buffer g /\ buffer g + max_chars g <= q + n).

Lemma putchar_within q n c (o o' : out) : within q n (gadget o) -> mem_wf (o_mem o) ->
  putchar_via_gadget function c o = Ok o' ->
  same_outside (o_mem o) (o_mem o') q n /\ within q n (gadget o') /\ mem_wf (o_mem o').
Proof.
  unfold putchar_via_gadget. intros Hg Hwf E. change (has_function (with_pos _ _)) with (has_function (gadget o)) in E.
  change (max_chars (with_pos _ _)) with (max_chars (gadget o)) in E. change (buffer (with_pos _ _)) with (buffer (gadget o)) in E.
  assert (within q n (with_pos (gadget o) (u32 (pos (gadget o) + 1)))) as Hg'.
  { destruct Hg as [Hf|(? & ? & ? & ?)]; [by left|right]. cbn [with_pos buffer pos max_chars].
    pose proof (wrap_range 32 (pos (gadget o) + 1) ltac:(done)). split_and!; lia. }
  destruct (Z.leb_spec (max_chars (gadget o)) (pos (gadget o))) as [Hm|Hm]; [by injection E as <-|].
  destruct (has_function (gadget o)) eqn:Hf; [by apply bind_inv in E as (s & _ & [= <-])|].
  destruct Hg as [Hf'|(Hb & Hp & Hw & Hin)]; [by rewrite Hf in Hf'|].
  apply bind_inv in E as (m & Em & [= <-]). cbn [o_mem gadget]. rewrite u64_small in Em by lia.
  unfold store8 in Em. destruct (o_mem o !! _) as [v0|] eqn:E0; [|done]. injection Em as <-. split_and!; [|done|].
  - intros a Ha. rewrite lookup_insert_ne; [done|]. intros <-. apply Ha. unfold in_range. lia.
  - intros a v [[<- <-]|[_ Ha]]%lookup_insert_Some; [|by apply Hwf]. apply Hwf in E0. split; [lia|]. by apply (wrap_range 8).
Qed.

Lemma put_all_within q n l (o o' : out) : within q n (gadget o) -> mem_wf (o_mem o) -> put_all l o = Ok o' ->
  same_outside (o_mem o) (o_mem o') q n /\ within q n (gadget o') /\ mem_wf (o_mem o').
Proof.
  revert o. induction l as [|c l IH]; intros o Hg Hwf E; [by injection E as <-|].
  cbn [Stdio.put_all] in E. apply bind_inv in E as (o1 & E1 & E).
  apply (putchar_within q n) in E1 as (Hs & Hg1 & Hwf1); [|done|done].
  apply IH in E as (Hs' & Hg' & Hwf'); [|done|done]. split_and!; [|done|done].
  intros a Ha. by rewrite Hs', Hs.
Qed.

(** A gadget with a function leaves the memory alone. *)
Lemma putchar_function c (o o' : out) : has_function (gadget o) = true ->
  putchar_via_gadget function c o = Ok o' -> o_mem o' = o_mem o /\ has_function (gadget o') = true.
Proof.
  unfold putchar_via_gadget. intros Hf E. change (has_function (with_pos _ _)) with (has_function (gadget o)) in E.
  rewrite Hf in E. destruct (_ <=? _); [by injection E as <-|]. by apply bind_inv in E as (s & _ & [= <-]).
Qed.

Lemma put_all_function l (o o' : out) : has_function (gadget o) = true -> put_all l o = Ok o' ->
  o_mem o' = o_mem o /\ has_function (gadget o') = true.
Proof.
  revert o. induction l as [|c l IH]; intros o Hf E; [by injection E as <-|].
  cbn [Stdio.put_all] in E. apply bind_inv in E as (o1 & E1 & E). apply putchar_function in E1 as [<- Hf1]; [|done].
  by apply IH.
Qed.

(** A conversion without flags, width, precision or length. *)
Definition bare (c : Z) : bool :=
  negb (is_digit c) && negb (existsb (Z.eqb c) (str "*.lhtjz-+ #")) && negb (c =? 0).

Lemma bare_spec c : bare c = true ->
  flag_of_char c = None /\ is_digit c = false /\ Forall (fun x => (c =? x) = false) (str "*.lhtjz") /\ (c =? 0) = false.
Proof.
  unfold bare. rewrite !andb_true_iff, !negb_true_iff. intros [[Hd Hn] H0].
  assert (Forall (fun x => (c =? x) = false) (str "*.lhtjz-+ #")) as Hf.
  { apply Forall_forall. intros x Hx. destruct (c =? x) eqn:E; [|done]. apply Z.eqb_eq in E as <-.
    by rewrite (proj2 (existsb_exists _ _) (ex_intro _ c (conj (proj1 (list_elem_of_In _ _) Hx) (Z.eqb_refl c)))) in Hn. }
  split_and!; [|done| |done].
  - assert (c <> ch "0") as Hc by (intros ->; done).
    unfold flag_of_char. rewrite (proj2 (Z.eqb_neq _ _) Hc).
    apply (Forall_app _ (str "*.lhtjz") (str "-+ #")) in Hf as [_ Hf].
    repeat (apply Forall_cons in Hf as [-> Hf]). done.
  - by apply (Forall_app _ (str "*.lhtjz") (str "-+ #")) in Hf as [? _].
Qed.

Lemma parse_bare fuel m fmt args c : bare c = true -> u64 (fmt + 1) = fmt + 1 -> load8 m (fmt + 1) = Ok c ->
  (0 < fuel)%nat -> parse_spec fuel m fmt args = Ok (Some (Spec (fmt + 1) args 0 0 0)).
Proof.
  intros (Hf & Hd & Hn & H0)%bare_spec Hu E Hfuel. unfold parse_spec, or_return, advance.
  rewrite Hu, E. bind_simpl. rewrite H0. bind_simpl. destruct fuel as [|k]; [lia|]. unfold parse_flags. rewrite loop_step, E.
  bind_simpl. rewrite Hf. bind_simpl. unfold parse_width, parse_precision, parse_length.
  apply Forall_cons in Hn as [H1 Hn]. apply Forall_cons in Hn as [H2 Hn]. cbn [spec_fmt].
  rewrite E. bind_simpl. rewrite Hd, H1. bind_simpl. cbn [spec_fmt]. rewrite E. bind_simpl. rewrite H2.
  bind_simpl. cbn [spec_fmt]. rewrite E. bind_simpl.
  repeat (apply Forall_cons in Hn as [-> Hn]). done.
Qed.

(** A conversion with the length [l]. *)
Lemma parse_long fuel m fmt args c : bare c = true -> u64 (fmt + 1) = fmt + 1 -> u64 (fmt + 1 + 1) = fmt + 1 + 1 ->
  load8 m (fmt + 1) = Ok (ch "l") -> load8 m (fmt + 1 + 1) = Ok c -> (0 < fuel)%nat ->
  parse_spec fuel m fmt args = Ok (Some (Spec (fmt + 1 + 1) args FLAGS_LONG 0 0)).
Proof.
  intros (Hf & Hd & Hn & H0)%bare_spec Hu Hu2 E E2 Hfuel. unfold parse_spec, or_return, advance.
  rewrite Hu, E. bind_simpl. change (ch "l" =? 0) with false. cbv iota. bind_simpl. destruct fuel as [|k]; [lia|].
  unfold parse_flags. rewrite loop_step, E. bind_simpl. change (flag_of_char (ch "l")) with (@None Z). bind_simpl.
  unfold parse_width, parse_precision, parse_length. cbn [spec_fmt]. rewrite E. bind_simpl.
  change (is_digit (ch "l")) with false. change (ch "l" =? ch "*") with false. bind_simpl. cbn [spec_fmt]. rewrite E.
  bind_simpl. change (ch "l" =? ch ".") with false. bind_simpl. cbn [spec_fmt]. rewrite E. bind_simpl.
  rewrite Z.eqb_refl. unfold parse_double_length, or_return, advance. cbn [spec_fmt spec_flags]. rewrite Hu2, E2.
  bind_simpl. rewrite H0. bind_simpl. rewrite E2. bind_simpl.
  do 2 apply Forall_cons in Hn as [_ Hn]. by apply Forall_cons in Hn as [-> Hn].
Qed.

Lemma digits_ref_flags n base f g v : flag f FLAGS_UPPERCASE = flag g FLAGS_UPPERCASE ->
  digits_ref n base f v = digits_ref n base g v.
Proof.
  intros E. assert (forall d, digit_char d f = digit_char d g) as Ed by (intros d; unfold digit_char; by rewrite E).
  revert v. induction n as [|n IH]; intros v; simpl; [done|]. by rewrite IH, !Ed.
Qed.

(** Without width, precision and alternative form: the sign and the digits. *)
Lemma print_integer_simple v negative base flags (o : out) : 2 <= base <= 16 -> 0 <= v < base ^ 31 ->
  0 <= flags < 4294967296 -> flag flags (Z.lor FLAGS_HASH FLAGS_POINTER) = false -> flag flags FLAGS_PRECISION = false ->
  flag flags FLAGS_LEFT = false -> flag flags FLAGS_ZEROPAD = false -> 0 <= pos (gadget o) ->
  pos (gadget o) + 64 < 4294967296 ->
  print_integer function v negative base 0 0 flags o =
  put_all (sign_chars negative flags ++ digits_ref 31 base flags v) o.
Proof.
  intros Hb Hv Hf Hh Hp Hl Hz Hpos Hmax.
  assert (forall buf, Z.of_nat (List.length buf) <= 31 ->
    print_integer_finalization function buf negative base 0 0 flags o =
    put_all (sign_chars negative flags ++ reverse buf) o) as Hfin.
  { intros buf Hbuf. rewrite finalization_spec; [|done|unfold number_fits; split_and!; try lia; auto|done|lia].
    unfold zero_chars, pad_left_chars, pad_right_chars. rewrite Hl, Hz. simpl andb. cbv iota.
    replace (Z.to_nat (Z.max 0 0 - _)) with O by lia. replace (Z.to_nat (0 - _)) with O by lia. by rewrite app_nil_r. }
  unfold print_integer. destruct (Z.eqb_spec v 0) as [->|Hv0].
  - rewrite Hp. simpl negb. cbv iota. rewrite unflag_id.
    + rewrite Hfin by (simpl; lia). cbn [digits_ref]. rewrite (proj2 (Z.ltb_lt _ _)) by lia. done.
    + done.
    + rewrite flag_lor in Hh. by apply orb_false_iff in Hh as [? _].
  - rewrite (digits_loop_more 31) by lia. rewrite digits_loop_ref by (simpl; lia). rewrite app_nil_l, Hfin, reverse_involutive.
    + done.
    + rewrite length_reverse. pose proof (digits_ref_length 31 base flags v). lia.
Qed.
(** Signed and unsigned integers. *)
Lemma convert_signed F n (o : out) : F ∈ [16384; 16896] -> - 2 ^ 63 <= n < 2 ^ 63 -> 0 <= pos (gadget o) ->
  pos (gadget o) + 64 < 4294967296 ->
  print_integer function (abs_for_printing n) (n <? 0) 10 0 0 F o =
  put_all ((if n <? 0 then [ch "-"] else []) ++ digits_ref 31 10 0 (Z.abs n)) o.
Proof.
  intros HF Hn Hp Hb. rewrite abs_for_printing_spec by done.
  assert (sign_chars (n <? 0) F = if n <? 0 then [ch "-"] else []) as Es.
  { unfold sign_chars. each_elem HF; by destruct (n <? 0). }
  rewrite <- Es, (digits_ref_flags 31 10 0 F) by (each_elem HF; done).
  each_elem HF; apply print_integer_simple; (lia || done).
Qed.

Lemma convert_unsigned F base n (o : out) : F ∈ [0; 32; 512; 544] -> base ∈ [8; 10; 16] -> 0 <= n < 2 ^ 64 ->
  0 <= pos (gadget o) -> pos (gadget o) + 64 < 4294967296 ->
  print_integer function n false base 0 0 F o = put_all (digits_ref 31 base F n) o.
Proof.
  intros HF Hb Hn Hp Hmax.
  assert (2 <= base <= 16 /\ 2 ^ 64 <= base ^ 31) as [Hb1 Hb2] by (each_elem Hb; lia).
  each_elem HF; rewrite print_integer_simple; (lia || done).
Qed.

(** The case analysis of [convert_integer], evaluated. *)
Ltac evaluate_conversion :=
  cbv beta delta [convert_integer]; generalize (print_integer function), abs_for_printing, Z.ltb;
  repeat match goal with
  | |- context [swrap ?w ?v] => generalize (swrap w v); intros ?
  | |- context [wrap ?w ?v] => is_var v; generalize (wrap w v); intros ?
  end; intros; vm_compute; reflexivity.

Lemma convert_signed_flags (long : bool) conv v (o : out) : conv ∈ str "di" ->
  convert_integer function conv (if long then FLAGS_LONG else 0) 0 0 v o =
  (let n := if long then s64 v else s32 v in
   print_integer function (abs_for_printing n) (n <? 0) 10 0 0 (if long then 16896 else 16384) o).
Proof. intros Hc. each_elem Hc; destruct long; evaluate_conversion. Qed.

Lemma convert_unsigned_flags (long : bool) conv v (o : out) : conv ∈ str "uxXo" ->
  convert_integer function conv (if long then FLAGS_LONG else 0) 0 0 v o =
  print_integer function (if long then u64 v else u32 v) false (conv_base conv) 0 0
    ((if long then 512 else 0) + conv_flags conv) o.
Proof. intros Hc. each_elem Hc; destruct long; evaluate_conversion. Qed.

Lemma convert_integer_simple (long : bool) conv v (o : out) : conv ∈ str "diuxXo" ->
  0 <= pos (gadget o) -> pos (gadget o) + 64 < 4294967296 ->
  convert_integer function conv (if long then FLAGS_LONG else 0) 0 0 v o = put_all (render (Integer long conv v)) o.
Proof.
  intros Hc Hp Hb.
  pose proof (swrap_range 32 v eq_refl) as H32. pose proof (swrap_range 64 v eq_refl) as H64.
  pose proof (wrap_range 32 v ltac:(done)) as U32. pose proof (wrap_range 64 v ltac:(done)) as U64.
  apply (elem_of_app (str "di")) in Hc as [Hc|Hc].
  - rewrite convert_signed_flags by done. cbv zeta. rewrite convert_signed; [|destruct long..|done|done]; try lia.
    + each_elem Hc; reflexivity.
    + by constructor; constructor.
    + by constructor.
  - rewrite convert_unsigned_flags by done. rewrite convert_unsigned; [| | |destruct long; lia|done|done].
    + rewrite (digits_ref_flags _ _ _ (conv_flags conv)) by (each_elem Hc; by destruct long). by each_elem Hc.
    + each_elem Hc; destruct long; vm_compute; repeat constructor.
    + each_elem Hc; vm_compute; repeat constructor.
Qed.
(** The characters of a string. *)
Lemma strnlen_cstr fuel m p q l maxsize : mem_wf m -> cstr m q l -> (List.length l < fuel)%nat ->
  Z.of_nat (List.length l) < maxsize ->
  loop (fun '(s, maxsize) =>
      c ← load8 m s;
      if (c =? 0) || (maxsize =? 0) then Ok (inr (u32 (s - p)))
      else Ok (inl (u64 (s + 1), maxsize - 1))) fuel (q, maxsize) = Ok (u32 (q + Z.of_nat (List.length l) - p)).
Proof.
  intros Hwf. revert q l maxsize. induction fuel as [|fuel IH]; intros q l maxsize Hq Hf Hm; [lia|]. rewrite loop_step.
  destruct l as [|c l].
  - rewrite (cstr_end _ _ Hq). bind_simpl. simpl. by rewrite Z.add_0_r.
  - destruct (cstr_char _ Hwf _ _ _ Hq) as (-> & Hc & Hq' & Hi). bind_simpl.
    rewrite (proj2 (Z.eqb_neq c 0)), (proj2 (Z.eqb_neq maxsize 0)) by (simpl in *; lia). simpl orb. cbv iota. bind_simpl.
    unfold idx in Hi. rewrite Hi, (IH (q + 1) l) by (done || simpl in *; lia). do 2 f_equal. cbn [List.length]. lia.
Qed.

Lemma put_string_cstr q n fuel p l precision (o : out) : mem_wf (o_mem o) -> within q n (gadget o) ->
  disjoint_ranges q n p (Z.of_nat (List.length l) + 1) ->
  cstr (o_mem o) p l -> (List.length l < fuel)%nat -> put_string function fuel p precision 0 o = put_all l o.
Proof.
  unfold put_string. revert p l precision o. induction fuel as [|fuel IH]; intros p l precision o Hwf Hg Hd Hp Hl; [lia|].
  rewrite loop_step. destruct l as [|c l].
  - by rewrite (cstr_end _ _ Hp).
  - destruct (cstr_char _ Hwf _ _ _ Hp) as (-> & Hc & Hp' & Hi). bind_simpl. rewrite (proj2 (Z.eqb_neq c 0)) by lia.
    simpl andb. cbv iota. cbn [Stdio.put_all]. destruct (putchar_via_gadget function c o) as [o1| | | |] eqn:E; [|done..].
    bind_simpl. destruct (putchar_within q n _ _ _ Hg Hwf E) as (Hs & Hg1 & Hwf1). unfold idx in Hi. rewrite Hi.
    cbn [List.length] in *. assert (disjoint_ranges q n (p + 1) (Z.of_nat (List.length l) + 1)) as Hd1 by (unfold disjoint_ranges in *; lia).
    apply IH; [done|done|done|by apply (cstr_frame _ _ _ _ q n Hs Hd1)|lia].
Qed.

Lemma put_none n c (o : out) : n <= 0 -> put_many function n c o = Ok o.
Proof. intros Hn. rewrite put_many_all. by replace (Z.to_nat n) with O by lia. Qed.

(** What a conversion without flags prints is what [render] says. *)
Lemma convert_piece q n fuel x args c flags fmt (o : out) :
  mem_wf (o_mem o) -> within q n (gadget o) -> piece_apart q n x -> piece_ok (o_mem o) x ->
  0 <= pos (gadget o) -> pos (gadget o) + 64 < 4294967296 -> (List.length (render x) < fuel)%nat ->
  match x with
  | Text _ => False
  | Percent => c = ch "%" /\ flags = 0
  | Integer long conv _ => c = conv /\ flags = if long then FLAGS_LONG else 0
  | Char _ => c = ch "c" /\ flags = 0
  | CString _ _ => c = ch "s" /\ flags = 0
  end ->
  convert function fuel c (Spec fmt (piece_args x ++ args) flags 0 0) o =
  (o ← put_all (render x) o; Ok (args, o)).
Proof.
  intros Hwf Hf Hap Hx Hp Hb Hl Hc. destruct x as [t| |long conv v|v|p l]; [done|destruct Hc as [-> ->]..].
  - cbn [piece_args render Stdio.put_all app]. by destruct (putchar_via_gadget function (ch "%") o) eqn:E; unfold convert; simpl; rewrite E.
  - unfold convert. cbv zeta. cbn [spec_flags spec_width spec_precision spec_args piece_args app].
    assert (existsb (Z.eqb conv) (str "diuxXob") = true) as -> by (cbn [piece_ok] in Hx; each_elem Hx; reflexivity).
    cbn [va_word]. bind_simpl. by rewrite convert_integer_simple.
  - unfold convert. cbv zeta. cbn [spec_flags spec_width spec_precision spec_args piece_args app].
    change (existsb (Z.eqb (ch "c")) (str "diuxXob")) with false. change (existsb (Z.eqb (ch "c")) (str "fF")) with false.
    change (existsb (Z.eqb (ch "c")) (str "eEgG")) with false. change (flag 0 FLAGS_LEFT) with false.
    rewrite Z.eqb_refl. cbv iota. rewrite put_none by lia. bind_simpl. cbn [va_word render Stdio.put_all]. bind_simpl.
    by destruct (putchar_via_gadget function (u8 v) o).
  - destruct Hx as (Hcs & Hp0 & Hmax).
    assert (u64 p = p) as Eu.
    { apply u64_small. destruct l as [|b l]; [apply cstr_nil, Hwf in Hcs; lia|].
      apply (cstr_cons _ _ _ _) in Hcs as (Hb0 & _ & _). apply Hwf in Hb0. lia. }
    unfold convert. cbv zeta. cbn [spec_flags spec_width spec_precision spec_args piece_args app].
    change (existsb (Z.eqb (ch "s")) (str "diuxXob")) with false. change (existsb (Z.eqb (ch "s")) (str "fF")) with false.
    change (existsb (Z.eqb (ch "s")) (str "eEgG")) with false. change (ch "s" =? ch "c") with false.
    rewrite Z.eqb_refl. cbv iota. cbn [va_word]. bind_simpl. rewrite Eu. unfold convert_string.
    rewrite (proj2 (Z.eqb_neq p 0)) by lia. change (0 =? 0) with true. cbv iota. unfold strnlen_s.
    rewrite (strnlen_cstr _ _ _ _ _ _ Hwf Hcs Hl) by done. bind_simpl.
    change (flag 0 FLAGS_PRECISION) with false. change (flag 0 FLAGS_LEFT) with false. cbv iota.
    pose proof (wrap_range 32 (p + Z.of_nat (List.length l) - p) ltac:(done)).
    rewrite put_none by lia. bind_simpl. rewrite (put_string_cstr q n _ _ _ _ _ Hwf Hf Hap Hcs Hl).
    cbn [render]. by destruct (put_all l o).
Qed.
(** *** One round of the loop prints one piece *)

Lemma bare_conv conv : conv ∈ str "diuxXo" -> bare conv = true.
Proof. intros H. each_elem H; reflexivity. Qed.

Lemma step_bare fuel fmt c args rest (o : out) : mem_wf (o_mem o) -> (0 < fuel)%nat ->
  cstr (o_mem o) fmt (ch "%" :: c :: rest) -> bare c = true ->
  format_step function fuel (fmt, args, o) =
  (r ← convert function fuel c (Spec (fmt + 1) args 0 0 0) o; Ok (inl (fmt + 2, r.1, r.2))).
Proof.
  intros Hwf Hfuel Hs Hc. destruct (cstr_char _ Hwf _ _ _ Hs) as (E & _ & Hs1 & H1).
  destruct (cstr_char _ Hwf _ _ _ Hs1) as (E1 & _ & _ & H2). unfold idx in *.
  unfold format_step. rewrite E. bind_simpl. change (ch "%" =? 0) with false. change (ch "%" =? ch "%") with true.
  simpl negb. cbv iota. rewrite (parse_bare _ _ _ _ c) by done. bind_simpl. cbn [spec_fmt]. rewrite E1. bind_simpl.
  destruct (convert _ _ _ _ _) as [[args' o']| | | |]; [|done..]. bind_simpl. rewrite H2. cbn [fst snd].
  do 4 f_equal. lia.
Qed.

Lemma step_long fuel fmt c args rest (o : out) : mem_wf (o_mem o) -> (0 < fuel)%nat ->
  cstr (o_mem o) fmt (ch "%" :: ch "l" :: c :: rest) -> bare c = true ->
  format_step function fuel (fmt, args, o) =
  (r ← convert function fuel c (Spec (fmt + 1 + 1) args FLAGS_LONG 0 0) o; Ok (inl (fmt + 3, r.1, r.2))).
Proof.
  intros Hwf Hfuel Hs Hc. destruct (cstr_char _ Hwf _ _ _ Hs) as (E & _ & Hs1 & H1).
  destruct (cstr_char _ Hwf _ _ _ Hs1) as (E1 & _ & Hs2 & H2).
  destruct (cstr_char _ Hwf _ _ _ Hs2) as (E2 & _ & _ & H3). unfold idx in *.
  unfold format_step. rewrite E. bind_simpl. change (ch "%" =? 0) with false. change (ch "%" =? ch "%") with true.
  simpl negb. cbv iota. rewrite (parse_long _ _ _ _ c) by done. bind_simpl. cbn [spec_fmt]. rewrite E2. bind_simpl.
  destruct (convert _ _ _ _ _) as [[args' o']| | | |]; [|done..]. bind_simpl. rewrite H3. cbn [fst snd].
  do 4 f_equal. lia.
Qed.

Lemma format_step_piece q n fuel fmt x args rest (o : out) :
  mem_wf (o_mem o) -> within q n (gadget o) -> piece_apart q n x -> cstr (o_mem o) fmt (piece_source x ++ rest) ->
  piece_ok (o_mem o) x -> 0 <= pos (gadget o) -> pos (gadget o) + 64 < 4294967296 ->
  (List.length (render x) < fuel)%nat ->
  format_step function fuel (fmt, piece_args x ++ args, o) =
  (o ← put_all (render x) o; Ok (inl (fmt + Z.of_nat (List.length (piece_source x)), args, o))).
Proof.
  intros Hwf Hf Hap Hs Hx Hp Hb Hl. assert (0 < fuel)%nat as Hfuel by lia.
  pose proof (fun c flags fmt o H1 H2 => convert_piece q n fuel x args c flags fmt o H1 H2 Hap) as Hconv.
  destruct x as [t| |[|] conv v|v|p l].
  - destruct Hx as [Ht Hne]. destruct (cstr_char _ Hwf _ _ _ Hs) as (E & Hc & _ & Hi). unfold format_step.
    rewrite E. bind_simpl. rewrite (proj2 (Z.eqb_neq t 0)), (proj2 (Z.eqb_neq t (ch "%"))) by (done || lia). cbv iota.
    simpl negb. cbv iota. unfold idx in Hi. rewrite Hi. cbn [render Stdio.put_all]. by destruct (putchar_via_gadget function t o).
  - rewrite (step_bare _ _ (ch "%") _ rest) by done. rewrite Hconv by done. by destruct (put_all _ o).
  - rewrite (step_long _ _ conv _ rest) by (done || by apply bare_conv). rewrite Hconv by done. by destruct (put_all _ o).
  - rewrite (step_bare _ _ conv _ rest) by (done || by apply bare_conv). rewrite Hconv by done. by destruct (put_all _ o).
  - rewrite (step_bare _ _ (ch "c") _ rest) by done. rewrite Hconv by done. by destruct (put_all _ o).
  - rewrite (step_bare _ _ (ch "s") _ rest) by done. rewrite Hconv by done. by destruct (put_all _ o).
Qed.

Lemma cstr_skip m p l1 l2 : cstr m p (l1 ++ l2) -> cstr m (p + Z.of_nat (List.length l1)) l2.
Proof.
  revert p. induction l1 as [|c l1 IH]; intros p H; [by rewrite Z.add_0_r|].
  apply cstr_cons in H as (_ & _ & H). apply IH in H. by replace (p + _) with (p + 1 + Z.of_nat (List.length l1)) by (simpl; lia).
Qed.

(** The whole format. *)
Lemma format_pieces q n f fuel fmt ps (o : out) :
  mem_wf (o_mem o) -> within q n (gadget o) ->
  cstr (o_mem o) fmt (flat_map piece_source ps) ->
  disjoint_ranges q n fmt (Z.of_nat (List.length (flat_map piece_source ps)) + 1) ->
  Forall (piece_ok (o_mem o)) ps -> Forall (piece_apart q n) ps -> 0 <= pos (gadget o) ->
  pos (gadget o) + Z.of_nat (List.length (flat_map render ps)) + 64 < 4294967296 ->
  (longest ps < f)%nat -> (List.length ps < fuel)%nat ->
  loop (format_step function f) fuel (fmt, flat_map piece_args ps, o) = put_all (flat_map render ps) o.
Proof.
  intros Hwf. revert fmt fuel o Hwf. induction ps as [|x ps IH]; intros fmt fuel o Hwf Hg Hs Hd Hok Hap Hp Hb Hl Hn;
    (destruct fuel as [|fuel]; [simpl in Hn; lia|]); rewrite loop_step.
  - unfold format_step. by rewrite (cstr_end _ _ Hs).
  - apply Forall_cons in Hok as [Hx Hok]. apply Forall_cons in Hap as [Hax Hap].
    cbn [flat_map] in *. rewrite length_app in Hb, Hd. cbn [longest foldr] in Hl.
    fold (longest ps) in Hl. rewrite (format_step_piece q n _ _ _ _ _ _ Hwf Hg Hax Hs Hx) by lia. rewrite put_all_app.
    destruct (put_all (render x) o) as [o1| | | |] eqn:E; [|done..]. bind_simpl.
    destruct (put_all_within q n _ _ _ Hg Hwf E) as (Hso & Hg1 & Hwf1). apply put_all_gadget in E; [|done|lia].
    assert (disjoint_ranges q n (fmt + Z.of_nat (List.length (piece_source x))) (Z.of_nat (List.length (flat_map piece_source ps)) + 1)) as Hd1
      by (unfold disjoint_ranges in *; lia).
    apply IH; try done.
    + by apply (cstr_frame _ _ _ _ q n Hso Hd1), cstr_skip.
    + apply Forall_forall. intros y Hy. pose proof (proj1 (Forall_forall _ _) Hok y Hy) as Hyk.
      pose proof (proj1 (Forall_forall _ _) Hap y Hy) as Hya. destruct y as [| | | |p l]; [exact Hyk..|].
      destruct Hyk as (Hc & ? & ?). split_and!; [by apply (cstr_frame _ _ _ _ q n Hso Hya)|done|done].
    + rewrite E. cbn [with_pos pos]. lia.
    + rewrite E. cbn [with_pos pos]. lia.
    + lia.
    + simpl in Hn. lia.
Qed.

(** Nothing mapped lies below the address 0. *)
Lemma cstr_beside_0 m p l : mem_wf m -> cstr m p l -> disjoint_ranges 0 0 p (Z.of_nat (List.length l) + 1).
Proof.
  intros Hwf [Hb _]. left. specialize (Hb 0). rewrite Z.add_0_r in Hb.
  destruct ((l ++ [0]) !! Z.to_nat 0) as [v|] eqn:E; [|by destruct l].
  apply Hwf in Hb; [lia|]. rewrite length_app. cbn [List.length]. lia.
Qed.

Lemma pieces_beside_0 m ps : mem_wf m -> Forall (piece_ok m) ps -> Forall (piece_apart 0 0) ps.
Proof.
  intros Hwf Hok. eapply Forall_impl; [exact Hok|]. intros [| | | |p l] Hx; [done..|]. destruct Hx as (Hc & _ & _). by apply (cstr_beside_0 m).
Qed.

(** The entry points that print through a function. *)
Lemma function_renders fuel extra_arg fmt ps m s :
  mem_wf m -> cstr m fmt (flat_map piece_source ps) -> Forall (piece_ok m) ps ->
  (longest ps < fuel)%nat -> (List.length ps < fuel)%nat ->
  Z.of_nat (List.length (flat_map render ps)) < PRINTF_MAX_POSSIBLE_BUFFER_SIZE ->
  vsnprintf_impl function fuel fmt (flat_map piece_args ps) (Out (function_gadget extra_arg) m s) =
  (o ← put_all (flat_map render ps) (Out (function_gadget extra_arg) m s);
   Ok (Z.of_nat (List.length (flat_map render ps)), o)).
Proof.
  intros Hwf Hs Hok Hf Hn Hl. unfold PRINTF_MAX_POSSIBLE_BUFFER_SIZE in Hl.
  unfold vsnprintf_impl, format_string_loop.
  rewrite (format_pieces 0 0) by (first [done|by left|cbn [gadget pos function_gadget]; lia|apply (cstr_beside_0 m); done|by apply (pieces_beside_0 m)]).
  destruct (put_all _ _) as [o| | | |] eqn:E; [|done..]. bind_simpl.
  assert (has_function (gadget o) = true) as Hfun by (by apply put_all_function in E as [_ ?]).
  apply put_all_gadget in E; [|done|cbn [gadget pos function_gadget]; lia].
  unfold append_termination_with_gadget. rewrite Hfun. cbn [orb]. bind_simpl. rewrite E. cbn [with_pos pos gadget function_gadget].
  by rewrite Z.add_0_l, s32_small by lia.
Qed.
End Pieces.

(** A function that always succeeds is called once for each character. *)
Lemma put_all_total {S : Type} (f : Z -> Z -> S -> S) l (o : Stdio.out S) :
  has_function (gadget o) = true -> 0 <= pos (gadget o) -> max_chars (gadget o) < 4294967296 ->
  pos (gadget o) + Z.of_nat (List.length l) <= max_chars (gadget o) ->
  put_all (fun c e s => Ok (f c e s)) l o =
  Ok (Out (with_pos (gadget o) (pos (gadget o) + Z.of_nat (List.length l))) (o_mem o)
          (fold_left (fun s c => f c (extra_function_arg (gadget o)) s) l (o_state o))).
Proof.
  revert o. induction l as [|c l IH]; intros o Hf Hp Hm Hl.
  - rewrite Z.add_0_r. by destruct o as [[] m s].
  - cbn [List.length] in Hl. cbn [put_all]. unfold putchar_via_gadget.
    change (max_chars (with_pos _ _)) with (max_chars (gadget o)).
    change (has_function (with_pos _ _)) with (has_function (gadget o)).
    rewrite (proj2 (Z.leb_gt _ _)), Hf by lia. cbv beta. bind_simpl. rewrite (wrap_small 32) by lia.
    rewrite IH by (cbn [gadget with_pos pos max_chars]; lia || done). cbn [gadget with_pos pos o_mem o_state extra_function_arg List.length fold_left].
    unfold with_pos. cbn. do 3 f_equal. lia.
Qed.

(** ** Texts in a buffer *)

Definition byte_char (c : Z) : Prop := 0 <= c < 256.

Lemma digits_ref_bytes n base flags v : 2 <= base <= 16 -> 0 <= v -> Forall byte_char (digits_ref n base flags v).
Proof.
  intros Hb. assert (forall d, 0 <= d < 16 -> byte_char (digit_char d flags)) as Hd.
  { intros d Hd. unfold byte_char, digit_char. destruct (d <? 10); [|destruct (flag _ _)]; unfold ch; simpl; lia. }
  revert v. induction n as [|n IH]; intros v Hv; cbn [digits_ref]; [constructor|].
  destruct (Z.ltb_spec v base) as [Hlt|Hge]; [constructor; [apply Hd; lia|constructor]|].
  apply Forall_app. split; [apply IH, Z.div_pos; lia|constructor; [apply Hd|constructor]].
  pose proof (Z.mod_pos_bound v base). lia.
Qed.

Lemma render_bytes m x : mem_wf m -> piece_ok m x -> Forall byte_char (render x).
Proof.
  intros Hwf Hx. destruct x as [c| |long conv v|v|p l]; cbn [render].
  - constructor; [|constructor]. destruct Hx as [[? ?] _]. unfold byte_char. lia.
  - constructor; [|constructor]. unfold byte_char, ch. simpl. lia.
  - assert (2 <= conv_base conv <= 16) as Hb by (unfold conv_base; destruct (_ || _); [|destruct (_ =? _)]; lia).
    destruct (_ || _).
    + apply Forall_app. split; [|apply digits_ref_bytes; [done|lia]].
      destruct (_ <? _); constructor; [unfold byte_char, ch; simpl; lia|constructor].
    + apply digits_ref_bytes; [done|]. destruct long; apply (wrap_range _ v); done.
  - constructor; [by apply (wrap_range 8)|constructor].
  - destruct Hx as ([Hb _] & _ & _). apply Forall_lookup. intros i c Hi. pose proof (lookup_lt_Some _ _ _ Hi).
    specialize (Hb (Z.of_nat i)). rewrite Nat2Z.id, lookup_app_l, Hi in Hb by done. apply (Hwf (p + Z.of_nat i)), Hb.
    rewrite length_app. simpl. lia.
Qed.

Lemma renders_bytes m ps : mem_wf m -> Forall (piece_ok m) ps -> Forall byte_char (flat_map render ps).
Proof.
  intros Hwf. induction 1 as [|x ps Hx _ IH]; [constructor|]. apply Forall_app. split; [by apply (render_bytes m)|done].
Qed.

Section Buffers.
Context {S : Type} (function : Z -> Z -> S -> outcome S) (p count : Z) (s : S).
Context (Hp : 0 < p) (Hc : 0 < count < 4294967296) (Hpc : p + count <= W64).

(** The places behind the end of the buffer are counted, not written. *)
Lemma put_all_buffer l k m : 0 <= k -> k + Z.of_nat (List.length l) < 4294967296 -> valid m p count -> Forall byte_char l ->
  put_all function l (Out (Gadget false 0 p k count) m s) =
  Ok (Out (Gadget false 0 p (k + Z.of_nat (List.length l)) count) (write_bytes m (p + k) (take (Z.to_nat (count - k)) l)) s).
Proof.
  revert k m. induction l as [|c l IH]; intros k m Hk Hl Hv Hb; [cbn [put_all List.length]; by rewrite Z.add_0_r, take_nil|].
  apply Forall_cons in Hb as [Hcb Hb]. cbn [List.length] in *. cbn [put_all]. unfold putchar_via_gadget, with_pos.
  cbn [gadget pos max_chars has_function buffer extra_function_arg o_mem o_state]. rewrite (wrap_small 32) by lia.
  replace (k + Z.of_nat (Datatypes.S (List.length l))) with (k + 1 + Z.of_nat (List.length l)) by lia.
  destruct (Z.leb_spec count k) as [Hck|Hck].
  - bind_simpl. rewrite IH by (done || lia). do 2 f_equal. replace (Z.to_nat (count - k)) with O by lia.
    by replace (Z.to_nat (count - (k + 1))) with O by lia.
  - rewrite u64_small by lia. rewrite store8_Ok by (apply Hv; lia). bind_simpl.
    rewrite (wrap_small 8) by (unfold byte_char in Hcb; lia). rewrite IH; [|lia|lia| |done].
    + do 2 f_equal. replace (Z.to_nat (count - k)) with (Datatypes.S (Z.to_nat (count - (k + 1)))) by lia.
      cbn [take write_bytes]. by rewrite Z.add_assoc.
    + intros i Hi. destruct (decide (p + i = p + k)) as [->|Hne]; [rewrite lookup_insert_eq; by eexists|].
      rewrite lookup_insert_ne by done. by apply Hv.
Qed.

(** The text as far as it fits, with its end. *)
Lemma terminated_buffer l m : valid m p count -> Z.of_nat (List.length l) < 4294967296 -> Forall byte_char l ->
  (o ← put_all function l (Out (Gadget false 0 p 0 count) m s); append_termination_with_gadget o) =
  Ok (Out (Gadget false 0 p (Z.of_nat (List.length l)) count) (write_bytes m p (take (Z.to_nat (count - 1)) l ++ [0])) s).
Proof.
  intros Hv Hl Hb. rewrite put_all_buffer by (done || lia). bind_simpl. rewrite Z.add_0_l, Z.add_0_r, Z.sub_0_r.
  unfold append_termination_with_gadget. cbn [gadget has_function max_chars buffer pos o_mem o_state orb].
  rewrite (proj2 (Z.eqb_neq count 0)), (proj2 (Z.eqb_neq p 0)) by lia. rewrite (wrap_small 32) by lia.
  set (k := if Z.of_nat (List.length l) <? count then Z.of_nat (List.length l) else count - 1).
  assert (k = Z.min (Z.of_nat (List.length l)) (count - 1)) as -> by (unfold k; destruct (Z.ltb_spec (Z.of_nat (List.length l)) count); lia).
  set (k := Z.min _ _). assert (0 <= k < count) as Hk by lia.
  assert (is_Some (write_bytes m p (take (Z.to_nat count) l) !! (p + k))) as Hi.
  { rewrite lookup_write_bytes. destruct (decide _) as [Hr|_]; [|apply Hv; lia].
    apply lookup_lt_is_Some_2. unfold in_range in Hr. lia. }
  rewrite u64_small, store8_Ok by (done || lia). bind_simpl. do 2 f_equal. apply map_eq. intros a.
  rewrite lookup_insert, !lookup_write_bytes, length_app, !length_take. cbn [List.length].
  replace (wrap 8 0) with 0 by done. unfold in_range.
  destruct (decide (p + k = a)) as [<-|Hne].
  - rewrite decide_True by lia. rewrite lookup_app_r by (rewrite length_take; lia). rewrite length_take.
    by replace (Z.to_nat (p + k - p) - _)%nat with O by lia.
  - destruct (decide (p <= a < p + _)) as [H1|H1], (decide (p <= a < p + _)) as [H2|H2]; [|lia|lia|done].
    rewrite lookup_app_l by (rewrite length_take; lia). rewrite !lookup_take_lt by lia. done.
Qed.
End Buffers.

(** [vsnprintf] of a buffer, and without one. *)
Section BufferFormats.
Context {S : Type} (function : Z -> Z -> S -> outcome S) (fuel : nat) (m : mem) (fmt : Z) (ps : list piece) (s : S).
Context (Hwf : mem_wf m) (Hs : cstr m fmt (flat_map piece_source ps)) (Hok : Forall (piece_ok m) ps).
Context (Hf : (longest ps < fuel)%nat) (Hn : (List.length ps < fuel)%nat).
Context (Hl : Z.of_nat (List.length (flat_map render ps)) < PRINTF_MAX_POSSIBLE_BUFFER_SIZE).

Lemma buffer_renders p count : 0 < p -> 0 < count <= PRINTF_MAX_POSSIBLE_BUFFER_SIZE -> p + count <= W64 -> valid m p count ->
  disjoint_ranges p count fmt (Z.of_nat (List.length (flat_map piece_source ps)) + 1) ->
  Forall (piece_apart p count) ps ->
  vsnprintf function fuel p count fmt (flat_map piece_args ps) m s =
  Ok (Z.of_nat (List.length (flat_map render ps)),
      Out (Gadget false 0 p (Z.of_nat (List.length (flat_map render ps))) count)
          (write_bytes m p (take (Z.to_nat (count - 1)) (flat_map render ps) ++ [0])) s).
Proof.
  intros Hp Hc Hpc Hv Hd Hap. unfold PRINTF_MAX_POSSIBLE_BUFFER_SIZE in *.
  unfold vsnprintf, vsnprintf_impl, format_string_loop, buffer_gadget, PRINTF_MAX_POSSIBLE_BUFFER_SIZE.
  rewrite (wrap_small 32), (proj2 (Z.ltb_ge _ _)), (proj2 (Z.eqb_neq p 0)) by lia.
  rewrite (format_pieces function p count); try done; [|right; cbn; lia|cbn; lia].
  pose proof (terminated_buffer function p count s Hp ltac:(lia) Hpc (flat_map render ps) m Hv ltac:(lia) (renders_bytes m ps Hwf Hok)) as E.
  destruct (put_all _ _ _) as [o| | | |]; [|done..]. cbn [mbind outcome_bind] in E. bind_simpl. rewrite E. bind_simpl.
  cbn [gadget pos]. by rewrite s32_small by lia.
Qed.

(** Without room the characters are counted only. *)
Lemma put_all_discard l k g m' : max_chars g = 0 -> has_function g = false -> pos g = k -> 0 <= k ->
  k + Z.of_nat (List.length l) < 4294967296 ->
  put_all function l (Out g m' s) = Ok (Out (with_pos g (k + Z.of_nat (List.length l))) m' s).
Proof.
  revert k g. induction l as [|c l IH]; intros k g Hm Hg Hk H0 Hlen.
  - cbn [put_all List.length]. rewrite Z.add_0_r, <- Hk. by destruct g.
  - cbn [List.length] in *. cbn [put_all]. unfold putchar_via_gadget. cbn [gadget o_mem o_state].
    change (max_chars (with_pos g _)) with (max_chars g). rewrite Hm, Hk, (proj2 (Z.leb_le 0 k)), (wrap_small 32) by lia.
    bind_simpl. rewrite (IH (k + 1)) by (done || lia). do 3 f_equal. lia.
Qed.

Lemma discarded_renders p count : p = 0 \/ count = 0 -> 0 <= p < W64 -> 0 <= count < 4294967296 ->
  exists g, vsnprintf function fuel p count fmt (flat_map piece_args ps) m s =
    Ok (Z.of_nat (List.length (flat_map render ps)), Out g m s).
Proof.
  intros Hz Hp Hc. unfold PRINTF_MAX_POSSIBLE_BUFFER_SIZE in *. unfold vsnprintf, vsnprintf_impl, format_string_loop.
  rewrite (wrap_small 32) by lia. set (g := buffer_gadget p count).
  assert (max_chars g = 0 /\ has_function g = false /\ pos g = 0 /\ 0 <= buffer g < W64) as (Hm & Hg & Hk & Hb).
  { unfold g, buffer_gadget, discarding_gadget. destruct Hz as [->| ->]; [done|].
    destruct (p =? 0); [done|]. cbn. split_and!; lia || done. }
  rewrite (format_pieces function 0 0); [|done| |done|by apply (cstr_beside_0 m)|done|by apply (pieces_beside_0 m)|..].
  - rewrite (put_all_discard _ 0) by (done || lia). bind_simpl. unfold append_termination_with_gadget.
    cbn [gadget]. change (has_function (with_pos g _)) with (has_function g). change (max_chars (with_pos g _)) with (max_chars g).
    rewrite Hm, Hg. cbn [orb]. change (0 =? 0) with true. cbv iota. bind_simpl. cbn [gadget pos with_pos].
    rewrite Z.add_0_l, s32_small by lia. by eexists.
  - right. cbn [gadget]. rewrite Hm, Hk. lia.
  - cbn [gadget]. rewrite Hk. lia.
  - cbn [gadget]. rewrite Hk. lia.
  - done.
  - done.
Qed.
End BufferFormats.
