(* ===== verification/StdioClaims.v ===== *)
(** * Properties of the formatted output

    What the integer conversion prints, what a whole format prints, and where
    [vsnprintf] writes. *)

From S2P Require Import Prelude Memory LibcString StringProofs Stdio StdioFloat Printf StdioProofs StdioFormat.

(** ** Formats *)

(** C25: the loop over the format prints what the pieces of the format denote: text
    as it is, [%%], [%c], [%s], and the integers of [%d %i %u %x %X %o], with or
    without the length [l], in the base and the case asked for; the printed count
    is the number of characters, and the rounds of the loop are as many as the
    pieces. *)
Theorem printf_renders {S : Type} (function : Z -> Z -> S -> outcome S) fuel extra_arg fmt ps m s :
  mem_wf m -> cstr m fmt (flat_map piece_source ps) -> Forall (piece_ok m) ps ->
  (longest ps < fuel)%nat -> (List.length ps < fuel)%nat ->
  Z.of_nat (List.length (flat_map render ps)) < PRINTF_MAX_POSSIBLE_BUFFER_SIZE ->
  fctprintf function fuel extra_arg fmt (flat_map piece_args ps) m s =
  (o ← put_all function (flat_map render ps) (Out (function_gadget extra_arg) m s);
   Ok (Z.of_nat (List.length (flat_map render ps)), o)).
Proof.
  intros Hwf Hs Hok Hf Hn Hl. unfold fctprintf, vfctprintf. by apply function_renders.
Qed.

(** C34: a number below [base ^ 31], with a precision of at most 31 and, where zeros fill
    the width, a width of at most 32, is printed as its digits in the base, highest
    first and without a leading zero, after the sign and the zeros the precision
    or the width ask for, and padded with spaces to the width on the side the
    flags say; zero with an explicit precision has no digit at all.  The bounds are
    those of the buffer of 32 characters: see [precision_drops_sign]. *)
Theorem print_integer_correct {S : Type} (function : Z -> Z -> S -> outcome S)
    value negative base precision width flags (o : out S) :
  2 <= base <= 16 -> 0 <= value < base ^ 31 -> 0 <= flags < 4294967296 ->
  flag flags (Z.lor FLAGS_HASH FLAGS_POINTER) = false -> 0 <= precision <= 31 -> 0 <= width ->
  flag flags FLAGS_LEFT = true \/ flag flags FLAGS_ZEROPAD = false \/ width <= 32 ->
  0 <= pos (gadget o) -> pos (gadget o) + width + 64 < 4294967296 ->
  exists ds, number_of base ds = value /\ Forall (digit_of base flags) ds /\
    (ds = [] <-> value = 0 /\ flag flags FLAGS_PRECISION = true) /\
    (head ds = Some (ch "0") -> value = 0) /\
    let body := sign_chars negative flags ++
                zero_chars (Z.of_nat (List.length ds)) negative precision width flags ++ ds in
    let len := Z.of_nat (List.length body) in
    print_integer function value negative base precision width flags o =
    put_all function (pad_left_chars len width flags ++ body ++ pad_right_chars len width flags) o.
Proof.
  intros Hb Hv Hf Hh Hprec Hw Hz Hp Hmax.
  assert (forall buf : list Z, Z.of_nat (List.length buf) <= 31 -> number_fits (Z.of_nat (List.length buf)) precision width flags) as Hfits
    by (intros buf Hbuf; unfold number_fits; split_and!; first [lia|done]).
  assert (flag flags FLAGS_HASH = false) as Hhash by (rewrite flag_lor in Hh; by apply orb_false_iff in Hh as [? _]).
  unfold print_integer. destruct (Z.eqb_spec value 0) as [->|Hv0].
  - destruct (flag flags FLAGS_PRECISION) eqn:Ep; simpl negb; cbv iota.
    + exists []. split_and!; [done|by constructor|by split|done|]. cbv zeta.
      rewrite unflag_id by done. assert ((if base =? BASE_HEX then flags else flags) = flags) as -> by (by destruct (_ =? _)).
      rewrite finalization_spec by (done || lia || by apply (Hfits [])). done.
    + exists [ch "0"]. split_and!; [done| | |done|].
      * repeat constructor. exists 0. split; [lia|done].
      * split; [done|by intros []].
      * cbv zeta. rewrite unflag_id by done. rewrite finalization_spec by (done || lia || by apply (Hfits [ch "0"])). done.
  - destruct (digits_loop_spec base flags Hb 32 value []) as (d & E & Hl & Hd & Hnum & Hhd & _); [lia|lia|done|].
    rewrite app_nil_l in E. assert (value < base ^ Z.of_nat 32) as Hlt.
    { change (Z.of_nat 32) with (Z.succ 31). rewrite Z.pow_succ_r by lia. nia. }
    assert (List.length d <= 31)%nat as Hd31.
    { rewrite <- E, (digits_loop_more 31), digits_loop_ref by (simpl; lia). rewrite length_app, length_reverse.
      apply digits_ref_length. }
    exists (reverse d). split_and!.
    + rewrite Hnum. apply Z.mod_small. lia.
    + by apply Forall_reverse.
    + split; [|by intros [? _]]. intros Er. apply (f_equal (@List.length Z)) in Er. rewrite length_reverse in Er. simpl in Er. lia.
    + intros H0. by apply Hhd in H0.
    + cbv zeta. rewrite E, finalization_spec by (done || lia || apply Hfits; lia). by rewrite length_reverse.
Qed.

(** In base two the buffer of 32 characters is too small for 64 bits: a number
    of more than 32 bits loses its high digits, and exactly the low 32 are
    printed. *)
Theorem print_binary_truncates {S : Type} (function : Z -> Z -> S -> outcome S) value flags (o : out S) :
  2 ^ 32 <= value < 2 ^ 64 -> flag flags (Z.lor FLAGS_HASH FLAGS_POINTER) = false ->
  0 <= pos (gadget o) -> pos (gadget o) + 64 < 4294967296 ->
  exists ds, List.length ds = 32%nat /\ Forall (digit_of 2 flags) ds /\ number_of 2 ds = value mod 2 ^ 32 /\
    print_integer function value false BASE_BINARY 0 0 flags o = put_all function ds o.
Proof.
  intros Hv Hh Hp Hmax.
  destruct (digits_loop_spec 2 flags ltac:(lia) 32 value []) as (d & E & _ & Hd & Hnum & _ & Hfull); [lia|lia|done|].
  rewrite app_nil_l in E. change (2 ^ Z.of_nat 32) with (2 ^ 32) in *. specialize (Hfull ltac:(lia)).
  exists (reverse d). rewrite length_reverse. split_and!; [done|by apply Forall_reverse|done|].
  unfold print_integer. rewrite (proj2 (Z.eqb_neq value 0)) by lia. unfold BASE_BINARY. rewrite E.
  by apply finalization_full.
Qed.

(** ** Buffers *)

(** Where [vsnprintf] of a buffer has written when it ends. *)
Lemma buffer_bounded {S : Type} (function : Z -> Z -> S -> outcome S) fuel p count fmt args m s r o :
  0 < p -> 0 < count <= PRINTF_MAX_POSSIBLE_BUFFER_SIZE -> p + count <= W64 ->
  vsnprintf function fuel p count fmt args m s = Ok (r, o) ->
  (forall a, ~ in_range p count a -> (forall v, Word v ∈ args -> ~ in_range (u64 v) 8 a) -> o_mem o !! a = m !! a) /\
  o_mem o !! (p + Z.min (pos (gadget o)) (count - 1)) = Some 0 /\ r = s32 (pos (gadget o)).
Proof.
  intros Hp Hc Hpc E. unfold PRINTF_MAX_POSSIBLE_BUFFER_SIZE in Hc. unfold vsnprintf, vsnprintf_impl in E.
  rewrite (wrap_small 32) in E by lia.
  assert (buffer_gadget p count = Gadget false 0 p 0 count) as Eg.
  { unfold buffer_gadget, PRINTF_MAX_POSSIBLE_BUFFER_SIZE. rewrite (proj2 (Z.ltb_ge _ _)), (proj2 (Z.eqb_neq p 0)) by lia. done. }
  rewrite Eg in E. apply bind_inv in E as (o1 & E1 & E). apply bind_inv in E as (o2 & E2 & [= <- <-]).
  set (allowed := fun a => exists v, Word v ∈ args /\ in_range (u64 v) 8 a).
  assert (in_buffer p count allowed m (Out (Gadget false 0 p 0 count) m s)) as H0 by (constructor; try done; cbn; lia).
  apply (keeps_format function p count ltac:(lia) Hpc allowed m fuel fmt args) in E1; [|by intros v a ? ?; exists v|done].
  destruct (termination_write p count ltac:(lia) Hpc allowed m _ _ E1 ltac:(lia) ltac:(lia) E2) as (H2 & Eg2 & En).
  rewrite Eg2. split_and!; [|done|done]. intros a Ha Hn. apply (ib_mem _ _ _ _ _ H2 a Ha).
  intros (v & Hv & Hin). by apply (Hn v).
Qed.

(** C35: [vsnprintf] of a format of pieces into a buffer of [count] bytes, with fuel for
    the pieces and for the longest of them, ends: the buffer holds the rendered text
    as far as [count - 1] characters go and a NUL behind it, no other byte changes,
    and the result is the number of characters of the whole text.  With a null
    pointer or without room the characters are only counted.  For any other format
    and any arguments, a run that ends has written inside the buffer only ([%n] also
    to what its argument points to), with the NUL inside the buffer. *)
Theorem vsnprintf_bounded {S : Type} (function : Z -> Z -> S -> outcome S) fuel p count m s :
  0 < p -> 0 < count <= PRINTF_MAX_POSSIBLE_BUFFER_SIZE -> p + count <= W64 ->
  (forall fmt ps, mem_wf m -> cstr m fmt (flat_map piece_source ps) -> Forall (piece_ok m) ps ->
     (longest ps < fuel)%nat -> (List.length ps < fuel)%nat ->
     Z.of_nat (List.length (flat_map render ps)) < PRINTF_MAX_POSSIBLE_BUFFER_SIZE ->
     let text := flat_map render ps in let len := Z.of_nat (List.length text) in
     (valid m p count -> disjoint_ranges p count fmt (Z.of_nat (List.length (flat_map piece_source ps)) + 1) ->
      Forall (piece_apart p count) ps ->
      vsnprintf function fuel p count fmt (flat_map piece_args ps) m s =
      Ok (len, Out (Gadget false 0 p len count) (write_bytes m p (take (Z.to_nat (count - 1)) text ++ [0])) s)) /\
     (forall q k, q = 0 \/ k = 0 -> 0 <= q < W64 -> 0 <= k < 4294967296 ->
        exists g, vsnprintf function fuel q k fmt (flat_map piece_args ps) m s = Ok (len, Out g m s))) /\
  (forall fmt args r o, vsnprintf function fuel p count fmt args m s = Ok (r, o) ->
     (forall a, ~ in_range p count a -> (forall v, Word v ∈ args -> ~ in_range (u64 v) 8 a) -> o_mem o !! a = m !! a) /\
     o_mem o !! (p + Z.min (pos (gadget o)) (count - 1)) = Some 0 /\ r = s32 (pos (gadget o))).
Proof.
  intros Hp Hc Hpc. split.
  - intros fmt ps Hwf Hs Hok Hf Hn Hl text len. split.
    + intros Hv Hd Hap. by apply buffer_renders.
    + intros q k Hz Hq Hk. by apply discarded_renders.
  - intros fmt args r o E. by apply (buffer_bounded function fuel p count fmt args m s).
Qed.

(** ** Witnesses *)

(** A terminal that collects the characters. *)
Definition collect (c _ : Z) (l : list Z) : outcome (list Z) := Ok (l ++ [c]).

Definition sample_pieces : list piece :=
  [Text (ch "x"); Text (ch "="); Integer false (ch "d") (-42); Text (ch " "); Integer true (ch "X") 48879;
   Percent; Text (ch " "); CString 4200 (str "ok"); Char 33].
Definition format_mem : mem :=
  write_bytes (write_bytes ∅ 4096 (flat_map piece_source sample_pieces ++ [0])) 4200 (str "ok" ++ [0]).

Lemma printf_renders_witness :
  fctprintf collect 20 0 4096 (flat_map piece_args sample_pieces) format_mem [] =
    (o ← put_all collect (flat_map render sample_pieces) (Out (function_gadget 0) format_mem []);
     Ok (Z.of_nat (List.length (flat_map render sample_pieces)), o)) /\
  flat_map render sample_pieces = str "x=-42 BEEF% ok!".
Proof.
  split; [|reflexivity]. apply (printf_renders collect 20 0 4096 sample_pieces format_mem []).
  - mem_check.
  - mem_check.
  - repeat constructor; try discriminate; try mem_check; try (vm_compute; repeat constructor).
  - vm_compute. repeat constructor.
  - vm_compute. repeat constructor.
  - reflexivity.
Defined.

Definition collecting : out (list Z) := Out (function_gadget 0) ∅ [].

Lemma print_integer_correct_witness :
  exists ds, number_of 16 ds = 48879 /\ Forall (digit_of 16 FLAGS_ZEROPAD) ds /\
    (ds = [] <-> 48879 = 0 /\ flag FLAGS_ZEROPAD FLAGS_PRECISION = true) /\
    (head ds = Some (ch "0") -> 48879 = 0) /\
    let body := sign_chars true FLAGS_ZEROPAD ++
                zero_chars (Z.of_nat (List.length ds)) true 0 8 FLAGS_ZEROPAD ++ ds in
    let len := Z.of_nat (List.length body) in
    print_integer collect 48879 true 16 0 8 FLAGS_ZEROPAD collecting =
    put_all collect (pad_left_chars len 8 FLAGS_ZEROPAD ++ body ++ pad_right_chars len 8 FLAGS_ZEROPAD) collecting.
Proof.
  apply (print_integer_correct collect 48879 true 16 0 8 FLAGS_ZEROPAD collecting);
    first [reflexivity|(split; (discriminate || reflexivity))|right; right; discriminate|discriminate].
Defined.

Lemma print_binary_truncates_witness :
  exists ds, List.length ds = 32%nat /\ Forall (digit_of 2 0) ds /\ number_of 2 ds = (2 ^ 32 + 5) mod 2 ^ 32 /\
    print_integer collect (2 ^ 32 + 5) false BASE_BINARY 0 0 0 collecting = put_all collect ds collecting.
Proof.
  apply (print_binary_truncates collect (2 ^ 32 + 5) 0 collecting);
    first [reflexivity|(split; (discriminate || reflexivity))|discriminate].
Defined.

(** The text is longer than the buffer of ten bytes. *)
Definition buffer_mem : mem := write_bytes format_mem 8192 (replicate 10 255).
Definition buffer_end : out (list Z) :=
  Out (Gadget false 0 8192 15 10) (write_bytes buffer_mem 8192 (str "x=-42 BEE" ++ [0])) [].

Lemma vsnprintf_bounded_witness :
  vsnprintf collect 20 8192 10 4096 (flat_map piece_args sample_pieces) buffer_mem [] = Ok (15, buffer_end) /\
  o_mem buffer_end !! (8192 + Z.min (pos (gadget buffer_end)) (10 - 1)) = Some 0.
Proof.
  destruct (vsnprintf_bounded collect 20 8192 10 buffer_mem []) as [Hr Hb];
    [reflexivity|split; [reflexivity|discriminate]|discriminate|].
  assert (vsnprintf collect 20 8192 10 4096 (flat_map piece_args sample_pieces) buffer_mem [] = Ok (15, buffer_end)) as E.
  { apply (Hr 4096 sample_pieces).
    - mem_check.
    - mem_check.
    - repeat constructor; try discriminate; try mem_check; try (vm_compute; repeat constructor).
    - vm_compute. repeat constructor.
    - vm_compute. repeat constructor.
    - reflexivity.
    - mem_check.
    - right. discriminate.
    - repeat (apply Forall_cons_2 || apply Forall_nil_2); first [exact I|right; discriminate]. }
  split; [exact E|]. apply (Hb _ _ _ _ E).
Defined.

(** ** Boundary behaviour *)

(** With a precision of 32 the zeros and digits fill the buffer, and the sign of a
    negative number is not printed. *)
Example precision_drops_sign :
  print_integer collect 5 true 10 32 0 FLAGS_PRECISION collecting =
  put_all collect (replicate 31 (ch "0") ++ [ch "5"]) collecting.
Proof. vm_compute. reflexivity. Qed.

(** The integer part is multiplied by the power of ten instead of the difference:
    the fraction of 3.5 with six places is a large negative number. *)
Example components_of_three_and_a_half :
  get_components (ddiv (d_of_Z 7) (d_of_Z 2)) 6 = Ok (Components 3 (-2999996) false).
Proof. vm_compute. reflexivity. Qed.

(** Zero has no normalization: [%e] of it reads one that was never set. *)
Lemma exponential_of_zero {S : Type} (function : Z -> Z -> S -> outcome S) s precision width flags (o : out S) :
  flag flags FLAGS_ADAPT_EXP = false ->
  print_floating_point function (SpecFloat.S754_zero s) precision width flags true o = Undef.
Proof.
  intros Ha. unfold print_floating_point. simpl negb. cbv iota.
  change (SpecFloat.SFltb (SpecFloat.S754_zero s) (SpecFloat.SFopp DBL_MAX)) with false.
  change (SpecFloat.SFltb DBL_MAX (SpecFloat.S754_zero s)) with false. cbv iota.
  destruct (cut_precision 32 (if flag flags FLAGS_PRECISION then precision else 6) []) as [prec buf].
  unfold print_exponential_number, decimal_exponent. rewrite Ha. destruct s; reflexivity.
Qed.

(** A format that ends inside a specification: the NUL is taken for the
    conversion character and the loop reads on behind it. *)
Example format_end_overrun :
  fctprintf collect 20 0 4096 [] (write_bytes ∅ 4096 (str "%5" ++ [0])) [] = Fault 4099.
Proof. vm_compute. reflexivity. Qed.
