(* ===== verification/LibcStdlib.v ===== *)
(** * libs/libc/ctype.cpp and libs/libc/stdlib.cpp

    Character classes, the conversions from text, the pseudo-random numbers, the
    division pairs and the C names of the heap.  Signed overflow is [Undef].  A
    class function returns the truth value its [int] result stands for. *)

From S2P Require Import Prelude Memory LibcString Frames Heap Stdio.

(** ** Character classes *)

Section Ctype.
Context (c : Z).
Local Abbreviation within a b := ((ch a <=? c) && (c <=? ch b)).
Local Abbreviation is_one l := (existsb (Z.eqb c) l).

Definition isalnum : bool := within "0" "9" || within "a" "z" || within "A" "Z".
Definition isalpha : bool := within "a" "z" || within "A" "Z".
Definition islower : bool := within "a" "z".
Definition isupper : bool := within "A" "Z".
Definition isdigit : bool := within "0" "9".
Definition isxdigit : bool := within "0" "9" || within "a" "f" || within "A" "F".
Definition iscntrl : bool := ((0 <=? c) && (c <=? 31)) || (c =? 127).
Definition isgraph : bool := within "!" "~".
Definition isspace : bool := is_one [32; 12; 10; 13; 9; 11].
Definition isblank : bool := is_one [32; 9].
Definition isprint : bool := within "!" "~" || (c =? 32).
Definition ispunct : bool := within "!" "/" || within ":" "@" || within "[" "`" || within "{" "~".
Definition toupper : Z := if within "a" "z" then c - 32 else c.
Definition tolower : Z := if within "A" "Z" then c + 32 else c.
End Ctype.

(** ** Absolute values and division *)

(** A signed [w]-bit result. *)
Definition signed (w z : Z) : outcome Z :=
  if (- 2 ^ (w - 1) <=? z) && (z <? 2 ^ (w - 1)) then Ok z else Undef.

Definition abs_at (w j : Z) : outcome Z := if j <? 0 then signed w (- j) else Ok j.
Definition abs (j : Z) : outcome Z := abs_at 32 j.
Definition labs (j : Z) : outcome Z := abs_at 64 j.
Definition llabs (j : Z) : outcome Z := abs_at 64 j.

Record div_t : Type := Div { quot : Z; rem : Z }.
Definition div_at (w numerator denominator : Z) : outcome div_t :=
  if denominator =? 0 then Undef
  else
    q ← signed w (Z.quot numerator denominator);
    Ok (Div q (Z.rem numerator denominator)).
Definition div (numerator denominator : Z) : outcome div_t := div_at 32 numerator denominator.
Definition ldiv (numerator denominator : Z) : outcome div_t := div_at 64 numerator denominator.
Definition lldiv (numerator denominator : Z) : outcome div_t := div_at 64 numerator denominator.

(** ** Numbers from text *)

Definition load_char (m : mem) (p : Z) : outcome Z := c ← load8 m p; Ok (s8 c).

Definition atoi (m : mem) (s : Z) : outcome Z :=
  loop (fun '(num, i) =>
      c ← load_char m (idx s i);
      if negb (c =? 0) && isdigit c then
        num ← signed 64 (num * 10);
        num ← signed 64 (num + (c - ch "0"));
        i ← signed 32 (i + 1);
        Ok (inl (num, i))
      else Ok (inr num)) (scan_fuel m) (0, 0).

Definition skip_spaces (m : mem) (s : Z) : outcome Z :=
  loop (fun s => c ← load_char m s; if c =? ch " " then Ok (inl (idx s 1)) else Ok (inr s)) (scan_fuel m) s.

(** [s[0] == '0' && (s[1] == 'x' || s[1] == 'X')] *)
Definition hex_prefix (m : mem) (s : Z) : outcome bool :=
  c ← load_char m s;
  if c =? ch "0" then
    c' ← load_char m (idx s 1); Ok ((c' =? ch "x") || (c' =? ch "X"))
  else Ok false.

(** The loop over the digits, as written: each digit replaces the value. *)
Definition digit_step (m : mem) (base : Z) (st : Z * Z) : outcome (Z * Z + Z) :=
  let '(s, ret_value) := st in
  c ← load_char m s;
  if negb (isalnum c) then Ok (inr ret_value)
  else if base =? 10 then
    if isdigit c then Ok (inl (idx s 1, (c - ch "0") * base)) else Ok (inr ret_value)
  else if base =? 16 then
    Ok (inl (idx s 1, if isdigit c then (c - ch "0") * base else ((tolower c - ch "a") + 10) * base))
  else Ok (inl (idx s 1, ret_value)).

Definition strtoll (m : mem) (nptr endptr base : Z) : outcome (Z * mem) :=
  s ← skip_spaces m nptr;
  c ← load_char m s;
  let is_neg := c =? ch "-" in
  let s := if is_neg then idx s 1 else s in
  hex ← (if (base =? 0) || (base =? 16) then hex_prefix m s else Ok false);
  let '(s, base) := if hex : bool then (idx s 2, 16) else (s, base) in
  let base := if base =? 0 then 10 else base in
  let start := s in
  ret_value ← loop (digit_step m base) (scan_fuel m) (s, 0);
  let ret_value := if is_neg then - ret_value else ret_value in
  m ← (if endptr =? 0 then Ok m else store64 m endptr start);
  Ok (ret_value, m).

(** The text of [strtol] is that of [strtoll], with [long] of the same width. *)
Definition strtol (m : mem) (nptr endptr base : Z) : outcome (Z * mem) := strtoll m nptr endptr base.

(** ** Pseudo-random numbers; the state is [cseed] *)

Definition rand (cseed : Z) : Z * Z :=
  let cseed := u64 (cseed * 1103515245 + 12345) in
  (u32 (cseed / 65536) mod 32768, cseed).
Definition srand (seed : Z) : Z := u32 seed.

(** ** The C names of the heap *)

Section Allocation.
Context {W : Type} `{Frames W} (allocator : Z).
Definition malloc (size : Z) (w : W) : outcome (Z * W) := Heap.malloc allocator size w.
Definition free (ptr : Z) (w : W) : outcome W := Heap.free ptr w.
Definition realloc (ptr size : Z) (w : W) : outcome (Z * W) := Heap.realloc allocator ptr size w.
Definition calloc (num size : Z) (w : W) : outcome (Z * W) := Heap.calloc allocator num size w.
End Allocation.
