(* ===== verification/LibcStdlibClaims.v ===== *)
(** * Properties of the conversions from text

    [atoi] reads back what the output routines print; [strtoll] keeps only the last
    digit it sees. *)

From S2P Require Import Prelude Memory LibcString StringProofs Frames Heap Stdio StdioProofs StdioFormat LibcStdlib.

Definition decimal_digit (c : Z) : Prop := ch "0" <= c <= ch "9".

(** ** One character *)

Section Text.
Context (m : mem) (Hwf : mem_wf m).

Lemma s8_ascii c : 0 <= c < 128 -> s8 c = c.
Proof. intros Hc. apply swrap_small; simpl; lia. Qed.

Lemma load_char_cons p c s : cstr m p (c :: s) -> load_char m p = Ok (s8 c) /\ s8 c <> 0 /\ cstr m (p + 1) s /\ idx p 1 = p + 1.
Proof.
  intros Hs. destruct (cstr_char _ Hwf _ _ _ Hs) as (E & Hc & Hs' & Hi). unfold load_char. rewrite E.
  split_and!; [done| |done|done]. unfold swrap. change (2 ^ (8 - 1)) with 128. change (2 ^ 8) with 256.
  pose proof (Z.div_mod (c + 128) 256). pose proof (Z.mod_pos_bound (c + 128) 256). lia.
Qed.

Lemma load_char_end p : cstr m p [] -> load_char m p = Ok 0.
Proof. intros Hs. unfold load_char. by rewrite (cstr_end _ _ Hs). Qed.

Lemma digit_class c : decimal_digit c -> s8 c = c /\ isdigit c = true /\ isalnum c = true /\ c <> 0.
Proof.
  unfold decimal_digit. change (ch "0") with 48. change (ch "9") with 57. intros Hc.
  rewrite s8_ascii by lia. unfold isalnum, isdigit. change (ch "0") with 48. change (ch "9") with 57.
  rewrite (proj2 (Z.leb_le 48 c)), (proj2 (Z.leb_le c 57)) by lia. split_and!; try done. lia.
Qed.

Lemma digit_number c : decimal_digit c -> digit_value c = c - ch "0".
Proof. intros [_ Hc]. unfold digit_value. by rewrite (proj2 (Z.leb_le c (ch "9"))). Qed.

(** What stops the digits: the end of the text or another character. *)
Definition no_digit (rest : list Z) : Prop := match rest with [] => True | c :: _ => isdigit (s8 c) = false end.

Lemma number_of_bounds base l acc : 0 <= acc -> 2 <= base -> Forall decimal_digit l ->
  acc <= foldl (fun acc c => acc * base + digit_value c) acc l.
Proof.
  intros Ha Hb Hl. revert acc Ha. induction Hl as [|c l Hc _ IH]; intros acc Ha; [simpl; lia|]. simpl.
  assert (0 <= digit_value c). { rewrite (digit_number c Hc). unfold decimal_digit in Hc. lia. }
  etrans; [|apply IH; nia]. nia.
Qed.

(** ** [atoi] *)

Lemma atoi_loop s : forall fuel i num l rest, 0 <= num -> cstr m (s + i) (l ++ rest) -> Forall decimal_digit l -> no_digit rest ->
  0 <= s -> 0 <= i -> i + Z.of_nat (List.length l) < 2147483648 -> (List.length l < fuel)%nat ->
  foldl (fun acc c => acc * 10 + digit_value c) num l < 2 ^ 63 ->
  loop (fun '(num, i) =>
      c ← load_char m (idx s i);
      if negb (c =? 0) && isdigit c then
        num ← signed 64 (num * 10);
        num ← signed 64 (num + (c - ch "0"));
        i ← signed 32 (i + 1);
        Ok (inl (num, i))
      else Ok (inr num)) fuel (num, i) = Ok (foldl (fun acc c => acc * 10 + digit_value c) num l).
Proof.
  induction fuel as [|fuel IH]; intros i num l rest Hn Hs Hl Hr Hs0 Hi Hlen Hf Hb; [lia|]. rewrite loop_step.
  assert (idx s i = s + i) as Eix.
  { apply (idx_valid m s i Hwf). destruct (l ++ rest) as [|x y]; [apply cstr_nil in Hs|apply cstr_cons in Hs as [Hs _]]; eauto. }
  rewrite Eix. destruct Hl as [|c l Hc Hl].
  - simpl app in Hs. destruct rest as [|c rest].
    + by rewrite (load_char_end _ Hs).
    + apply load_char_cons in Hs as (-> & _). bind_simpl. cbn in Hr. rewrite Hr, andb_false_r. done.
  - destruct (digit_class c Hc) as (Es & Ed & _ & H0). apply load_char_cons in Hs as (-> & _ & Hs' & _). bind_simpl.
    rewrite Es, (proj2 (Z.eqb_neq c 0)), Ed by done. simpl andb. cbv iota.
    cbn [foldl] in *. pose proof (digit_number c Hc) as Ev. unfold decimal_digit in Hc.
    pose proof (number_of_bounds 10 l (num * 10 + digit_value c) ltac:(lia) ltac:(lia) Hl) as Hmono.
    assert (signed 64 (num * 10) = Ok (num * 10)) as ->.
    { unfold signed. rewrite (proj2 (Z.leb_le _ _)), (proj2 (Z.ltb_lt _ _)) by lia. done. }
    bind_simpl. assert (signed 64 (num * 10 + (c - ch "0")) = Ok (num * 10 + digit_value c)) as ->.
    { rewrite <- Ev. unfold signed. rewrite (proj2 (Z.leb_le _ _)), (proj2 (Z.ltb_lt _ _)) by lia. done. }
    bind_simpl. cbn [List.length] in Hlen, Hf. assert (signed 32 (i + 1) = Ok (i + 1)) as ->.
    { unfold signed. rewrite (proj2 (Z.leb_le _ _)), (proj2 (Z.ltb_lt _ _)) by lia. done. }
    bind_simpl. apply (IH _ _ l rest); try done; try lia. by rewrite Z.add_assoc.
Qed.

Lemma atoi_digits s l rest : cstr m s (l ++ rest) -> 0 <= s -> Forall decimal_digit l -> no_digit rest ->
  Z.of_nat (List.length l) < 2147483648 -> number_of 10 l < 2 ^ 63 -> atoi m s = Ok (number_of 10 l).
Proof.
  intros Hs Hs0 Hl Hr Hlen Hb. unfold atoi. apply (atoi_loop s (scan_fuel m) 0 0 l rest); try done; try lia.
  - by rewrite Z.add_0_r.
  - apply cstr_fuel in Hs. rewrite length_app in Hs. lia.
Qed.

(** ** [strtoll] *)

Lemma digit_loop_last : forall fuel s ret l d rest, cstr m s (l ++ d :: rest) -> Forall decimal_digit (l ++ [d]) ->
  no_digit rest -> (S (List.length l) < fuel)%nat ->
  loop (digit_step m 10) fuel (s, ret) = Ok ((d - ch "0") * 10).
Proof.
  induction fuel as [|fuel IH]; intros s ret l d rest Hs Hl Hr Hf; [lia|]. rewrite loop_step.
  assert (forall c t, cstr m s (c :: t) -> decimal_digit c ->
    digit_step m 10 (s, ret) = Ok (inl (s + 1, (c - ch "0") * 10)) /\ cstr m (s + 1) t) as Hstep.
  { intros c t Hc Hd. destruct (digit_class c Hd) as (Es & Ed & Ea & _). unfold digit_step.
    apply load_char_cons in Hc as (-> & _ & Hs' & Hi). bind_simpl. by rewrite Es, Ea, Ed, Hi. }
  destruct l as [|c l].
  - apply Forall_cons in Hl as [Hl _]. destruct (Hstep d rest Hs Hl) as [-> Hs']. bind_simpl.
    destruct fuel as [|fuel]; [simpl in Hf; lia|]. rewrite loop_step. unfold digit_step.
    destruct rest as [|e rest]; [by rewrite (load_char_end _ Hs')|].
    apply load_char_cons in Hs' as (-> & _). bind_simpl. cbn in Hr. rewrite Hr. by destruct (negb (isalnum (s8 e))).
  - apply Forall_cons in Hl as [Hc Hl]. destruct (Hstep c (l ++ d :: rest) Hs Hc) as [-> Hs']. bind_simpl.
    apply (IH _ _ l d rest); try done. simpl in Hf. lia.
Qed.

Lemma load_digit_end s endptr l d rest : cstr m s (l ++ d :: rest) -> Forall decimal_digit (l ++ [d]) -> no_digit rest ->
  strtoll m s endptr 10 =
  (m ← (if endptr =? 0 then Ok m else store64 m endptr s); Ok ((d - ch "0") * 10, m)).
Proof.
  intros Hs Hl Hr. unfold strtoll.
  assert (exists c, load_char m s = Ok c /\ decimal_digit c) as (c & Ec & Hc).
  { destruct l as [|c l].
    - apply Forall_cons in Hl as [Hl _]. destruct (digit_class d Hl) as (Es & _). exists d.
      apply load_char_cons in Hs as (-> & _). by rewrite Es.
    - apply Forall_cons in Hl as [Hc _]. destruct (digit_class c Hc) as (Es & _). exists c.
      apply load_char_cons in Hs as (-> & _). by rewrite Es. }
  unfold decimal_digit in Hc. change (ch "0") with 48 in Hc. change (ch "9") with 57 in Hc.
  assert (skip_spaces m s = Ok s) as ->.
  { unfold skip_spaces, scan_fuel. rewrite loop_step, Ec. bind_simpl. by rewrite (proj2 (Z.eqb_neq c (ch " "))) by (change (ch " ") with 32; lia). }
  bind_simpl. rewrite Ec. bind_simpl. change (ch "-") with 45. rewrite (proj2 (Z.eqb_neq c 45)) by lia.
  change ((10 =? 0) || (10 =? 16)) with false. bind_simpl. change (10 =? 0) with false. cbv iota zeta.
  rewrite (digit_loop_last _ s 0 l d rest Hs Hl Hr); [done|].
  apply cstr_fuel in Hs. rewrite length_app in Hs. simpl in Hs. lia.
Qed.
End Text.

(** ** Theorems *)

(** C40: [atoi] reads back the decimal text that [%ld] prints for every number that
    is not negative, whatever follows the text but a digit. *)
Theorem atoi_reads_printed m s v rest : mem_wf m -> 0 <= s -> 0 <= v < 2 ^ 63 -> no_digit rest ->
  cstr m s (render (Integer true (ch "d") v) ++ rest) -> atoi m s = Ok v.
Proof.
  intros Hwf Hs Hv Hr Hc. assert (render (Integer true (ch "d") v) = digits_ref 31 10 0 v) as Er.
  { change (render _) with (let n := s64 v in (if n <? 0 then [ch "-"] else []) ++ digits_ref 31 10 0 (Z.abs n)).
    cbv zeta. rewrite (swrap_small 64) by (simpl; lia). rewrite (proj2 (Z.ltb_ge v 0)), Z.abs_eq by lia. done. }
  rewrite Er in Hc. destruct (digits_ref_number 31 10 0 v) as [En Hd]; [lia|simpl; lia|].
  rewrite <- En. apply (atoi_digits m Hwf s _ rest); [done|done| |done| |lia].
  - eapply Forall_impl; [exact Hd|]. intros c (d & Hd' & ->). unfold digit_char, decimal_digit.
    rewrite (proj2 (Z.ltb_lt d 10)) by lia. change (ch "9") with (ch "0" + 9). lia.
  - pose proof (digits_ref_length 31 10 0 v). lia.
Qed.

(** [strtol] of a decimal number answers ten times its last digit, whatever the
    digits before it, and reports the start of the digits as the end of the number. *)
Theorem strtol_last_digit m s endptr l d rest : mem_wf m -> cstr m s (l ++ d :: rest) ->
  Forall decimal_digit (l ++ [d]) -> no_digit rest -> valid m endptr 8 -> endptr <> 0 ->
  strtol m s endptr 10 = Ok ((d - ch "0") * 10, write64 m endptr s).
Proof.
  intros Hwf Hs Hl Hr Hv He. unfold strtol. rewrite (load_digit_end m Hwf s endptr l d rest) by done.
  rewrite (proj2 (Z.eqb_neq endptr 0)) by done. by rewrite store64_write.
Qed.

(** ** Witnesses *)

Definition number_mem : mem :=
  write_bytes (write_bytes ∅ 4096 (str "48879 apples" ++ [0])) 8192 (replicate 8 0).

Lemma atoi_reads_printed_witness : atoi number_mem 4096 = Ok 48879.
Proof.
  apply (atoi_reads_printed number_mem 4096 48879 (str " apples")); [mem_check|discriminate|split; [discriminate|reflexivity]|reflexivity|mem_check].
Defined.

Lemma strtol_last_digit_witness : strtol number_mem 4096 8192 10 = Ok (90, write64 number_mem 8192 4096).
Proof.
  apply (strtol_last_digit number_mem 4096 8192 (str "4887") (ch "9") (str " apples"));
    [mem_check|mem_check|repeat constructor; discriminate|reflexivity|mem_check|discriminate].
Defined.
