(* ===== verification/Terminal.v ===== *)
(** * drivers/graphics/terminal.cpp, sys/logger.cpp, sys/panic.cpp

    The terminal of the boot loader, the log and the panic messages.  The boot
    loader's [write] callback and the ports of the CPU are not code of the kernel:
    [Hardware] names them.  String literals lie somewhere in memory; [lit] says
    where. *)

From S2P Require Import Prelude Memory LibcString Stdio StdioFloat Printf.

(** The devices behind the kernel: [out8] and [in8], the boot loader's [write] with
    a terminal, a text and a length, and the call of a registered interrupt handler
    with its extra argument. *)
Class Hardware (S : Type) := {
  out8 : Z -> Z -> S -> S;
  in8 : Z -> S -> Z * S;
  term_write : Z -> list Z -> Z -> S -> S;
  call_handler : Z -> list Z -> option Z -> S -> outcome S;
}.

Definition LIMINE_TERMINAL_FULL_REFRESH := 18446744073709551612.

(** The response of the boot loader, and its terminals: pointer and columns. *)
Record limine_terminal : Type := Term { term_ptr : Z; columns : Z }.
Record limine_response : Type := Response { terminals : list limine_terminal }.

(** [\033] *)
Definition esc (s : string) : list Z := 27 :: str s.

(** The characters before the first NUL. *)
Fixpoint c_text (l : list Z) : list Z :=
  match l with [] => [] | c :: l' => if c =? 0 then [] else c :: c_text l' end.

Section Terminal.
Context {S : Type} `{Hardware S} (response : option limine_response).

(** The null terminal is the pointer 0. *)
Definition null_term : limine_terminal := Term 0 0.

(** [init]: the first terminal is the main one; the response is used unchecked. *)
Definition terminal_init : outcome (limine_terminal * Z) :=
  match response with
  | None => Undef
  | Some r =>
      match terminals r with
      | [] => Undef
      | t :: _ => Ok (t, Z.of_nat (List.length (terminals r)))
      end
  end.

Context (main_term : limine_terminal).

Definition silent (term : limine_terminal) : bool :=
  match response with None => true | Some _ => term_ptr term =? 0 end.

Definition print (text : list Z) (term : limine_terminal) (s : S) : S :=
  if silent term then s
  else let l := c_text text in term_write (term_ptr term) l (Z.of_nat (List.length l)) s.

Definition printc (c : Z) (term : limine_terminal) (s : S) : S := print [c; 0] term s.

(** The digits of [num], the last first: [while (num > 0)]; ten rounds suffice. *)
Fixpoint printi_digits (n : nat) (num : Z) (temp : list Z) : list Z :=
  match n with
  | O => temp
  | Datatypes.S n' => if 0 <? num then printi_digits n' (Z.quot num 10) (temp ++ [Z.rem num 10 + ch "0"]) else temp
  end.

Definition printi (num : Z) (term : limine_terminal) (s : S) : outcome S :=
  if negb (num =? 0) then
    (* the sign goes to the default terminal; the negation must not overflow *)
    if (num <? 0) && (num =? -2147483648) then Undef
    else
      let '(num, s) := if num <? 0 then (- num, printc (ch "-") main_term s) else (num, s) in
      let '(num, temp) := if num <=? 0 then (- Z.quot num 10, [ch "8"]) else (num, []) in
      let temp := printi_digits 10 num temp in
      Ok (fold_left (fun s c => printc c term s) (reverse temp) s)
  else Ok (printc (ch "0") term s).

Definition reset (term : limine_terminal) (s : S) : S :=
  if silent term then s else term_write (term_ptr term) [] LIMINE_TERMINAL_FULL_REFRESH s.

Definition terminal_clear (ansii_color : list Z) (term : limine_terminal) (s : S) : S :=
  print (esc "[H" ++ esc "[2J") term (print ansii_color term s).

(** The number of blanks wraps when the text is wider than the terminal. *)
Definition center (text : list Z) (term : limine_terminal) (s : S) : outcome S :=
  let n := u64 (columns term / 2 - Z.of_nat (List.length (c_text text)) / 2) in
  let blanks s := for_range 0 n (fun _ s => Ok (printc (ch " ") main_term s)) s in
  s ← blanks s;
  blanks (print text main_term s).

(** [putchar] and the gadget functions over it. *)
Definition putchar (c : Z) (s : S) : S := printc c main_term s.
Definition putchar_wrapper (c _ : Z) (s : S) : outcome S := Ok (putchar c s).

Context (fuel : nat) (lit : list Z -> Z) (m : mem).

(** A call of [printf] or [vprintf]; the count is dropped. *)
Definition k_vprintf (fmt : Z) (args : list vararg) (s : S) : outcome S :=
  '(_, o) ← vprintf putchar_wrapper fuel fmt args m s; Ok (o_state o).
Definition k_printf (fmt : list Z) (args : list vararg) (s : S) : outcome S := k_vprintf (lit fmt) args s.

(** include/drivers/graphics/terminal.hpp: output to a given terminal. *)
Definition term_printf (term : limine_terminal) (fmt : list Z) (args : list vararg) (s : S) : outcome S :=
  '(_, o) ← vfctprintf (fun c _ s => Ok (printc c term s)) fuel (term_ptr term) (lit fmt) args m s; Ok (o_state o).

Definition cursor_up (lines : Z) (term : limine_terminal) (s : S) : outcome S :=
  term_printf term (esc "[dA") [Word lines] s.
Definition cursor_down (lines : Z) (term : limine_terminal) (s : S) : outcome S :=
  term_printf term (esc "[%dB") [Word lines] s.
Definition cursor_right (lines : Z) (term : limine_terminal) (s : S) : outcome S :=
  term_printf term (esc "[%dC") [Word lines] s.
Definition cursor_left (lines : Z) (term : limine_terminal) (s : S) : outcome S :=
  term_printf term (esc "[%dD") [Word lines] s.

(** ** The log *)

Inductive log_level : Type := INFO | WARN | ERROR.

Definition level_str (level : log_level) : list Z :=
  match level with
  | INFO => esc "[1;34m" ++ str "info" ++ esc "[0m"
  | WARN => esc "[0;33m" ++ str "warn" ++ esc "[0m"
  | ERROR => esc "[0;31m" ++ str "error" ++ esc "[0m"
  end.

Definition vlog (level : log_level) (fmt : Z) (args : list vararg) (s : S) : outcome S :=
  s ← k_printf (str "%s: ") [Word (lit (level_str level))] s;
  s ← k_vprintf fmt args s;
  k_printf [10] [] s.

Definition log (level : log_level) (fmt : Z) (args : list vararg) (s : S) : outcome S := vlog level fmt args s.
Definition log_info (fmt : Z) (args : list vararg) (s : S) : outcome S := vlog INFO fmt args s.
Definition log_warn (fmt : Z) (args : list vararg) (s : S) : outcome S := vlog WARN fmt args s.
Definition log_error (fmt : Z) (args : list vararg) (s : S) : outcome S := vlog ERROR fmt args s.

(** ** Panics: the state in which the CPU is halted *)

Definition panic_message (message : Z) (s : S) : outcome S :=
  s ← k_printf [10] [] s;
  s ← log_error (lit (str "%s")) [Word message] s;
  log_error (lit (str "System halted!")) [] s.

(** The line number is passed where the format has a string. *)
Definition panic_at (file line func message : Z) (s : S) : outcome S :=
  s ← k_printf [10] [] s;
  s ← log_error (lit (str "%s")) [Word message] s;
  s ← log_error (lit (str "File: %s")) [Word file] s;
  s ← log_error (lit (str "Line: %s")) [Word line] s;
  s ← log_error (lit (str "Function: %s")) [Word func] s;
  log_error (lit (str "System halted!")) [] s.

Definition abort (s : S) : outcome S := panic_message (lit (str "abort()")) s.
Definition assert_fail (message file line func : Z) (s : S) : outcome S := panic_at file line func message s.
End Terminal.
