(* ===== verification/Interrupts.v ===== *)
(** * arch/x86_64: descriptor tables, interrupt controller, interrupt dispatch

    arch/x86_64/gdt/gdt.cpp, arch/x86_64/idt/idt.cpp and arch/x86_64/cpu/pic.cpp.
    The loading of the tables ([lgdt], [lidt]) is in [Cpu], the entry stubs are in
    [Stubs]. *)

From S2P Require Import Prelude Memory Stdio StdioFloat Printf Terminal.

(** ** Segment descriptors *)

Definition GDT_LONG_MODE_GRANULARITY := 32.
Definition GDT_SEGMENT := 16.
Definition GDT_PRESENT := 128.
Definition GDT_USER := 96.
Definition GDT_EXECUTABLE := 8.
Definition GDT_READ_WRITE := 2.

Record gdt_entry_t : Type := GdtEntry {
  limit_low : Z;
  base_low : Z;
  base_mid : Z;
  access : Z;
  granularity : Z;
  base_high : Z;
}.

#[export] Instance gdt_entry_eq_dec : EqDecision gdt_entry_t.
Proof. solve_decision. Defined.

Definition create_entry (base limit gran acc : Z) : gdt_entry_t :=
  {| base_low := Z.land base 65535;
     base_mid := Z.land (Z.shiftr base 16) 255;
     base_high := Z.land (Z.shiftr base 24) 255;
     limit_low := Z.land limit 65535;
     granularity := Z.lor (Z.land (Z.shiftr limit 16) 15) (Z.land gran 240);
     access := acc |}.

Definition or_all (l : list Z) : Z := fold_left Z.lor l 0.

(** The table [init] builds, by selector. *)
Definition gdt_init : list gdt_entry_t :=
  [create_entry 0 0 0 0;
   create_entry 0 0 GDT_LONG_MODE_GRANULARITY (or_all [GDT_PRESENT; GDT_SEGMENT; GDT_READ_WRITE; GDT_EXECUTABLE]);
   create_entry 0 0 0 (or_all [GDT_PRESENT; GDT_SEGMENT; GDT_READ_WRITE]);
   create_entry 0 0 0 0;
   create_entry 0 0 GDT_LONG_MODE_GRANULARITY (or_all [GDT_PRESENT; GDT_SEGMENT; GDT_READ_WRITE; GDT_USER]);
   create_entry 0 0 0 (or_all [GDT_PRESENT; GDT_SEGMENT; GDT_READ_WRITE; GDT_USER])].

(** The packed structure in memory, eight bytes. *)
Definition gdt_entry_bytes (e : gdt_entry_t) : list Z :=
  le_bytes 2 (limit_low e) ++ le_bytes 2 (base_low e) ++ [base_mid e; access e; granularity e; base_high e].

(** ** Interrupt descriptors *)

Record idt_entry_t : Type := IdtEntry {
  offset_low : Z;
  selector : Z;
  ist : Z;
  type_attributes : Z;
  offset_middle : Z;
  offset_high : Z;
  zero : Z;
}.

(** The assignments cut the address to the width of the fields. *)
Definition idt_entry_of (isr type_attr stack : Z) : idt_entry_t :=
  {| offset_low := u16 isr; selector := 8; ist := stack; type_attributes := type_attr;
     offset_middle := u8 (Z.shiftr isr 16); offset_high := u32 (Z.shiftr isr 32); zero := 0 |}.

Definition idt_set_descriptor (idt : gmap Z idt_entry_t) (vector isr type_attr stack : Z) : gmap Z idt_entry_t :=
  <[vector := idt_entry_of isr type_attr stack]> idt.

(** The packed structure in memory, with the fields' widths. *)
Definition idt_entry_bytes (e : idt_entry_t) : list Z :=
  le_bytes 2 (offset_low e) ++ le_bytes 2 (selector e) ++ [ist e; type_attributes e; offset_middle e] ++
  le_bytes 4 (offset_high e) ++ le_bytes 4 (zero e).
Definition sizeof_idt_entry : Z := 15.

Definition idt_limit : Z := sizeof_idt_entry * 256 - 1.

(** The loop of [init] over the addresses of the stubs. *)
Definition idt_fill (interrupt_table : Z -> Z) (idt : gmap Z idt_entry_t) : outcome (gmap Z idt_entry_t) :=
  for_range 0 256 (fun i idt => Ok (idt_set_descriptor idt (u8 i) (interrupt_table i) 142 0)) idt.

(** ** The interrupt controllers *)

Definition PIC1_COMMAND := 32.
Definition PIC1_DATA := 33.
Definition PIC2_COMMAND := 32.
Definition PIC2_DATA := 161.
Definition PIC_EOI := 32.

Section Interrupts.
Context {S : Type} `{Hardware S}.

Definition eoi (int_no : Z) (s : S) : S :=
  let s := if 40 <=? int_no then out8 PIC2_COMMAND PIC_EOI s else s in
  out8 PIC1_COMMAND PIC_EOI s.

Definition irq_port (irq : Z) : Z * Z := if 8 <=? irq then (161, irq - 8) else (33, irq).

Definition mask (irq : Z) (s : S) : S :=
  let '(port, irq) := irq_port irq in
  let '(v, s) := in8 port s in out8 port (u8 (Z.lor v (Z.shiftl 1 irq))) s.

Definition unmask (irq : Z) (s : S) : S :=
  let '(port, irq) := irq_port irq in
  let '(v, s) := in8 port s in out8 port (u8 (Z.land v (Z.lnot (Z.shiftl 1 irq)))) s.

Definition pic_disable (s : S) : S := out8 33 255 (out8 161 255 s).

Definition out_all (l : list (Z * Z)) (s : S) : S := fold_left (fun s '(p, v) => out8 p v s) l s.

(** [init] after its line in the log. *)
Definition pic_init (s : S) : S :=
  let '(a1, s) := in8 33 s in
  let '(a2, s) := in8 161 s in
  out_all [(32, 17); (160, 17); (33, 32); (161, 40); (33, 4); (161, 2); (33, 1); (161, 1); (33, a1); (161, a2)] s.

(** ** Handlers *)

Record interrupt_handler_t : Type := Handler { handler : Z; args : Z; arg : bool }.

(** The next free vector is never advanced. *)
Definition next_free := 48.
Definition alloc_vector : Z := next_free.

Definition handler_at (table : gmap Z interrupt_handler_t) (vector : Z) : interrupt_handler_t :=
  default (Handler 0 0 false) (table !! vector).

(** Without an argument the old [args] stays in the entry. *)
Definition register_handler (table : gmap Z interrupt_handler_t) (vector h : Z) : gmap Z interrupt_handler_t :=
  <[vector := Handler h (args (handler_at table vector)) false]> table.
Definition register_handler_arg (table : gmap Z interrupt_handler_t) (vector h a : Z) : gmap Z interrupt_handler_t :=
  <[vector := Handler h a true]> table.

(** The saved registers: the interrupt number, the error code and [rip] are named,
    [regs] is the whole frame as handlers get it. *)
Record cpu_interrupt_state_t : Type := Frame { int_no : Z; error_code : Z; rip : Z; regs : list Z }.

Definition irq_handler (table : gmap Z interrupt_handler_t) (f : cpu_interrupt_state_t) (s : S) : outcome S :=
  let h := handler_at table (int_no f) in
  s ← (if negb (handler h =? 0) then
         if arg h then call_handler (handler h) (regs f) (Some (args h)) s
         else call_handler (handler h) (regs f) None s
       else Ok s);
  Ok (eoi (int_no f) s).

Definition exception_messages : list string :=
  ["Division by zero"; "Debug"; "Non-maskable interrupt"; "Breakpoint"; "Detected overflow"; "Out-of-bounds";
   "Invalid opcode"; "No coprocessor"; "Double fault"; "Coprocessor segment overrun"; "Bad TSS";
   "Segment not present"; "Stack fault"; "General protection fault"; "Page fault"; "Unknown interrupt";
   "Coprocessor fault"; "Alignment check"; "Machine check"]%string ++ replicate 13 "Reserved"%string.

(** What an interrupt leads to: the interrupted code goes on, or the CPU halts. *)
Inductive after : Type :=
| Resumed (s : S)
| Halted (s : S).

Context (response : option limine_response) (main_term : limine_terminal).
Context (fuel : nat) (lit : list Z -> Z) (m : mem).
Local Abbreviation log_error := (log_error response main_term fuel lit m).
Local Abbreviation k_printf := (k_printf response main_term fuel lit m).

Definition exception_message (f : cpu_interrupt_state_t) : list Z :=
  match exception_messages !! Z.to_nat (int_no f) with Some t => str t | None => [] end.

Definition exception_handler (f : cpu_interrupt_state_t) (s : S) : outcome S :=
  let message := lit (exception_message f) in
  let panic_line t := [91] ++ esc "[31mPANIC" ++ esc "[0m] " ++ t ++ [10] in
  s ← log_error (lit (str "System exception")) [] s;
  s ← log_error (lit (str "Exception: %s")) [Word message] s;
  s ← log_error (lit (str "Address: 0x1X")) [Word (rip f)] s;
  s ← log_error (lit (str "Error Code: 0x%1X, 0b%b")) [Word (error_code f); Word (error_code f)] s;
  s ← k_printf (10 :: panic_line (str "System Exception!")) [] s;
  s ← k_printf (panic_line (str "Exception: %s")) [Word message] s;
  s ← k_printf (panic_line (str "Address: 0x%lX")) [Word (rip f)] s;
  s ← (if existsb (Z.eqb (int_no f)) [8; 10; 11; 12; 13; 14]
       then k_printf (panic_line (str "Error code: 0x%lX")) [Word (error_code f)] s else Ok s);
  s ← k_printf (panic_line (str "System halted!")) [] s;
  log_error (lit (str "System halted!" ++ [10])) [] s.

Definition interrupt_handler (table : gmap Z interrupt_handler_t) (f : cpu_interrupt_state_t) (s : S) : outcome after :=
  if int_no f <? 32 then s ← exception_handler f s; Ok (Halted s)
  else if (32 <=? int_no f) && (int_no f <? 256) then s ← irq_handler table f s; Ok (Resumed s)
  else s ← panic_message response main_term fuel lit m (lit (str "Unknown interrupt")) s; Ok (Halted s).
End Interrupts.
