(* ===== verification/Stubs.v ===== *)
(** * arch/x86_64/idt/idt.asm: the entry stubs

    The stubs as lists of instructions over a small machine: general registers, the
    registers an interrupt saves, the two GS bases, the zero flag, memory and devices.
    [deliver] is a reference definition of what the processor does before it enters a
    stub.  The call of [interrupt_handler] runs the model of that function on the
    registers the stub has stored; what else its compiled code leaves behind is the
    class [Compiled]. *)

From S2P Require Import Prelude Memory Stdio StdioFloat Printf Terminal Interrupts.

(** ** The machine *)

Inductive reg : Type :=
| RAX | RBX | RCX | RDX | RSI | RDI | RBP | RSP | R8 | R9 | R10 | R11 | R12 | R13 | R14 | R15.

#[export] Instance reg_eq_dec : EqDecision reg.
Proof. solve_decision. Defined.

(** The stack pointer has a field of its own; [gpr] holds the other registers.
    [m_rflags] is the register of flags as it was loaded last, by [deliver] or [iretq];
    [zero_flag] is what the instructions of the stub make of one of its bits. *)
Record machine {S : Type} : Type := Machine {
  gpr : reg -> Z;
  m_rsp : Z;
  m_rip : Z;
  m_cs : Z;
  m_rflags : Z;
  m_ss : Z;
  gs_base : Z;
  kernel_gs_base : Z;
  zero_flag : bool;
  ram : mem;
  devices : S;
}.
Arguments machine S : clear implicits.

Section Machine.
Context {S : Type}.
Implicit Types m : machine S.

Definition get_reg m (r : reg) : Z := match r with RSP => m_rsp m | _ => gpr m r end.

Definition set_rsp (v : Z) m : machine S :=
  Machine S (gpr m) v (m_rip m) (m_cs m) (m_rflags m) (m_ss m) (gs_base m) (kernel_gs_base m) (zero_flag m) (ram m) (devices m).
Definition set_gprs (g : reg -> Z) m : machine S :=
  Machine S g (m_rsp m) (m_rip m) (m_cs m) (m_rflags m) (m_ss m) (gs_base m) (kernel_gs_base m) (zero_flag m) (ram m) (devices m).
Definition set_reg (r : reg) (v : Z) m : machine S :=
  match r with RSP => set_rsp v m | _ => set_gprs (fun r' => if decide (r' = r) then v else gpr m r') m end.
Definition set_ram (mem' : mem) m : machine S :=
  Machine S (gpr m) (m_rsp m) (m_rip m) (m_cs m) (m_rflags m) (m_ss m) (gs_base m) (kernel_gs_base m) (zero_flag m) mem' (devices m).
Definition set_zero (b : bool) m : machine S :=
  Machine S (gpr m) (m_rsp m) (m_rip m) (m_cs m) (m_rflags m) (m_ss m) (gs_base m) (kernel_gs_base m) b (ram m) (devices m).
Definition set_devices (s : S) m : machine S :=
  Machine S (gpr m) (m_rsp m) (m_rip m) (m_cs m) (m_rflags m) (m_ss m) (gs_base m) (kernel_gs_base m) (zero_flag m) (ram m) s.
(** Where code runs: instruction pointer, code segment, flags, stack segment. *)
Definition set_context (rip' cs' flags' ss' : Z) m : machine S :=
  Machine S (gpr m) (m_rsp m) rip' cs' flags' ss' (gs_base m) (kernel_gs_base m) (zero_flag m) (ram m) (devices m).
Definition swapgs m : machine S :=
  Machine S (gpr m) (m_rsp m) (m_rip m) (m_cs m) (m_rflags m) (m_ss m) (kernel_gs_base m) (gs_base m) (zero_flag m) (ram m) (devices m).

Definition push64 (v : Z) m : outcome (machine S) :=
  let sp := u64 (m_rsp m - 8) in
  mem' ← store64 (ram m) sp v;
  Ok (set_rsp sp (set_ram mem' m)).

Definition pop64 m : outcome (Z * machine S) :=
  let sp := m_rsp m in
  v ← load64 (ram m) sp;
  Ok (v, set_rsp (u64 (sp + 8)) m).

Fixpoint push_all (ws : list Z) m : outcome (machine S) :=
  match ws with [] => Ok m | v :: ws => m ← push64 v m; push_all ws m end.

(** ** What the processor does *)

(** Code of ring 3, by its code segment. *)
Definition from_user (cs : Z) : bool := negb (Z.land cs 3 =? 0).

(** An interrupt gate with selector 8, type 0x8E and no stack of its own: the stack is
    that of the task state segment for user code, aligned to 16 bytes; interrupts are
    off (bit 9) in the handler. *)
Definition gate_stack (rsp0 : Z) m : Z :=
  let sp := if from_user (m_cs m) then rsp0 else m_rsp m in sp - sp mod 16.

Definition deliver (rsp0 stub : Z) (error : option Z) m : outcome (machine S) :=
  let saved := [m_ss m; m_rsp m; m_rflags m; m_cs m; m_rip m] ++ option_list error in
  m' ← push_all saved (set_rsp (gate_stack rsp0 m) m);
  Ok (set_context stub 8 (Z.land (m_rflags m) (Z.lnot 512)) (if from_user (m_cs m) then 0 else m_ss m) m').

(** [iretq] takes five words from the stack. *)
Definition iretq m : outcome (machine S) :=
  '(rip', m) ← pop64 m;
  '(cs', m) ← pop64 m;
  '(flags', m) ← pop64 m;
  '(sp', m) ← pop64 m;
  '(ss', m) ← pop64 m;
  Ok (set_rsp sp' (set_context rip' cs' flags' ss' m)).
End Machine.

(** ** The stubs *)

Inductive instr : Type :=
| Push (r : reg)
| Push_imm (n : Z)
| Pop (r : reg)
| Mov (dst src : reg)
| Add_imm (r : reg) (n : Z)
| Test_stack (off mask : Z)   (* test qword [rsp + off], mask *)
| Jz (skip : nat)             (* jz over the next instructions *)
| Swapgs
| Call_interrupt_handler
| Iretq.

Definition pusha64 : list instr :=
  [Push RAX; Push RBX; Push RCX; Push RDX; Push RSI; Push RDI; Push RBP; Push R8; Push R9; Push R10;
   Push R11; Push R12; Push R13; Push R14; Push R15].

Definition popa64 : list instr :=
  [Pop R15; Pop R14; Pop R13; Pop R12; Pop R11; Pop R10; Pop R9; Pop R8; Pop RBP; Pop RDI; Pop RSI;
   Pop RDX; Pop RCX; Pop RBX; Pop RAX].

Definition int_common_stub : list instr :=
  [Test_stack 24 3; Jz 1; Swapgs] ++ pusha64 ++ [Mov RDI RSP; Call_interrupt_handler] ++ popa64 ++
  [Add_imm RSP 16; Test_stack 8 3; Jz 1; Swapgs; Iretq].

(** The vectors for which the stub expects an error code on the stack. *)
Definition pushes_error (n : Z) : bool :=
  (n =? 8) || ((10 <=? n) && (n <=? 14)) || (n =? 17) || (n =? 21) || (n =? 29) || (n =? 30).

(** One stub; its [jmp] goes on with the common part. *)
Definition isr (n : Z) : list instr :=
  (if negb (pushes_error n) then [Push_imm 0] else []) ++ [Push_imm n] ++ int_common_stub.

(** ** Running a stub *)

(** What the compiled [interrupt_handler] leaves in the registers and, given its stack
    pointer, in memory. *)
Class Compiled := {
  left_regs : (reg -> Z) -> reg -> Z;
  left_ram : Z -> mem -> mem;
}.

Fixpoint load_words (n : nat) (mem' : mem) (p : Z) : outcome (list Z) :=
  match n with
  | O => Ok []
  | S n => v ← load64 mem' p; ws ← load_words n mem' (p + 8); Ok (v :: ws)
  end.

(** The structure the pointer argument of [interrupt_handler] points to: 22 words. *)
Definition state_of_words (ws : list Z) : cpu_interrupt_state_t := Frame (ws !!! 15%nat) (ws !!! 16%nat) (ws !!! 17%nat) ws.

Definition interrupt_state_at (mem' : mem) (p : Z) : outcome cpu_interrupt_state_t :=
  ws ← load_words 22 mem' p; Ok (state_of_words ws).

Section Run.
Context {S : Type} {hw : Hardware S} {cc : Compiled}.
Context (response : option limine_response) (main_term : limine_terminal) (fuel : nat) (lit : list Z -> Z).
Context (table : gmap Z interrupt_handler_t) (return_address : Z).
Implicit Types m : machine S.

(** [call interrupt_handler] up to its return, or to the halt in it. *)
Definition call_interrupt_handler m : outcome (after (S := machine S)) :=
  m ← push64 return_address m;
  f ← interrupt_state_at (ram m) (gpr m RDI);
  r ← interrupt_handler response main_term fuel lit (ram m) table f (devices m);
  match r with
  | Halted s => Ok (Halted (set_devices s m))
  | Resumed s =>
      let m := set_ram (left_ram (m_rsp m) (ram m)) (set_gprs (left_regs (gpr m)) (set_devices s m)) in
      '(a, m) ← pop64 m;
      if a =? return_address then Ok (Resumed m) else Undef
  end.

(** The instructions from the current one on; [skip] of them are jumped over.  Only
    [iretq] leaves the code. *)
Fixpoint run (skip : nat) (code : list instr) m : outcome (after (S := machine S)) :=
  match code with
  | [] => Undef
  | i :: code =>
      match skip with
      | Datatypes.S skip => run skip code m
      | O =>
          match i with
          | Push r => m ← push64 (get_reg m r) m; run 0 code m
          | Push_imm n => m ← push64 n m; run 0 code m
          | Pop r => '(v, m) ← pop64 m; run 0 code (set_reg r v m)
          | Mov dst src => run 0 code (set_reg dst (get_reg m src) m)
          | Add_imm r n => let v := u64 (get_reg m r + n) in run 0 code (set_zero (v =? 0) (set_reg r v m))
          | Test_stack off mask =>
              v ← load64 (ram m) (u64 (m_rsp m + off)); run 0 code (set_zero (Z.land v mask =? 0) m)
          | Jz n => run (if zero_flag m then n else 0) code m
          | Swapgs => run 0 code (swapgs m)
          | Call_interrupt_handler =>
              r ← call_interrupt_handler m;
              match r with Resumed m => run 0 code m | Halted m => Ok (Halted m) end
          | Iretq => m ← iretq m; Ok (Resumed m)
          end
      end
  end.

Definition enter (vector : Z) m : outcome (after (S := machine S)) := run 0 (isr vector) m.
End Run.

(** ** The contract of a stub *)

(** The order in which [popa64] takes the registers from the stack, which is that of
    the structure [cpu_interrupt_state_t]. *)
Definition popped : list reg := [R15; R14; R13; R12; R11; R10; R9; R8; RBP; RDI; RSI; RDX; RCX; RBX; RAX].

(** The structure for the state [m] was interrupted in. *)
Definition saved_state {S : Type} (vector : Z) (error : option Z) (m : machine S) : list Z :=
  List.map (gpr m) popped ++ [vector; default 0 error; m_rip m; m_cs m; m_rflags m; m_rsp m; m_ss m].

(** [m'] goes on where [m] was. *)
Record same_context {S : Type} (m m' : machine S) : Prop := {
  sc_regs : forall r, get_reg m' r = get_reg m r;
  sc_rip : m_rip m' = m_rip m;
  sc_cs : m_cs m' = m_cs m;
  sc_rflags : m_rflags m' = m_rflags m;
  sc_ss : m_ss m' = m_ss m;
  sc_gs : gs_base m' = gs_base m;
  sc_kernel_gs : kernel_gs_base m' = kernel_gs_base m;
}.

(** Registers hold 64 bits. *)
Record machine_ok {S : Type} (m : machine S) : Prop := {
  mo_regs : forall r, 0 <= get_reg m r < W64;
  mo_rip : 0 <= m_rip m < W64;
  mo_cs : 0 <= m_cs m < W64;
  mo_rflags : 0 <= m_rflags m < W64;
  mo_ss : 0 <= m_ss m < W64;
}.

(** The exceptions that come with an error code, as the processor manuals list them:
    #DF, #TS, #NP, #SS, #GP, #PF, #AC, #CP, #VC and #SX. *)
Definition error_code_vectors : list Z := [8; 10; 11; 12; 13; 14; 17; 21; 29; 30].

(** The processor pushes an error code for these vectors and no others. *)
Definition error_fits (vector : Z) (error : option Z) : Prop :=
  match error with Some e => vector ∈ error_code_vectors /\ 0 <= e < W64 | None => vector ∉ error_code_vectors end.

(** The stubs expect one for exactly these. *)
Lemma pushes_error_fits vector : pushes_error vector = true <-> vector ∈ error_code_vectors.
Proof.
  unfold pushes_error, error_code_vectors. rewrite !elem_of_cons, elem_of_nil, !orb_true_iff, andb_true_iff, !Z.eqb_eq, !Z.leb_le. lia.
Qed.

(** ** Words on a stack *)

Definition words (ws : list Z) : list Z := flat_map (le_bytes 8) ws.

Lemma length_words ws : List.length (words ws) = (8 * List.length ws)%nat.
Proof. unfold words. induction ws as [|w ws IH]; [done|]. cbn [flat_map List.length]. rewrite length_app, length_le_bytes, IH. lia. Qed.

Definition are_u64 (ws : list Z) : Prop := Forall (fun w => 0 <= w < W64) ws.

Lemma load_stack_word m p w ws : 0 <= w < W64 -> bytes_at m p (words (w :: ws)) -> load64 m p = Ok w.
Proof.
  intros Hw [Hb _]%bytes_at_app. unfold load64. rewrite (load_le_bytes 8 _ _ _ Hb) by apply length_le_bytes.
  rewrite of_le_bytes_le_bytes. by rewrite Z.mod_small.
Qed.

Lemma words_tail m p w ws : bytes_at m p (words (w :: ws)) -> bytes_at m (p + 8) (words ws).
Proof. intros [_ Hb]%bytes_at_app. by rewrite length_le_bytes in Hb. Qed.

Lemma words_drop m p n ws : bytes_at m p (words ws) -> (n <= List.length ws)%nat -> bytes_at m (p + 8 * Z.of_nat n) (words (drop n ws)).
Proof.
  revert p ws. induction n as [|n IH]; intros p ws Hb Hn; [by rewrite Z.mul_0_r, Z.add_0_r|].
  destruct ws as [|w ws]; [simpl in Hn; lia|]. apply words_tail, IH in Hb; [|simpl in Hn; lia].
  replace (p + 8 * Z.of_nat (Datatypes.S n)) with (p + 8 + 8 * Z.of_nat n) by lia. done.
Qed.

(** Any word of those stored. *)
Lemma load_nth_word m p n w ws : bytes_at m p (words ws) -> are_u64 ws -> ws !! n = Some w -> load64 m (p + 8 * Z.of_nat n) = Ok w.
Proof.
  intros Hb Hw Hn. apply words_drop with (n := n) in Hb; [|apply lookup_lt_Some in Hn; lia].
  apply (load_stack_word _ _ _ (drop (Datatypes.S n) ws)); [exact (Forall_lookup_1 _ _ _ _ Hw Hn)|]. by rewrite <- (drop_S _ _ _ Hn).
Qed.

Lemma load_all_words m p ws : bytes_at m p (words ws) -> are_u64 ws -> load_words (List.length ws) m p = Ok ws.
Proof.
  revert p. induction ws as [|w ws IH]; intros p Hb Hw; [done|]. apply Forall_cons in Hw as [Hw0 Hw]. cbn [List.length load_words].
  rewrite (load_stack_word m p w ws) by done. bind_simpl. rewrite IH; [done|by apply words_tail in Hb|done].
Qed.

(** A push on top of words that lie below [top]. *)
Lemma write_word_below m p q v l : q + 8 = p -> write64 (write_bytes m p l) q v = write_bytes m q (le_bytes 8 v ++ l).
Proof.
  intros <-. unfold write64. rewrite write_bytes_app, length_le_bytes. apply map_eq. intros a.
  rewrite !lookup_write_bytes, length_le_bytes. unfold in_range. repeat destruct (decide _); try done; lia.
Qed.

Section Stack.
Context {S : Type}.
Implicit Types m : machine S.

(** [m] with [ws] pushed below [top] of the memory [base]. *)
Definition stacked (base : mem) (top : Z) (ws : list Z) m : machine S :=
  let sp := top - 8 * Z.of_nat (List.length ws) in set_rsp sp (set_ram (write_bytes base sp (words ws)) m).

Lemma push_stacked base top ws v m : valid base (top - 8 * (Z.of_nat (List.length ws) + 1)) 8 ->
  0 <= top - 8 * (Z.of_nat (List.length ws) + 1) -> top < W64 ->
  push64 v (stacked base top ws m) = Ok (stacked base top (v :: ws) m).
Proof.
  intros Hv H0 Ht. unfold push64, stacked. cbn [m_rsp set_rsp set_ram ram List.length]. rewrite u64_small by lia.
  replace (top - 8 * Z.of_nat (Datatypes.S (List.length ws))) with (top - 8 * (Z.of_nat (List.length ws) + 1)) by lia.
  replace (top - 8 * Z.of_nat (List.length ws) - 8) with (top - 8 * (Z.of_nat (List.length ws) + 1)) by lia.
  rewrite store64_write.
  - bind_simpl. rewrite write_word_below by lia. done.
  - intros i Hi. destruct (Hv i Hi) as [b Hb]. rewrite lookup_write_bytes_out; [by eexists|]. unfold in_range. lia.
Qed.

Lemma push_all_stacked base top vs ws m : valid base (top - 8 * Z.of_nat (List.length ws + List.length vs)) (8 * Z.of_nat (List.length ws + List.length vs)) ->
  0 <= top - 8 * Z.of_nat (List.length ws + List.length vs) -> top < W64 ->
  push_all vs (stacked base top ws m) = Ok (stacked base top (reverse vs ++ ws) m).
Proof.
  revert ws. induction vs as [|v vs IH]; intros ws Hv H0 Ht; [done|]. cbn [push_all List.length] in *. rewrite push_stacked; [|..|done].
  - bind_simpl. rewrite IH; [by rewrite reverse_cons, <- app_assoc|..|done]; cbn [List.length]; [|lia].
    by replace (Datatypes.S (List.length ws) + List.length vs)%nat with (List.length ws + Datatypes.S (List.length vs))%nat by lia.
  - apply (valid_sub _ _ _ _ _ Hv); lia.
  - lia.
Qed.

Lemma pop_word m w ws : 0 <= w < W64 -> bytes_at (ram m) (m_rsp m) (words (w :: ws)) -> 0 <= m_rsp m -> m_rsp m + 8 < W64 ->
  pop64 m = Ok (w, set_rsp (m_rsp m + 8) m).
Proof. intros Hw Hb H0 Hr. unfold pop64. rewrite (load_stack_word _ _ w ws) by done. bind_simpl. by rewrite u64_small by lia. Qed.
End Stack.

(** The register file after the registers [rs] have been loaded with [ws]. *)
Fixpoint loaded (rs : list reg) (ws : list Z) (g : reg -> Z) : reg -> Z :=
  match rs, ws with
  | r :: rs, w :: ws => loaded rs ws (fun r' => if decide (r' = r) then w else g r')
  | _, _ => g
  end.

Lemma loaded_other rs ws g r : r ∉ rs -> loaded rs ws g r = g r.
Proof.
  revert ws g. induction rs as [|r' rs IH]; intros [|w ws] g Hr; try done. cbn [loaded].
  apply not_elem_of_cons in Hr as [Hne Hr]. rewrite IH by done. by rewrite decide_False.
Qed.

Lemma loaded_saved rs (g0 g : reg -> Z) r : NoDup rs -> r ∈ rs -> loaded rs (List.map g0 rs) g r = g0 r.
Proof.
  revert g. induction rs as [|r' rs IH]; intros g Hnd Hr; [by apply elem_of_nil in Hr|]. cbn [loaded List.map].
  apply NoDup_cons in Hnd as [Hn Hnd]. apply elem_of_cons in Hr as [->|Hr]; [|by apply IH].
  rewrite loaded_other by done. by rewrite decide_True.
Qed.

(** Every register but the stack pointer is restored. *)
Lemma loaded_all (g0 g : reg -> Z) r : r <> RSP -> loaded popped (List.map g0 popped) g r = g0 r.
Proof.
  intros Hr. apply loaded_saved; [by apply (bool_decide_unpack _); vm_compute|].
  rewrite list_elem_of_In. destruct r; simpl; tauto.
Qed.

Section RunLemmas.
Context {S : Type} {hw : Hardware S} {cc : Compiled}.
Context (response : option limine_response) (main_term : limine_terminal) (fuel : nat) (lit : list Z -> Z).
Context (table : gmap Z interrupt_handler_t) (return_address : Z).
Implicit Types m : machine S.
Local Abbreviation run := (run response main_term fuel lit table return_address).

Lemma get_gpr m r : r <> RSP -> get_reg m r = gpr m r.
Proof. by destruct r. Qed.

Lemma run_pushes rs code base top ws m : RSP ∉ rs ->
  valid base (top - 8 * Z.of_nat (List.length ws + List.length rs)) (8 * Z.of_nat (List.length ws + List.length rs)) ->
  0 <= top - 8 * Z.of_nat (List.length ws + List.length rs) -> top < W64 ->
  run 0 (List.map Push rs ++ code) (stacked base top ws m) =
  run 0 code (stacked base top (reverse (List.map (gpr m) rs) ++ ws) m).
Proof.
  revert ws. induction rs as [|r rs IH]; intros ws Hr Hv H0 Ht; [done|]. cbn [List.map app Stubs.run List.length] in *.
  apply not_elem_of_cons in Hr as [Hne Hr]. rewrite get_gpr by congruence. rewrite push_stacked; [| |lia|done].
  - bind_simpl. rewrite IH; [by rewrite reverse_cons, <- app_assoc|done|..|done]; cbn [List.length]; [|lia].
    by replace (Datatypes.S (List.length ws) + List.length rs)%nat with (List.length ws + Datatypes.S (List.length rs))%nat by lia.
  - apply (valid_sub _ _ _ _ _ Hv); lia.
Qed.

Lemma run_pops rs code ws rest m : RSP ∉ rs -> List.length ws = List.length rs -> are_u64 ws ->
  bytes_at (ram m) (m_rsp m) (words (ws ++ rest)) -> 0 <= m_rsp m -> m_rsp m + 8 * Z.of_nat (List.length ws) < W64 ->
  run 0 (List.map Pop rs ++ code) m =
  run 0 code (set_rsp (m_rsp m + 8 * Z.of_nat (List.length ws)) (set_gprs (loaded rs ws (gpr m)) m)).
Proof.
  revert ws m. induction rs as [|r rs IH]; intros [|w ws] m Hr El Hw Hb H0 Ht; try done.
  { cbn. rewrite Z.add_0_r. by destruct m. }
  apply not_elem_of_cons in Hr as [Hne Hr]. apply Forall_cons in Hw as [Hw0 Hw]. cbn [List.length] in *.
  cbn [List.map app Stubs.run loaded]. rewrite (pop_word m w (ws ++ rest)) by (done || lia). bind_simpl.
  assert (forall m, set_reg r w m = set_gprs (fun r' => if decide (r' = r) then w else gpr m r') m) as -> by (intros; by destruct r).
  rewrite (IH ws); [|done|lia|done|by apply words_tail in Hb|cbn; lia|cbn; lia].
  unfold set_rsp, set_gprs. cbn. do 2 f_equal. lia.
Qed.

(** The next word [w] of the stack [Hb] is popped. *)
Ltac next_word w Hw Hb :=
  erewrite (pop_word _ w); [|exact Hw|exact Hb|cbn; lia|cbn; lia]; bind_simpl; cbn [m_rsp set_rsp]; apply words_tail in Hb.

Lemma iretq_stacked m rip' cs' flags' sp' ss' rest :
  are_u64 [rip'; cs'; flags'; sp'; ss'] -> bytes_at (ram m) (m_rsp m) (words ([rip'; cs'; flags'; sp'; ss'] ++ rest)) ->
  0 <= m_rsp m -> m_rsp m + 40 < W64 -> iretq m = Ok (set_rsp sp' (set_context rip' cs' flags' ss' m)).
Proof.
  intros Hw Hb H0 Ht. unfold are_u64 in Hw. rewrite !Forall_cons in Hw. destruct Hw as (H1 & H2 & H3 & H4 & H5 & _). unfold iretq. cbn [app] in Hb.
  next_word rip' H1 Hb. next_word cs' H2 Hb. next_word flags' H3 Hb. next_word sp' H4 Hb. next_word ss' H5 Hb.
  done.
Qed.

(** ** The three parts of the common stub *)

Definition swap_if (b : bool) m : machine S := if b then swapgs m else m.

Definition stub_tail : list instr := popa64 ++ [Add_imm RSP 16; Test_stack 8 3; Jz 1; Swapgs; Iretq].

(** Up to the call: all registers are stored, the stack pointer is the argument. *)
Lemma stub_saves base top n e rip' cs' fl' sp' ss' m :
  valid base (top - 184) 184 -> 0 <= top - 184 -> top < W64 -> are_u64 [n; e; rip'; cs'; fl'; sp'; ss'] ->
  let ws := [n; e; rip'; cs'; fl'; sp'; ss'] in
  run 0 int_common_stub (stacked base top ws m) =
  (r ← call_interrupt_handler response main_term fuel lit table return_address
         (stacked base top (List.map (gpr m) popped ++ ws)
           (set_reg RDI (top - 176) (swap_if (from_user cs') (set_zero (negb (from_user cs')) m))));
   match r with Resumed m => run 0 stub_tail m | Halted m => Ok (Halted m) end).
Proof.
  intros Hv H0 Ht Hw ws. unfold int_common_stub. cbn [app Stubs.run].
  change (m_rsp (stacked base top ws m)) with (top - 56). change (ram (stacked base top ws m)) with (write_bytes base (top - 56) (words ws)).
  rewrite u64_small by lia. rewrite (load_nth_word _ (top - 56) 3 cs' ws) by (done || apply write_bytes_bytes_at). bind_simpl.
  assert (forall b : bool, run (if b then 1%nat else 0%nat) (Swapgs :: pusha64 ++ [Mov RDI RSP; Call_interrupt_handler] ++ stub_tail) (stacked base top ws (set_zero b m)) =
    run 0 (List.map Push (reverse popped) ++ [Mov RDI RSP; Call_interrupt_handler] ++ stub_tail) (stacked base top ws (swap_if (negb b) (set_zero b m)))) as Hswap
    by (intros []; reflexivity).
  replace (Z.land cs' 3 =? 0) with (negb (from_user cs')) by (unfold from_user; by rewrite negb_involutive).
  etransitivity; [apply (Hswap (negb (from_user cs')))|]. rewrite negb_involutive. rewrite run_pushes; [|..|done].
  - rewrite <- (reverse_involutive (List.map _ (reverse popped))).
    replace (List.map (gpr (swap_if (from_user cs') (set_zero (negb (from_user cs')) m))) (reverse popped)) with (reverse (List.map (gpr m) popped))
      by (unfold swap_if; by destruct (from_user cs')).
    rewrite !reverse_involutive. reflexivity.
  - rewrite list_elem_of_In. vm_compute. intuition discriminate.
  - apply (valid_sub _ _ _ _ _ Hv); cbn; lia.
  - cbn. lia.
Qed.

(** The call: the handler is given the 22 words, and returns to the stub. *)
Lemma stub_calls base top f m : List.length f = 22%nat -> are_u64 f -> 0 <= return_address < W64 ->
  valid base (top - 184) 184 -> 0 <= top - 184 -> top < W64 -> gpr m RDI = top - 176 ->
  (forall sp mem' a, in_range sp 184 a -> left_ram sp mem' !! a = mem' !! a) ->
  let at_call := stacked base top (return_address :: f) m in
  call_interrupt_handler response main_term fuel lit table return_address (stacked base top f m) =
  (r ← interrupt_handler response main_term fuel lit (ram at_call) table (state_of_words f) (devices m);
   match r with
   | Halted s => Ok (Halted (set_devices s at_call))
   | Resumed s => Ok (Resumed (set_rsp (top - 176) (set_ram (left_ram (top - 184) (ram at_call)) (set_gprs (left_regs (gpr m)) (set_devices s m)))))
   end).
Proof.
  intros El Hf Hra Hv H0 Ht Hd Hk at_call. unfold call_interrupt_handler. rewrite push_stacked; [|rewrite El; apply (valid_sub _ _ _ _ _ Hv); lia|lia|done].
  bind_simpl. fold at_call.
  assert (ram at_call = write_bytes base (top - 184) (words (return_address :: f))) as Er by (unfold at_call, stacked; cbn [ram set_rsp set_ram List.length]; by rewrite El).
  assert (m_rsp at_call = top - 184) as Es by (unfold at_call, stacked; cbn [m_rsp set_rsp List.length]; by rewrite El).
  change (gpr at_call RDI) with (gpr m RDI). change (devices at_call) with (devices m). rewrite Hd, Es, Er.
  pose proof (write_bytes_bytes_at base (top - 184) (words (return_address :: f))) as Hb. pose proof Hb as Hb'.
  apply words_tail in Hb'. replace (top - 184 + 8) with (top - 176) in Hb' by lia.
  unfold interrupt_state_at. rewrite <- El, load_all_words by done. bind_simpl.
  destruct (interrupt_handler _ _ _ _ _ _ _ _) as [[s|s]| | | |]; [|done..]. bind_simpl.
  erewrite pop_word; [|exact Hra| |cbn; lia|cbn; lia].
  - bind_simpl. cbv beta iota. rewrite Z.eqb_refl. do 2 f_equal. unfold set_rsp, set_ram, set_gprs, set_devices. f_equal. cbn [m_rsp]. lia.
  - cbn [ram set_ram m_rsp set_gprs set_devices]. rewrite Es. intros i Hi. rewrite Hk; [by apply Hb|].
    rewrite length_words in Hi. cbn [List.length] in Hi. rewrite El in Hi. unfold in_range. lia.
Qed.

(** From the return on: the registers, the interrupted context and GS come back. *)
Lemma stub_restores regs n e rip' cs' fl' sp' ss' m :
  List.length regs = 15%nat -> are_u64 (regs ++ [n; e; rip'; cs'; fl'; sp'; ss']) ->
  bytes_at (ram m) (m_rsp m) (words (regs ++ [n; e; rip'; cs'; fl'; sp'; ss'])) -> 0 <= m_rsp m -> m_rsp m + 176 < W64 ->
  run 0 stub_tail m =
  Ok (Resumed (set_rsp sp' (set_context rip' cs' fl' ss' (swap_if (from_user cs') (set_zero (negb (from_user cs'))
    (set_gprs (loaded popped regs (gpr m)) m)))))).
Proof.
  intros El Hw Hb H0 Ht. unfold stub_tail. pose proof Hw as Hw'. apply Forall_app in Hw' as [Hr Hc].
  change popa64 with (List.map Pop popped). rewrite (run_pops popped _ regs [n; e; rip'; cs'; fl'; sp'; ss']);
    [|rewrite list_elem_of_In; vm_compute; intuition discriminate|by rewrite El|done|done|done|rewrite El; lia].
  rewrite El. cbn [Stubs.run get_reg set_reg]. cbn [m_rsp set_rsp set_zero ram set_gprs]. rewrite !u64_small by lia.
  apply words_drop with (n := 17%nat) in Hb; [|rewrite length_app, El; simpl; lia].
  rewrite drop_app_ge, El in Hb by (rewrite El; lia). cbn [Nat.sub drop] in Hb.
  assert (are_u64 [rip'; cs'; fl'; sp'; ss']) as Hc' by (unfold are_u64 in *; rewrite !Forall_cons in *; tauto).
  replace (m_rsp m + 8 * Z.of_nat 15 + 16) with (m_rsp m + 8 * Z.of_nat 17) by lia.
  pose proof (load_nth_word _ (m_rsp m + 8 * Z.of_nat 17) 1 cs' _ Hb Hc' eq_refl) as Hl. change (8 * Z.of_nat 1) with 8 in Hl.
  rewrite Hl. bind_simpl. cbn [zero_flag set_zero].
  replace (Z.land cs' 3 =? 0) with (negb (from_user cs')) by (unfold from_user; by rewrite negb_involutive).
  destruct (from_user cs'); cbn [negb Stubs.run]; (rewrite (iretq_stacked _ rip' cs' fl' sp' ss' []); [done|done|exact Hb|cbn; lia|cbn; lia]).
Qed.

(** ** Theorem *)

Lemma set_rsp_stacked m top : set_rsp top m = stacked (ram m) top [] m.
Proof. unfold stacked. cbn. rewrite Z.sub_0_r. by destruct m. Qed.

(** The stub's own pushes complete the structure. *)
Lemma isr_pushes vector error m base top ctx : error_fits vector error -> List.length ctx = 5%nat ->
  valid base (top - 184) 184 -> 0 <= top - 184 -> top < W64 ->
  run 0 (isr vector) (stacked base top (option_list error ++ ctx) m) =
  run 0 int_common_stub (stacked base top ([vector; default 0 error] ++ ctx) m).
Proof.
  intros He El Hv H0 Ht. assert (pushes_error vector = match error with Some _ => true | None => false end) as Ep.
  { unfold error_fits in He. destruct error as [e|]; [destruct He; by apply pushes_error_fits|].
    apply not_true_is_false. by rewrite pushes_error_fits. }
  unfold isr. rewrite Ep. destruct error as [e|]; cbn [negb app default Stubs.run].
  - change (option_list (Some e) ++ ctx) with (e :: ctx).
    rewrite push_stacked; cbn [List.length]; rewrite ?El; [done|apply (valid_sub _ _ _ _ _ Hv)| |done]; lia.
  - change (option_list None ++ ctx) with ctx. rewrite push_stacked; rewrite ?El; [|apply (valid_sub _ _ _ _ _ Hv); lia|lia|done].
    bind_simpl. rewrite push_stacked; cbn [List.length]; rewrite ?El; [done|apply (valid_sub _ _ _ _ _ Hv)| |done]; lia.
Qed.

Lemma saved_state_u64 vector error m : 0 <= vector < 256 -> error_fits vector error -> machine_ok m -> are_u64 (saved_state vector error m).
Proof.
  intros Hn He [Hr H1 H2 H3 H4]. unfold saved_state, are_u64. apply Forall_app. split.
  - apply Forall_map, Forall_forall. intros r Hin. specialize (Hr r). destruct r; try exact Hr.
    rewrite list_elem_of_In in Hin. vm_compute in Hin. intuition discriminate.
  - pose proof (Hr RSP) as Hs. do 2 (apply Forall_cons; split; [unfold error_fits in He; destruct error; simpl; lia|]).
    repeat (apply Forall_cons; split; [assumption|]). constructor.
Qed.

Lemma aligned_down z : 0 <= z -> (z - z mod 16) mod 16 = 0 /\ z - z mod 16 <= z.
Proof. intros. Z.to_euclidean_division_equations. lia. Qed.
(** Interrupts are off in the stub: bit 9 of the flags. *)
Lemma interrupt_flag_off f : Z.testbit (Z.land f (Z.lnot 512)) 9 = false.
Proof. by rewrite Z.land_spec, Z.lnot_spec, andb_false_r by lia. Qed.

(** The processor's part. *)
Lemma deliver_stacked rsp0 stub error m : let top := gate_stack rsp0 m in
  184 <= top -> top < W64 -> valid (ram m) (top - 184) 184 ->
  deliver rsp0 stub error m =
  Ok (stacked (ram m) top (option_list error ++ [m_rip m; m_cs m; m_rflags m; m_rsp m; m_ss m])
       (set_context stub 8 (Z.land (m_rflags m) (Z.lnot 512)) (if from_user (m_cs m) then 0 else m_ss m) m)).
Proof.
  intros top H0 Ht Hv. unfold deliver. fold top. rewrite set_rsp_stacked.
  assert (List.length (option_list error) <= 1)%nat as Hl by (destruct error; simpl; lia).
  rewrite push_all_stacked; rewrite ?length_app; cbn [List.length]; [|apply (valid_sub _ _ _ _ _ Hv); lia|lia|done].
  bind_simpl. rewrite app_nil_r, reverse_app. by replace (reverse (option_list error)) with (option_list error) by (by destruct error).
Qed.

Context (Hcallee : forall sp mem' a, in_range sp 184 a -> left_ram sp mem' !! a = mem' !! a).
Context (Hreturn : 0 <= return_address < W64).

(** C36: an interrupt or exception leaves no trace in the code it interrupts.  For every
    vector, with an error code for those the processor manuals list, from kernel or
    user code: the processor enters the stub with interrupts off; [interrupt_handler]
    is called with a stack aligned as the calling convention wants it and a pointer to
    a structure that holds the registers, the vector, the error code (0 if there is none) and the interrupted
    context in their fields; if it returns, every register, the flags, the segments,
    the stack pointer and both GS bases are as they were, whatever the handler's code
    left in them, and the devices and the memory are as the handler left them. *)
Theorem interrupt_transparent rsp0 stub vector error m : 0 <= vector < 256 -> error_fits vector error -> machine_ok m ->
  let top := gate_stack rsp0 m in
  0 <= rsp0 < W64 -> 184 <= top -> valid (ram m) (top - 184) 184 ->
  let saved := saved_state vector error m in
  let mem' := write_bytes (ram m) (top - 184) (words (return_address :: saved)) in
  exists m1 returned stopped, deliver rsp0 stub error m = Ok m1 /\ m_rip m1 = stub /\
    Z.testbit (m_rflags m1) 9 = false /\ (top - 176) mod 16 = 0 /\
    enter response main_term fuel lit table return_address vector m1 =
      (r ← interrupt_handler response main_term fuel lit mem' table (state_of_words saved) (devices m);
       Ok match r with Resumed s => Resumed (returned s) | Halted s => Halted (stopped s) end) /\
    (forall s, same_context m (returned s) /\ devices (returned s) = s /\ ram (returned s) = left_ram (top - 184) mem') /\
    (forall s, devices (stopped s) = s).
Proof.
  intros Hn He Hok top H0r H0 Hv saved mem'.
  assert (top < W64 /\ top mod 16 = 0) as [Ht Ha].
  { unfold top, gate_stack. pose proof (mo_regs m Hok RSP) as Hs. change (get_reg m RSP) with (m_rsp m) in Hs.
    destruct (from_user (m_cs m)); [pose proof (aligned_down rsp0)|pose proof (aligned_down (m_rsp m))]; lia. }
  pose proof (saved_state_u64 vector error m Hn He Hok) as Hw. pose proof Hw as Hw7. apply Forall_app in Hw7 as [_ Hw7].
  set (u := from_user (m_cs m)). set (m0 := set_context stub 8 (Z.land (m_rflags m) (Z.lnot 512)) (if u then 0 else m_ss m) m).
  set (mid := set_reg RDI (top - 176) (swap_if u (set_zero (negb u) m0))).
  set (back := fun s => set_rsp (top - 176) (set_ram (left_ram (top - 184) mem') (set_gprs (left_regs (gpr mid)) (set_devices s mid)))).
  exists (stacked (ram m) top (option_list error ++ [m_rip m; m_cs m; m_rflags m; m_rsp m; m_ss m]) m0),
    (fun s => set_rsp (m_rsp m) (set_context (m_rip m) (m_cs m) (m_rflags m) (m_ss m) (swap_if u (set_zero (negb u)
       (set_gprs (loaded popped (List.map (gpr m) popped) (gpr (back s))) (back s)))))),
    (fun s => set_devices s (stacked (ram m) top (return_address :: saved) mid)).
  split; [by apply deliver_stacked|]. split; [done|]. split; [apply interrupt_flag_off|].
  split; [Z.to_euclidean_division_equations; lia|]. split; [|split; [|done]].
  - unfold enter. rewrite isr_pushes by (done || lia). cbn [app]. rewrite stub_saves by (done || lia).
    change (List.map (gpr m0) popped ++ _) with saved. fold u. fold mid.
    rewrite stub_calls by (done || lia || by destruct u).
    replace (ram (stacked (ram m) top (return_address :: saved) mid)) with mem' by (unfold mem', mid, stacked; by destruct u).
    replace (devices mid) with (devices m) by (unfold mid; by destruct u).
    destruct (interrupt_handler _ _ _ _ _ _ _ _) as [[s|s]| | | |]; [|done..]. bind_simpl. cbv beta iota.
    apply (stub_restores (List.map (gpr m) popped) vector (default 0 error)); [done|exact Hw| |cbn; lia|cbn; lia].
    intros i Hi. change (ram (back s)) with (left_ram (top - 184) mem'). change (m_rsp (back s)) with (top - 176). rewrite Hcallee by (unfold in_range; rewrite length_words in Hi; simpl in Hi; lia).
    pose proof (write_bytes_bytes_at (ram m) (top - 184) (words (return_address :: saved))) as Hb. apply words_tail in Hb.
    replace (top - 184 + 8) with (top - 176) in Hb by lia. by apply Hb.
  - intros s. split; [|by destruct u]. constructor; try (by destruct u). intros r. destruct (decide (r = RSP)) as [->|Hr]; [done|].
    rewrite !get_gpr by done. rewrite <- (loaded_all (gpr m) (gpr (back s)) r Hr). by destruct u.
Qed.
End RunLemmas.

(** ** Witness *)

(** Ports that record what is written; a compiled handler that overwrites the
    registers it may overwrite and sixteen bytes of its stack. *)
#[local] Instance port_recorder : Hardware (list (Z * Z)) := {
  out8 := fun port v s => s ++ [(port, v)];
  in8 := fun _ s => (0, s);
  term_write := fun _ _ _ s => s;
  call_handler := fun _ _ _ s => Ok s;
}.
#[local] Instance sample_callee : Compiled := {
  left_regs := fun g r => match r with RBX | RBP | R12 | R13 | R14 | R15 => g r | _ => 0 end;
  left_ram := fun sp mem' => write_bytes mem' (sp - 16) (replicate 16 170);
}.

(** User code interrupted by the keyboard, with 256 bytes of kernel stack. *)
Definition sample_machine : machine (list (Z * Z)) :=
  Machine _ (fun r => match r with RAX => 1 | RBX => 2 | R15 => 3 | _ => 4 end) 1048576 4194304 35 514 43 7 9 false
    (write_bytes ∅ 4096 (replicate 256 0)) [].

Lemma interrupt_transparent_witness :
  exists m1 m2, deliver 4352 8192 None sample_machine = Ok m1 /\
    enter None (Term 0 0) 0 (fun _ => 0) ∅ 65536 33 m1 = Ok (Resumed m2) /\
    same_context sample_machine m2 /\ devices m2 = [(32, 32)].
Proof.
  assert (forall sp mem' a, in_range sp 184 a -> left_ram sp mem' !! a = mem' !! a) as Hk.
  { intros sp mem' a Ha. cbn [left_ram sample_callee]. apply lookup_write_bytes_out. unfold in_range in *. simpl. lia. }
  assert (0 <= 65536 < W64) as Hr by (split; [discriminate|reflexivity]).
  destruct (interrupt_transparent None (Term 0 0) 0 (fun _ => 0) ∅ 65536 Hk Hr 4352 8192 33 None sample_machine)
    as (m1 & returned & stopped & Ed & _ & _ & _ & Er & Hs & _).
  - split; [discriminate|reflexivity].
  - intros Hin%pushes_error_fits. discriminate.
  - constructor; try (split; [discriminate|reflexivity]). intros []; (split; [discriminate|reflexivity]).
  - split; [discriminate|reflexivity].
  - vm_compute. discriminate.
  - mem_check.
  - exists m1, (returned [(32, 32)]). split; [exact Ed|]. split; [rewrite Er; reflexivity|]. destruct (Hs [(32, 32)]) as (Hc & Hd & _).
    split; [exact Hc|exact Hd].
Defined.
