(* ===== verification/Cpu.v ===== *)
(** * arch/x86_64/cpu/cpu.cpp, and the loading of the tables

    The registers of the CPU the kernel sets (interrupt flag, table registers,
    segment registers, cr3), the functions that set them, [gdt64_load] of gdt.asm,
    and what [cpuid] tells.  Entries of the tables are read by a reference
    definition of the processor's descriptors. *)

From S2P Require Import Prelude Memory Stdio StdioFloat Printf Terminal Interrupts.

(** ** Registers *)

(** Limit and base of a table, as [lgdt] and [lidt] load them. *)
Record table_register : Type := TableReg { tr_limit : Z; tr_base : Z }.

Record cpu_t : Type := CpuState {
  interrupt_flag : bool;
  gdtr : table_register;
  idtr : table_register;
  cs : Z;
  data_segments : list Z;  (* ss, gs, fs, ds, es *)
  cr3 : Z;
  halted : bool;
}.

Definition with_flag (c : cpu_t) (b : bool) : cpu_t :=
  CpuState b (gdtr c) (idtr c) (cs c) (data_segments c) (cr3 c) (halted c).

(** [sti] and [cli] *)
Definition interrupts_enable (c : cpu_t) : cpu_t := with_flag c true.
Definition interrupts_disable (c : cpu_t) : cpu_t := with_flag c false.

(** [halt]: the loop over [hlt] is the state [halted]; without [idt] interrupts are
    off in it. *)
Definition halt (idt : bool) (c : cpu_t) : cpu_t :=
  let c := if idt then c else interrupts_disable c in
  CpuState (interrupt_flag c) (gdtr c) (idtr c) (cs c) (data_segments c) (cr3 c) true.

(** [wrreg(cr3, val)] and [rdreg(cr3)] *)
Definition write_cr3 (v : Z) (c : cpu_t) : cpu_t :=
  CpuState (interrupt_flag c) (gdtr c) (idtr c) (cs c) (data_segments c) v (halted c).
Definition read_cr3 (c : cpu_t) : Z := cr3 c.

(** ** cpuid *)

(** The processor's answer to a leaf and a subleaf: eax, ebx, ecx, edx. *)
Class Cpuid := cpuid : Z -> Z -> Z * Z * Z * Z.

Section Cpuid.
Context `{Cpuid}.

(** The first query sets no subleaf; [ecx] is then whatever the register held. *)
Definition id (ecx leaf subleaf : Z) : option (Z * Z * Z * Z) :=
  let '(cpuid_max, _, _, _) := cpuid (Z.land leaf 2147483648) ecx in
  if cpuid_max <? leaf then None else Some (cpuid leaf subleaf).

(** [memory::paging::arch_init]: the result is [gib1_pages]. *)
Definition arch_init (ecx : Z) : bool :=
  match id ecx 2147483649 0 with
  | Some (_, _, _, d) => Z.land d (Z.shiftl 1 26) =? Z.shiftl 1 26
  | None => false
  end.
End Cpuid.

(** ** Loading the tables *)

Definition GDT_ENTRIES := 6.
Definition sizeof_gdt_entry := 8.

(** [_gdt_descriptor]; [gdt_at] is the address of the table. *)
Definition gdt_descriptor (gdt_at : Z) : table_register := TableReg (sizeof_gdt_entry * GDT_ENTRIES - 1) gdt_at.

(** [gdt64_load]: [lgdt], a far return through [code], the data segments. *)
Definition gdt64_load (descriptor : table_register) (data code : Z) (c : cpu_t) : cpu_t :=
  CpuState (interrupt_flag c) descriptor (idtr c) code [data; data; data; data; data] (cr3 c) (halted c).

Definition KERNEL_CODE_SELECTOR := 1.
Definition KERNEL_DATA_SELECTOR := 2.
Definition USER_CODE_SELECTOR := 4.
Definition USER_DATA_SELECTOR := 5.

Definition gdt_load (descriptor : table_register) (c : cpu_t) : cpu_t :=
  gdt64_load descriptor (KERNEL_DATA_SELECTOR * 8) (KERNEL_CODE_SELECTOR * 8) c.

(** [reload]: [cli], [lidt], [sti]. *)
Definition idt_reload (descriptor : table_register) (c : cpu_t) : cpu_t :=
  let c := interrupts_disable c in
  let c := CpuState (interrupt_flag c) (gdtr c) descriptor (cs c) (data_segments c) (cr3 c) (halted c) in
  interrupts_enable c.

(** ** What the processor reads in a segment descriptor *)

(** A descriptor of eight bytes as the manuals of the processor define it. *)
Record segment : Type := Segment {
  sg_base : Z;
  sg_limit : Z;
  sg_present : bool;
  sg_ring : Z;
  sg_memory : bool;      (* code or data, not a system segment *)
  sg_code : bool;
  sg_writable : bool;    (* readable, for code *)
  sg_long : bool;        (* 64-bit code *)
  sg_default32 : bool;
  sg_pages : bool;       (* the limit counts pages *)
}.

Definition field (d lo n : Z) : Z := (d / 2 ^ lo) mod 2 ^ n.

Definition segment_of (d : Z) : segment :=
  {| sg_base := field d 16 24 + field d 56 8 * 2 ^ 24;
     sg_limit := field d 0 16 + field d 48 4 * 2 ^ 16;
     sg_present := Z.testbit d 47;
     sg_ring := field d 45 2;
     sg_memory := Z.testbit d 44;
     sg_code := Z.testbit d 43;
     sg_writable := Z.testbit d 41;
     sg_long := Z.testbit d 53;
     sg_default32 := Z.testbit d 54;
     sg_pages := Z.testbit d 55 |}.

(** The descriptor a selector names: eight bytes at its multiple of eight. *)
Definition selected (table : list Z) (selector : Z) : Z :=
  of_le_bytes (take 8 (drop (Z.to_nat (selector / 8 * 8)) table)).

Definition gdt_bytes (t : list gdt_entry_t) : list Z := flat_map gdt_entry_bytes t.

(** ** Theorems *)

Lemma of_le_bytes_app l l' : of_le_bytes (l ++ l') = of_le_bytes l + 256 ^ Z.of_nat (List.length l) * of_le_bytes l'.
Proof.
  induction l as [|b l IH]; [by rewrite Z.mul_1_l|]. cbn [app of_le_bytes List.length]. rewrite IH, Nat2Z.inj_succ, Z.pow_succ_r by lia. lia.
Qed.

(** The two halves of [granularity]. *)
Lemma nibbles x g : 0 <= x < 16 -> 0 <= g < 256 -> Z.lor x (Z.land g 240) = x + g / 16 * 16.
Proof.
  intros Hx Hg. apply Z.eqb_eq.
  assert (forallb (fun x => forallb (fun g => Z.lor x (Z.land g 240) =? x + g / 16 * 16) (seqZ 0 256)) (seqZ 0 16) = true) as Ha
    by (vm_compute; reflexivity).
  rewrite forallb_forall in Ha. specialize (Ha x). rewrite forallb_forall in Ha.
  apply Ha; apply list_elem_of_In, elem_of_seqZ; lia.
Qed.

(** The value of a descriptor of the table. *)
Lemma entry_value base limit gran acc : 0 <= base < 2 ^ 32 -> 0 <= limit < 2 ^ 32 -> 0 <= gran < 256 ->
  of_le_bytes (gdt_entry_bytes (create_entry base limit gran acc)) =
  limit mod 2 ^ 16 + (base mod 2 ^ 24) * 2 ^ 16 + acc * 2 ^ 40 +
  ((limit / 2 ^ 16) mod 16) * 2 ^ 48 + (gran / 16) * 2 ^ 52 + (base / 2 ^ 24) * 2 ^ 56.
Proof.
  intros Hb Hl Hg. unfold gdt_entry_bytes, create_entry. cbn [limit_low base_low base_mid access granularity base_high].
  change 65535 with (Z.ones 16). change 255 with (Z.ones 8). change 15 with (Z.ones 4). rewrite !Z.land_ones, !Z.shiftr_div_pow2 by lia.
  rewrite nibbles by (try lia; apply Z.mod_pos_bound; lia).
  rewrite !of_le_bytes_app, !of_le_bytes_le_bytes, !length_le_bytes. cbn [of_le_bytes].
  Z.to_euclidean_division_equations. lia.
Qed.

Lemma testbit_field d n : 0 <= n -> Z.testbit d n = (field d n 1 =? 1).
Proof. intros Hn. unfold field. by rewrite Z.testbit_eqb by done. Qed.

(** The fields of an entry are where the processor looks for them. *)
Lemma entry_fields base limit gran acc : 0 <= base < 2 ^ 32 -> 0 <= limit < 2 ^ 32 -> 0 <= gran < 256 -> 0 <= acc < 256 ->
  let d := of_le_bytes (gdt_entry_bytes (create_entry base limit gran acc)) in
  field d 16 24 = base mod 2 ^ 24 /\ field d 56 8 = base / 2 ^ 24 /\
  field d 0 16 = limit mod 2 ^ 16 /\ field d 48 4 = (limit / 2 ^ 16) mod 16 /\
  field d 40 8 = acc /\ field d 52 4 = gran / 16.
Proof.
  intros Hb Hl Hg Ha d. unfold d. rewrite entry_value by done. unfold field.
  split_and!; Z.to_euclidean_division_equations; lia.
Qed.

(** A bit of a field. *)
Lemma field_bit d lo n i : 0 <= lo -> 0 <= i < n -> Z.testbit d (lo + i) = Z.testbit (field d lo n) i.
Proof.
  intros Hlo Hi. unfold field. rewrite Z.mod_pow2_bits_low by lia. rewrite Z.div_pow2_bits by lia. f_equal. lia.
Qed.

(** C38: what [create_entry] packs is what the processor reads: base, limit (20 bits),
    presence, ring, kind and mode come back from the eight bytes in memory. *)
Theorem segment_roundtrip base limit gran acc :
  0 <= base < 2 ^ 32 -> 0 <= limit < 2 ^ 32 -> 0 <= gran < 256 -> 0 <= acc < 256 ->
  segment_of (of_le_bytes (gdt_entry_bytes (create_entry base limit gran acc))) =
  {| sg_base := base; sg_limit := limit mod 2 ^ 20; sg_present := Z.testbit acc 7; sg_ring := (acc / 32) mod 4;
     sg_memory := Z.testbit acc 4; sg_code := Z.testbit acc 3; sg_writable := Z.testbit acc 1;
     sg_long := Z.testbit gran 5; sg_default32 := Z.testbit gran 6; sg_pages := Z.testbit gran 7 |}.
Proof.
  intros Hb Hl Hg Ha. destruct (entry_fields base limit gran acc Hb Hl Hg Ha) as (E1 & E2 & E3 & E4 & E5 & E6).
  set (d := of_le_bytes _) in *. unfold segment_of. rewrite E1, E2, E3, E4.
  assert (forall i, 0 <= i < 8 -> Z.testbit d (40 + i) = Z.testbit acc i) as Hacc
    by (intros i Hi; by rewrite (field_bit d 40 8), E5 by lia).
  assert (forall i, 0 <= i < 4 -> Z.testbit d (52 + i) = Z.testbit gran (4 + i)) as Hgran.
  { intros i Hi. rewrite (field_bit d 52 4), E6 by lia. change 16 with (2 ^ 4). rewrite Z.div_pow2_bits by lia. f_equal. lia. }
  assert (field d 45 2 = (acc / 32) mod 4) as ->.
  { rewrite <- E5. unfold field. change 32 with (2 ^ 5). Z.to_euclidean_division_equations. lia. }
  rewrite (Hacc 7 ltac:(lia) : Z.testbit d 47 = _), (Hacc 4 ltac:(lia) : Z.testbit d 44 = _),
    (Hacc 3 ltac:(lia) : Z.testbit d 43 = _), (Hacc 1 ltac:(lia) : Z.testbit d 41 = _),
    (Hgran 1 ltac:(lia) : Z.testbit d 53 = _), (Hgran 2 ltac:(lia) : Z.testbit d 54 = _), (Hgran 3 ltac:(lia) : Z.testbit d 55 = _).
  f_equal; Z.to_euclidean_division_equations; lia.
Qed.

Lemma segment_roundtrip_witness :
  sg_base (segment_of (of_le_bytes (gdt_entry_bytes (create_entry 2864434397 1048575 160 154)))) = 2864434397.
Proof. rewrite segment_roundtrip; [reflexivity|lia|lia|lia|lia]. Defined.

(** The table [gdt::init] loads: the register covers exactly its six entries; the
    code selector the reload leaves in [cs] names present 64-bit code of ring 0 and the
    data segments name present writable data of ring 0.  The user data selector names
    data of ring 3; but so does the user code selector, which is not code. *)
Theorem gdt_segments gdt_at c :
  let c' := gdt_load (gdt_descriptor gdt_at) c in
  let seg s := segment_of (selected (gdt_bytes gdt_init) s) in
  let kind s := (sg_present (seg s) && sg_memory (seg s) && sg_writable (seg s), sg_ring (seg s), sg_code (seg s), sg_long (seg s)) in
  gdtr c' = TableReg (Z.of_nat (List.length (gdt_bytes gdt_init)) - 1) gdt_at /\
  kind (cs c') = (true, 0, true, true) /\
  Forall (fun s => kind s = (true, 0, false, false)) (data_segments c') /\
  kind (USER_DATA_SELECTOR * 8) = (true, 3, false, false) /\
  kind (USER_CODE_SELECTOR * 8) = (true, 3, false, true).
Proof.
  split_and!; [reflexivity|vm_compute; reflexivity| |vm_compute; reflexivity|vm_compute; reflexivity].
  cbn [gdt_load gdt64_load data_segments]. repeat constructor; vm_compute; reflexivity.
Qed.

(** [gib1_pages] is set exactly when the processor has the extended leaf 0x80000001
    and reports 1 GiB pages in bit 26 of edx; a processor without the leaf is never
    asked for it. *)
Lemma arch_init_correct `{Cpuid} ecx :
  let '(extended, _, _, _) := cpuid 2147483648 ecx in
  let '(_, _, _, features) := cpuid 2147483649 0 in
  arch_init ecx = (2147483649 <=? extended) && Z.testbit features 26.
Proof.
  destruct (cpuid 2147483648 ecx) as [[[extended x1] x2] x3] eqn:E0.
  destruct (cpuid 2147483649 0) as [[[y0 y1] y2] features] eqn:E1.
  unfold arch_init, id. change (Z.land 2147483649 2147483648) with 2147483648. rewrite E0.
  destruct (Z.ltb_spec extended 2147483649) as [Hlt|Hge].
  - by rewrite (proj2 (Z.leb_gt _ _)) by lia.
  - rewrite E1, (proj2 (Z.leb_le _ _)) by lia. cbn [andb]. rewrite Z.shiftl_1_l.
    destruct (Z.testbit features 26) eqn:Eb.
    + apply Z.eqb_eq, Z.bits_inj'. intros n Hn. rewrite Z.land_spec, Z.pow2_bits_eqb by lia.
      destruct (Z.eqb_spec 26 n) as [<-|]; [by rewrite Eb|by rewrite andb_false_r].
    + apply Z.eqb_neq. intros E. assert (Z.testbit (Z.land features (2 ^ 26)) 26 = true) as Ht
        by (rewrite E; by rewrite Z.pow2_bits_true).
      by rewrite Z.land_spec, Eb in Ht.
Qed.
