(* ===== verification/Memmap.v ===== *)
(** * memory/memmap.cpp: mapped ranges

    The objects of [memmap] refer to each other: an address space to its local
    ranges, a local range to its global one, a global one to all its local ones.
    They live in a [store] and refer by number; a [shared_ptr] is such a number.
    The heap blocks of these few objects and their release are not modelled, the
    page tables are. *)

From S2P Require Import Prelude Memory LibcString Frames Math Physical Heap Paging.

(** ** Constants of include/memory/virtual.hpp *)

Definition READ := 1.
Definition map_shared := 1.
Definition map_anonymous := 32.
Definition protocol_read := 1.
Definition protocol_write := 2.
Definition protocol_exec := 4.

(** ** The objects *)

Record local_t : Type := Local {
  l_global : nat;
  l_pagemap : nat;
  l_base : Z;
  l_length : Z;
  l_offset : Z;
  l_prot : Z;
  l_flags : Z;
}.

Record global_t : Type := Global {
  g_locals : list nat;
  g_shadow : pagemap;
  g_base : Z;
  g_length : Z;
  g_offset : Z;
}.

(** An address space: its tables and its ranges. *)
Record space : Type := Space { tables : pagemap; ranges : list nat }.

Record store : Type := Store {
  spaces : gmap nat space;
  globals : gmap nat global_t;
  locals : gmap nat local_t;
  next : nat;
}.

Definition find {A : Type} (objects : gmap nat A) (i : nat) : outcome A :=
  match objects !! i with Some a => Ok a | None => Undef end.

Definition set_space (s : store) (i : nat) (x : space) : store :=
  Store (<[i := x]> (spaces s)) (globals s) (locals s) (next s).
Definition set_global (s : store) (i : nat) (x : global_t) : store :=
  Store (spaces s) (<[i := x]> (globals s)) (locals s) (next s).
Definition set_local (s : store) (i : nat) (x : local_t) : store :=
  Store (spaces s) (globals s) (<[i := x]> (locals s)) (next s).
Definition take_numbers (s : store) (n : nat) : store :=
  Store (spaces s) (globals s) (locals s) (n + next s).

(** [local->base <= a && a < local->base + local->length] *)
Definition covers (l : local_t) (a : Z) : bool := negb ((a <? l_base l) || (u64 (l_base l + l_length l) <=? a)).

Definition prot_to_flags (prot : Z) : Z :=
  let flags := USER in
  let flags := if has prot protocol_read then Z.lor flags READ else flags in
  let flags := if has prot protocol_write then Z.lor flags WRITE else flags in
  if has prot protocol_exec then Z.lor flags EXEC else flags.

(** [for (i = start; i < stop; i += step)] whose body can leave with [false]. *)
Fixpoint page_loop {A : Type} (step : Z) (n : nat) (i : Z) (body : Z -> A -> outcome (bool * A)) (a : A)
    : outcome (bool * A) :=
  match n with
  | O => Ok (true, a)
  | S n' =>
      '(ok, a) ← body i a;
      if ok : bool then page_loop step n' (i + step) body a else Ok (false, a)
  end.

Section Memmap.
Context {W : Type} `{Frames W} (allocator : Z) (gib1_pages : bool) (kernel : option pagemap).
Local Abbreviation map := (Paging.map allocator gib1_pages).
Local Abbreviation entry_of := (virtual_to_pt_entry allocator).

(** The loop over the local ranges of a global one. *)
Fixpoint map_locals (s : store) (ids : list nat) (va pa flags : Z) (w : W) : outcome (bool * W) :=
  match ids with
  | [] => Ok (true, w)
  | i :: ids' =>
      l ← find (locals s) i;
      if negb (covers l va) then map_locals s ids' va pa flags w
      else
        x ← find (spaces s) (l_pagemap l);
        '(ok, w) ← map (tables x) va pa flags default_caching w;
        if ok : bool then map_locals s ids' va pa flags w else Ok (false, w)
  end.

(** [global::map_page] *)
Definition map_page (s : store) (gid : nat) (va pa prot : Z) (w : W) : outcome (bool * W) :=
  let flags := prot_to_flags prot in
  g ← find (globals s) gid;
  '(ok, w) ← map (g_shadow g) va pa flags default_caching w;
  if negb ok then Ok (false, w) else map_locals s (g_locals g) va pa flags w.

(** The local range, the page of the address and the page in the mapped object. *)
Fixpoint range_in (s : store) (psize : Z) (ids : list nat) (address : Z) : outcome (option (nat * Z * Z)) :=
  match ids with
  | [] => Ok None
  | i :: ids' =>
      l ← find (locals s) i;
      if negb (covers l address) then range_in s psize ids' address
      else
        let page := u64 (u64 (l_offset l) / psize + u64 (address / psize - l_base l / psize)) in
        Ok (Some (i, address / psize, page))
  end.

Definition address_to_range (s : store) (pid : nat) (address : Z) : outcome (option (nat * Z * Z)) :=
  x ← find (spaces s) pid;
  range_in s (base_page_size (tables x)) (ranges x) address.

(** [~pagemap_t]: nothing in the loop takes a range out of [ranges]; the length is
    passed where [unmap] has its flags. *)
Definition destroy_step (s : store) (pid : nat) (w : W) : outcome (W + W) :=
  x ← find (spaces s) pid;
  match ranges x with
  | [] => Ok (inr w)
  | i :: _ =>
      l ← find (locals s) i;
      '(_, (_, w)) ← unmap allocator gib1_pages (tables x) (l_base l) (l_length l) w;
      Ok (inl w)
  end.

Definition destroy_space (fuel : nat) (s : store) (pid : nat) (w : W) : outcome W :=
  w ← loop (destroy_step s pid) fuel w;
  x ← find (spaces s) pid;
  destroy_pagemap allocator (tables x) w.

(** The two objects [map_range] makes; [make_shared] sets the other fields to 0. *)
Definition new_range (s : store) (pid : nat) (x : space) (shadow : pagemap) (base length prot flags : Z) : store :=
  let gid := next s in
  let lid := S gid in
  let s := take_numbers s 2 in
  let s := set_global s gid (Global [lid] shadow base length 0) in
  let s := set_local s lid (Local gid pid base 0 0 prot flags) in
  set_space s pid (Space (tables x) (ranges x ++ [lid])).

Definition map_range (s : store) (pid : nat) (va pa length prot flags : Z) (w : W) : outcome (bool * (store * W)) :=
  x ← find (spaces s) pid;
  let psize := base_page_size (tables x) in
  let flags := Z.lor flags map_anonymous in
  let aligned_va := align_down va psize in
  let aligned_length := align_up (u64 (length + u64 (va - aligned_va))) psize in
  '(shadow, w) ← pagemap_new allocator kernel w;
  let gid := next s in
  let s := new_range s pid x shadow aligned_va aligned_length prot flags in
  '(ok, w) ← page_loop psize (rounds aligned_length psize) 0
      (fun i w => map_page s gid (u64 (aligned_va + i)) (u64 (pa + i)) prot w) w;
  Ok (ok, (s, w)).

(** ** [fork] *)

(** A page of a shared range: the child gets the parent's entry. *)
Definition fork_shared_page (parent child : pagemap) (psize i : Z) (w : W) : outcome W :=
  '(old_pt_entry, w) ← entry_of parent i false psize w;
  if old_pt_entry =? 0 then Ok w
  else
    value ← load w old_pt_entry;
    '(p, w) ← entry_of child i true (base_page_size child) w;
    Frames.store w p value.

(** A page of another range: both entries are the parent's, so the flags are read
    from the entry that was just cleared. *)
Definition fork_private_page (parent child shadow : pagemap) (i : Z) (w : W) : outcome W :=
  '(old_pt_entry, w) ← entry_of parent i true (base_page_size child) w;
  if old_pt_entry =? 0 then Ok w
  else
    '(new_pt_entry, w) ← entry_of parent i true (base_page_size child) w;
    '(new_shadow_pt_entry, w) ← entry_of shadow i true (base_page_size shadow) w;
    value ← load w old_pt_entry;
    let old_page := pte_address value in
    '(page, w) ← frame_alloc (base_page_size parent / page_size) w;
    w ← copy w (tohh hhdm_offset page) (tohh hhdm_offset old_page) (base_page_size parent);
    w ← Frames.store w new_pt_entry 0;
    old ← load w old_pt_entry;
    value ← load w new_pt_entry;
    w ← Frames.store w new_pt_entry (pte_set_flags value (pte_flags old) true);
    value ← load w new_pt_entry;
    w ← Frames.store w new_pt_entry (pte_set_address value page);
    value ← load w new_pt_entry;
    Frames.store w new_shadow_pt_entry value.

(** The start of the private loop is the member [flags], as written. *)
Definition fork_range (parent child : pagemap) (i : nat) (s : store) (w : W) : outcome (nat * store * W) :=
  l ← find (locals s) i;
  g ← find (globals s) (l_global l);
  let psize := base_page_size parent in
  let stop := u64 (l_base l + l_length l) in
  let lid := next s in
  let s := set_local (take_numbers s 1) lid l in
  if has (l_flags l) map_shared then
    let s := set_global s (l_global l) (Global (g_locals g ++ [lid]) (g_shadow g) (g_base g) (g_length g) (g_offset g)) in
    w ← for_steps psize (fork_shared_page parent child psize) (rounds (stop - l_base l) psize) (l_base l) w;
    Ok (lid, s, w)
  else
    '(shadow, w) ← pagemap_new allocator kernel w;
    let gid := next s in
    let s := set_global (take_numbers s 1) gid (Global [lid] shadow (g_base g) (g_length g) (g_offset g)) in
    w ← for_steps psize (fork_private_page parent child shadow) (rounds (stop - l_flags l) psize) (l_flags l) w;
    Ok (lid, s, w).

Fixpoint fork_ranges (parent child : pagemap) (ids : list nat) (s : store) (w : W) : outcome (list nat * store * W) :=
  match ids with
  | [] => Ok ([], s, w)
  | i :: ids' =>
      '(lid, s, w) ← fork_range parent child i s w;
      '(lids, s, w) ← fork_ranges parent child ids' s w;
      Ok (lid :: lids, s, w)
  end.

Definition fork (s : store) (pid : nat) (w : W) : outcome (nat * store * W) :=
  x ← find (spaces s) pid;
  '(child, w) ← pagemap_new allocator kernel w;
  let cid := next s in
  '(lids, s, w) ← fork_ranges (tables x) child (ranges x) (take_numbers s 1) w;
  Ok (cid, set_space s cid (Space child lids), w).
End Memmap.
