(* ===== verification/MemmapClaims.v ===== *)
(** * Properties of mapped ranges

    What [map_range], the destructor and [fork] of an address space do. *)

From S2P Require Import Prelude Memory LibcString StringProofs Frames Math Bitmap Physical PhysicalProofs.
From S2P Require Import Heap HeapInv HeapProofs HeapTheorems Machine Paging PagingProofs PagingTheorems PagingClaims Memmap.

(** ** The store *)

(** The numbers in use are below [next], and every object refers to objects that exist. *)
Record store_ok (s : store) : Prop := {
  so_spaces : forall i, (next s <= i)%nat -> spaces s !! i = None;
  so_globals : forall i, (next s <= i)%nat -> globals s !! i = None;
  so_locals : forall i, (next s <= i)%nat -> locals s !! i = None;
  so_ranges : forall i x j, spaces s !! i = Some x -> j ∈ ranges x ->
    exists l g, locals s !! j = Some l /\ globals s !! l_global l = Some g /\ is_Some (spaces s !! l_pagemap l);
}.

(** No range covers an address while its length is 0. *)
Lemma covers_empty l a : l_length l = 0 -> 0 <= l_base l < W64 -> covers l a = false.
Proof.
  intros Hl Hb. unfold covers. rewrite Hl, Z.add_0_r, u64_small by done.
  destruct (Z.ltb_spec a (l_base l)), (Z.leb_spec (l_base l) a); try done; lia.
Qed.

Section NewRange.
Context (s : store) (Hs : store_ok s) (pid : nat) (x : space) (Hx : spaces s !! pid = Some x).
Context (shadow : pagemap) (base length prot flags : Z).
Local Abbreviation s' := (new_range s pid x shadow base length prot flags).

Lemma pid_below : (pid < next s)%nat.
Proof. apply Nat.nle_gt. intros Hle. by rewrite (so_spaces s Hs pid Hle) in Hx. Qed.

Lemma new_range_global : globals s' !! next s = Some (Global [S (next s)] shadow base length 0).
Proof. cbn. apply lookup_insert_eq. Qed.

Lemma new_range_local : locals s' !! S (next s) = Some (Local (next s) pid base 0 0 prot flags).
Proof. cbn. apply lookup_insert_eq. Qed.

Lemma old_local j l : locals s !! j = Some l -> locals s' !! j = Some l.
Proof.
  intros Hj. cbn. rewrite lookup_insert_ne; [done|]. intros <-. rewrite (so_locals s Hs (S (next s))) in Hj by lia. done.
Qed.

Lemma new_range_ok : store_ok s'.
Proof.
  pose proof pid_below as Hp. constructor; cbn.
  - intros i Hi. rewrite lookup_insert_ne by lia. apply (so_spaces s Hs). lia.
  - intros i Hi. rewrite lookup_insert_ne by lia. apply (so_globals s Hs). lia.
  - intros i Hi. rewrite lookup_insert_ne by lia. apply (so_locals s Hs). lia.
  - intros i y j Hy Hj.
    assert (j = S (next s) \/ exists i y, spaces s !! i = Some y /\ j ∈ ranges y) as [->|(i' & y' & Hy' & Hj')].
    { apply lookup_insert_Some in Hy as [[<- <-]|[_ Hy]]; [|by right; exists i, y].
      cbn in Hj. apply elem_of_app in Hj as [Hj|Hj]; [right; by exists pid, x|left; by apply list_elem_of_singleton in Hj]. }
    + eexists _, _. split_and!; [apply lookup_insert_eq|cbn; apply lookup_insert_eq|cbn; rewrite lookup_insert_eq; done].
    + destruct (so_ranges s Hs i' y' j Hy' Hj') as (l & g & Hl & Hg & z & Hz).
      exists l, g. split_and!; [by apply old_local|..].
      * rewrite lookup_insert_ne; [done|]. intros E. rewrite <- E in Hg. by rewrite (so_globals s Hs (next s)) in Hg.
      * destruct (decide (l_pagemap l = pid)) as [->|]; [rewrite lookup_insert_eq|rewrite lookup_insert_ne by done]; done.
Qed.
End NewRange.

(** ** [map_range] *)

Section MapRange.
Context {W : Type} `{Frames W} (allocator : Z) (gib1_pages : bool) (kernel : option pagemap).
Local Abbreviation map := (Paging.map allocator gib1_pages).

Lemma map_page_shadow s gid g lid l va pa prot w :
  globals s !! gid = Some g -> g_locals g = [lid] -> locals s !! lid = Some l -> l_length l = 0 -> 0 <= l_base l < W64 ->
  map_page allocator gib1_pages s gid va pa prot w = map (g_shadow g) va pa (prot_to_flags prot) default_caching w.
Proof.
  intros Hg Hl Hloc H0 Hb. unfold map_page, find. rewrite Hg. bind_simpl. rewrite Hl. cbn [map_locals]. unfold find.
  rewrite Hloc. destruct (map _ va pa _ _ w) as [[[|] w']| | | |]; [|done..]. bind_simpl. cbn [negb].
  by rewrite (covers_empty l va H0 Hb).
Qed.

Lemma page_loop_ext {A} step n (f g : Z -> A -> outcome (bool * A)) : forall i a, (forall i a, f i a = g i a) ->
  page_loop step n i f a = page_loop step n i g a.
Proof.
  induction n as [|n IH]; intros i a E; [done|]. cbn [page_loop]. rewrite E.
  destruct (g i a) as [[[|] a']| | | |]; [|done..]. bind_simpl. by apply IH.
Qed.

Lemma range_in_old s s' psize ids a : (forall j l, j ∈ ids -> locals s !! j = Some l -> locals s' !! j = Some l) ->
  (forall j, j ∈ ids -> is_Some (locals s !! j)) -> range_in s' psize ids a = range_in s psize ids a.
Proof.
  induction ids as [|j ids IH]; intros Hk Hd; [done|]. destruct (Hd j ltac:(left)) as [l Hl].
  cbn [range_in]. unfold find. rewrite Hl, (Hk j l ltac:(left) Hl). bind_simpl.
  destruct (covers l a); [done|]. apply IH; intros j'; [intros l' Hj|intros Hj]; [apply Hk|apply Hd]; by right.
Qed.

Lemma range_in_snoc s psize ids lid l a : locals s !! lid = Some l -> covers l a = false ->
  range_in s psize (ids ++ [lid]) a = range_in s psize ids a.
Proof.
  intros Hl Hc. induction ids as [|j ids IH]; cbn [range_in app].
  - unfold find. rewrite Hl. bind_simpl. by rewrite Hc.
  - destruct (find (locals s) j) as [l'| | | |]; [|done..]. bind_simpl. by destruct (negb (covers l' a)).
Qed.

(** [map_range] enters the pages into the tables of the new shadow address space
    only: its own local range has the length 0, so no page is entered into the
    tables of the address space itself, and [address_to_range] finds every address
    where it found it before. *)
Theorem map_range_shadow_only s pid x va pa length prot flags w : store_ok s -> spaces s !! pid = Some x ->
  let psize := base_page_size (tables x) in
  let base := align_down va psize in
  let size := align_up (u64 (length + u64 (va - base))) psize in
  0 <= base < W64 ->
  map_range allocator gib1_pages kernel s pid va pa length prot flags w =
    ('(shadow, w) ← pagemap_new allocator kernel w;
     '(ok, w) ← page_loop psize (rounds size psize) 0 (fun i w =>
         map shadow (u64 (base + i)) (u64 (pa + i)) (prot_to_flags prot) default_caching w) w;
     Ok (ok, (new_range s pid x shadow base size prot (Z.lor flags map_anonymous), w))) /\
  forall shadow a, let s' := new_range s pid x shadow base size prot (Z.lor flags map_anonymous) in
    store_ok s' /\ address_to_range s' pid a = address_to_range s pid a.
Proof.
  intros Hs Hx psize base size Hbase. split.
  - unfold map_range, find. rewrite Hx. bind_simpl. fold psize base size.
    destruct (pagemap_new allocator kernel w) as [[shadow w1]| | | |]; [|done..]. bind_simpl.
    erewrite page_loop_ext; [done|]. intros i a. cbv beta.
    rewrite (map_page_shadow _ (next s) _ _ _ _ _ _ _ (new_range_global s pid x shadow base size prot _) eq_refl
      (new_range_local s pid x shadow base size prot _)) by done. done.
  - intros shadow a s'. split; [by apply new_range_ok|]. unfold address_to_range, find. rewrite Hx.
    assert (spaces s' !! pid = Some (Space (tables x) (ranges x ++ [S (next s)]))) as -> by apply lookup_insert_eq.
    bind_simpl. cbn [tables ranges]. rewrite (range_in_snoc s' _ _ _ _ _ (new_range_local s pid x shadow base size prot _)).
    + apply range_in_old.
      * intros j l _ Hj. by apply (old_local s Hs).
      * intros j Hj. destruct (so_ranges s Hs pid x j Hx Hj) as (l & g & Hl & _). by exists l.
    + by apply covers_empty.
Qed.
End MapRange.

(** ** The destructor *)

Section Destroy.
Context {W : Type} `{FrameLaws W} (allocator : Z) (gib1_pages : bool).

(** C14: the destructor of an address space that has a range never ends, however long
    it runs: the loop unmaps the first page of the first range again and again and
    never takes the range out of the list.  Without a range it destroys the tables. *)
Theorem destructor_hangs s pid x w leaf : spaces s !! pid = Some x -> std_sizes (tables x) ->
  page_map allocator (tables x) w leaf ->
  (ranges x = [] -> forall fuel, destroy_space allocator gib1_pages (S fuel) s pid w = destroy_pagemap allocator (tables x) w) /\
  (forall i ids l, ranges x = i :: ids -> locals s !! i = Some l -> l_length l = 0 -> 0 <= l_base l < W64 ->
     path_clear leaf (path_of (l_base l)) 4 ->
     forall fuel, destroy_space allocator gib1_pages fuel s pid w = NoFuel).
Proof.
  intros Hx Hss Hm. split.
  - intros Hr fuel. unfold destroy_space. rewrite loop_step. unfold destroy_step, find. rewrite Hx. bind_simpl. by rewrite Hr.
  - intros i ids l Hr Hl Hz [Hb _] Hc fuel. unfold destroy_space.
    assert (loop (destroy_step allocator gib1_pages s pid) fuel w = NoFuel) as ->; [|done].
    assert (forall w, destroy_step allocator gib1_pages s pid w =
      ('(_, (_, w)) ← unmap allocator gib1_pages (tables x) (l_base l) 0 w; Ok (inl w))) as Estep.
    { intros v. unfold destroy_step, find. rewrite Hx. bind_simpl. rewrite Hr, Hl. bind_simpl. by rewrite Hz. }
    revert w leaf Hm Hc. induction fuel as [|fuel IH]; intros w leaf Hm Hc; [done|]. rewrite loop_step, Estep.
    destruct (small_unmap allocator gib1_pages (tables x) Hss w leaf (l_base l) Hm Hb Hc) as [(w' & -> & Hm')|[-> _]];
      bind_simpl; [|by apply (IH w leaf)].
    apply (IH w' _ Hm'). by apply path_clear_set.
Qed.
End Destroy.

(** ** [fork] *)

Section Fork.
Context {W : Type} `{FrameLaws W} (allocator : Z).
Local Abbreviation entry_of := (virtual_to_pt_entry allocator).
Local Abbreviation hh := hhdm_offset.

(** A word of a page of [o]. *)
Definition word_in (o : gset Z) (p : Z) : Prop := exists a, a ∈ o /\ hh + a * page_size <= p /\ p + 8 <= hh + (a + 1) * page_size.

Lemma word_facts w o p : frames_inv w o -> word_in o p ->
  0 < p /\ valid (wmem w) p 8 /\ forall x, in_range p 8 x -> in_pages hh o x.
Proof.
  intros Hf (a & Ha & Hp). destruct (frames_page w o a Hf Ha) as (? & ? & ? & Hv & _). split_and!; [lia|eapply valid_sub; [exact Hv|lia..]|].
  intros x Hx. exists a. split; [done|]. unfold in_page, in_range in *. lia.
Qed.

(** Writes of clients to their own pages. *)
Lemma client_write w o m : frames_inv w o -> mem_wf m -> same_dom (wmem w) m ->
  (forall a, ~ in_pages hh o a -> m !! a = wmem w !! a) -> frames_inv (with_mem w m) o.
Proof. intros Hf Hw Hd Ho. apply (frames_write w o m); [done..|]. intros a _. apply Ho. Qed.

(** The bytes of one page in another. *)
Lemma copy_page w o a b : frames_inv w o -> a ∈ o -> b ∈ o -> a <> b ->
  exists m, copy w (tohh hh (a * page_size)) (tohh hh (b * page_size)) page_size = Ok (with_mem w m) /\
    mem_wf m /\ same_dom (wmem w) m /\ (forall x, ~ in_page hh a x -> m !! x = wmem w !! x) /\
    forall k, 0 <= k < page_size -> m !! (hh + a * page_size + k) = wmem w !! (hh + b * page_size + k).
Proof.
  intros Hf Ha Hb Hne. destruct (page_in_pages w o a Hf Ha) as (_ & _ & Hva & -> & _). destruct (page_in_pages w o b Hf Hb) as (_ & _ & Hvb & -> & _).
  unfold page_addr in *. pose proof (frames_wf _ _ Hf) as Hw.
  destruct (valid_bytes (wmem w) (hh + b * page_size) page_size) as (l & Hl & Hlb); [lia|done|].
  assert (valid (wmem w) (hh + a * page_size) (Z.of_nat (length l))) as Hvl by (by rewrite Hl).
  pose proof (memcpy_bytes (wmem w) Hw _ _ l Hlb Hvl) as Ec. rewrite Hl in Ec.
  exists (write_bytes (wmem w) (hh + a * page_size) l). split_and!.
  - unfold copy. rewrite Ec; [done|]. unfold disjoint_ranges. lia.
  - apply write_bytes_wf; [done|done|]. apply Forall_lookup. intros i x Hi. pose proof (lookup_lt_Some _ _ _ Hi).
    specialize (Hlb (Z.of_nat i)). rewrite Nat2Z.id, Hi in Hlb. apply (Hw (hh + b * page_size + Z.of_nat i)), Hlb. lia.
  - by apply write_bytes_same_dom.
  - intros x Hx. apply lookup_write_bytes_out. by rewrite Hl.
  - intros k Hk. rewrite lookup_write_bytes_in by (unfold in_range; lia).
    replace (hh + a * page_size + k - (hh + a * page_size)) with k by lia. rewrite <- Hlb by lia. done.
Qed.

(** The bare address of a frame is an entry without flags. *)
Lemma bare_entry page : 0 <= page < 1099511627776 ->
  pte_flags (page * page_size) = 0 /\ pte_address (page * page_size) = page * page_size /\
  pte_set_address 0 (page * page_size) = page * page_size /\ pte_get_flag (page * page_size) present = false.
Proof.
  intros Hp. assert (Z.land (page * page_size) pa_mask = page * page_size) as Em by (apply frame_mask; [by apply Z.mod_mul|lia]).
  split_and!.
  - unfold pte_flags, clear. apply Z.bits_inj'. intros n Hn. rewrite Z.land_spec, u64_bits, Z.lnot_spec, Z.bits_0 by lia.
    rewrite <- Em at 1. rewrite Z.land_spec. by destruct (Z.testbit pa_mask n), (Z.testbit (page * page_size) n), (n <? 64).
  - exact Em.
  - done.
  - unfold pte_get_flag. change present with (2 ^ 0). rewrite has_bit by lia. rewrite Z.bit0_odd, Z.odd_mul. change (Z.odd page_size) with false.
    by rewrite andb_false_r.
Qed.

(** The last steps for one page: the flags are read from the entry just cleared. *)
Lemma fork_stores w p q v : mem_wf (wmem w) -> valid (wmem w) p 8 -> valid (wmem w) q 8 -> disjoint_ranges p 8 q 8 -> 0 <= v < W64 ->
  pte_set_address 0 v = v ->
  exists m, (w ← Frames.store w p 0; old ← load w p; value ← load w p;
    w ← Frames.store w p (pte_set_flags value (pte_flags old) true); value ← load w p;
    w ← Frames.store w p (pte_set_address value v); value ← load w p; Frames.store w q value) = Ok (with_mem w m) /\
    mem_wf m /\ same_dom (wmem w) m /\ load64 m p = Ok v /\ load64 m q = Ok v /\
    forall x, ~ in_range p 8 x -> ~ in_range q 8 x -> m !! x = wmem w !! x.
Proof.
  intros Hw Hp Hq Hd Hv Ev. rewrite store_valid by done. bind_simpl.
  destruct (write64_ok (wmem w) p 0 Hw Hp) as [Hw1 Hd1]. set (m1 := write64 (wmem w) p 0) in *.
  assert (load64 m1 p = Ok 0) as L1 by (by apply load64_write64_small).
  rewrite !(load_Ok _ _ _ _ L1). bind_simpl. change (pte_set_flags 0 (pte_flags 0) true) with 0.
  assert (valid m1 p 8) as Hp1 by (by eapply valid_same_dom). rewrite store_with_mem by done. bind_simpl.
  destruct (write64_ok m1 p 0 Hw1 Hp1) as [Hw2 Hd2]. set (m2 := write64 m1 p 0) in *.
  rewrite (load_Ok w m2 p 0) by (by apply load64_write64_small). bind_simpl. rewrite Ev.
  assert (valid m2 p 8) as Hp2 by (by eapply valid_same_dom). rewrite store_with_mem by done. bind_simpl.
  destruct (write64_ok m2 p v Hw2 Hp2) as [Hw3 Hd3]. set (m3 := write64 m2 p v) in *.
  assert (load64 m3 p = Ok v) as L3 by (by apply load64_write64_small). rewrite (load_Ok _ _ _ _ L3). bind_simpl.
  assert (same_dom (wmem w) m3) as Hd03 by (eapply same_dom_trans; [|exact Hd3]; by eapply same_dom_trans).
  assert (valid m3 q 8) as Hq3 by (by apply (valid_same_dom (wmem w))). rewrite store_with_mem by done.
  destruct (write64_ok m3 q v Hw3 Hq3) as [Hw4 Hd4]. exists (write64 m3 q v). split_and!; try done.
  - by apply (same_dom_trans _ m3).
  - rewrite load64_write64_ne; [done|]. unfold disjoint_ranges in *. lia.
  - by apply load64_write64_small.
  - intros x Hx Hx'. rewrite write64_out by done. unfold m3, m2, m1. by rewrite !write64_out.
Qed.

(** C13: forking a private page takes it from the parent.  The parent's entry, present
    before and with any flags, ends up as the bare address of the new frame: every flag
    is cleared, so the page is not present any more, and the shadow has the same entry;
    the tables of the child are not written.
    The frame itself is right: it is fresh and holds the bytes of the old one.  Nothing
    else changes; the only other outcome is a panic, when no page is left. *)
Theorem fork_unmaps_parent parent child shadow i w w1 o p q e0 pg :
  base_page_size parent = page_size ->
  entry_of parent i true (base_page_size child) w = Ok (p, w) ->
  entry_of shadow i true (base_page_size shadow) w = Ok (q, w1) ->
  frames_inv w1 o -> word_in o p -> word_in o q -> disjoint_ranges p 8 q 8 ->
  load w1 p = Ok e0 -> pte_get_flag e0 present = true -> pte_address e0 = pg * page_size -> pg ∈ o ->
  (exists page w', fork_private_page allocator parent child shadow i w = Ok w' /\ (page ∉ o) /\ frames_inv w' ({[page]} ∪ o) /\
     (exists e, load w' p = Ok e /\ load w' q = Ok e /\
        pte_flags e = 0 /\ pte_get_flag e present = false /\ pte_address e = page * page_size) /\
     (forall k, 0 <= k < page_size -> wmem w' !! (hh + page * page_size + k) = wmem w1 !! (hh + pg * page_size + k)) /\
     forall a, in_pages hh o a -> ~ in_range p 8 a -> ~ in_range q 8 a -> wmem w' !! a = wmem w1 !! a) \/
  (fork_private_page allocator parent child shadow i w = Panic /\ ~ frames_run w1 1).
Proof.
  intros Eps Ep Eq Hf Hp Hq Hd L0 _ Ea Hpg. destruct (word_facts w1 o p Hf Hp) as (Hp0 & _ & _).
  unfold fork_private_page. rewrite Ep. bind_simpl. rewrite (proj2 (Z.eqb_neq p 0)), Ep by lia. bind_simpl. rewrite Eq. bind_simpl. rewrite L0. bind_simpl.
  rewrite Ea, Eps. change (page_size / page_size) with 1.
  destruct (frames_alloc w1 o 1 Hf) as [(page & w2 & -> & Hn & Hf2 & Em & _ & _ & Hk & _)|[-> Hno]]; [lia| |by right].
  bind_simpl. left. assert (pages page 1 = {[page]}) as Epg by (apply set_eq; intros x; rewrite elem_of_pages, elem_of_singleton; lia).
  rewrite Epg in *. assert (page ∉ o) as Hno by (intros ?; by apply (Hn page); [apply elem_of_singleton|]).
  assert (page ∈ {[page]} ∪ o /\ pg ∈ {[page]} ∪ o) as [Hin Hin'] by set_solver. assert (page <> pg) as Hne by (by intros ->).
  destruct (frames_page w2 _ page Hf2 Hin) as (? & _). pose proof (frames_52 w2 _ page Hf2 Hin).
  destruct (bare_entry page) as (B1 & B2 & B3 & B4); [lia|].
  destruct (copy_page w2 _ page pg Hf2 Hin Hin' Hne) as (m & -> & Hw & Hdm & Hmo & Hmc). bind_simpl.
  assert (forall x, word_in o x -> valid m x 8 /\ forall y, in_range x 8 y -> in_pages hh o y) as Hword.
  { intros x Hx. destruct (word_facts w2 ({[page]} ∪ o) x Hf2) as (_ & Hv & _).
    { destruct Hx as (a & Ha & Hr). exists a. split; [set_solver|done]. }
    split; [by eapply valid_same_dom|]. by apply (word_facts w1). }
  destruct (Hword p Hp) as [Hvp Hip], (Hword q Hq) as [Hvq Hiq].
  assert (forall x, in_pages hh o x -> ~ in_page hh page x) as Hsep.
  { intros x (a & Ha & Hax) Hx. apply Hno. by rewrite (in_page_inj _ _ _ _ Hx Hax). }
  destruct (fork_stores (with_mem w2 m) p q (page * page_size)) as (m' & -> & Hw' & Hd' & Lp & Lq & Ho'); rewrite ?wmem_with_mem in *; try done; [lia|].
  exists page, (with_mem w2 m'). rewrite with_mem_with_mem. split; [done|]. split; [done|].
  unfold load. rewrite wmem_with_mem. split; [|split; [exists (page * page_size); by split_and!|split]].
  - apply client_write; [done|done|by apply (same_dom_trans _ m)|]. intros x Hx.
    assert (~ in_pages hh o x) as Hxo by (intros (a & Ha & Hax); apply Hx; exists a; split; [set_solver|done]).
    rewrite Ho' by auto. apply Hmo. intros Hxp. apply Hx. by exists page.
  - intros k Hr. assert (in_page hh page (hh + page * page_size + k)) as Hx by (unfold in_page, in_range; lia).
    rewrite Ho' by (intros Hx'; by apply (Hsep _ (Hip _ Hx')) || by apply (Hsep _ (Hiq _ Hx'))).
    rewrite Hmc by done. apply Hk. right. exists pg. split; [done|]. unfold in_page, in_range. lia.
  - intros a Ha Hap Haq. rewrite Ho', Hmo by auto. apply Hk. by right.
Qed.
End Fork.

(** ** Witnesses *)

Section Witnesses.
#[local] Existing Instance phys_frames.

Definition empty_space : space := Space paged_map [].
Definition empty_store : store := Store {[0%nat := empty_space]} ∅ ∅ 1.

Lemma empty_store_ok : store_ok empty_store.
Proof.
  constructor; cbn; intros *; try (intros _; by rewrite lookup_empty).
  - intros Hi. rewrite lookup_singleton_ne by lia. done.
  - intros Hx Hj. apply lookup_singleton_Some in Hx as [_ <-]. by apply not_elem_of_nil in Hj.
Qed.

Lemma map_range_shadow_only_witness :
  let base := align_down 4196 4096 in
  let size := align_up (u64 (100 + u64 (4196 - base))) 4096 in
  @map_range phys (phys_frames sample_hhdm) sample_alloc false (Some paged_map) empty_store 0 4196 36864 100 3 0 paged_state =
    ('(shadow, w) ← @pagemap_new phys (phys_frames sample_hhdm) sample_alloc (Some paged_map) paged_state;
     '(ok, w) ← page_loop 4096 (rounds size 4096) 0 (fun i w =>
         @Paging.map phys (phys_frames sample_hhdm) sample_alloc false shadow (u64 (base + i)) (u64 (36864 + i)) (prot_to_flags 3) default_caching w) w;
     Ok (ok, (new_range empty_store 0 empty_space shadow base size 3 (Z.lor 0 map_anonymous), w))).
Proof.
  apply (@map_range_shadow_only phys (phys_frames sample_hhdm) sample_alloc false (Some paged_map)
    empty_store 0 empty_space 4196 36864 100 3 0 paged_state empty_store_ok eq_refl).
  split; [discriminate|reflexivity].
Defined.

Definition used_space : space := Space paged_map [2%nat].
Definition used_store : store :=
  Store {[0%nat := used_space]} {[1%nat := Global [2%nat] paged_map used_address 4096 0]}
        {[2%nat := Local 1 0 used_address 0 0 3 32]} 3.

Lemma destructor_hangs_witness :
  @destroy_space phys (phys_frames sample_hhdm) sample_alloc false 1000 used_store 0 paged_state = NoFuel.
Proof.
  destruct (@destructor_hangs phys (phys_frames sample_hhdm) sample_laws sample_alloc false
    used_store 0 used_space paged_state paged_leaf eq_refl paged_sizes paged_map_ok) as [_ Hh].
  apply (Hh 2%nat [] (Local 1 0 used_address 0 0 3 32)); [reflexivity|reflexivity|reflexivity|split; [discriminate|reflexivity]|exact used_clear].
Defined.
(** A machine with the tables of the parent in the pages 2, 4, 6 and 8, those of the
    shadow in 3, 5, 7 and 9, and the frame of the page in 10: the page is present,
    writable and the user's. *)
Definition fork_page (i : Z) : Z := sample_hhdm + i * 4096.
Definition fork_pages : list Z := [2; 3; 4; 5; 6; 7; 8; 9; 10].
Definition fork_writes : list (Z * Z) :=
  [(fork_page 2, 4 * 4096 + 7); (fork_page 4, 6 * 4096 + 7); (fork_page 6, 8 * 4096 + 7); (fork_page 8 + 40, 10 * 4096 + 7);
   (fork_page 3, 5 * 4096 + 7); (fork_page 5, 7 * 4096 + 7); (fork_page 7, 9 * 4096 + 7); (fork_page 10 + 16, 42)].
Definition fork_state : phys := machine 2047 fork_writes.
Definition fork_space (top : Z) : pagemap := Pagemap (fork_page top) GiB1 MiB2 KiB4.

Lemma fork_pages_ok : pages_ok 2047 fork_pages = true.
Proof. reflexivity. Qed.

Lemma fork_stores_ok : stores_ok fork_pages fork_writes = true.
Proof. reflexivity. Qed.

Lemma fork_size : 4096 * Z.of_nat (size (list_to_set fork_pages : gset Z)) <= 65536.
Proof. assert (size (list_to_set fork_pages : gset Z) = 9%nat) as -> by reflexivity. lia. Qed.

Lemma fork_written a v : a mod 8 = 0 -> assoc fork_writes a = Some v -> u64 v = v -> load64 (ram fork_state) a = Ok v.
Proof. apply (machine_written 2047 fork_pages); [exact fork_pages_ok|exact fork_stores_ok]. Qed.

Lemma fork_inv : @frames_inv phys (phys_frames sample_hhdm) sample_laws fork_state (list_to_set fork_pages).
Proof. apply (machine_inv 2047 fork_pages); [exact fork_pages_ok|exact fork_stores_ok|exact fork_size]. Qed.

Lemma fork_run : @frames_run phys (phys_frames sample_hhdm) sample_laws fork_state 1.
Proof. apply (machine_run 2047 fork_pages fork_writes fork_pages_ok fork_stores_ok fork_size 11); [lia|lia|reflexivity]. Qed.

(** The walk through three entries that are present. *)
Lemma fork_used t : 0 <=? t = true -> fork_page t <> 0.
Proof. intros Ht%Z.leb_le. unfold fork_page, sample_hhdm. lia. Qed.

Lemma fork_next t i t' : 0 <=? t = true -> (0 <=? t') && (t' <? 16) = true ->
  assoc fork_writes (elem (fork_page t) i) = Some (t' * 4096 + 7) -> elem (fork_page t) i mod 8 = 0 ->
  @get_next_lvl phys (phys_frames sample_hhdm) sample_alloc (fork_page t) i true fork_state = Ok (fork_page t', fork_state).
Proof.
  intros H0%fork_used [? ?]%andb_true_iff Ha H8. unfold get_next_lvl, load. cbn [wmem phys_frames hhdm_offset].
  rewrite (proj2 (Z.eqb_neq (fork_page t) 0)) by done.
  rewrite (fork_written _ _ H8 Ha) by (apply u64_small; lia). bind_simpl.
  assert (t' ∈ [0; 1; 2; 3; 4; 5; 6; 7; 8; 9; 10; 11; 12; 13; 14; 15]) as Hin by (change (t' ∈ seqZ 0 16); apply elem_of_seqZ; lia).
  clear -Hin. repeat (apply elem_of_cons in Hin as [->|Hin]; [reflexivity|]). by apply elem_of_nil in Hin.
Qed.

Lemma fork_walk a b c d : (a, b, c, d) = (2, 4, 6, 8) \/ (a, b, c, d) = (3, 5, 7, 9) ->
  @virtual_to_pt_entry phys (phys_frames sample_hhdm) sample_alloc (fork_space a) used_address true KiB4 fork_state =
    Ok (fork_page d + 40, fork_state).
Proof.
  intros Ht. unfold virtual_to_pt_entry. cbn [top_level fork_space llpage_size lpage_size].
  change (KiB4 =? GiB1) with false. change (KiB4 =? MiB2) with false.
  destruct Ht as [[= -> -> -> ->]|[= -> -> -> ->]].
  - rewrite (proj2 (Z.eqb_neq (fork_page 2) 0) (fork_used 2 eq_refl)), (fork_next 2 (index_at used_address 39) 4 eq_refl eq_refl eq_refl eq_refl). bind_simpl.
    rewrite (proj2 (Z.eqb_neq (fork_page 4) 0) (fork_used 4 eq_refl)), (fork_next 4 (index_at used_address 30) 6 eq_refl eq_refl eq_refl eq_refl). bind_simpl.
    rewrite (proj2 (Z.eqb_neq (fork_page 6) 0) (fork_used 6 eq_refl)), (fork_next 6 (index_at used_address 21) 8 eq_refl eq_refl eq_refl eq_refl). bind_simpl.
    reflexivity.
  - rewrite (proj2 (Z.eqb_neq (fork_page 3) 0) (fork_used 3 eq_refl)), (fork_next 3 (index_at used_address 39) 5 eq_refl eq_refl eq_refl eq_refl). bind_simpl.
    rewrite (proj2 (Z.eqb_neq (fork_page 5) 0) (fork_used 5 eq_refl)), (fork_next 5 (index_at used_address 30) 7 eq_refl eq_refl eq_refl eq_refl). bind_simpl.
    rewrite (proj2 (Z.eqb_neq (fork_page 7) 0) (fork_used 7 eq_refl)), (fork_next 7 (index_at used_address 21) 9 eq_refl eq_refl eq_refl eq_refl). bind_simpl.
    reflexivity.
Qed.

Lemma fork_unmaps_parent_witness : exists w' e,
  @load phys (phys_frames sample_hhdm) fork_state (fork_page 8 + 40) = Ok (10 * 4096 + 7) /\
  @fork_private_page phys (phys_frames sample_hhdm) sample_alloc (fork_space 2) (fork_space 2) (fork_space 3) used_address fork_state = Ok w' /\
  @load phys (phys_frames sample_hhdm) w' (fork_page 8 + 40) = Ok e /\ pte_flags e = 0.
Proof.
  assert (@load phys (phys_frames sample_hhdm) fork_state (fork_page 8 + 40) = Ok (10 * 4096 + 7)) as L by by apply fork_written.
  destruct (@fork_unmaps_parent phys (phys_frames sample_hhdm) sample_laws sample_alloc (fork_space 2) (fork_space 2) (fork_space 3)
    used_address fork_state fork_state (list_to_set fork_pages) (fork_page 8 + 40) (fork_page 9 + 40) (10 * 4096 + 7) 10
    eq_refl (fork_walk 2 4 6 8 (or_introl eq_refl)) (fork_walk 3 5 7 9 (or_intror eq_refl)) fork_inv)
    as [(page & w' & E & _ & _ & (e & Le & _ & Fe & _) & _)|[_ Hno]].
  - exists 8. split; [set_solver|unfold fork_page; cbn; lia].
  - exists 9. split; [set_solver|unfold fork_page; cbn; lia].
  - unfold disjoint_ranges, fork_page. lia.
  - exact L.
  - reflexivity.
  - reflexivity.
  - set_solver.
  - exists w', e. split; [exact L|split; [exact E|split; [exact Le|exact Fe]]].
  - exfalso. apply Hno, fork_run.
Defined.
End Witnesses.

