(* ===== verification/SystemClaims.v ===== *)
(** * Properties of the log and the interrupt path

    A line of the log, the descriptor of an interrupt, and what an interrupt leads
    to. *)

From S2P Require Import Prelude Memory LibcString StringProofs Stdio StdioFloat Printf StdioProofs StdioFormat Terminal Interrupts.

(** ** The log *)

Section Log.
Context {S : Type} `{Hardware S} (response : option limine_response) (main_term : limine_terminal).
Context (fuel : nat) (lit : list Z -> Z) (m : mem) (Hwf : mem_wf m).
Local Abbreviation putchar := (putchar response main_term).

(** Where the literals of the log lie. *)
Record log_literals (level : log_level) : Prop := {
  ll_prefix : cstr m (lit (str "%s: ")) (str "%s: ");
  ll_level : cstr m (lit (level_str level)) (level_str level) /\ 0 < lit (level_str level);
  ll_newline : cstr m (lit [10]) [10];
}.

(** The characters reach the terminal one by one. *)
Lemma vprintf_pieces fmt ps s : cstr m fmt (flat_map piece_source ps) -> Forall (piece_ok m) ps ->
  (longest ps < fuel)%nat -> (List.length ps < fuel)%nat ->
  Z.of_nat (List.length (flat_map render ps)) < PRINTF_MAX_POSSIBLE_BUFFER_SIZE ->
  k_vprintf response main_term fuel m fmt (flat_map piece_args ps) s =
  Ok (fold_left (fun s c => putchar c s) (flat_map render ps) s).
Proof.
  intros Hs Hok Hf Hn Hl. unfold k_vprintf, vprintf. rewrite function_renders by done.
  change (putchar_wrapper response main_term) with (fun c e s => Ok ((fun c (_ : Z) s => putchar c s) c e s)).
  rewrite put_all_total; [done|done|done|done|].
  unfold PRINTF_MAX_POSSIBLE_BUFFER_SIZE in Hl. cbn. unfold PRINTF_MAX_POSSIBLE_BUFFER_SIZE. lia.
Qed.

(** One line of the log, for any format made of pieces. *)
Lemma vlog_pieces level fmt ps s : log_literals level -> cstr m fmt (flat_map piece_source ps) -> Forall (piece_ok m) ps ->
  (16 < fuel)%nat -> (longest ps < fuel)%nat -> (List.length ps < fuel)%nat ->
  Z.of_nat (List.length (flat_map render ps)) < PRINTF_MAX_POSSIBLE_BUFFER_SIZE ->
  vlog response main_term fuel lit m level fmt (flat_map piece_args ps) s =
  Ok (fold_left (fun s c => putchar c s) (level_str level ++ str ": " ++ flat_map render ps ++ [10]) s).
Proof.
  intros [Hp [Hl Hl0] Hn] Hs Hok Hf Hf1 Hf2 Hlen. unfold vlog, k_printf.
  assert (List.length (level_str level) <= 16)%nat as Hlev by (destruct level; vm_compute; repeat constructor).
  generalize dependent (level_str level). intros name Hl Hl0 Hlev.
  rewrite (vprintf_pieces _ [CString (lit name) name; Text (ch ":"); Text (ch " ")] s);
    [|exact Hp| |unfold longest; simpl; lia|simpl; lia|cbn [flat_map render]; rewrite length_app; simpl; unfold PRINTF_MAX_POSSIBLE_BUFFER_SIZE; lia].
  2:{ constructor; [split_and!; [done|done|unfold PRINTF_MAX_POSSIBLE_BUFFER_SIZE; lia]|repeat constructor; done]. }
  bind_simpl. rewrite vprintf_pieces by done. bind_simpl.
  rewrite (vprintf_pieces _ [Text 10]); [|exact Hn| |simpl; lia|simpl; lia|done].
  2:{ repeat constructor; done. }
  rewrite <- !fold_left_app. do 2 f_equal. cbn [flat_map render]. by rewrite app_nil_r, <- !app_assoc.
Qed.
(** C33: a line of the log is, character for character, the coloured name of the level,
    a colon, the rendered message and a line end. *)
Theorem log_line level fmt ps s : log_literals level -> cstr m fmt (flat_map piece_source ps) -> Forall (piece_ok m) ps ->
  (16 < fuel)%nat -> (longest ps < fuel)%nat -> (List.length ps < fuel)%nat ->
  Z.of_nat (List.length (flat_map render ps)) < PRINTF_MAX_POSSIBLE_BUFFER_SIZE ->
  vlog response main_term fuel lit m level fmt (flat_map piece_args ps) s =
  Ok (fold_left (fun s c => putchar c s) (level_str level ++ str ": " ++ flat_map render ps ++ [10]) s).
Proof. apply vlog_pieces. Qed.
End Log.

(** ** Interrupt descriptors *)

(** The address a descriptor of the IDT denotes by its three fields. *)
Definition gate_offset (e : idt_entry_t) : Z :=
  offset_low e + Z.shiftl (offset_middle e) 16 + Z.shiftl (offset_high e) 32.

Lemma idt_entry_length e : List.length (idt_entry_bytes e) = 15%nat.
Proof. unfold idt_entry_bytes. by rewrite !length_app, !length_le_bytes. Qed.

(** C39: the middle part of the address has eight bits instead of sixteen: the address
    the fields of the structure denote is that of the stub without its bits 24 to 31,
    so they denote the stub exactly when those bits are zero; every field is in its
    range and an entry takes 15 bytes, one less than the gate of 16 bytes the processor
    reads, whose decoding is not part of the statement. *)
Theorem idt_gate_offset isr type_attr stack : 0 <= isr < W64 -> 0 <= type_attr < 256 -> 0 <= stack < 256 ->
  let e := idt_entry_of isr type_attr stack in
  gate_offset e = isr - ((isr / 2 ^ 24) mod 256) * 2 ^ 24 /\
  (gate_offset e = isr <-> (isr / 2 ^ 24) mod 256 = 0) /\
  0 <= offset_low e < 2 ^ 16 /\ 0 <= offset_middle e < 2 ^ 8 /\ 0 <= offset_high e < 2 ^ 32 /\
  Z.of_nat (List.length (idt_entry_bytes e)) = sizeof_idt_entry.
Proof.
  intros Hi Ht Hs e. assert (gate_offset e = isr - ((isr / 2 ^ 24) mod 256) * 2 ^ 24) as Eg.
  { unfold gate_offset, e. cbn [offset_low offset_middle offset_high idt_entry_of]. unfold wrap.
    rewrite !Z.shiftl_mul_pow2, !Z.shiftr_div_pow2 by lia. Z.to_euclidean_division_equations. lia. }
  split; [exact Eg|]. rewrite Eg. cbn [offset_low offset_middle offset_high e idt_entry_of].
  split; [lia|]. pose proof (wrap_range 16 isr). pose proof (wrap_range 8 (Z.shiftr isr 16)). pose proof (wrap_range 32 (Z.shiftr isr 32)).
  rewrite idt_entry_length. unfold sizeof_idt_entry. lia.
Qed.

(** ** Interrupts *)

(** What the two interrupt controllers have in service, the highest priority first. *)
Record controllers : Type := Controllers { first : list Z; second : list Z }.

(** The 8259's unspecific end of interrupt, written to a port: the controller the port
    belongs to ends the service of the highest priority. *)
Definition end_of_interrupt (port : Z) (c : controllers) : controllers :=
  if port =? 32 then Controllers (tail (first c)) (second c)
  else if port =? 160 then Controllers (first c) (tail (second c)) else c.

(** The controllers when they deliver a vector: 40 to 47 come through level 2 of the
    first one, and other vectors are not theirs. *)
Definition deliver (vector : Z) (c : controllers) : controllers :=
  if vector <? 40 then Controllers ((vector - 32) :: first c) (second c)
  else if vector <? 48 then Controllers (2 :: first c) ((vector - 40) :: second c) else c.

Section Dispatch.
Context {S : Type} `{Hardware S} (response : option limine_response) (main_term : limine_terminal).
Context (fuel : nat) (lit : list Z -> Z) (m : mem).
Local Abbreviation interrupt_handler := (interrupt_handler response main_term fuel lit m).

(** The machine's controllers, and what the write of an end of interrupt does to them. *)
Context (pics : S -> controllers).
Context (Heoi : forall port s, pics (out8 port PIC_EOI s) = end_of_interrupt port (pics s)).

(** The function registered for the vector, if there is one, has run. *)
Definition handled (table : gmap Z interrupt_handler_t) (f : cpu_interrupt_state_t) (s s' : S) : Prop :=
  let h := handler_at table (int_no f) in
  if decide (handler h = 0) then s' = s
  else call_handler (handler h) (regs f) (if arg h then Some (args h) else None) s = Ok s'.

Lemma irq_handler_handled table f s s' : handled table f s s' -> irq_handler table f s = Ok (eoi (int_no f) s').
Proof.
  unfold handled, irq_handler. destruct (handler_at table (int_no f)) as [h a b]. cbn [handler args arg].
  destruct (decide (h = 0)) as [->|Hne]; [by intros ->|]. intros E. rewrite (proj2 (Z.eqb_neq h 0)) by done. cbn [negb].
  destruct b; by rewrite E.
Qed.

Lemma eoi_pics n s : pics (eoi n s) =
  end_of_interrupt 32 (if 40 <=? n then end_of_interrupt 32 (pics s) else pics s).
Proof. unfold eoi. rewrite Heoi. destruct (40 <=? n); [by rewrite Heoi|done]. Qed.

(** C37: an interrupt is acknowledged once its handler has run, or at once when none is
    registered, and the interrupted code goes on.  What the controllers deliver as 32
    to 39 is in service no longer, and nothing else changes.  What comes from the
    second controller (40 to 47) stays in service there for good: both writes go to
    the first one, where the second write ends the service of another interrupt, if
    there is one; and so do both writes for a vector that no controller delivered (48
    to 255).  The writes come after the handler.  A CPU exception, or any other number,
    never resumes. *)
Theorem interrupt_acknowledge table f s :
  (forall s1 c, 32 <= int_no f < 256 -> handled table f s s1 -> pics s1 = deliver (int_no f) c ->
     exists s', interrupt_handler table f s = Ok (Resumed s') /\
       s' = out8 32 32 (if 40 <=? int_no f then out8 32 32 s1 else s1) /\
       (int_no f < 40 -> pics s' = c) /\
       (40 <= int_no f < 48 -> pics s' = Controllers (tail (first c)) ((int_no f - 40) :: second c)) /\
       (48 <= int_no f -> pics s' = Controllers (tail (tail (first c))) (second c))) /\
  (~ 32 <= int_no f < 256 -> forall s', interrupt_handler table f s <> Ok (Resumed s')).
Proof.
  unfold Interrupts.interrupt_handler. split.
  - intros s1 c Hn Hh Hc. rewrite (proj2 (Z.ltb_ge _ 32)), (proj2 (Z.leb_le 32 _)), (proj2 (Z.ltb_lt _ 256)) by lia.
    cbn [andb]. rewrite (irq_handler_handled table f s s1 Hh). bind_simpl. eexists. split; [done|]. split; [done|].
    rewrite eoi_pics, Hc. unfold deliver. destruct c as [c1 c2].
    split_and!; intros Hr; destruct (Z.leb_spec 40 (int_no f)), (Z.ltb_spec (int_no f) 40), (Z.ltb_spec (int_no f) 48); try lia; done.
  - intros Hn s'. destruct (int_no f <? 32) eqn:E1; [|destruct ((32 <=? int_no f) && (int_no f <? 256)) eqn:E2].
    + intros E. by apply bind_inv in E as (? & _ & [=]).
    + apply andb_true_iff in E2 as [?%Z.leb_le ?%Z.ltb_lt]. lia.
    + intros E. by apply bind_inv in E as (? & _ & [=]).
Qed.
End Dispatch.

(** ** Witnesses *)

(** A terminal that collects the text, and ports that record what is written. *)
#[local] Instance recorder : Hardware (list Z * list (Z * Z)) := {
  out8 := fun port v s => (s.1, s.2 ++ [(port, v)]);
  in8 := fun _ s => (0, s);
  term_write := fun _ l _ s => (s.1 ++ l, s.2);
  call_handler := fun _ _ _ s => Ok s;
}.

Definition sample_response : option limine_response := Some (Response [Term 4096 80]).
Definition sample_term : limine_terminal := Term 4096 80.
Definition sample_lit (l : list Z) : Z :=
  if decide (l = str "%s: ") then 4096 else if decide (l = level_str WARN) then 4200 else 4300.
Definition log_mem : mem :=
  write_bytes (write_bytes (write_bytes (write_bytes ∅ 4096 (str "%s: " ++ [0])) 4200 (level_str WARN ++ [0]))
    4300 [10; 0]) 4400 (str "%d pages" ++ [0]).
Definition log_pieces : list piece := Integer false (ch "d") 12 :: List.map Text (str " pages").

Lemma log_line_witness :
  vlog sample_response sample_term 20 sample_lit log_mem WARN 4400 [Word 12] ([], []) =
  Ok (level_str WARN ++ str ": 12 pages" ++ [10], []).
Proof.
  assert (mem_wf log_mem) as Hwf by mem_check.
  etransitivity.
  - apply (log_line sample_response sample_term 20 sample_lit log_mem Hwf WARN 4400 log_pieces ([], [])).
    + split; [mem_check|split; [mem_check|reflexivity]|mem_check].
    + mem_check.
    + repeat constructor; discriminate.
    + repeat constructor.
    + vm_compute. repeat constructor.
    + vm_compute. repeat constructor.
    + reflexivity.
  - vm_compute. reflexivity.
Defined.

(** A stub at the usual place of the kernel. *)
Lemma idt_gate_offset_witness :
  gate_offset (idt_entry_of 18446744071562069136 142 0) = 18446744069414585488 /\
  gate_offset (idt_entry_of 18446744071562069136 142 0) <> 18446744071562069136.
Proof.
  destruct (idt_gate_offset 18446744071562069136 142 0) as (E & Ei & _);
    [split; [discriminate|reflexivity]|split; [discriminate|reflexivity]|split; [discriminate|reflexivity]|].
  split; [exact E|]. rewrite Ei. discriminate.
Defined.

(** Ports of a machine with the two controllers, and a log of the calls of handlers. *)
#[local] Instance controller_ports : Hardware (controllers * list Z) := {
  out8 := fun port v s => if v =? 32 then (end_of_interrupt port s.1, s.2) else s;
  in8 := fun _ s => (0, s);
  term_write := fun _ l _ s => s;
  call_handler := fun h _ _ s => Ok (s.1, s.2 ++ [h]);
}.

(** Vector 33 is the keyboard, 44 the mouse: the first is acknowledged by the handler
    at 4096, the second stays in service. *)
Lemma interrupt_acknowledge_witness :
  (exists s, @interrupt_handler _ controller_ports sample_response sample_term 20 sample_lit log_mem {[33 := Handler 4096 0 false]}
     (Frame 33 0 0 []) (Controllers [1] [], []) = Ok (Resumed s) /\ s.1 = Controllers [] []) /\
  (exists s, @interrupt_handler _ controller_ports sample_response sample_term 20 sample_lit log_mem ∅
     (Frame 44 0 0 []) (Controllers [2] [4], []) = Ok (Resumed s) /\ s.1 = Controllers [] [4]).
Proof.
  split.
  - destruct (@interrupt_acknowledge _ controller_ports sample_response sample_term 20 sample_lit log_mem Datatypes.fst
      (fun port s => eq_refl) {[33 := Handler 4096 0 false]} (Frame 33 0 0 []) (Controllers [1] [], [])) as [Ha _].
    destruct (Ha (Controllers [1] [], [4096]) (Controllers [] [])) as (s & E & _ & Hs & _);
      [split; [discriminate|reflexivity]|reflexivity|reflexivity|].
    exists s. split; [exact E|]. apply Hs. reflexivity.
  - destruct (@interrupt_acknowledge _ controller_ports sample_response sample_term 20 sample_lit log_mem Datatypes.fst
      (fun port s => eq_refl) ∅ (Frame 44 0 0 []) (Controllers [2] [4], [])) as [Ha _].
    destruct (Ha (Controllers [2] [4], []) (Controllers [] [])) as (s & E & _ & _ & Hs & _);
      [split; [discriminate|reflexivity]|reflexivity|reflexivity|].
    exists s. split; [exact E|]. apply Hs. split; [discriminate|reflexivity].
Defined.
