(* ===== verification/Kernel.v ===== *)
(** * kernel.cpp: the boot sequence

    [_start] composes the initialisations of the parts in the order of the source.
    The kernel's image (the string literals, at [lit] in [m]) lies outside of the
    memory the page manager hands out. *)

From S2P Require Import Prelude Memory LibcString Frames Math Bitmap Physical Heap Paging Stdio StdioFloat Printf.
From S2P Require Import Terminal Interrupts Cpu.

(** What the boot loader's responses hold. *)
Record boot_info : Type := Boot {
  boot_hhdm : Z;
  boot_response : option limine_response;
  boot_memmap : list memmap_entry;
  boot_file_size : Z;
  boot_physical_base : Z;
  boot_virtual_base : Z;
}.

Definition LIMINE_MEMMAP_FRAMEBUFFER := 7.

(** An entry as the page tables' initialisation looks at it. *)
Definition paging_entry (e : memmap_entry) : Z * Z * bool :=
  (mm_base e, mm_length e,
   match mm_type e with LIMINE_MEMMAP_OTHER c => c =? LIMINE_MEMMAP_FRAMEBUFFER | LIMINE_MEMMAP_USABLE => false end).

Section Kernel.
Context {S : Type} `{Hardware S} `{Cpuid} (fuel : nat) (lit : list Z -> Z) (m : mem).

(** The global variables after the boot, with the CPU and the state of the devices. *)
Record kernel_state : Type := Kernel {
  k_devices : S;
  k_cpu : cpu_t;
  k_gdt : list gdt_entry_t;
  k_idt : gmap Z idt_entry_t;
  k_phys : phys;
  k_pagemap : pagemap;
}.

(** Where the linker puts the heap's object and the tables; [ecx] is what that register
    holds when the processor's features are asked for. *)
Context (allocator gdt_at idt_at ecx : Z) (interrupt_table : Z -> Z) (ram0 : mem) (b : boot_info).

(** The CPU executes [hlt] in the state that results. *)
Definition start (c : cpu_t) (s : S) : outcome kernel_state :=
  let r := boot_response b in
  '(main_term, _) ← terminal_init r;
  let say t args s := log_info r main_term fuel lit m (lit (str t)) args s in
  (* gdt::init *)
  s ← say "Initializing GDT"%string [] s;
  let c := gdt_load (gdt_descriptor gdt_at) c in
  (* idt::init *)
  s ← say "Initializing IDT"%string [] s;
  idt ← idt_fill interrupt_table ∅;
  s ← say "Initializing PIC"%string [] s;
  let s := pic_init s in
  let c := idt_reload (TableReg idt_limit idt_at) c in
  let c := interrupts_enable c in
  (* physical::init *)
  s ← say "Initializing Physical Memory Manager"%string [] s;
  '(entries, st) ← physical_init (boot_hhdm b) allocator (boot_memmap b) (phys_zero ram0);
  (* paging::init *)
  s ← say "Initializing Virtual Memory Manager"%string [] s;
  '(pm, cr3, st) ← paging_init (H := phys_frames (boot_hhdm b)) allocator (arch_init ecx) (List.map paging_entry entries)
                     (boot_file_size b) (boot_physical_base b) (boot_virtual_base b) st;
  let c := write_cr3 cr3 c in
  (* the report *)
  s ← k_printf r main_term fuel lit m [10] [] s;
  s ← say "Total Memory: %i"%string [Word (total st)] s;
  s ← say "Usable Memory: %i"%string [Word (usable st)] s;
  s ← say "Used Memory: %i"%string [Word (used st)] s;
  s ← say "Free Memory: %i"%string [Word (free_memory st)] s;
  Ok (Kernel s (halt true c) gdt_init idt st pm).
End Kernel.
