(* ===== verification/Boot.v ===== *)
(** * The boot sequence as a whole

    The theorem on kernel.cpp: from the boot loader's responses to the halted CPU that
    waits for interrupts, through the log, the tables of the processor, the page
    manager, the heap and the page tables. *)

From S2P Require Import Prelude Memory LibcString StringProofs Frames Math Bitmap Physical PhysicalProofs.
From S2P Require Import Heap HeapInv HeapProofs HeapTheorems Machine PhysicalInit Paging PagingProofs PagingTheorems Mmu PagingInit BootMap.
From S2P Require Import Stdio StdioFloat Printf StdioProofs StdioFormat Terminal Interrupts Cpu SystemClaims Kernel.

(** ** The log of the boot *)

(** The formats of [_start] and of the functions it calls. *)
Definition boot_formats : list string :=
  ["Initializing GDT"; "Initializing IDT"; "Initializing PIC"; "Initializing Physical Memory Manager";
   "Initializing Virtual Memory Manager"; "Total Memory: %i"; "Usable Memory: %i"; "Used Memory: %i"; "Free Memory: %i"]%string.

Definition texts (t : string) : list piece := List.map Text (str t).

(** A number as [%i] prints it. *)
Definition count (v : Z) : piece := Integer false (ch "i") v.

Definition line (ps : list piece) : list Z := level_str INFO ++ str ": " ++ flat_map render ps ++ [10].

Definition boot_log : list Z :=
  line (texts "Initializing GDT") ++ line (texts "Initializing IDT") ++ line (texts "Initializing PIC").
Definition memory_log : list Z :=
  line (texts "Initializing Physical Memory Manager") ++ line (texts "Initializing Virtual Memory Manager").
Definition report (st : phys) : list Z :=
  [10] ++ line (texts "Total Memory: " ++ [count (total st)]) ++ line (texts "Usable Memory: " ++ [count (usable st)]) ++
  line (texts "Used Memory: " ++ [count (used st)]) ++ line (texts "Free Memory: " ++ [count (free_memory st)]).

Lemma digits_length n base flags v : (List.length (digits_ref n base flags v) <= n)%nat.
Proof.
  revert v. induction n as [|n IH]; intros v; [done|]. cbn [digits_ref].
  destruct (v <? base); simpl; [lia|]. rewrite length_app. specialize (IH (v / base)). simpl. lia.
Qed.

Lemma count_length v : (List.length (render (count v)) <= 32)%nat.
Proof.
  unfold count, render. simpl orb. cbv iota. rewrite length_app.
  pose proof (digits_length 31 (conv_base (ch "i")) (conv_flags (ch "i")) (Z.abs (s32 v))) as Hd.
  generalize dependent (digits_ref 31 (conv_base (ch "i")) (conv_flags (ch "i")) (Z.abs (s32 v))). intros l Hl.
  destruct (s32 v <? 0); simpl; lia.
Qed.

(** Formats of plain text and numbers. *)
Definition short (x : piece) : Prop :=
  match x with Text c => is_char c /\ c <> ch "%" | Integer false conv _ => conv = ch "i" | _ => False end.

Lemma short_ok m ps : Forall short ps -> Forall (piece_ok m) ps /\ (longest ps <= 32)%nat /\
  (List.length (flat_map render ps) <= 32 * List.length ps)%nat.
Proof.
  induction 1 as [|x ps Hx Hps (IH1 & IH2 & IH3)]; [by split_and!; [|vm_compute; lia|]|].
  assert (piece_ok m x /\ (List.length (render x) <= 32)%nat) as [H1 H2].
  { destruct x as [c| |long conv v|v|p l]; try done; [split; [done|simpl; lia]|]. destruct long; [done|]. simpl in Hx. subst conv.
    split; [|apply count_length]. simpl. set_solver. }
  split_and!; [by constructor| |].
  - change (longest (x :: ps)) with (List.length (render x) `max` longest ps)%nat. lia.
  - cbn [flat_map]. rewrite length_app. simpl. lia.
Qed.

(** Text that can stand in a format as it is. *)
Definition plain (t : string) : bool :=
  forallb (fun c => (0 <? c) && (c <? 256) && negb (c =? ch "%")) (str t) && (List.length (str t) <? 59)%nat.

Lemma plain_texts t : plain t = true ->
  Forall short (texts t) /\ (List.length (texts t) < 59)%nat /\ str t = flat_map piece_source (texts t) /\
  flat_map piece_args (texts t) = [].
Proof.
  unfold plain, texts. rewrite andb_true_iff, Nat.ltb_lt, forallb_forall, length_map. intros [Hp Hl].
  split_and!; [|done| |].
  - apply Forall_forall. intros x (c & -> & Hc)%list_elem_of_fmap. apply list_elem_of_In, Hp in Hc.
    rewrite !andb_true_iff, !Z.ltb_lt, negb_true_iff, Z.eqb_neq in Hc. simpl. unfold is_char. tauto.
  - clear. by induction (str t) as [|c l IH]; [|simpl; rewrite <- IH].
  - clear. by induction (str t) as [|c l IH].
Qed.

Section Say.
Context {S : Type} `{Hardware S} (response : option limine_response) (main_term : limine_terminal).
Context (fuel : nat) (lit : list Z -> Z) (m : mem) (Hwf : mem_wf m) (Hfuel : (64 < fuel)%nat).
Context (Hlog : log_literals lit m INFO) (Hlit : forall t, t ∈ boot_formats -> cstr m (lit (str t)) (str t)).

(** The characters on the main terminal. *)
Definition speak (l : list Z) (s : S) : S := fold_left (fun s c => putchar response main_term c s) l s.

Lemma speak_app l l' s : speak (l ++ l') s = speak l' (speak l s).
Proof. apply fold_left_app. Qed.

Lemma say_line t ps s : t ∈ boot_formats -> str t = flat_map piece_source ps -> Forall short ps -> (List.length ps < 60)%nat ->
  log_info response main_term fuel lit m (lit (str t)) (flat_map piece_args ps) s = Ok (speak (line ps) s).
Proof.
  intros Ht Es Hps Hn. destruct (short_ok m ps Hps) as (Hok & Hl & Hlen).
  apply (vlog_pieces response main_term fuel lit m Hwf INFO _ ps s Hlog); [rewrite <- Es; by apply Hlit|done|lia|lia|lia|].
  unfold PRINTF_MAX_POSSIBLE_BUFFER_SIZE. lia.
Qed.

Lemma say_text t s : bool_decide (t ∈ boot_formats) = true -> plain t = true ->
  log_info response main_term fuel lit m (lit (str t)) [] s = Ok (speak (line (texts t)) s).
Proof.
  intros Ht%bool_decide_eq_true_1 Hp. apply plain_texts in Hp as (Hs & Hl & Es & Ea). rewrite <- Ea. apply say_line; [done|done|done|lia].
Qed.

(** A line that ends in a number. *)
Lemma say_count f t v s : bool_decide (f ∈ boot_formats) = true -> str f = str t ++ str "%i" -> plain t = true ->
  log_info response main_term fuel lit m (lit (str f)) [Word v] s = Ok (speak (line (texts t ++ [count v])) s).
Proof.
  intros Hf%bool_decide_eq_true_1 Ef Hp. apply plain_texts in Hp as (Hs & Hl & Es & Ea).
  assert (flat_map piece_args (texts t ++ [count v]) = [Word v]) as <- by (by rewrite flat_map_app, Ea).
  apply say_line; [done|by rewrite flat_map_app, <- Es|apply Forall_app; split; [done|by repeat constructor]|].
  rewrite length_app. simpl. lia.
Qed.

Lemma say_newline s : k_printf response main_term fuel lit m [10] [] s = Ok (speak [10] s).
Proof.
  apply (vprintf_pieces response main_term fuel m Hwf (lit [10]) [Text 10] s); [apply Hlog|by repeat constructor| | |done];
    unfold longest; simpl; lia.
Qed.
End Say.

(** ** The tables of the processor *)

Lemma idt_fill_spec table : exists idt, idt_fill table ∅ = Ok idt /\
  forall i, 0 <= i < 256 -> idt !! i = Some (idt_entry_of (table i) 142 0).
Proof.
  destruct (for_range_inv 0 256 (fun i idt => Ok (idt_set_descriptor idt (u8 i) (table i) 142 0))
    (fun n idt => forall i, 0 <= i < n -> idt !! i = Some (idt_entry_of (table i) 142 0)) ∅) as (idt & E & Hi);
    [lia|lia| |by exists idt].
  intros n idt Hn Hi. eexists. split; [done|]. intros i Hr. unfold idt_set_descriptor. rewrite u8_small by lia.
  destruct (decide (i = n)) as [->|]; [by rewrite lookup_insert_eq|]. rewrite lookup_insert_ne by done. apply Hi. lia.
Qed.

(** ** The memory map the page tables see *)

Lemma shrunk_above e e' pa : entry_pages e \/ is_usable e = false -> shrunk e e' -> GiB4 <= pa ->
  described [paging_entry e'] pa = described [paging_entry e] pa.
Proof.
  intros He [->|(Hu & n & -> & Hn)] Hpa; [done|]. destruct He as [(? & _ & ? & _ & ?)|?]; [|congruence].
  unfold described, paging_entry. cbn [existsb mm_base mm_length]. rewrite !u64_small by lia.
  apply eq_true_iff_eq. rewrite !orb_true_iff, !andb_true_iff, !Z.leb_le, !Z.ltb_lt.
  split; (intros [?|?]; [exfalso|done]); Z.to_euclidean_division_equations; lia.
Qed.

Lemma described_cons e es pa : described (e :: es) pa = described [e] pa || described es pa.
Proof. unfold described. cbn [existsb]. destruct e as [[b l] fb]. by rewrite orb_false_r. Qed.

Lemma shrunk_described es es' pa : (forall e, e ∈ es -> entry_pages e \/ is_usable e = false) -> Forall2 shrunk es es' ->
  GiB4 <= pa -> described (List.map paging_entry es') pa = described (List.map paging_entry es) pa.
Proof.
  intros Hes HF Hpa. induction HF as [|e e' es es' He HF IH]; [done|]. cbn [List.map].
  rewrite (described_cons (paging_entry e')), (described_cons (paging_entry e)), (shrunk_above e e') by (done || by apply Hes; left).
  rewrite IH; [done|]. intros f Hf. apply Hes. by right.
Qed.

Lemma shrunk_access hh es es' fs pb vb va : (forall e, e ∈ es -> entry_pages e \/ is_usable e = false) -> Forall2 shrunk es es' ->
  boot_access hh (List.map paging_entry es') fs pb vb va = boot_access hh (List.map paging_entry es) fs pb vb va.
Proof.
  intros Hes HF. unfold boot_access. cbv zeta.
  assert (forall x, (x <? GiB4) || described (List.map paging_entry es') x = (x <? GiB4) || described (List.map paging_entry es) x) as E.
  { intros x. destruct (Z.ltb_spec x GiB4); [done|]. by rewrite (shrunk_described es es'). }
  by rewrite !E.
Qed.

Lemma shrunk_layout hh es es' fs pb vb top : (forall e, e ∈ es -> entry_pages e \/ is_usable e = false) -> Forall2 shrunk es es' ->
  boot_layout hh (List.map paging_entry es) fs pb vb top -> boot_layout hh (List.map paging_entry es') fs pb vb top.
Proof.
  intros Hes HF [L1 L2 L3 L4 L5 L6 L7 L8 L9]. constructor; try done. intros b l fb Hin.
  apply list_elem_of_fmap in Hin as (e' & E & Hin). apply list_elem_of_lookup in Hin as [i Hi].
  destruct (Forall2_lookup_r _ _ _ _ _ HF Hi) as (e & Hi' & Hs).
  assert (e ∈ es) as He by (apply list_elem_of_lookup; by exists i).
  destruct (L7 (mm_base e) (mm_length e) (paging_entry e).2) as (? & ? & ?).
  { apply list_elem_of_fmap. exists e. by destruct e. }
  unfold paging_entry in E. injection E as -> -> _.
  destruct Hs as [->|(Hu & n & -> & Hn)]; [done|]. destruct (Hes e He) as [(? & _ & ? & _ & ?)|?]; [|congruence].
  cbn [mm_base mm_length]. rewrite !u64_small by lia. lia.
Qed.

(** Usable entries lie below 4 GiB and so need no tables of their own. *)
Lemma shrunk_high e e' : entry_pages e \/ is_usable e = false -> shrunk e e' ->
  high_frames (paging_entry e') = high_frames (paging_entry e).
Proof.
  assert (forall l b n, 0 <= b -> 0 <= n -> b + n <= 524288 * page_size -> high_frames (b, n, l) = []) as Hlow.
  { intros l b n Hb Hn Ht. apply elem_of_nil_inv. intros t [Ht4 (p & -> & Hp%elem_of_seqZ)%list_elem_of_fmap]%list_elem_of_filter.
    Z.to_euclidean_division_equations. lia. }
  intros He [->|(Hu & n & -> & Hn)]; [done|]. destruct He as [(? & _ & ? & _ & ?)|?]; [|congruence].
  unfold paging_entry. cbn [mm_base mm_length]. rewrite !u64_small by lia. by rewrite !Hlow by lia.
Qed.

Lemma shrunk_pages hh es es' fs vb g : (forall e, e ∈ es -> entry_pages e \/ is_usable e = false) -> Forall2 shrunk es es' ->
  boot_pages hh (List.map paging_entry es') fs vb g = boot_pages hh (List.map paging_entry es) fs vb g.
Proof.
  intros Hes HF. unfold boot_pages, boot_path_set, boot_paths.
  assert (flat_map high_frames (List.map paging_entry es') = flat_map high_frames (List.map paging_entry es)) as ->; [|done].
  induction HF as [|e e' es es' He HF IH]; [done|]. cbn [List.map flat_map].
  rewrite IH by (intros f Hf; apply Hes; by right). f_equal. apply shrunk_high; [apply Hes; by left|done].
Qed.

(** ** The theorem *)

Section Claim.
Context {S : Type} `{Hardware S} `{Cpuid} (fuel : nat) (lit : list Z -> Z) (m : mem).
Context (allocator gdt_at idt_at ecx : Z) (interrupt_table : Z -> Z) (ram0 : mem) (b : boot_info).
Local Abbreviation hh := (boot_hhdm b).
Local Abbreviation es := (boot_memmap b).
Context (Hal : hh mod page_size = 0).

(** The kernel's image: the literals of the log are where the linker put them. *)
Record image_ok : Prop := {
  im_wf : mem_wf m;
  im_log : log_literals lit m INFO;
  im_formats : forall t, t ∈ boot_formats -> cstr m (lit (str t)) (str t);
}.

(** What the boot loader hands over: a terminal, a memory map of whole, disjoint and
    mapped pages whose bitmap fits, and the layout of the address space. *)
Record handover_ok (t : limine_terminal) (top : Z) : Prop := {
  ho_terminal : exists ts, boot_response b = Some (Response (t :: ts));
  ho_memmap : memmap_ok hh ram0 es;
  ho_limit : map_limit es <= 2048 /\ map_limit es <= 8 * map_bitmap es;
  ho_room : exists e, e ∈ es /\ is_usable e = true /\ map_bitmap es <= mm_length e;
  ho_allocator : 0 < allocator /\ valid ram0 allocator 169 /\ disjoint_ranges allocator 169 hh (524288 * page_size);
  ho_layout : boot_layout hh (List.map paging_entry es) (boot_file_size b) (boot_physical_base b) (boot_virtual_base b) top;
}.

(** An entry of the memory map holds the bitmap, the ten pages of the slabs, a page for
    the object of the address space and the pages of the tables. *)
Definition memory_enough : bool :=
  memory_run es (10 + boot_pages hh (List.map paging_entry es) (boot_file_size b) (boot_virtual_base b) (arch_init ecx)).

Local Abbreviation start := (start fuel lit m allocator gdt_at idt_at ecx interrupt_table ram0 b).
Local Abbreviation access := (boot_access hh (List.map paging_entry es) (boot_file_size b) (boot_physical_base b) (boot_virtual_base b)).

(** The memory of the kernel after the two initialisations. *)
Definition memory_ready (st : phys) (pm : pagemap) (cr3 : Z) : Prop :=
  std_sizes pm /\ (exists h, @heap_inv phys (phys_frames hh) (phys_frame_laws hh Hal) allocator st h) /\
  forall va, 0 <= va < W64 -> mmu hh (ram st) cr3 va = access va.

Lemma memory_init t top : handover_ok t top ->
  ok_or_panic memory_enough ('(entries, st) ← physical_init hh allocator es (phys_zero ram0);
     paging_init (H := phys_frames hh) allocator (arch_init ecx) (List.map paging_entry entries)
       (boot_file_size b) (boot_physical_base b) (boot_virtual_base b) st)
    (fun r => let '(pm, cr3, st) := r in memory_ready st pm cr3).
Proof.
  intros [_ Hmm [Hl1 Hl2] Hroom (Ha1 & Ha2 & Ha3) HL].
  destruct (physical_init_spec hh ram0 es allocator Hal Hmm Hl1 Hl2 Hroom Ha1 Ha2 Ha3)
    as (e & es' & st & _ & _ & _ & [(st' & h & E & Hh & _ & Hrun)|(E & _ & Hno)]); rewrite E.
  2:{ right. split; [done|]. apply not_true_iff_false. intros Hen. apply not_true_iff_false in Hno. apply Hno.
      unfold memory_enough in Hen. apply (memory_run_le _ _ _ Hen).
      pose proof (boot_pages_pos hh (List.map paging_entry es) (boot_file_size b) (boot_virtual_base b) (arch_init ecx)). lia. }
  bind_simpl.
  assert (forall e, e ∈ es -> entry_pages e \/ is_usable e = false) as Hes.
  { intros f Hf. destruct (is_usable f) eqn:Ef; [left|by right]. by apply (mo_entry _ _ _ Hmm f Hf Ef). }
  pose proof (physical_init_shrinks hh allocator es _ es' st' E) as HF.
  eapply op_mono; [apply (@paging_init_spec phys (phys_frames hh) (phys_frame_laws hh Hal) allocator (arch_init ecx) _ _ _ _ top st' h memory_enough Hh);
    [by apply (shrunk_layout hh es es')|]|].
  { intros Hen. rewrite (shrunk_pages hh es es') by done. by apply Hrun. }
  intros [[pm cr3] st''] (Hss & Hh'' & Hm). split_and!; [done|done|]. intros va Hva.
  rewrite <- (shrunk_access hh es es') by done. by apply Hm.
Qed.

(** C1: the whole boot, for every memory map whose usable memory lies in the first 2048
    pages (8 MiB), where the page manager is right ([ho_limit]), and which the other
    fields of [handover_ok] describe: it ends, or it panics and no entry of the map holds
    the bitmap, the slabs, the object of the address space and the page tables.  If it ends, the terminal has received exactly the
    lines of the log with the interrupt controllers programmed between the third and
    the fourth, every vector has its gate, the CPU runs on the kernel's segments and
    waits with interrupts enabled, the heap is in its invariant, and the walk of the
    tables in cr3 gives every address the translation of [boot_access]. *)
Theorem boot_correct t top c s : (64 < fuel)%nat -> image_ok -> handover_ok t top ->
  (exists k, start c s = Ok k /\
     k_devices k = speak (boot_response b) t (report (k_phys k)) (speak (boot_response b) t memory_log
       (pic_init (speak (boot_response b) t boot_log s))) /\
     (forall i, 0 <= i < 256 -> k_idt k !! i = Some (idt_entry_of (interrupt_table i) 142 0)) /\
     halted (k_cpu k) = true /\ interrupt_flag (k_cpu k) = true /\ cs (k_cpu k) = KERNEL_CODE_SELECTOR * 8 /\
     gdtr (k_cpu k) = gdt_descriptor gdt_at /\ idtr (k_cpu k) = TableReg idt_limit idt_at /\
     memory_ready (k_phys k) (k_pagemap k) (cr3 (k_cpu k))) \/
  (start c s = Panic /\ memory_enough = false).
Proof.
  intros Hfuel [Hwf Hlog Hlit] Hho. destruct (ho_terminal _ _ Hho) as [ts Hr].
  unfold Kernel.start. rewrite Hr. cbn [terminal_init terminals]. bind_simpl. cbv zeta.
  pose proof (say_text (Some (Response (t :: ts))) t fuel lit m Hwf Hfuel Hlog Hlit) as Hsay.
  pose proof (say_count (Some (Response (t :: ts))) t fuel lit m Hwf Hfuel Hlog Hlit) as Hcount.
  rewrite (Hsay "Initializing GDT"%string) by reflexivity. bind_simpl.
  rewrite (Hsay "Initializing IDT"%string) by reflexivity. bind_simpl.
  destruct (idt_fill_spec interrupt_table) as (idt & -> & Hidt). bind_simpl.
  rewrite (Hsay "Initializing PIC"%string) by reflexivity. bind_simpl.
  rewrite (Hsay "Initializing Physical Memory Manager"%string) by reflexivity. bind_simpl.
  pose proof (memory_init t top Hho) as Hmem.
  destruct (physical_init hh allocator es (phys_zero ram0)) as [[es' st]| | | |];
    try (destruct Hmem as [(? & Em & _)|[Em Hen]]; first [discriminate Em|by right]). cbn [mbind outcome_bind] in Hmem. bind_simpl.
  rewrite (Hsay "Initializing Virtual Memory Manager"%string) by reflexivity. bind_simpl.
  destruct Hmem as [([[pm v] st'] & -> & Hready)|[-> Hen]]; [|by right]. bind_simpl. left.
  rewrite (say_newline (Some (Response (t :: ts))) t fuel lit m Hwf Hfuel Hlog). bind_simpl.
  rewrite (Hcount "Total Memory: %i" "Total Memory: ")%string by reflexivity. bind_simpl.
  rewrite (Hcount "Usable Memory: %i" "Usable Memory: ")%string by reflexivity. bind_simpl.
  rewrite (Hcount "Used Memory: %i" "Used Memory: ")%string by reflexivity. bind_simpl.
  rewrite (Hcount "Free Memory: %i" "Free Memory: ")%string by reflexivity. bind_simpl.
  eexists. split; [done|]. cbn [k_devices k_idt k_cpu k_phys k_pagemap]. split_and!; try done.
  unfold report, memory_log, boot_log. by rewrite !speak_app.
Qed.
End Claim.

(** ** A witness *)

(** Ports that are ignored, a terminal that collects the text, and a processor with
    1 GiB pages. *)
#[local] Instance console : Hardware (list Z) := {
  out8 := fun _ _ s => s;
  in8 := fun _ s => (255, s);
  term_write := fun _ l _ s => s ++ l;
  call_handler := fun _ _ _ s => Ok s;
}.
#[local] Instance pc_cpuid : Cpuid := fun leaf _ => if leaf =? 2147483649 then (0, 0, 0, 2 ^ 26) else (2147483656, 0, 0, 0).

(** The literals, one every 64 bytes. *)
Definition pc_literals : list (list Z) := [str "%s: "; level_str INFO; [10]] ++ List.map str boot_formats.
Fixpoint literal_at (ls : list (list Z)) (a : Z) (l : list Z) : Z :=
  match ls with [] => 0 | l' :: ls' => if decide (l = l') then a else literal_at ls' (a + 64) l end.
Fixpoint write_literals (ls : list (list Z)) (a : Z) (m : mem) : mem :=
  match ls with [] => m | l :: ls' => write_literals ls' (a + 64) (write_bytes m a (l ++ [0])) end.
Definition pc_image : mem := write_literals pc_literals 4096 ∅.
Definition pc_lit : list Z -> Z := literal_at pc_literals 4096.

Definition pc_boot : boot_info :=
  Boot pc_hhdm (Some (Response [Term 4096 80])) boot_map 5000 1048576 pc_virtual_base.
Definition pc_cpu : cpu_t := CpuState false (TableReg 0 0) (TableReg 0 0) 40 [48; 48; 48; 48; 48] 0 false.

Lemma pc_image_ok : image_ok pc_lit pc_image.
Proof.
  constructor; [mem_check|split; [mem_check|split; [mem_check|reflexivity]|mem_check]|].
  intros t Ht. unfold boot_formats in Ht. each_elem Ht; mem_check.
Qed.

Lemma pc_handover : handover_ok sample_alloc (boot_ram pc_hhdm) pc_boot (Term 4096 80) (2 ^ 36).
Proof.
  constructor.
  - by exists [].
  - apply boot_map_ok, pc_hhdm_range.
  - split; vm_compute; discriminate.
  - exists (MemmapEntry 4096 4194304 LIMINE_MEMMAP_USABLE). split; [right; left|split; [done|vm_compute; discriminate]].
  - split; [done|]. split; [apply boot_ram_valid, pc_hhdm_range|left; vm_compute; discriminate].
  - constructor; try done. intros b l fb Hin. cbn in Hin. rewrite !elem_of_cons, elem_of_nil in Hin.
    destruct Hin as [[= -> -> ->]|[[= -> -> ->]|[]]]; by split_and!.
Qed.

Lemma boot_correct_witness :
  let start := start 100 pc_lit pc_image sample_alloc 8192 16384 0 (fun i => 65536 + 16 * i) (boot_ram pc_hhdm) pc_boot pc_cpu [] in
  exists k, start = Ok k /\ k_idt k !! 14 = Some (idt_entry_of 65760 142 0) /\
    mmu pc_hhdm (ram (k_phys k)) (cr3 (k_cpu k)) (pc_hhdm + 65536) = Some (Access 65536 true false false).
Proof.
  intros start.
  destruct (boot_correct 100 pc_lit pc_image sample_alloc 8192 16384 0 (fun i => 65536 + 16 * i) (boot_ram pc_hhdm) pc_boot eq_refl
    (Term 4096 80) (2 ^ 36) pc_cpu [] ltac:(repeat constructor) pc_image_ok pc_handover)
    as [(k & E & _ & Hi & _ & _ & _ & _ & _ & _ & _ & Hm)|[_ Hen]]; [|vm_compute in Hen; discriminate Hen].
  exists k. split; [exact E|]. split; [apply (Hi 14); lia|]. apply (Hm (pc_hhdm + 65536)). split; [discriminate|reflexivity].
Defined.
